(* ===== verification/_CoqProject ===== *)
-Q . S2P
Prelude.v
GoLang.v
GoParse.v
GoUrl.v
GoTime.v
GoFlag.v
Json.v
JsonTime.v
JsonStruct.v
Fleet.v
FleetJson.v
Registry.v
RegistryProps.v
Demo.v
RegistryThms.v
Auth.v
Config.v
Server.v
Serving.v
OpAMP.v
Filter.v
Paginate.v
Api.v
Store.v
Jobs.v
Flush.v
Stores.v
Durable.v
Replicas.v
Snapshot.v
YamlDisplay.v
UiLinks.v
UiText.v
UI.v
ApiJson.v
Metrics.v
Workers.v
Purge.v
Registration.v
Mux.v
Routes.v
Answers.v
Synth.v
SynthMain.v
SynthAgents.v
Commands.v
TestSupport.v
Html.v
Pages.v
PagesRead.v
PagesThms.v
Process.v
