(* ===== verification/Prelude.v ===== *)
(** * grex, verified

    grex is an OpAMP server: OpenTelemetry agents connect to it over WebSocket
    or plain HTTP, directly or through a gateway; it keeps what they report in
    a sharded in-memory registry, stores a copy in Postgres for its sibling
    replicas, and serves the fleet over a JSON API, HTML pages and Prometheus
    metrics behind mTLS roles.  This library models it as executable
    definitions and proves what each part promises.

    ** Parts, files and sources

    Foundations:
    - [Prelude]: this file; scope, hint databases, record update, a writer
      monad (the notifications of an operation are its output), counting.
    - [GoLang], [GoParse], [GoUrl], [GoTime], [GoFlag]: what the code uses of
      Go and its standard library: int64 and uint64 arithmetic, time, strings,
      strconv, slices, the iteration order of maps ([MapRange], any order; a
      theorem about two computations gives each an order of its own) and what
      an unstable sort may do ([GoSort]); net.SplitHostPort,
      time.ParseDuration with its float64 fractions; net/url's query escaping
      and parsing; printing of times and durations; the flag package.
    - [Json], [JsonTime], [JsonStruct]: encoding/json, printing and reading, its
      RFC 3339 instants, and structs over it.  [Mux]: http.ServeMux.
    - [Html]: html/template, its escapers and the contextual analysis that
      places them, with the tokenizer of the browser that reads the result.

    The fleet:
    - [Fleet]: internal/fleet/registry.go (the records) and view.go.
      [FleetJson] has their JSON (json.go and the struct tags).
    - [Registry]: internal/fleet/registry.go, [Report], [SetConnected],
      [Sweep], [Get], [List], [Aggregate].  [RegistryProps] has the invariant
      [wf], the specification [spec_act] on one map and the lemmas;
      [RegistryThms] the properties.
    - [Demo]: admissible instances of the parameters and small messages, on
      which the witnesses evaluate the model.
    - [OpAMP]: internal/opamp/handler.go; a system of connections whose
      callbacks interleave over one registry.

    Access and configuration:
    - [Auth]: internal/spiffe/spiffe.go and internal/server/mtls.go.
    - [Config]: internal/config/config.go.
    - [Server]: internal/server/server.go; the routing of the three listeners
      and the life of the server.  [Serving]: the goroutines it leaves running.

    The API and the pages:
    - [Filter], [Paginate], [Api]: internal/api; queries, the merge with the
      database, the bounded-heap page, the handlers.  [ApiJson] has the bodies
      they read and write, and the gateway's payloads.
    - [UI]: internal/ui/ui.go; the pages and what they show.  [UiLinks] has
      column sorting, page numbers and links, [UiText] the other template
      functions, [YamlDisplay] the display of the effective configuration.
      [Pages]: internal/ui/templates, the eight files as they are written;
      [PagesRead] what a browser finds in them, [PagesThms] the properties.
    - [Metrics]: internal/metrics/metrics.go; the counters the notifications
      move, and the collector over the registry.  [Registration]: which metrics
      the start registers, http.go and persistence/pool_collector.go.
    - [Routes]: the mounts of the API, the pages and River's on one mux.
    - [Answers]: every answer of the API from the wire to its client.

    Durability:
    - [Store]: internal/persistence/postgres.go, purge.go and the upsert of
      agent_connections.go; the tables and each statement as its effect on
      them.  [Jobs]: the rest of agent_connections.go, jobs.go and
      permissions.go, and the schema all statements keep.
    - [Flush]: internal/persistence/flush.go and write.go; the dirty set, the
      stages of a flush and [runConcurrent].  [Stores]: persistence.go, the
      interfaces the flusher writes through.  [Durable] proves that the
      flusher keeps the tables current; [Replicas] what a sibling replica then
      serves.
    - [Snapshot]: internal/persistence/session_snapshot.go.  [Workers]: the
      loops of flusher and snapshotter to their last pass.  [Purge]: the job
      that removes evicted rows.

    Processes:
    - [Process]: cmd/grex/main.go; [run] as the steps it performs.
    - [Synth]: internal/synth; the load generator's validation, agents and
      report.  [SynthMain]: cmd/grex-synth.  [SynthAgents]: what its clients
      send, and what the registry makes of them.
    - [Commands]: cmd/seed-agent and cmd/river-migrate.
    - [TestSupport]: internal/testcert and internal/persistence/testdb.

    ** How the parts fit

    A registry operation returns the registry and its notifications; the
    notifications are folded by a [Listener] (the interface fleet.Events), of
    which [dirty_events] of [Flush] and [metrics_events] of [Metrics] are two.
    [OpAMP] calls the registry's operations; [Flush] interleaves them, one
    shard's critical section at a time, with the steps of a flush, whose
    writes are the statements of [Store]; [Workers] decides when a flush
    starts and which of its writes can land; [Snapshot] runs against [List] of
    the registry and [Store]; [Purge] interleaves with the writes of any
    replica.  [Api] and [UI] merge [List] with [ListAgents] as an argument,
    which [Replicas] and [Answers] instantiate with [Store]'s; [Routes] mounts
    both with the instrumentation of [Registration].  The stores are type
    classes ([Stores]) with [Store] as their instance.  [Process] runs
    [Config]'s [Load] and [Server]'s [Start] and [Shutdown].

    ** What the theorems show

    - Registry: any interleaving acts as one map ([registry_refines_map]); the
      effect of a report and of a sweep on every agent, field by field, with
      each notification of a sweep made exactly once;
      notifications balance the number of connected agents; the aggregate
      counts the listed agents; the shard count is invisible.
    - Connections: a run of the handler makes the reports, disconnects and
      sweeps that its inputs call for, and no others, and the registry and its
      notifications are those of these operations
      ([system_refines_registry]); the gateway gauge is exact; draining is final; the effect of each callback; a gateway
      finds its request in the answer.
    - Durability: reads are total after any writes; a save reads back, or is
      ignored when stale; saves commute up to first_seen; the flusher keeps in
      sync every agent that is neither dirty nor in flight, except those whose
      last write failed ([lost_run]), provided the reports of an agent carry
      increasing instants at the precision of the columns ([ticking]); each
      flush ends and catches up, and so does the last one of an orderly
      shutdown, while one interrupted by the cancellation loses what it had
      drained and was not in flight; batching is invisible; stored sessions
      stay fresh enough for siblings; a sibling serves what the first replica
      knows ([sibling_serves]); nothing is purged before its retention is over,
      and what is due goes unless River gives the job up; the tables keep their
      keys and types under every statement.
    - Access and configuration: the role resolved and the requests served; the
      routes behind the gate on the listeners of the pages and telemetry, and
      the one path the OpAMP listener, which has no gate, hands on; what
      configurations load and with which values; a server that starts is bound
      and ready, one that does not holds nothing; no listener goroutine can be
      stuck.
    - API and pages: what a query means, the page served, list and detail
      agree; the fleet page and the API answer alike, up to which of several
      bad parameters a refusal names; following the page links
      shows every agent once; a column's link sorts by it; the table's order
      is total; the displayed configuration keeps its content; every request is
      routed as the table of patterns says.
    - Pages as HTML: no value changes the markup of a page, adds a script or a
      link off the site ([pages_stay_safe]); the table and the pager of the
      fleet page, read and followed, show every selected agent once
      ([fleet_pages_read]).
    - JSON: a client reads back the agents, lists and statuses that were
      encoded, and no answer of the API is an empty body, whatever the agents
      reported ([answers_readable]); a request body is read by its names.
    - Metrics: a scrape exports the fleet exactly and repeats no series; the
      counters agree with the gauges; a start registers everything, and no
      notification can make the client panic or unbound its series.
    - Processes: a run winds down in order and releases what it took, unless
      the purge client or River's UI fails to start, in which case exactly what
      it leaves behind; a signal drains before the last flush; the synthetic
      report adds up, no synthetic agent leaves a client running, and a
      synthetic fleet is a fleet to the registry and to job targeting; seeding
      stops at the first save that fails, and the agents it wrote are answered.
    - Test support: minted certificates pass the server's TLS and gate as their
      URI says; a test's database is ready, migrated in order, and removed.
    - Some theorems record behaviour that differs from the code's intent: an
      evicted row stays evicted, a stale close disconnects, a single allowed
      heartbeat evicts a connected agent, a rolled-back batch is recorded, a
      flush interrupted by the end of its context loses what it drained and had
      not begun to write, a purge client that does not start leaves workers on
      a closed pool, a
      failed reconnection is missing from the synthetic report, a seeded agent
      has no health on the pages.

    ** Bounds and fuel

    Recursion that is not structural takes a bound it cannot exhaust: [chunk]
    the length of its list, container/heap's sifting the height from the
    index, [ParseDuration] and the JSON scanner the length of their text,
    printing an integer its nineteen digits, [gcd] twice the binary logarithm
    of its divisor (two iterations halve it), the wait for a test's database a
    hundred polls of at least 300ms in thirty seconds.  int64, uint64 and
    uint32 wrap where the code's do.  Times are nanoseconds since the epoch as
    unbounded integers; [time_Sub] saturates as time.Time.Sub does.

    ** Parameters

    What is not under src/ is an argument: canonical UUID text ([UUID]), the
    protobuf renderings, RE2 and the text of its errors ([Regexp]), the Unicode
    tables of letter case and of printable characters ([Unicode]), YAML decoding,
    the file system and environment ([World]), sockets, bound addresses and key
    pairs ([Net], [Bound], [CertFiles]), URL schemes ([URLParse]), the
    execution of an HTML template where only its success matters ([Templates],
    which [Pages] instantiates), the file server and River's pages, the order a
    map of routes is ranged in ([RouteRange]), the Prometheus client
    ([Prometheus], [PromHTTP]), when River fires and works a job or gives it up
    (a list of inputs), its migrator ([Migrator]), whether a write of the
    flusher or a save of seed-agent lands, the zone of the process ([Location]), what the libraries answer a starting process ([Outcome]), a
    synthetic client ([Attempt], [OpAMPClient]), the precision of a timestamp
    column ([PgTime], [PgPrecise]) and the text of a uuid column ([PgUUID]);
    for the test support crypto, docker and the driver.  A Postgres statement
    is atomic, text and JSON columns keep what they are given (text Postgres
    rejects, such as a NUL byte, is outside the model), and a batch is one
    transaction, as pgx sends it.

    ** Not modelled

    The static files under internal/ui, which run in the browser.  Of
    html/template and of the HTML syntax, what the templates do not use:
    unquoted attributes, comments, values in scripts or styles.  Of a page
    read back, the text of scripts as such.  The internals of
    opamp-go, River, pgx and the Prometheus client.  Logs, and the loggers
    handed to libraries.  The normal form Postgres gives a jsonb text.  Timers
    other than as the instants at which steps happen, so neither the ramp of
    the load generator nor the timeouts of net/http.  Types that only restate a
    set of methods (the Metrics interfaces and their no-op values) have no
    definition of their own. *)

From stdpp Require Export base tactics list gmap strings sorting.
From stdpp Require Import options.
From Stdlib Require Import Lia.

(** ** Scope and hint databases of the development *)

Declare Scope grex_scope.
Delimit Scope grex_scope with grex.

Create HintDb grex.
Create Rewrite HintDb grex_rw.

(** ** Field update of records, [r <| field := v |>]

    The Go code assigns struct fields one at a time; [upd] is that assignment
    on a value.  A record opts in with an [Eta] instance, its constructor
    applied to its own fields; the setter of each field is then derived. *)

Class Eta (R : Type) := eta : R → R.

Class Setter {R E : Type} (proj : R → E) := set_field : (E → E) → R → R.

Ltac derive_setter :=
  lazymatch goal with
  | |- @Setter ?R ?E ?p =>
      let inst := constr:(_ : Eta R) in
      let body := eval hnf in inst in
      match eval pattern p in body with
      | ?k _ => let t := eval cbv beta in (λ f : E → E, k (λ r : R, f (p r))) in
                exact t
      end
  end.

#[export] Hint Extern 1 (Setter _) => derive_setter : typeclass_instances.

Notation "r <| p := v |>" := (@set_field _ _ p _ (λ _, v) r)
  (at level 1, left associativity, p at level 11, v at level 200,
   format "r  <|  p  :=  v  |>") : grex_scope.
Open Scope grex_scope.

(** ** The writer monad: a computation that emits notifications

    [fleet.Registry] reports what happens through its [Events] interface; an
    operation of the model returns the notifications it makes, in order. *)

Definition writer (E A : Type) : Type := A * list E.

#[export] Instance writer_ret E : MRet (writer E) := λ A x, (x, []).

#[export] Instance writer_bind E : MBind (writer E) := λ A B k m,
  let '(x, es) := m in let '(y, es') := k x in (y, es ++ es').

Definition emit {E} (e : E) : writer E unit := ((), [e]).

(** ** Generic lemmas *)

Section writer_laws.
Context {E A B : Type}.

Lemma fst_bind (m : writer E A) (k : A → writer E B) :
  (m ≫= k).1 = (k m.1).1.
Proof. destruct m as [x es]. unfold mbind, writer_bind. simpl. by destruct (k x). Qed.

Lemma snd_bind (m : writer E A) (k : A → writer E B) :
  (m ≫= k).2 = m.2 ++ (k m.1).2.
Proof. destruct m as [x es]. unfold mbind, writer_bind. simpl. by destruct (k x). Qed.

End writer_laws.

#[export] Hint Rewrite @fst_bind @snd_bind : grex_rw.

Lemma bind_filter {A B} (P : A → Prop) `{∀ x, Decision (P x)} (f : A → list B) l :
  filter P l ≫= f = l ≫= λ x, if decide (P x) then f x else [].
Proof.
  induction l as [|x l IH]; csimpl; [done|].
  rewrite filter_cons. case_decide; csimpl; by rewrite IH.
Qed.

Lemma bind_ext {A B} (f g : A → list B) l :
  (∀ x, x ∈ l → f x = g x) → l ≫= f = l ≫= g.
Proof.
  induction l as [|x l IH]; intros Hfg; csimpl; [done|].
  rewrite Hfg by (by constructor). rewrite IH; [done|].
  intros y Hy. apply Hfg. by constructor.
Qed.

(** Length of a list as a [Z], and counting. *)
Abbreviation zlen l := (Z.of_nat (length l)) (only parsing).

Definition count {A} (P : A → bool) (l : list A) : nat := length (filter (λ x, P x = true) l).

Lemma count_nil {A} (P : A → bool) : count P [] = 0.
Proof. done. Qed.

Lemma count_cons {A} (P : A → bool) x l :
  count P (x :: l) = (if P x then 1 else 0) + count P l.
Proof. unfold count. rewrite filter_cons. by destruct (P x). Qed.

Lemma count_app {A} (P : A → bool) l l' : count P (l ++ l') = count P l + count P l'.
Proof. unfold count. by rewrite filter_app, length_app. Qed.

#[export] Instance count_Permutation {A} (P : A → bool) : Proper ((≡ₚ) ==> (=)) (count P).
Proof. intros l l' Hl. unfold count. by rewrite Hl. Qed.

#[export] Hint Rewrite @count_nil @count_cons @count_app : grex_rw.

(** Arithmetic on counts of explicit lists. *)
Ltac count_lia :=
  rewrite ?count_app, ?count_cons, ?count_nil; simpl; rewrite ?count_nil; lia.

Lemma fmap_list_bind {A B C} (g : B → C) (f : A → list B) l :
  g <$> (l ≫= f) = l ≫= λ x, g <$> f x.
Proof. induction l as [|x l IH]; csimpl; [done|]. by rewrite fmap_app, IH. Qed.

Lemma count_negb {A} (P : A → bool) l : (count P l + count (λ a, negb (P a)) l = length l)%nat.
Proof.
  induction l as [|a l IH]; [done|]. rewrite !count_cons. simpl. destruct (P a); simpl; lia.
Qed.

Lemma count_split {A} (P Q : A → bool) l :
  (count (λ a, P a && Q a) l + count (λ a, P a && negb (Q a)) l = count P l)%nat.
Proof.
  induction l as [|a l IH]; [done|]. rewrite !count_cons.
  destruct (P a), (Q a); simpl; lia.
Qed.

(** Sorted for a finer relation is sorted for a coarser one. *)
Lemma list_filter_all {A} (P : A → Prop) `{∀ x, Decision (P x)} (l : list A) :
  (∀ a, a ∈ l → P a) → filter P l = l.
Proof.
  induction l as [|a l IH]; intros Hl; [done|]. rewrite filter_cons, decide_True by (apply Hl; left).
  f_equal. apply IH. intros b Hb. apply Hl. by right.
Qed.

Lemma list_filter_none {A} (P : A → Prop) `{∀ x, Decision (P x)} (l : list A) :
  (∀ x, x ∈ l → ¬ P x) → filter P l = [].
Proof.
  intros Hl. apply elem_of_nil_inv. intros x [Hx Hin]%list_elem_of_filter. by apply (Hl x).
Qed.

Lemma StronglySorted_weaken {A} (R R' : A → A → Prop) l :
  (∀ a b, R a b → R' a b) → StronglySorted R l → StronglySorted R' l.
Proof.
  intros HR. induction 1 as [|a l _ IH Ha]; constructor; [done|].
  eapply Forall_impl; [exact Ha|]. auto.
Qed.

(** A key with distinct values identifies its element. *)
Lemma NoDup_fmap_inj {A B} (f : A → B) (l : list A) (x y : A) :
  NoDup (f <$> l) → x ∈ l → y ∈ l → f x = f y → x = y.
Proof.
  induction l as [|z l IH]; [by intros _ ?%not_elem_of_nil|].
  csimpl. rewrite NoDup_cons, !elem_of_cons. intros [Hz Hl] [->|Hx] [->|Hy] Hf; [done|..|by apply IH].
  - destruct Hz. rewrite Hf. by apply list_elem_of_fmap_2.
  - destruct Hz. rewrite <-Hf. by apply list_elem_of_fmap_2.
Qed.

(** Counting the entries of a finite map by their value. *)
Section mcount.
Context `{Countable K} {A : Type} (P : A → bool).

Definition mcount (m : gmap K A) : nat := count (λ p, P p.2) (map_to_list m).

Lemma mcount_empty : mcount ∅ = 0.
Proof. unfold mcount. by rewrite map_to_list_empty. Qed.

Lemma mcount_insert_new m k x :
  m !! k = None → mcount (<[k := x]> m) = (if P x then 1 else 0) + mcount m.
Proof. intros Hk. unfold mcount. by rewrite (map_to_list_insert m k x Hk), count_cons. Qed.

Lemma mcount_insert m k x :
  mcount (<[k := x]> m) + (if default false (P <$> m !! k) then 1 else 0) =
  mcount m + (if P x then 1 else 0).
Proof.
  destruct (m !! k) as [y|] eqn:Hk; simpl.
  - rewrite <-(insert_delete_id m k y Hk) at 2. rewrite <-insert_delete_eq.
    rewrite !mcount_insert_new by apply lookup_delete_eq. lia.
  - rewrite mcount_insert_new by done. lia.
Qed.

Lemma mcount_delete m k x :
  m !! k = Some x → mcount (delete k m) + (if P x then 1 else 0) = mcount m.
Proof.
  intros Hk. rewrite <-(insert_delete_id m k x Hk) at 2.
  rewrite mcount_insert_new by apply lookup_delete_eq. lia.
Qed.

End mcount.
