(* ===== verification/GoLang.v ===== *)
(** * The Go language and standard library the program relies on

    Machine integers at their width, instants and durations, byte strings and
    the functions of packages strings, strconv, slices and maps the modelled
    code calls.  Go leaves two things open that the model keeps open as type
    classes: the order in which [range] walks a map ([MapRange]) and what
    [slices.SortFunc], which is not stable, does with equal elements
    ([GoSort]).  [Unicode] stands for the Unicode tables of letter case and of
    printable characters, consulted only outside ASCII. *)

From Stdlib Require Import Ascii ZArith Lia.
From S2P Require Import Prelude.
Local Open Scope Z_scope.

(** ** Integers *)

(** Conversion to [int64] (also [int] on the platforms grex builds for). *)
Definition int64 (z : Z) : Z := (z + 2 ^ 63) mod 2 ^ 64 - 2 ^ 63.
Definition uint64 (z : Z) : Z := z mod 2 ^ 64.
Definition uint32 (z : Z) : Z := z mod 2 ^ 32.

Definition int64_min : Z := - 2 ^ 63.
Definition int64_max : Z := 2 ^ 63 - 1.

Definition is_int64 (z : Z) : Prop := int64_min ≤ z ≤ int64_max.
Definition is_uint64 (z : Z) : Prop := 0 ≤ z < 2 ^ 64.

(** ** Package time *)

(** [time.Time] is the wall-clock instant in nanoseconds since the Unix
    epoch; [time.Duration] is an int64 count of nanoseconds. *)
Definition Time : Type := Z.
Definition Duration : Type := Z.

(** The zero [time.Time]: 1 January of year 1, 00:00:00 UTC. *)
Definition time_zero : Time := -62135596800 * 10 ^ 9.
Definition IsZero (t : Time) : bool := bool_decide (t = time_zero).

(** [Time.Sub] saturates at the extreme durations. *)
Definition time_Sub (t u : Time) : Duration :=
  Z.max int64_min (Z.min int64_max (t - u)).

(** [time.Unix(0, ns)]. *)
Definition time_UnixNano (ns : Z) : Time := ns.

Definition Second : Duration := 10 ^ 9.
Definition Hour : Duration := 3600 * Second.

(** ** Package strings: a Go string is a sequence of bytes *)

(** The ASCII bytes [unicode.IsSpace] accepts: tab, LF, VT, FF, CR, space. *)
Definition is_ascii_space (c : ascii) : bool :=
  let n := N_of_ascii c in
  bool_decide (n = 32)%N || ((9 <=? n)%N && (n <=? 13)%N).

(** The two-byte encodings of a Unicode space: U+0085 and U+00A0. *)
Definition is_space2 (c0 c1 : ascii) : bool :=
  let n0 := N_of_ascii c0 in let n1 := N_of_ascii c1 in
  bool_decide (n0 = 194)%N &&
  (bool_decide (n1 = 133)%N || bool_decide (n1 = 160)%N).

(** The three-byte ones: U+1680, U+2000 to U+200A, U+2028, U+2029, U+202F,
    U+205F and U+3000. *)
Definition is_space3 (c0 c1 c2 : ascii) : bool :=
  let n0 := N_of_ascii c0 in let n1 := N_of_ascii c1 in
  let n2 := N_of_ascii c2 in
  (bool_decide (n0 = 225)%N && bool_decide (n1 = 154)%N &&
   bool_decide (n2 = 128)%N) ||
  (bool_decide (n0 = 226)%N && bool_decide (n1 = 128)%N &&
   (((128 <=? n2)%N && (n2 <=? 138)%N) || bool_decide (n2 = 168)%N ||
    bool_decide (n2 = 169)%N || bool_decide (n2 = 175)%N)) ||
  (bool_decide (n0 = 226)%N && bool_decide (n1 = 129)%N &&
   bool_decide (n2 = 159)%N) ||
  (bool_decide (n0 = 227)%N && bool_decide (n1 = 128)%N &&
   bool_decide (n2 = 128)%N).

Fixpoint trim_left (s : string) : string :=
  match s with
  | EmptyString => s
  | String c0 s1 =>
      if is_ascii_space c0 then trim_left s1 else
      match s1 with
      | EmptyString => s
      | String c1 s2 =>
          if is_space2 c0 c1 then trim_left s2 else
          match s2 with
          | EmptyString => s
          | String c2 s3 => if is_space3 c0 c1 c2 then trim_left s3 else s
          end
      end
  end.

(** The same walk over a reversed string. *)
Fixpoint trim_left_rev (s : string) : string :=
  match s with
  | EmptyString => s
  | String c0 s1 =>
      if is_ascii_space c0 then trim_left_rev s1 else
      match s1 with
      | EmptyString => s
      | String c1 s2 =>
          if is_space2 c1 c0 then trim_left_rev s2 else
          match s2 with
          | EmptyString => s
          | String c2 s3 => if is_space3 c2 c1 c0 then trim_left_rev s3 else s
          end
      end
  end.

Fixpoint string_rev_app (s acc : string) : string :=
  match s with
  | EmptyString => acc
  | String c s' => string_rev_app s' (String c acc)
  end.
Definition string_rev (s : string) : string := string_rev_app s EmptyString.

Definition trim_right (s : string) : string :=
  string_rev (trim_left_rev (string_rev s)).

Definition TrimSpace (s : string) : string := trim_right (trim_left s).

Definition HasPrefix (s p : string) : bool := String.prefix p s.
Definition HasSuffix (s p : string) : bool :=
  String.prefix (string_rev p) (string_rev s).

Fixpoint Contains (s sub : string) : bool :=
  String.prefix sub s ||
  match s with
  | EmptyString => false
  | String _ s' => Contains s' sub
  end.

(** [strings.Compare] and the operators [<] and [>] on strings: bytewise. *)
Definition string_Compare (a b : string) : Z :=
  match String.compare a b with Lt => -1 | Eq => 0 | Gt => 1 end.

Definition ascii_lower (c : ascii) : ascii :=
  let n := N_of_ascii c in
  if (65 <=? n)%N && (n <=? 90)%N then ascii_of_N (n + 32) else c.

Fixpoint string_map (f : ascii → ascii) (s : string) : string :=
  match s with
  | EmptyString => EmptyString
  | String c s' => String (f c) (string_map f s')
  end.

Fixpoint string_forallb (f : ascii → bool) (s : string) : bool :=
  match s with
  | EmptyString => true
  | String c s' => f c && string_forallb f s'
  end.

Definition is_ascii (c : ascii) : bool := (N_of_ascii c <? 128)%N.

(** ** Package unicode/utf8 *)

Definition byte_in (lo hi : N) (c : ascii) : bool :=
  (lo <=? N_of_ascii c)%N && (N_of_ascii c <=? hi)%N.

Definition is_rune2 (c0 c1 : ascii) : bool := byte_in 194 223 c0 && byte_in 128 191 c1.

(** The second byte is restricted after E0 and ED. *)
Definition is_rune3 (c0 c1 c2 : ascii) : bool :=
  ((byte_in 224 224 c0 && byte_in 160 191 c1) ||
   (byte_in 225 236 c0 && byte_in 128 191 c1) ||
   (byte_in 237 237 c0 && byte_in 128 159 c1) ||
   (byte_in 238 239 c0 && byte_in 128 191 c1)) && byte_in 128 191 c2.

(** And after F0 and F4. *)
Definition is_rune4 (c0 c1 c2 c3 : ascii) : bool :=
  ((byte_in 240 240 c0 && byte_in 144 191 c1) ||
   (byte_in 241 243 c0 && byte_in 128 191 c1) ||
   (byte_in 244 244 c0 && byte_in 128 143 c1)) &&
  byte_in 128 191 c2 && byte_in 128 191 c3.

(** [utf8.ValidString]. *)
Fixpoint ValidString (s : string) : bool :=
  match s with
  | EmptyString => true
  | String c0 s1 =>
      if is_ascii c0 then ValidString s1 else
      match s1 with
      | EmptyString => false
      | String c1 s2 =>
          if is_rune2 c0 c1 then ValidString s2 else
          match s2 with
          | EmptyString => false
          | String c2 s3 =>
              if is_rune3 c0 c1 c2 then ValidString s3 else
              match s3 with
              | EmptyString => false
              | String c3 s4 => is_rune4 c0 c1 c2 c3 && ValidString s4
              end
          end
      end
  end.

(** The Unicode tables: the case mapping, used on strings that are not pure
    ASCII, and [strconv.IsPrint], used on code points outside it. *)
Class Unicode := { map_lower : string → string; IsPrint : N → bool }.

(** [strings.ToLower]: bytewise on ASCII, the Unicode tables otherwise. *)
Definition ToLower `{Unicode} (s : string) : string :=
  if string_forallb is_ascii s then string_map ascii_lower s else map_lower s.

(** [strings.EqualFold(s, t)] for an ASCII [t] in lower case: besides the
    ASCII letters, U+017F folds to s and U+212A to k. *)
Fixpoint fold_case (s : string) : string :=
  match s with
  | EmptyString => EmptyString
  | String c0 s1 =>
      match s1 with
      | String c1 s2 =>
          if bool_decide (N_of_ascii c0 = 197%N) && bool_decide (N_of_ascii c1 = 191%N)
          then String "s" (fold_case s2) else
          match s2 with
          | String c2 s3 =>
              if bool_decide (N_of_ascii c0 = 226%N) &&
                 bool_decide (N_of_ascii c1 = 132%N) &&
                 bool_decide (N_of_ascii c2 = 170%N)
              then String "k" (fold_case s3)
              else String (ascii_lower c0) (fold_case s1)
          | EmptyString => String (ascii_lower c0) (fold_case s1)
          end
      | EmptyString => String (ascii_lower c0) EmptyString
      end
  end.
Definition EqualFold (s t : string) : bool := bool_decide (fold_case s = t).

(** ** Package strconv *)

Definition lowerhex (n : N) : ascii :=
  if (n <? 10)%N then ascii_of_N (48 + n) else ascii_of_N (87 + n).

(** The last [k] hexadecimal digits of [n], in front of [acc]. *)
Fixpoint lowerhex_digits (k : nat) (n : N) (acc : string) : string :=
  match k with
  | O => acc
  | S k => lowerhex_digits k (n / 16) (String (lowerhex (n mod 16)) acc)
  end.

(** A backslash, a letter and the digits of [n]. *)
Definition quote_escape (letter : ascii) (k : nat) (n : N) (acc : string) : string :=
  String (ascii_of_N 92) (String letter (lowerhex_digits k n acc)).

(** [appendEscapedRune] on an ASCII byte, and on a longer rune [u] spelled
    [text]. *)
Definition quote_ascii (c : ascii) (acc : string) : string :=
  match N_of_ascii c with
  | 34 | 92 => String (ascii_of_N 92) (String c acc)
  | 7 => quote_escape "a" 0 0 acc
  | 8 => quote_escape "b" 0 0 acc
  | 9 => quote_escape "t" 0 0 acc
  | 10 => quote_escape "n" 0 0 acc
  | 11 => quote_escape "v" 0 0 acc
  | 12 => quote_escape "f" 0 0 acc
  | 13 => quote_escape "r" 0 0 acc
  | n => if (32 <=? n) && (n <? 127) then String c acc else quote_escape "x" 2 n acc
  end%N.

Definition quote_rune `{Unicode} (u : N) (text : string → string) (acc : string) : string :=
  if IsPrint u then text acc
  else if (u <? 65536)%N then quote_escape "u" 4 u acc
  else quote_escape "U" 8 u acc.

(** The low six bits of a continuation byte. *)
Definition cont (c : ascii) : N := (N_of_ascii c mod 64)%N.

(** The loop of [strconv.Quote], which the verb %q calls: a byte that starts
    no rune is escaped on its own. *)
Fixpoint quote_body `{Unicode} (s : string) (acc : string) : string :=
  match s with
  | EmptyString => acc
  | String c0 s1 =>
      if is_ascii c0 then quote_ascii c0 (quote_body s1 acc) else
      let invalid := quote_escape "x" 2 (N_of_ascii c0) (quote_body s1 acc) in
      match s1 with
      | EmptyString => invalid
      | String c1 s2 =>
          if is_rune2 c0 c1
          then quote_rune (N_of_ascii c0 mod 32 * 64 + cont c1)
                 (λ acc, String c0 (String c1 acc)) (quote_body s2 acc) else
          match s2 with
          | EmptyString => invalid
          | String c2 s3 =>
              if is_rune3 c0 c1 c2
              then quote_rune (N_of_ascii c0 mod 16 * 4096 + cont c1 * 64 + cont c2)
                     (λ acc, String c0 (String c1 (String c2 acc))) (quote_body s3 acc) else
              match s3 with
              | EmptyString => invalid
              | String c3 s4 =>
                  if is_rune4 c0 c1 c2 c3
                  then quote_rune
                         (N_of_ascii c0 mod 8 * 262144 + cont c1 * 4096 + cont c2 * 64 + cont c3)
                         (λ acc, String c0 (String c1 (String c2 (String c3 acc))))
                         (quote_body s4 acc)
                  else invalid
              end
          end
      end
  end.

Definition Quote `{Unicode} (s : string) : string :=
  String (ascii_of_N 34) (quote_body s (String (ascii_of_N 34) EmptyString)).

Definition digit_value (c : ascii) : option Z :=
  let n := N_of_ascii c in
  if (48 <=? n)%N && (n <=? 57)%N then Some (Z.of_N n - 48) else None.

Fixpoint parse_digits (acc : Z) (s : string) : option Z :=
  match s with
  | EmptyString => Some acc
  | String c s' => d ← digit_value c; parse_digits (acc * 10 + d) s'
  end.

(** At least one digit. *)
Definition parse_nat (s : string) : option Z :=
  match s with EmptyString => None | _ => parse_digits 0 s end.

(** [strconv.Atoi]; [None] is a syntax or range error. *)
Definition Atoi (s : string) : option Z :=
  n ← match s with
      | String "-" s' => Z.opp <$> parse_nat s'
      | String "+" s' => parse_nat s'
      | _ => parse_nat s
      end;
  if bool_decide (is_int64 n) then Some n else None.

(** [strconv.ParseBool]. *)
Definition ParseBool (s : string) : option bool :=
  if bool_decide (s ∈ ["1"; "t"; "T"; "TRUE"; "true"; "True"]) then Some true
  else if bool_decide (s ∈ ["0"; "f"; "F"; "FALSE"; "false"; "False"])
  then Some false else None.

(** ** Maps: [range] visits every entry once, in an order Go leaves open

    An instance is the order of one execution of the code.  Every definition
    takes its instance as an argument, and a theorem about a call holds for
    each of them, so the order may be any; a theorem that sets two calls side
    by side gives each call an instance of its own. *)

Class MapRange := {
  range {A} : gmap string A → list (string * A);
  range_perm {A} (m : gmap string A) : range m ≡ₚ map_to_list m
}.

(** ** Package slices: [SortFunc] sorts, and is not stable *)

Definition cmp_le {A} (cmp : A → A → Z) (a b : A) : Prop := cmp a b ≤ 0.

(** [SortFunc] requires a strict weak ordering: [cmp_le] is then total and
    transitive. *)
Definition cmp_order {A} (cmp : A → A → Z) : Prop :=
  (∀ a b, cmp_le cmp a b ∨ cmp_le cmp b a) ∧
  (∀ a b c, cmp_le cmp a b → cmp_le cmp b c → cmp_le cmp a c).

Class GoSort := {
  SortFunc {A} : (A → A → Z) → list A → list A;
  SortFunc_perm {A} (cmp : A → A → Z) l : SortFunc cmp l ≡ₚ l;
  SortFunc_sorted {A} (cmp : A → A → Z) l :
    cmp_order cmp → StronglySorted (cmp_le cmp) (SortFunc cmp l)
}.

(** [slices.Sort] on strings. *)
Definition slices_Sort `{GoSort} (l : list string) : list string :=
  SortFunc string_Compare l.

(** [l[start:end]]; the callers keep [0 <= start <= end <= len(l)]. *)
Definition slice {A} (l : list A) (s e : Z) : list A :=
  take (Z.to_nat e - Z.to_nat s) (drop (Z.to_nat s) l).

(** ** Instances: one admissible choice of each *)

#[export] Instance cmp_le_dec {A} (cmp : A → A → Z) a b :
  Decision (cmp_le cmp a b) := Z.le_dec (cmp a b) 0.

Definition range_by_key : MapRange :=
  {| range A m := map_to_list m; range_perm A m := Permutation_refl _ |}.

Program Definition range_by_key_down : MapRange :=
  {| range A m := reverse (map_to_list m) |}.
Next Obligation. intros A m. apply reverse_Permutation. Qed.

(** ** Lemmas: integers *)

Lemma int64_range z : is_int64 (int64 z).
Proof.
  unfold is_int64, int64, int64_min, int64_max.
  pose proof (Z.mod_pos_bound (z + 2 ^ 63) (2 ^ 64) ltac:(lia)). lia.
Qed.

Lemma int64_id z : is_int64 z → int64 z = z.
Proof.
  unfold is_int64, int64, int64_min, int64_max. intros ?.
  rewrite Z.mod_small; lia.
Qed.

(** [uint64(int64(x)) = x]: the database stores a uint64 bit for bit. *)
Lemma uint64_int64 z : is_uint64 z → uint64 (int64 z) = z.
Proof.
  unfold is_uint64, uint64, int64. intros ?.
  rewrite <-(Z.mod_small z (2 ^ 64)) at 2 by lia.
  rewrite Zminus_mod_idemp_l. f_equal. lia.
Qed.

Lemma time_Sub_exact t u : is_int64 (t - u) → time_Sub t u = t - u.
Proof. unfold is_int64, time_Sub. lia. Qed.

Lemma time_Sub_gt t u d :
  int64_min ≤ d < int64_max → d < time_Sub t u ↔ d < t - u.
Proof. unfold time_Sub, int64_min, int64_max. lia. Qed.

#[export] Hint Resolve int64_range : grex.

(** ** Lemmas: UTF-8 *)

Lemma ascii_ValidString s t :
  string_forallb is_ascii s = true → ValidString (String.app s t) = ValidString t.
Proof.
  induction s as [|c s IH]; [done|]. cbn [string_forallb].
  intros [Hc Hs]%andb_true_iff. rewrite <-(IH Hs). clear IH Hs.
  change (String.app (String c s) t) with (String c (String.app s t)).
  cbn [ValidString]. by rewrite Hc.
Qed.

Lemma string_forallb_app f s t :
  string_forallb f (String.app s t) = string_forallb f s && string_forallb f t.
Proof.
  induction s as [|c s IH]; [done|].
  change (String.app (String c s) t) with (String c (String.app s t)).
  cbn [string_forallb]. by rewrite IH, andb_assoc.
Qed.

Lemma string_app_nil s : String.app s "" = s.
Proof. induction s as [|c s IH]; [done|]. exact (f_equal (String c) IH). Qed.

Lemma string_app_assoc a b c : String.app (String.app a b) c = String.app a (String.app b c).
Proof. induction a as [|x a IH]; [done|]. exact (f_equal (String x) IH). Qed.

(** Pure ASCII is valid. *)
Lemma ValidString_ascii s : string_forallb is_ascii s = true → ValidString s = true.
Proof. intros Hs. rewrite <-(string_app_nil s). by rewrite ascii_ValidString. Qed.

(** ** Lemmas: the order on strings *)

Lemma string_Compare_0 a b : string_Compare a b = 0 ↔ a = b.
Proof.
  unfold string_Compare. split.
  - destruct (String.compare a b) eqn:E; [|done|done].
    by intros _; apply String.compare_eq_iff.
  - intros ->. pose proof (String.compare_antisym b b) as E.
    by destruct (String.compare b b).
Qed.

Lemma string_Compare_antisym a b : string_Compare b a = - string_Compare a b.
Proof.
  unfold string_Compare. rewrite (String.compare_antisym b a).
  by destruct (String.compare a b).
Qed.

Lemma string_compare_trans_le a b c :
  String.compare a b ≠ Gt → String.compare b c ≠ Gt → String.compare a c ≠ Gt.
Proof.
  revert b c. induction a as [|x a IH]; intros [|y b] [|z c]; simpl; try done.
  unfold Ascii.compare.
  destruct (N.compare_spec (N_of_ascii x) (N_of_ascii y)) as [Exy| |];
  destruct (N.compare_spec (N_of_ascii y) (N_of_ascii z)) as [Eyz| |];
  destruct (N.compare_spec (N_of_ascii x) (N_of_ascii z)); try done; try lia.
  apply IH.
Qed.

Lemma string_Compare_order : cmp_order string_Compare.
Proof.
  unfold cmp_order, cmp_le. split.
  - intros a b. rewrite (string_Compare_antisym a b). lia.
  - intros a b c. unfold string_Compare. intros Hab Hbc.
    assert (String.compare a c ≠ Gt) as Hac.
    { apply (string_compare_trans_le a b c); intros E; by rewrite E in *. }
    by destruct (String.compare a c).
Qed.

Lemma string_Compare_le_antisym a b :
  cmp_le string_Compare a b → cmp_le string_Compare b a → a = b.
Proof.
  unfold cmp_le. rewrite (string_Compare_antisym a b). intros.
  apply string_Compare_0. lia.
Qed.

#[export] Hint Resolve string_Compare_order string_Compare_le_antisym : grex.

(** Sorting by a string key is an order whenever the key is a function. *)
Lemma cmp_order_on {A B} (f : A → B) (cmp : B → B → Z) :
  cmp_order cmp → cmp_order (λ a b, cmp (f a) (f b)).
Proof. intros [Ht Hr]. unfold cmp_order, cmp_le in *. split; eauto. Qed.

(** ** Lemmas: sorting *)

Section sort.
Context `{GoSort}.

(** Whatever the unstable sort does, there is one sorted arrangement of a
    list whose elements the comparison tells apart. *)
Lemma SortFunc_unique {A} (cmp : A → A → Z) l l' :
  cmp_order cmp →
  (∀ a b, a ∈ l → b ∈ l → cmp_le cmp a b → cmp_le cmp b a → a = b) →
  l' ≡ₚ l → StronglySorted (cmp_le cmp) l' → SortFunc cmp l = l'.
Proof.
  intros Hcmp Hanti Hl' Hs.
  apply (StronglySorted_unique_strong (cmp_le cmp)); [|by apply SortFunc_sorted|done|].
  - intros a b Ha Hb. rewrite (SortFunc_perm cmp l) in Ha. rewrite Hl' in Hb. eauto.
  - by rewrite SortFunc_perm, Hl'.
Qed.

Lemma SortFunc_length {A} (cmp : A → A → Z) l : length (SortFunc cmp l) = length l.
Proof. apply Permutation_length, SortFunc_perm. Qed.

Lemma slices_Sort_perm_eq l l' : l ≡ₚ l' → slices_Sort l = slices_Sort l'.
Proof.
  intros Hl. apply SortFunc_unique; eauto with grex.
  - unfold slices_Sort. by rewrite SortFunc_perm, Hl.
  - apply SortFunc_sorted; auto with grex.
Qed.

End sort.

Program Definition merge_GoSort : GoSort :=
  {| SortFunc A cmp l := merge_sort (cmp_le cmp) l |}.
Next Obligation. intros. simpl. apply merge_sort_Permutation. Qed.
Next Obligation.
  intros A cmp l [Htot Htr]. simpl.
  by apply (@StronglySorted_merge_sort _ (cmp_le cmp) _ Htr Htot).
Qed.
