(* ===== verification/GoParse.v ===== *)
(** * Parsers of the Go standard library

    [time.ParseDuration], [net.SplitHostPort], [strings.Split] and
    [strings.Fields]-style splitting, as the standard library writes them.
    The fraction of a duration is computed in float64; the model computes it
    in the Standard Library's binary64 specification, bit for bit. *)

From Stdlib Require Import Ascii ZArith Lia.
From Stdlib Require Import SpecFloat.
From S2P Require Import Prelude GoLang.
Local Open Scope Z_scope.

(** ** Splitting *)

(** [strings.Split(s, sep)] for a one-byte separator; [strings.SplitSeq] walks
    the same pieces. *)
Fixpoint split_byte (sep : ascii) (s : string) : list string :=
  match s with
  | EmptyString => [EmptyString]
  | String c s' =>
      if bool_decide (c = sep) then EmptyString :: split_byte sep s'
      else match split_byte sep s' with
           | [] => [String c EmptyString]
           | p :: ps => String c p :: ps
           end
  end.

(** [strings.Join]. *)
Fixpoint string_join (sep : string) (l : list string) : string :=
  match l with
  | [] => ""
  | [s] => s
  | s :: l => String.app s (String.app sep (string_join sep l))
  end.

(** [strings.IndexByte] and [strings.LastIndexByte]; [None] is -1. *)
Fixpoint index_byte (c : ascii) (s : string) : option nat :=
  match s with
  | EmptyString => None
  | String d s' => if bool_decide (c = d) then Some 0%nat else S <$> index_byte c s'
  end.

Fixpoint last_index_byte (c : ascii) (s : string) : option nat :=
  match s with
  | EmptyString => None
  | String d s' =>
      match last_index_byte c s' with
      | Some i => Some (S i)
      | None => if bool_decide (c = d) then Some 0%nat else None
      end
  end.

(** [s[i:]] and [s[:i]]. *)
Definition string_from (i : nat) (s : string) : string :=
  String.substring i (String.length s - i) s.
Definition string_to (i : nat) (s : string) : string := String.substring 0 i s.

(** [strings.SplitN(s, sep, 2)] for a one-byte separator; [strings.Cut]. *)
Definition string_Cut (sep : ascii) (s : string) : option (string * string) :=
  i ← index_byte sep s; Some (string_to i s, string_from (S i) s).

(** ** [net.SplitHostPort]; [None] is an address error *)

Definition SplitHostPort (hostport : string) : option (string * string) :=
  i ← last_index_byte ":" hostport;
  let finish (host : string) (j k : nat) :=
    if bool_decide (is_Some (index_byte "[" (string_from j hostport))) then None
    else if bool_decide (is_Some (index_byte "]" (string_from k hostport))) then None
    else Some (host, string_from (S i) hostport) in
  if HasPrefix hostport "[" then
    e ← index_byte "]" hostport;
    if bool_decide (S e = String.length hostport) then None
    else if bool_decide (S e = i)
    then finish (String.substring 1 (e - 1) hostport) 1%nat (S e)
    else None
  else
    let host := string_to i hostport in
    if bool_decide (is_Some (index_byte ":" host)) then None else finish host 0%nat 0%nat.

(** ** [time.ParseDuration] *)

Definition is_digit (c : ascii) : bool := bool_decide (is_Some (digit_value c)).

(** [leadingInt]: the digits at the front, [None] on overflow. *)
Fixpoint leadingInt (x : Z) (s : string) : option (Z * string) :=
  match s with
  | String c s' =>
      match digit_value c with
      | Some d =>
          if (2 ^ 63 / 10 <? x) then None
          else if (2 ^ 63 <? x * 10 + d) then None
          else leadingInt (x * 10 + d) s'
      | None => Some (x, s)
      end
  | EmptyString => Some (x, s)
  end.

(** [leadingFraction]: digits past the overflow are read and dropped. *)
Fixpoint leadingFraction (x scale : Z) (overflow : bool) (s : string) : Z * Z * string :=
  match s with
  | String c s' =>
      match digit_value c with
      | Some d =>
          if overflow then leadingFraction x scale true s'
          else if ((2 ^ 63 - 1) / 10 <? x) then leadingFraction x scale true s'
          else if (2 ^ 63 <? x * 10 + d) then leadingFraction x scale true s'
          else leadingFraction (x * 10 + d) (scale * 10) false s'
      | None => (x, scale, s)
      end
  | EmptyString => (x, scale, s)
  end.

(** The longest prefix without a digit or a period. *)
Fixpoint take_unit (s : string) : string * string :=
  match s with
  | String c s' =>
      if bool_decide (c = "."%char) || is_digit c then (EmptyString, s)
      else let '(u, rest) := take_unit s' in (String c u, rest)
  | EmptyString => (EmptyString, s)
  end.

(** The two spellings of the micro sign, U+00B5 and U+03BC, followed by s. *)
Definition micro1 : string :=
  String (ascii_of_N 194) (String (ascii_of_N 181) "s").
Definition micro2 : string :=
  String (ascii_of_N 206) (String (ascii_of_N 188) "s").

Definition unitMap (u : string) : option Z :=
  if bool_decide (u = "ns") then Some 1
  else if bool_decide (u = "us") || bool_decide (u = micro1) || bool_decide (u = micro2)
  then Some (10 ^ 3)
  else if bool_decide (u = "ms") then Some (10 ^ 6)
  else if bool_decide (u = "s") then Some (10 ^ 9)
  else if bool_decide (u = "m") then Some (60 * 10 ^ 9)
  else if bool_decide (u = "h") then Some (3600 * 10 ^ 9)
  else None.

(** float64 arithmetic: conversion from an integer, to the integer below. *)
Definition float64 (z : Z) : spec_float := binary_normalize 53 1024 z 0 false.

Definition float64_trunc (f : spec_float) : Z :=
  match f with
  | S754_finite s m e =>
      let z := Z.shiftl (Zpos m) e in if s then - z else z
  | _ => 0
  end.

(** [uint64(float64(f) * (float64(unit) / scale))]. *)
Definition fraction_of (f scale unit : Z) : Z :=
  float64_trunc (SFmul 53 1024 (float64 f) (SFdiv 53 1024 (float64 unit) (float64 scale))).

(** One term of the loop: its value and what follows it. *)
Definition parse_term (s : string) : option (Z * string) :=
  match s with
  | EmptyString => None
  | String c _ =>
      if negb (bool_decide (c = "."%char) || is_digit c) then None else
      '(v, s1) ← leadingInt 0 s;
      let pre := negb (bool_decide (s1 = s)) in
      let '(f, scale, s2, post) :=
        match s1 with
        | String "." s1' =>
            let '(f, scale, s2) := leadingFraction 0 1 false s1' in
            (f, scale, s2, negb (bool_decide (s2 = s1')))
        | _ => (0, 1, s1, false)
        end in
      if negb (pre || post) then None else
      let '(u, rest) := take_unit s2 in
      if bool_decide (u = "") then None else
      unit ← unitMap u;
      if (2 ^ 63 / unit <? v) then None else
      let v := v * unit in
      let v := if (0 <? f) then v + fraction_of f scale unit else v in
      if (0 <? f) && (2 ^ 63 <? v) then None else Some (v, rest)
  end.

(** Every term consumes a byte, so the length of the string is fuel enough. *)
Fixpoint parse_terms (fuel : nat) (d : Z) (s : string) : option Z :=
  match s, fuel with
  | EmptyString, _ => Some d
  | _, O => None
  | _, S fuel =>
      '(v, rest) ← parse_term s;
      let d := uint64 (d + v) in
      if (2 ^ 63 <? d) then None else parse_terms fuel d rest
  end.

Definition ParseDuration (s : string) : option Duration :=
  let '(neg, s) := match s with
    | String "-" s' => (true, s')
    | String "+" s' => (false, s')
    | _ => (false, s)
    end in
  if bool_decide (s = "0") then Some 0
  else if bool_decide (s = "") then None
  else
    d ← parse_terms (String.length s) 0 s;
    if neg then Some (int64 (- d))
    else if (2 ^ 63 - 1 <? d) then None else Some d.

(** ** Checks against the documented behaviour *)

Example ParseDuration_30s : ParseDuration "30s" = Some (30 * Second).
Proof. vm_compute. reflexivity. Qed.

Example ParseDuration_mixed : ParseDuration "-1h2m3.5s" = Some (- (3723 * 10 ^ 9 + 5 * 10 ^ 8)).
Proof. vm_compute. reflexivity. Qed.

Example ParseDuration_bad :
  (ParseDuration "3", ParseDuration "", ParseDuration ".s", ParseDuration "9223372036854775808ns")
  = (None, None, None, None).
Proof. vm_compute. reflexivity. Qed.

Example SplitHostPort_ok :
  (SplitHostPort ":4320", SplitHostPort "[::1]:80", SplitHostPort "::1", SplitHostPort "host")
  = (Some ("", "4320"), Some ("::1", "80"), None, None).
Proof. vm_compute. reflexivity. Qed.

(** ** Durations parsed are durations *)

Lemma parse_terms_nonneg fuel d s d' : 0 ≤ d → parse_terms fuel d s = Some d' → 0 ≤ d'.
Proof.
  revert d s. induction fuel as [|fuel IH]; intros d [|c s] Hd Hp; simpl in Hp;
    [by simplify_eq|done|by simplify_eq|].
  apply bind_Some in Hp as ([v rest] & _ & Hp).
  destruct (2 ^ 63 <? uint64 (d + v)); [done|].
  apply (IH _ _ (proj1 (Z.mod_pos_bound (d + v) (2 ^ 64) ltac:(lia))) Hp).
Qed.

Lemma ParseDuration_range s d : ParseDuration s = Some d → is_int64 d.
Proof.
  unfold ParseDuration.
  destruct (match s with EmptyString => _ | String _ _ => _ end) as [neg t].
  case_bool_decide; [intros [= <-]; unfold is_int64, int64_min, int64_max; lia|].
  case_bool_decide; [done|]. intros (d' & Hd & Hr)%bind_Some.
  apply parse_terms_nonneg in Hd; [|lia].
  destruct neg; [injection Hr as <-; apply int64_range|].
  destruct (Z.ltb_spec (2 ^ 63 - 1) d'); [done|]. injection Hr as <-.
  unfold is_int64, int64_min, int64_max. lia.
Qed.

Lemma Atoi_range s n : Atoi s = Some n → is_int64 n.
Proof. intros (m & _ & H)%bind_Some. case_bool_decide; by simplify_eq. Qed.
