(* ===== verification/GoUrl.v ===== *)
(** * Query strings: package net/url and the text helpers around them

    [url.Values] as a map from parameter to its values; [QueryEscape] and
    [QueryUnescape] byte by byte; [Values.Encode], which sorts its keys, and
    the parser behind [URL.Query], which drops the pairs it cannot decode.
    [Itoa] is the decimal rendering of [strconv.Itoa] and of the verb %d.  The
    second half proves that encoding and parsing, and printing and reading a
    number, are inverse. *)

From Stdlib Require Import Ascii ZArith Lia.
From S2P Require Import Prelude GoLang GoParse.
Local Open Scope Z_scope.

(** ** Decimal *)

Definition digit_char (d : Z) : ascii := ascii_of_N (Z.to_N (48 + d)).

(** The digits of [n], in front of [acc]; the fuel is their number at most. *)
Fixpoint print_nat (fuel : nat) (n : Z) (acc : string) : string :=
  match fuel with
  | O => acc
  | S fuel =>
      let acc := String (digit_char (n mod 10)) acc in
      if n / 10 =? 0 then acc else print_nat fuel (n / 10) acc
  end.

(** An int64 has at most nineteen digits. *)
Definition Itoa (n : Z) : string :=
  if n <? 0 then String "-" (print_nat 19 (- n) "") else print_nat 19 n "".

(** ** url.Values *)

Abbreviation url_Values := (gmap string (list string)).

(** [q.Get(key)]: the first value, or "". *)
Definition query_Get (q : url_Values) (key : string) : string :=
  default "" (q !! key ≫= head).

Definition query_Set (q : url_Values) (key value : string) : url_Values :=
  <[key := [value]]> q.

Definition query_Del (q : url_Values) (key : string) : url_Values := delete key q.

(** [q.Add(key, value)]. *)
Definition query_Add (q : url_Values) (key value : string) : url_Values :=
  <[key := default [] (q !! key) ++ [value]]> q.

(** ** Escaping *)

(** The bytes [QueryEscape] leaves alone. *)
Definition unreserved (c : ascii) : bool :=
  let n := N_of_ascii c in
  ((97 <=? n)%N && (n <=? 122)%N) || ((65 <=? n)%N && (n <=? 90)%N) ||
  ((48 <=? n)%N && (n <=? 57)%N) ||
  bool_decide (n = 45)%N || bool_decide (n = 95)%N || bool_decide (n = 46)%N ||
  bool_decide (n = 126)%N.

Definition upperhex (n : N) : ascii :=
  if (n <? 10)%N then ascii_of_N (48 + n) else ascii_of_N (55 + n).

Fixpoint QueryEscape (s : string) : string :=
  match s with
  | EmptyString => EmptyString
  | String c s' =>
      if unreserved c then String c (QueryEscape s')
      else if bool_decide (c = " "%char) then String "+" (QueryEscape s')
      else let n := N_of_ascii c in
           String "%" (String (upperhex (n / 16)) (String (upperhex (n mod 16))
             (QueryEscape s')))
  end.

Definition unhex (c : ascii) : option N :=
  let n := N_of_ascii c in
  if (48 <=? n)%N && (n <=? 57)%N then Some (n - 48)%N
  else if (97 <=? n)%N && (n <=? 102)%N then Some (n - 87)%N
  else if (65 <=? n)%N && (n <=? 70)%N then Some (n - 55)%N
  else None.

(** [None] is an [EscapeError]. *)
Fixpoint QueryUnescape (s : string) : option string :=
  match s with
  | EmptyString => Some EmptyString
  | String c s' =>
      if bool_decide (c = "%"%char) then
        match s' with
        | String h (String l rest) =>
            h ← unhex h; l ← unhex l; r ← QueryUnescape rest;
            Some (String (ascii_of_N (16 * h + l)) r)
        | _ => None
        end
      else
        r ← QueryUnescape s';
        Some (String (if bool_decide (c = "+"%char) then " "%char else c) r)
  end.

(** ** Encode and ParseQuery *)

Definition encode_pair (p : string * string) : string :=
  String.app (QueryEscape p.1) (String "=" (QueryEscape p.2)).

(** One pair per value, the keys sorted. *)
Definition query_pairs `{MapRange, GoSort} (q : url_Values) : list (string * string) :=
  slices_Sort (range q).*1 ≫= λ k, (λ v, (k, v)) <$> default [] (q !! k).

Definition Encode `{MapRange, GoSort} (q : url_Values) : string :=
  string_join "&" (encode_pair <$> query_pairs q).

(** A segment between ampersands; [None] when it is empty or malformed. *)
Definition parse_segment (s : string) : option (string * string) :=
  if bool_decide (is_Some (index_byte ";" s)) then None
  else if bool_decide (s = "") then None
  else
    let '(key, value) := default (s, "") (string_Cut "=" s) in
    k ← QueryUnescape key; v ← QueryUnescape value; Some (k, v).

Definition add_pair (q : url_Values) (p : string * string) : url_Values :=
  query_Add q p.1 p.2.

(** net/url refuses a query of more parameters than this. *)
Definition defaultMaxParams : Z := 10000.

(** [URL.Query]: what [ParseQuery] could decode, its error dropped. *)
Definition ParseQuery (query : string) : url_Values :=
  let segments := split_byte "&" query in
  if defaultMaxParams <? zlen segments then ∅
  else foldl add_pair ∅ (omap parse_segment segments).

(** ** Lemmas: printing and reading a number *)

#[local] Arguments String.append !_ _ /.

Lemma digit_value_char d : 0 ≤ d ≤ 9 → digit_value (digit_char d) = Some d.
Proof.
  intros Hd.
  assert (∃ n : nat, d = Z.of_nat n ∧ (n ≤ 9)%nat) as (n & -> & Hn)
    by (exists (Z.to_nat d); lia).
  do 10 (destruct n as [|n]; [reflexivity|]). lia.
Qed.

Lemma parse_digits_print fuel n acc :
  0 ≤ n < 10 ^ Z.of_nat fuel → (0 < fuel)%nat →
  parse_digits 0 (print_nat fuel n acc) = parse_digits n acc.
Proof.
  revert n acc. induction fuel as [|fuel IH]; intros n acc Hn Hf; [lia|].
  assert (digit_value (digit_char (n mod 10)) = Some (n mod 10)) as Hd.
  { apply digit_value_char. pose proof (Z.mod_pos_bound n 10 ltac:(lia)). lia. }
  cbn [print_nat]. destruct (Z.eqb_spec (n / 10) 0) as [H0|H0].
  - cbn [parse_digits]. rewrite Hd. cbn [mbind option_bind]. f_equal.
    pose proof (Z.div_mod n 10 ltac:(lia)). lia.
  - assert (0 ≤ n / 10 < 10 ^ Z.of_nat fuel) as Hb.
    { split; [apply Z.div_pos; lia|]. apply Z.div_lt_upper_bound; [lia|].
      rewrite Nat2Z.inj_succ, Z.pow_succ_r in Hn by lia. lia. }
    rewrite IH; [|done|destruct fuel; [simpl in Hb; lia|lia]].
    cbn [parse_digits]. rewrite Hd. cbn [mbind option_bind]. f_equal.
    pose proof (Z.div_mod n 10 ltac:(lia)). lia.
Qed.

Lemma print_nat_cons fuel n acc : ∃ c s, print_nat (S fuel) n acc = String c s.
Proof.
  revert n acc. induction fuel as [|fuel IH]; intros n acc; cbn [print_nat].
  - destruct (_ =? 0); eauto.
  - destruct (_ =? 0); [eauto|]. apply IH.
Qed.

(** The first byte printed is a digit, so never a sign. *)
Lemma parse_nat_print n :
  0 ≤ n < 10 ^ 19 → parse_nat (print_nat 19 n "") = Some n.
Proof.
  intros Hn. pose proof (parse_digits_print 19 n "" Hn ltac:(lia)) as H.
  unfold parse_nat. destruct (print_nat_cons 18 n "") as (c & s & Hs).
  by rewrite Hs in *.
Qed.

Lemma Atoi_Itoa n : is_int64 n → Atoi (Itoa n) = Some n.
Proof.
  intros Hn. pose proof Hn as Hr. unfold is_int64, int64_min, int64_max in Hr. unfold Itoa.
  destruct (Z.ltb_spec n 0) as [Hneg|Hneg]; unfold Atoi.
  - rewrite parse_nat_print by lia. cbn [fmap option_fmap option_map mbind option_bind].
    rewrite Z.opp_involutive. by rewrite bool_decide_eq_true_2.
  - pose proof (parse_nat_print n ltac:(lia)) as Hp.
    destruct (print_nat_cons 18 n "") as (c & s & Hs). rewrite Hs in *.
    assert (is_Some (digit_value c)) as [d Hd].
    { simpl in Hp. destruct (digit_value c); [eauto|done]. }
    assert (c ≠ "-"%char ∧ c ≠ "+"%char) as [H1 H2] by (split; intros ->; done).
    assert (match String c s with
      | String "-" s' => Z.opp <$> parse_nat s' | String "+" s' => parse_nat s'
      | _ => parse_nat (String c s) end = parse_nat (String c s)) as ->.
    { clear -H1 H2. destruct c as [[] [] [] [] [] [] [] []]; try reflexivity;
        by destruct H1 || by destruct H2. }
    rewrite Hp. cbn [mbind option_bind]. by rewrite bool_decide_eq_true_2.
Qed.

(** ** Lemmas: escaping *)

(** A byte no escaped text contains. *)
Definition escape_free (c : ascii) : bool :=
  negb (unreserved c) && negb (bool_decide (c = "+"%char)) && negb (bool_decide (c = "%"%char)).

Definition no_byte (c : ascii) (s : string) : Prop := index_byte c s = None.

Lemma no_byte_cons c d s : no_byte c (String d s) ↔ c ≠ d ∧ no_byte c s.
Proof.
  unfold no_byte. simpl. case_bool_decide; [by split; [|intros []]|].
  destruct (index_byte c s); simpl; naive_solver.
Qed.

Lemma no_byte_app c s t : no_byte c (String.app s t) ↔ no_byte c s ∧ no_byte c t.
Proof.
  induction s as [|d s IH]; simpl.
  - split; [by split|by intros []].
  - rewrite !no_byte_cons, IH. tauto.
Qed.

Lemma upperhex_unreserved n : (n < 16)%N → unreserved (upperhex n) = true ∧ unhex (upperhex n) = Some n.
Proof.
  intros Hn. assert (∃ k : nat, n = N.of_nat k ∧ (k < 16)%nat) as (k & -> & Hk)
    by (exists (N.to_nat n); lia).
  do 16 (destruct k as [|k]; [by split|]). lia.
Qed.

Lemma byte_halves c :
  let n := N_of_ascii c in (n / 16 < 16)%N ∧ (n mod 16 < 16)%N ∧
  ascii_of_N (16 * (n / 16) + n mod 16) = c.
Proof.
  intros n. pose proof (N_ascii_bounded c). fold n in H. split_and!.
  - apply N.Div0.div_lt_upper_bound. lia.
  - apply N.mod_lt. lia.
  - rewrite <-N.div_mod by lia. apply ascii_N_embedding.
Qed.

Lemma QueryEscape_no_byte c s : escape_free c = true → no_byte c (QueryEscape s).
Proof.
  intros Hc. assert (∀ d, unreserved d = true → c ≠ d) as Hu.
  { intros d Hd ->. unfold escape_free in Hc. by rewrite Hd in Hc. }
  assert (c ≠ "+"%char ∧ c ≠ "%"%char) as [Hp Hq].
  { unfold escape_free in Hc. apply andb_true_iff in Hc as [Hc H2].
    apply andb_true_iff in Hc as [_ H1]. apply negb_true_iff in H1, H2.
    by apply bool_decide_eq_false in H1, H2. }
  induction s as [|d s IH]; [done|]. cbn [QueryEscape].
  destruct (unreserved d) eqn:Hd; [by apply no_byte_cons; auto|].
  case_bool_decide; [by apply no_byte_cons|].
  destruct (byte_halves d) as (H1 & H2 & _).
  rewrite !no_byte_cons. split_and!; [done| | |done]; apply Hu, upperhex_unreserved; done.
Qed.

Lemma QueryUnescape_unreserved c s :
  unreserved c = true → QueryUnescape (String c s) = String c <$> QueryUnescape s.
Proof.
  intros Hc. cbn [QueryUnescape]. rewrite bool_decide_eq_false_2 by (by intros ->).
  rewrite (bool_decide_eq_false_2 (c = "+"%char)) by (by intros ->).
  by destruct (QueryUnescape s).
Qed.

Lemma QueryUnescape_Escape s : QueryUnescape (QueryEscape s) = Some s.
Proof.
  induction s as [|c s IH]; [done|]. cbn [QueryEscape].
  destruct (unreserved c) eqn:Hc; [by rewrite QueryUnescape_unreserved, IH|].
  case_bool_decide as Hs.
  - cbn [QueryUnescape]. rewrite IH. by rewrite Hs.
  - destruct (byte_halves c) as (H1 & H2 & H3). cbn [QueryUnescape].
    rewrite (bool_decide_eq_true_2 ("%"%char = "%"%char)) by done.
    rewrite (proj2 (upperhex_unreserved _ H1)), (proj2 (upperhex_unreserved _ H2)), IH.
    cbn [mbind option_bind]. by rewrite H3.
Qed.

(** ** Lemmas: segments *)

Lemma split_byte_no_byte c s : no_byte c s → split_byte c s = [s].
Proof.
  induction s as [|d s IH]; [done|]. intros [Hd Hs]%no_byte_cons. simpl.
  rewrite bool_decide_eq_false_2 by congruence. by rewrite IH.
Qed.

Lemma split_byte_app c s t :
  no_byte c s → split_byte c (String.app s (String c t)) = s :: split_byte c t.
Proof.
  induction s as [|d s IH]; intros Hs; simpl.
  - by rewrite bool_decide_eq_true_2.
  - apply no_byte_cons in Hs as [Hd Hs].
    rewrite bool_decide_eq_false_2 by congruence. by rewrite IH.
Qed.

Lemma split_byte_join c l :
  l ≠ [] → Forall (no_byte c) l → split_byte c (string_join (String c "") l) = l.
Proof.
  induction l as [|s l IH]; [done|]. intros _ Hl. apply Forall_cons in Hl as [Hs Hl].
  destruct l as [|s' l]; [by apply split_byte_no_byte|].
  cbn [string_join]. cbn [String.append]. rewrite split_byte_app by done. f_equal.
  by apply IH.
Qed.

Lemma index_byte_app c s t :
  no_byte c s → index_byte c (String.app s (String c t)) = Some (String.length s).
Proof.
  induction s as [|d s IH]; intros Hs; simpl.
  - by rewrite bool_decide_eq_true_2.
  - apply no_byte_cons in Hs as [Hd Hs]. rewrite bool_decide_eq_false_2 by done. by rewrite IH.
Qed.

Lemma substring_all s : String.substring 0 (String.length s) s = s.
Proof. induction s as [|c s IH]; simpl; [done|]. by rewrite IH. Qed.

Lemma string_Cut_app c s t :
  no_byte c s → string_Cut c (String.app s (String c t)) = Some (s, t).
Proof.
  intros Hs. unfold string_Cut. rewrite index_byte_app by done. cbn [mbind option_bind].
  unfold string_to, string_from. f_equal. f_equal.
  - clear Hs. induction s as [|d s IH]; simpl; [by destruct t|]. by rewrite IH.
  - clear Hs. induction s as [|d s IH]; simpl; [|done].
    rewrite Nat.sub_0_r. apply substring_all.
Qed.

Lemma parse_segment_encode p : parse_segment (encode_pair p) = Some p.
Proof.
  destruct p as [k v]. unfold parse_segment, encode_pair. cbn [fst snd].
  rewrite bool_decide_eq_false_2; cycle 1.
  { intros [i Hi]. assert (no_byte ";" (String.app (QueryEscape k) (String "=" (QueryEscape v)))) as H.
    { apply no_byte_app. split; [by apply QueryEscape_no_byte|].
      apply no_byte_cons. split; [done|by apply QueryEscape_no_byte]. }
    unfold no_byte in H. congruence. }
  rewrite bool_decide_eq_false_2 by (by destruct (QueryEscape k)).
  rewrite string_Cut_app by (by apply QueryEscape_no_byte). cbn [default].
  unfold default, from_option, id.
  by rewrite !QueryUnescape_Escape.
Qed.

(** ** Lemmas: the map a list of pairs builds *)

Lemma foldl_add_values q k vs :
  foldl add_pair q ((λ v, (k, v)) <$> vs) =
    match vs with [] => q | _ => <[k := default [] (q !! k) ++ vs]> q end.
Proof.
  revert q. induction vs as [|v vs IH]; intros q; [done|].
  rewrite fmap_cons. cbn [foldl]. rewrite IH. unfold add_pair, query_Add. cbn [fst snd].
  destruct vs as [|v' vs]; [done|].
  rewrite lookup_insert_eq. unfold default, from_option, id.
  by rewrite insert_insert_eq, <-app_assoc.
Qed.

Lemma foldl_add_keys (q q0 : url_Values) keys :
  NoDup keys → (∀ k, k ∈ keys → q0 !! k = None) →
  (∀ k, k ∈ keys → q !! k ≠ Some []) →
  ∀ k, foldl add_pair q0 (keys ≫= λ k, (λ v, (k, v)) <$> default [] (q !! k)) !! k =
    if bool_decide (k ∈ keys) then q !! k else q0 !! k.
Proof.
  revert q0. induction keys as [|k1 keys IH]; intros q0 Hnd Hq0 Hq k; [done|].
  apply NoDup_cons in Hnd as [Hk1 Hnd]. csimpl. rewrite foldl_app, foldl_add_values.
  pose proof (Hq0 k1 ltac:(by left)) as H0. pose proof (Hq k1 ltac:(by left)) as H1.
  set (q1 := match default [] (q !! k1) with [] => q0 | _ => _ end).
  assert (∀ k', q1 !! k' = if bool_decide (k' = k1) then q !! k1 else q0 !! k') as Hq1.
  { intros k'. unfold q1. rewrite H0. destruct (q !! k1) as [[|v vs]|] eqn:E; simpl; [done| |].
    - case_bool_decide as Hk; [subst; apply lookup_insert_eq|].
      by rewrite lookup_insert_ne by congruence.
    - case_bool_decide as Hk; [by subst|done]. }
  rewrite IH; [|done| |].
  - rewrite Hq1. destruct (decide (k = k1)) as [->|Hne].
    + rewrite (bool_decide_eq_false_2 (k1 ∈ keys)) by done.
      by rewrite !bool_decide_eq_true_2 by (done || by left).
    + rewrite (bool_decide_eq_false_2 (k = k1)) by done.
      rewrite (bool_decide_ext (k ∈ k1 :: keys) (k ∈ keys)); [done|].
      rewrite elem_of_cons. naive_solver.
  - intros k' Hk'. rewrite Hq1, bool_decide_eq_false_2 by congruence. apply Hq0. by right.
  - intros k' Hk'. apply Hq. by right.
Qed.

(** ** Encoding and parsing are inverse *)

(** No parameter is present without a value: [ParseQuery] makes no other. *)
Definition query_ok (q : url_Values) : Prop := map_Forall (λ _ vs, vs ≠ []) q.

Lemma query_ok_Set q k v : query_ok q → query_ok (query_Set q k v).
Proof. intros Hq. by apply map_Forall_insert_2. Qed.

Lemma query_ok_Del q k : query_ok q → query_ok (query_Del q k).
Proof. unfold query_Del. intros Hq k' vs Hk'. apply lookup_delete_Some in Hk' as [_ Hk']. by apply (Hq k'). Qed.

Lemma query_ok_ParseQuery s : query_ok (ParseQuery s).
Proof.
  unfold ParseQuery. destruct (_ <? _); [apply map_Forall_empty|].
  generalize (omap parse_segment (split_byte "&" s)) as l.
  assert (query_ok ∅) as H0 by apply map_Forall_empty. revert H0.
  generalize (∅ : url_Values) as q. intros q Hq l. revert q Hq.
  induction l as [|p l IH]; intros q Hq; [done|]. cbn [foldl]. apply IH.
  apply map_Forall_insert_2; [|done]. by destruct (default [] (q !! p.1)).
Qed.

Section roundtrip.
Context `{MR : MapRange, GS : GoSort}.

Lemma sorted_keys_perm (q : url_Values) : slices_Sort (range q).*1 ≡ₚ (map_to_list q).*1.
Proof. unfold slices_Sort. rewrite SortFunc_perm. by rewrite range_perm. Qed.

Lemma split_Encode q : query_pairs q ≠ [] → split_byte "&" (Encode q) = encode_pair <$> query_pairs q.
Proof.
  intros Hq. unfold Encode. apply split_byte_join.
  - by destruct (query_pairs q).
  - apply Forall_fmap, Forall_true. intros [k v]. unfold compose, encode_pair. cbn [fst snd].
    apply no_byte_app. split; [by apply QueryEscape_no_byte|].
    apply no_byte_cons. split; [done|by apply QueryEscape_no_byte].
Qed.

Lemma omap_parse_encode (l : list (string * string)) :
  omap parse_segment (encode_pair <$> l) = l.
Proof.
  induction l as [|p l IH]; [done|]. csimpl. rewrite parse_segment_encode. by rewrite IH.
Qed.

Lemma ParseQuery_Encode q :
  query_ok q → zlen (query_pairs q) ≤ defaultMaxParams → ParseQuery (Encode q) = q.
Proof.
  intros Hq Hlen.
  assert (foldl add_pair ∅ (query_pairs q) = q) as Hfold.
  { unfold query_pairs. apply map_eq. intros k.
    rewrite (foldl_add_keys q).
    - rewrite (bool_decide_ext _ (is_Some (q !! k))).
      + case_bool_decide as Hk; [done|]. rewrite lookup_empty. symmetry.
        by apply eq_None_not_Some.
      + rewrite sorted_keys_perm, list_elem_of_fmap. split.
        * intros ([k' vs] & -> & Hin). apply elem_of_map_to_list in Hin. by eexists.
        * intros [vs Hvs]. exists (k, vs). split; [done|]. by apply elem_of_map_to_list.
    - rewrite sorted_keys_perm. apply NoDup_fst_map_to_list.
    - intros k' _. apply lookup_empty.
    - intros k' _ Hk'. by apply Hq in Hk'. }
  unfold ParseQuery. destruct (decide (query_pairs q = [])) as [Hnil|Hne].
  - rewrite Hnil in Hfold. unfold Encode. rewrite Hnil. exact Hfold.
  - rewrite split_Encode by done. rewrite length_fmap.
    destruct (Z.ltb_spec defaultMaxParams (zlen (query_pairs q))); [lia|].
    by rewrite omap_parse_encode.
Qed.

(** The number of parameters, and how editing a query changes it. *)
Lemma query_pairs_perm q :
  query_pairs q ≡ₚ map_to_list q ≫= λ kv, (λ v, (kv.1, v)) <$> kv.2.
Proof.
  unfold query_pairs. rewrite sorted_keys_perm, list_fmap_bind.
  rewrite (bind_ext _ (λ kv : string * list string, (λ v, (kv.1, v)) <$> kv.2)); [done|].
  intros [k vs] Hin. apply elem_of_map_to_list in Hin. unfold compose. cbn [fst snd].
  by rewrite Hin.
Qed.

Lemma query_size_delete q k :
  (length (query_pairs q) =
     length (query_pairs (delete k q)) + length (default [] (q !! k)))%nat.
Proof.
  rewrite !query_pairs_perm. destruct (q !! k) as [vs|] eqn:Hk; simpl.
  - rewrite <-(insert_delete_id q k vs Hk) at 1.
    rewrite map_to_list_insert by apply lookup_delete_eq.
    rewrite bind_cons, length_app, length_fmap. cbn [snd]. lia.
  - rewrite delete_id by done. lia.
Qed.

Lemma query_size_Del q k : zlen (query_pairs (query_Del q k)) ≤ zlen (query_pairs q).
Proof. unfold query_Del. pose proof (query_size_delete q k). lia. Qed.

Lemma query_size_Set q k v : zlen (query_pairs (query_Set q k v)) ≤ zlen (query_pairs q) + 1.
Proof.
  unfold query_Set. pose proof (query_size_delete q k).
  pose proof (query_size_delete (<[k := [v]]> q) k) as H'.
  rewrite delete_insert_eq, lookup_insert_eq in H'. simpl in H'. lia.
Qed.

End roundtrip.

(** ** Evaluation *)

Example Encode_ok :
  ParseQuery "b=2&a=1&b=x+y%2Fz&&=&bad%2&c;d=1" =
    {["a" := ["1"]; "b" := ["2"; "x y/z"]; "" := [""]]}.
Proof. vm_compute. reflexivity. Qed.

Example Itoa_ok :
  (Itoa 0, Itoa 907, Itoa (-15), Itoa int64_min) =
  ("0", "907", "-15", "-9223372036854775808").
Proof. vm_compute. reflexivity. Qed.
