(* ===== verification/GoTime.v ===== *)
(** * Package time: durations as numbers and instants as text

    [Duration.Round], [Seconds], [Minutes] and [Hours], which are float64
    quotients (computed in the Standard Library's binary64 specification),
    [Time.Unix], and [time.RFC3339] rendered with the proleptic Gregorian
    calendar. *)

From Stdlib Require Import Ascii ZArith Lia.
From Stdlib Require Import SpecFloat.
From S2P Require Import Prelude GoLang GoParse GoUrl.
Local Open Scope Z_scope.

(** ** Durations *)

Definition Minute : Duration := 60 * Second.

(** [lessThanHalf(x, y)]: on uint64, so that [x + x] cannot overflow. *)
Definition lessThanHalf (x y : Duration) : bool := uint64 (x + x) <? uint64 y.

(** [d.Round(m)]: to the nearest multiple, halfway values up, saturating. *)
Definition duration_Round (d m : Duration) : Duration :=
  if m <=? 0 then d else
  let r := Z.rem d m in
  if d <? 0 then
    let r := - r in
    if lessThanHalf r m then d + r
    else let d1 := int64 (d - m + r) in if d1 <? d then d1 else int64_min
  else if lessThanHalf r m then d - r
  else let d1 := int64 (d + m - r) in if d <? d1 then d1 else int64_max.

(** [Seconds], [Minutes] and [Hours]: whole units plus the fraction. *)
Definition duration_in (unit : Duration) (d : Duration) : spec_float :=
  SFadd 53 1024 (float64 (Z.quot d unit)) (SFdiv 53 1024 (float64 (Z.rem d unit)) (float64 unit)).

Definition Seconds (d : Duration) : Z := float64_trunc (duration_in Second d).
Definition Minutes (d : Duration) : Z := float64_trunc (duration_in Minute d).
Definition Hours (d : Duration) : Z := float64_trunc (duration_in Hour d).

(** [int(d.Hours() / 24)]. *)
Definition Days (d : Duration) : Z :=
  float64_trunc (SFdiv 53 1024 (duration_in Hour d) (float64 24)).

(** [fmtFrac]: the low [prec] digits of [v] behind a point, without trailing
    zeros, and the rest of [v]. *)
Fixpoint frac_digits (prec : nat) (v : Z) (print : bool) (acc : string) : string * Z * bool :=
  match prec with
  | O => (acc, v, print)
  | S prec =>
      let digit := v mod 10 in
      let print := print || negb (digit =? 0) in
      frac_digits prec (v / 10) print (if print then String (digit_char digit) acc else acc)
  end.

Definition fmtFrac (v : Z) (prec : nat) (acc : string) : string * Z :=
  let '(s, v, print) := frac_digits prec v false acc in
  (if (print : bool) then String "." s else s, v).

(** [fmtInt]: a uint64 has at most twenty digits. *)
Definition fmtInt (v : Z) (acc : string) : string := print_nat 20 v acc.

(** [d.String()]. *)
Definition duration_String (d : Duration) : string :=
  let u := uint64 (if d <? 0 then - d else d) in
  let s :=
    if u <? Second then
      if u =? 0 then "0s"
      else
        let '(unit, prec) :=
          if u <? 1000 then ("ns", 0%nat) else if u <? 10 ^ 6 then (micro1, 3%nat) else ("ms", 6%nat) in
        let '(s, u) := fmtFrac u prec unit in fmtInt u s
    else
      let '(s, u) := fmtFrac u 9 "s" in
      let s := fmtInt (u mod 60) s in
      let u := u / 60 in
      if 0 <? u then
        let s := fmtInt (u mod 60) (String "m" s) in
        let u := u / 60 in
        if 0 <? u then fmtInt u (String "h" s) else s
      else s in
  if d <? 0 then String "-" s else s.

(** ** Instants *)

(** [t.Unix()]: whole seconds, rounded down. *)
Definition time_Unix (t : Time) : Z := t / 10 ^ 9.

(** Year, month and day of a count of days since 1 January 1970. *)
Definition civil_from_days (days : Z) : Z * Z * Z :=
  let z := days + 719468 in
  let era := z / 146097 in
  let doe := z mod 146097 in
  let yoe := (doe - doe / 1460 + doe / 36524 - doe / 146096) / 365 in
  let doy := doe - (365 * yoe + yoe / 4 - yoe / 100) in
  let mp := (5 * doy + 2) / 153 in
  let d := doy - (153 * mp + 2) / 5 + 1 in
  let m := if mp <? 10 then mp + 3 else mp - 9 in
  let y := yoe + era * 400 + (if m <=? 2 then 1 else 0) in
  (y, m, d).

(** Zero-padded to a width, as [Time.Format] pads. *)
Fixpoint zeros (n : nat) : string :=
  match n with O => EmptyString | S n => String "0" (zeros n) end.

Definition pad (width : nat) (n : Z) : string :=
  let digits := Itoa (Z.abs n) in
  let s := String.app (zeros (width - String.length digits)) digits in
  if n <? 0 then String "-" s else s.

Definition concat_strings (l : list string) : string := string_join "" l.

(** [t.UTC().Format(time.RFC3339)]. *)
Definition format_RFC3339 (t : Time) : string :=
  let secs := t / 10 ^ 9 in
  let '(y, m, d) := civil_from_days (secs / 86400) in
  let sod := secs mod 86400 in
  concat_strings
    [pad 4 y; "-"; pad 2 m; "-"; pad 2 d; "T";
     pad 2 (sod / 3600); ":"; pad 2 (sod / 60 mod 60); ":"; pad 2 (sod mod 60); "Z"].

(** ** Evaluation *)

Example format_RFC3339_ok :
  (format_RFC3339 0, format_RFC3339 (1709164799 * 10 ^ 9), format_RFC3339 time_zero) =
  ("1970-01-01T00:00:00Z", "2024-02-28T23:59:59Z", "0001-01-01T00:00:00Z").
Proof. vm_compute. reflexivity. Qed.

Example durations_ok :
  (duration_Round (1500 * 10 ^ 6) Second, duration_Round (-1500 * 10 ^ 6) Second,
   duration_Round int64_max Second, Hours (7199 * Second), Minutes (7199 * Second)) =
  (2 * Second, -2 * Second, int64_max, 1, 119).
Proof. vm_compute. reflexivity. Qed.

Example duration_String_ok :
  duration_String <$> [0; 1; 1500; 2 * 10 ^ 6; 1500 * 10 ^ 6; 30 * Second; 90 * Second; 36 * Hour; int64_min] =
  ["0s"; "1ns"; String.app "1.5" micro1; "2ms"; "1.5s"; "30s"; "1m30s"; "36h0m0s"; "-2562047h47m16.854775808s"].
Proof. vm_compute. reflexivity. Qed.

(** ** Lemmas: a printed duration is valid UTF-8 *)

Lemma digit_ascii v : is_ascii (digit_char (v mod 10)) = true.
Proof.
  pose proof (Z.mod_pos_bound v 10 ltac:(lia)) as Hv.
  assert (∃ n : nat, v mod 10 = Z.of_nat n ∧ (n ≤ 9)%nat) as (n & -> & Hn)
    by (exists (Z.to_nat (v mod 10)); lia).
  do 10 (destruct n as [|n]; [reflexivity|]). lia.
Qed.

Lemma ValidString_digit v s :
  ValidString (String (digit_char (v mod 10)) s) = ValidString s.
Proof. cbn [ValidString]. by rewrite digit_ascii. Qed.

Lemma print_nat_valid fuel n acc : ValidString acc = true → ValidString (print_nat fuel n acc) = true.
Proof.
  revert n acc. induction fuel as [|fuel IH]; intros n acc Hacc; [done|]. cbn [print_nat].
  destruct (_ =? 0); [by rewrite ValidString_digit|]. apply IH. by rewrite ValidString_digit.
Qed.

Lemma Itoa_valid n : ValidString (Itoa n) = true.
Proof. unfold Itoa. destruct (n <? 0); [cbn [ValidString]|]; by apply print_nat_valid. Qed.

Lemma fmtFrac_valid v prec acc : ValidString acc = true → ValidString (fmtFrac v prec acc).1 = true.
Proof.
  unfold fmtFrac. intros Hacc.
  assert (∀ b, ValidString (frac_digits prec v b acc).1.1 = true) as H.
  { revert v acc Hacc. induction prec as [|prec IH]; intros v acc Hacc b; [done|].
    cbn [frac_digits]. apply IH. destruct (_ || _); [by rewrite ValidString_digit|done]. }
  specialize (H false). destruct (frac_digits prec v false acc) as [[s u] []]; exact H.
Qed.

Lemma duration_String_valid d : ValidString (duration_String d) = true.
Proof.
  unfold duration_String, fmtInt.
  set (u := uint64 _). set (s := if u <? Second then _ else _).
  enough (ValidString s = true) as Hs by (by destruct (d <? 0)).
  subst s. destruct (u <? Second).
  - destruct (u =? 0); [reflexivity|].
    set (up := if u <? 1000 then _ else _).
    assert (ValidString up.1 = true) as Hup by (subst up; by repeat case_match).
    destruct up as [unit prec]. pose proof (fmtFrac_valid u prec unit Hup) as Hf.
    destruct (fmtFrac u prec unit) as [s v]. by apply print_nat_valid.
  - pose proof (fmtFrac_valid u 9 "s" eq_refl) as Hf.
    destruct (fmtFrac u 9 "s") as [s v]. cbn [fst] in Hf.
    repeat match goal with |- context [if ?b then _ else _] => destruct b end;
      repeat (apply print_nat_valid; try (cbn [ValidString])); done.
Qed.
