(* ===== verification/GoFlag.v ===== *)
(** * Package flag, and strconv.ParseInt with base 0

    What the commands use of the standard library's flag package: a FlagSet
    with ContinueOnError whose flags take a value, [Parse] as the package
    documents and writes it (one or two dashes, the value after an equals sign
    or as the next argument, everything from the first argument that is no flag
    on left over).  [Parse_render] says what any list of written flags means. *)

From Stdlib Require Import Ascii ZArith Lia.
From S2P Require Import Prelude GoLang GoParse GoUrl.
Local Open Scope Z_scope.

(** ** [strconv.ParseInt(s, 0, 64)] *)

Definition lower_byte (c : ascii) : ascii :=
  let n := N_of_ascii c in if (65 <=? n)%N && (n <=? 90)%N then ascii_of_N (n + 32) else c.

(** The value of a digit up to base 36. *)
Definition digit36 (c : ascii) : option Z :=
  match digit_value c with
  | Some d => Some d
  | None =>
      let n := N_of_ascii (lower_byte c) in
      if (97 <=? n)%N && (n <=? 122)%N then Some (Z.of_N n - 87) else None
  end.

(** The digits' loop; with base 0, underscores are skipped. *)
Fixpoint base_digits (base acc : Z) (s : string) : option Z :=
  match s with
  | EmptyString => Some acc
  | String c s =>
      if bool_decide (c = "_"%char) then base_digits base acc s
      else d ← digit36 c; if d <? base then base_digits base (acc * base + d) s else None
  end.

(** [underscoreOK]'s loop: an underscore has a digit on both sides. *)
Inductive saw := SawBegin | SawDigit | SawUnderscore | SawOther.

Fixpoint underscores (hex : bool) (last : saw) (s : string) : bool :=
  match s with
  | EmptyString => match last with SawUnderscore => false | _ => true end
  | String c s =>
      if bool_decide (is_Some (digit_value c)) ||
         (hex && match digit36 c with Some d => d <? 16 | None => false end)
      then underscores hex SawDigit s
      else if bool_decide (c = "_"%char)
      then match last with SawDigit => underscores hex SawUnderscore s | _ => false end
      else match last with SawUnderscore => false | _ => underscores hex SawOther s end
  end.

(** The base a prefix asks for, what is left, and whether there was one. *)
Definition base_prefix (s : string) : Z * string * bool :=
  match s with
  | String "0" (String x (String _ _ as r)) =>
      let x := lower_byte x in
      if bool_decide (x = "b"%char) then (2, r, true)
      else if bool_decide (x = "o"%char) then (8, r, true)
      else if bool_decide (x = "x"%char) then (16, r, true)
      else (8, String.substring 1 (String.length s - 1) s, false)
  | String "0" r => (8, r, false)
  | _ => (10, s, false)
  end.

Definition underscoreOK (s : string) : bool :=
  match base_prefix s with
  | (base, r, true) => underscores (base =? 16) SawDigit r
  | _ => underscores false SawBegin s
  end.

Definition parse_uint0 (s : string) : option Z :=
  if bool_decide (s = "") then None else
  let '(base, r, _) := base_prefix s in
  n ← base_digits base 0 r;
  if underscoreOK s then Some n else None.

Definition ParseInt0 (s : string) : option Z :=
  n ← match s with
      | String "-" s => Z.opp <$> parse_uint0 s
      | String "+" s => parse_uint0 s
      | _ => parse_uint0 s
      end;
  if bool_decide (is_int64 n) then Some n else None.

Example ParseInt0_ok :
  ParseInt0 <$> ["42"; "-7"; "+0x1F"; "0b101"; "017"; "0"; "1_000"; "0x_f"; "0_7"] =
  [Some 42; Some (-7); Some 31; Some 5; Some 15; Some 0; Some 1000; Some 15; Some 7].
Proof. vm_compute. reflexivity. Qed.

Example ParseInt0_bad :
  ParseInt0 <$> [""; "-"; "08"; "1__0"; "_1"; "1_"; "0x"; "9223372036854775808"; "1.0"; "a"] =
  replicate 10 None.
Proof. vm_compute. reflexivity. Qed.

(** ** Flags *)

Inductive FlagError :=
  | ErrHelp
  | BadSyntax (s : string)
  | NotDefined (name : string)
  | NeedsArgument (name : string)
  | InvalidValue (value name : string).

(** A flag that takes a value: its name, and its [Set] on the variables. *)
Record Flag (C : Type) := mkFlag { fl_name : string; fl_Set : string → C → option C }.
Arguments mkFlag {C}.
Arguments fl_name {C}.
Arguments fl_Set {C}.

(** What an argument is: no flag, the terminator, malformed, or a name with
    the value behind its equals sign. *)
Inductive argument :=
  | NotFlag
  | Terminator
  | Malformed
  | Named (name : string) (value : option string).

Definition flag_name (name : string) : argument :=
  match name with
  | EmptyString | String "-" _ | String "=" _ => Malformed
  | _ =>
      match string_Cut "=" name with
      | Some (name, value) => Named name (Some value)
      | None => Named name None
      end
  end.

Definition classify (s : string) : argument :=
  match s with
  | String "-" (String "-" EmptyString) => Terminator
  | String "-" (String "-" name) => flag_name name
  | String "-" (String _ _ as name) => flag_name name
  | _ => NotFlag
  end.

Section parse.
Context {C : Type} (formal : list (Flag C)).

Definition find_flag (name : string) : option (Flag C) :=
  head (filter (λ f, fl_name f = name) formal).

Definition undefined (name : string) : FlagError :=
  if bool_decide (name ∈ ["help"; "h"]) then ErrHelp else NotDefined name.

Definition set_flag (f : Flag C) (value : string) (c : C) : FlagError + C :=
  match fl_Set f value c with Some c => inr c | None => inl (InvalidValue value (fl_name f)) end.

(** [Parse]: the variables, and the arguments left. *)
Fixpoint Parse (args : list string) (c : C) : FlagError + C * list string :=
  match args with
  | [] => inr (c, [])
  | s :: rest =>
      match classify s with
      | NotFlag => inr (c, args)
      | Terminator => inr (c, rest)
      | Malformed => inl (BadSyntax s)
      | Named name value =>
          match find_flag name with
          | None => inl (undefined name)
          | Some f =>
              match value, rest with
              | Some v, _ =>
                  match set_flag f v c with inl e => inl e | inr c => Parse rest c end
              | None, v :: rest =>
                  match set_flag f v c with inl e => inl e | inr c => Parse rest c end
              | None, [] => inl (NeedsArgument name)
              end
          end
      end
  end.

(** ** What written flags mean *)

(** A flag as a user writes it. *)
Record given := mkGiven {
  g_name : string;
  g_value : string;
  g_double : bool;      (* two dashes *)
  g_joined : bool       (* the value behind an equals sign *)
}.

Definition render (g : given) : list string :=
  let dashed := String.app (if g_double g then "--" else "-") (g_name g) in
  if g_joined g then [String.app dashed (String "=" (g_value g))] else [dashed; g_value g].

(** A name that can be written. *)
Definition writable (name : string) : Prop :=
  name ≠ "" ∧ HasPrefix name "-" = false ∧ index_byte "=" name = None.

(** The variables after the flags given, in order; the first failure. *)
Fixpoint assign (l : list given) (c : C) : FlagError + C :=
  match l with
  | [] => inr c
  | g :: l =>
      match find_flag (g_name g) with
      | None => inl (undefined (g_name g))
      | Some f => match set_flag f (g_value g) c with inl e => inl e | inr c => assign l c end
      end
  end.

(** Arguments that end the flags. *)
Definition ends_flags (rest : list string) : Prop :=
  match rest with [] => True | s :: _ => classify s = NotFlag ∨ classify s = Terminator end.

End parse.

(** ** Lemmas *)

Lemma cut_joined name value :
  index_byte "=" name = None →
  string_Cut "=" (String.app name (String "=" value)) = Some (name, value).
Proof.
  intros Hn. unfold string_Cut.
  assert (index_byte "=" (String.app name (String "=" value)) = Some (String.length name)) as ->.
  { induction name as [|c name IH]; [done|].
    change (index_byte "=" (String c name)) with
      (if bool_decide ("="%char = c) then Some 0%nat else S <$> index_byte "=" name) in Hn.
    change (index_byte "=" (String.app (String c name) (String "=" value))) with
      (if bool_decide ("="%char = c) then Some 0%nat
       else S <$> index_byte "=" (String.app name (String "=" value))).
    case_bool_decide; [done|]. destruct (index_byte "=" name); [done|]. by rewrite IH. }
  cbn [mbind option_bind]. f_equal. f_equal; clear Hn.
  - unfold string_to. induction name as [|c name IH]; [done|]. exact (f_equal (String c) IH).
  - unfold string_from. induction name as [|c name IH]; [|exact IH].
    change (String.substring 0 (S (String.length value) - 1) value = value).
    replace (S (String.length value) - 1)%nat with (String.length value) by lia.
    induction value as [|c value IH]; [done|]. exact (f_equal (String c) IH).
Qed.

(** The first character of a writable name. *)
Lemma writable_head name :
  writable name → ∃ c rest, name = String c rest ∧ c ≠ "-"%char ∧ c ≠ "="%char.
Proof.
  intros (Hne & Hd & He). destruct name as [|c rest]; [done|]. exists c, rest. split; [done|]. split.
  - intros ->. by destruct rest.
  - intros ->. cbn [index_byte] in He. by rewrite bool_decide_eq_true_2 in He.
Qed.

Lemma flag_name_cons c rest :
  c ≠ "-"%char → c ≠ "="%char →
  flag_name (String c rest) =
    match string_Cut "=" (String c rest) with
    | Some (name, value) => Named name (Some value)
    | None => Named (String c rest) None
    end.
Proof. destruct c as [[] [] [] [] [] [] [] []]; done. Qed.

Lemma flag_name_plain name : writable name → flag_name name = Named name None.
Proof.
  intros Hw. destruct (writable_head name Hw) as (c & rest & -> & Hd & Heq).
  rewrite flag_name_cons by done. unfold string_Cut. by rewrite (proj2 (proj2 Hw)).
Qed.

Lemma flag_name_joined name value :
  writable name → flag_name (String.app name (String "=" value)) = Named name (Some value).
Proof.
  intros Hw. pose proof (cut_joined name value (proj2 (proj2 Hw))) as Hc.
  destruct (writable_head name Hw) as (c & rest & -> & Hd & Heq).
  change (String.app (String c rest) (String "=" value))
    with (String c (String.app rest (String "=" value))) in *.
  by rewrite flag_name_cons, Hc by done.
Qed.

Lemma classify_dashed double name rest :
  writable name →
  classify (String.app (String.app (if double : bool then "--" else "-") name) rest) =
  flag_name (String.app name rest).
Proof.
  intros Hw. destruct (writable_head name Hw) as (c & s & -> & Hd & _).
  destruct double; [done|]. destruct c as [[] [] [] [] [] [] [] []]; done.
Qed.

(** One flag, then the rest. *)
Lemma Parse_given {C} (formal : list (Flag C)) g rest c :
  writable (g_name g) →
  Parse formal (render g ++ rest) c =
  match assign formal [g] c with inl e => inl e | inr c => Parse formal rest c end.
Proof.
  intros Hw. unfold render. destruct (g_joined g); cbn [app Parse assign].
  - rewrite classify_dashed, flag_name_joined by done.
    destruct (find_flag formal (g_name g)) as [f|]; [|done]. by destruct (set_flag f _ c).
  - pose proof (classify_dashed (g_double g) (g_name g) "" Hw) as Hc. rewrite !string_app_nil in Hc.
    rewrite Hc, flag_name_plain by done.
    destruct (find_flag formal (g_name g)) as [f|]; [|done]. by destruct (set_flag f _ c).
Qed.

(** A list of flags, whatever form each is written in, assigns from left to
    right up to the first that fails. *)
Lemma Parse_render {C} (formal : list (Flag C)) l rest c :
  Forall (λ g, writable (g_name g)) l →
  Parse formal ((l ≫= render) ++ rest) c =
  match assign formal l c with inl e => inl e | inr c => Parse formal rest c end.
Proof.
  intros Hl. revert c. induction Hl as [|g l Hg _ IH]; intros c; [done|].
  change ((g :: l) ≫= render) with (render g ++ (l ≫= render)).
  rewrite <-app_assoc, Parse_given by done. cbn [assign].
  destruct (find_flag formal (g_name g)) as [f|]; [|done]. destruct (set_flag f _ c); [done|]. apply IH.
Qed.

(** The flags end where the arguments do, at a terminator or at an argument
    that is no flag. *)
Lemma Parse_ends {C} (formal : list (Flag C)) rest c :
  ends_flags rest → ∃ left, Parse formal rest c = inr (c, left).
Proof.
  destruct rest as [|s rest]; [by eexists|]. cbn [ends_flags Parse].
  intros [->| ->]; by eexists.
Qed.

(** A last flag without its value. *)
Lemma Parse_dangling {C} (formal : list (Flag C)) double name c :
  writable name → is_Some (find_flag formal name) →
  Parse formal [String.app (if double : bool then "--" else "-") name] c = inl (NeedsArgument name).
Proof.
  intros Hw [f Hf]. cbn [Parse].
  pose proof (classify_dashed double name "" Hw) as Hc. rewrite !string_app_nil in Hc.
  by rewrite Hc, flag_name_plain, Hf by done.
Qed.
