(* ===== verification/Json.v ===== *)
(** * encoding/json: documents, their text, and reading them back

    The part of Go's encoding/json the program uses.  [print] is the encoder on
    a document ([json.Marshal]: compact, HTML-safe, invalid UTF-8 replaced);
    [value] is the scanner and the decoder of one document, with the limit on
    nesting, and keeps the text of every member for [json.RawMessage].
    [value_print]: what was printed reads back, with invalid bytes replaced. *)

From Stdlib Require Import ZArith Lia Ascii String.
From S2P Require Import Prelude GoLang GoParse GoUrl GoTime.
Local Open Scope Z_scope.

(** ** Documents *)

(** A number is the literal it is written as. *)
Inductive json :=
  | JNull
  | JBool (b : bool)
  | JNumber (literal : string)
  | JString (s : string)
  | JArray (l : list json)
  | JObject (members : list (string * json)).

(** Induction through the lists. *)
Section json_induction.
Context (P : json → Prop).
Context (Hnull : P JNull) (Hbool : ∀ b, P (JBool b)) (Hnumber : ∀ s, P (JNumber s))
  (Hstring : ∀ s, P (JString s)) (Harray : ∀ l, Forall P l → P (JArray l))
  (Hobject : ∀ m, Forall (λ p, P p.2) m → P (JObject m)).

Fixpoint json_induction (j : json) : P j :=
  match j with
  | JNull => Hnull
  | JBool b => Hbool b
  | JNumber s => Hnumber s
  | JString s => Hstring s
  | JArray l => Harray l ((fix all (l : list json) : Forall P l :=
      match l with [] => Forall_nil_2 P | x :: l => Forall_cons_2 P x l (json_induction x) (all l) end) l)
  | JObject m => Hobject m ((fix all (m : list (string * json)) : Forall (λ p, P p.2) m :=
      match m with
      | [] => Forall_nil_2 _
      | x :: m => Forall_cons_2 (λ p, P p.2) x m (json_induction x.2) (all m)
      end) m)
  end.

End json_induction.

(** ** Runes *)

(** One step of [utf8.DecodeRune]; [RuneError] stands for one invalid byte. *)
Inductive rune :=
  | Rune1 (c0 : ascii)
  | Rune2 (c0 c1 : ascii)
  | Rune3 (c0 c1 c2 : ascii)
  | Rune4 (c0 c1 c2 c3 : ascii)
  | RuneError.

Fixpoint runes (s : string) : list rune :=
  match s with
  | EmptyString => []
  | String c0 s1 =>
      if is_ascii c0 then Rune1 c0 :: runes s1 else
      match s1 with
      | EmptyString => [RuneError]
      | String c1 s2 =>
          if is_rune2 c0 c1 then Rune2 c0 c1 :: runes s2 else
          match s2 with
          | EmptyString => RuneError :: runes s1
          | String c2 s3 =>
              if is_rune3 c0 c1 c2 then Rune3 c0 c1 c2 :: runes s3 else
              match s3 with
              | EmptyString => RuneError :: runes s1
              | String c3 s4 =>
                  if is_rune4 c0 c1 c2 c3 then Rune4 c0 c1 c2 c3 :: runes s4
                  else RuneError :: runes s1
              end
          end
      end
  end.

Definition byte (n : N) : ascii := ascii_of_N n.

(** The bytes of a rune, in front of [acc]; U+FFFD for an invalid byte. *)
Definition rune_bytes (r : rune) (acc : string) : string :=
  match r with
  | Rune1 c0 => String c0 acc
  | Rune2 c0 c1 => String c0 (String c1 acc)
  | Rune3 c0 c1 c2 => String c0 (String c1 (String c2 acc))
  | Rune4 c0 c1 c2 c3 => String c0 (String c1 (String c2 (String c3 acc)))
  | RuneError => String (byte 239) (String (byte 191) (String (byte 189) acc))
  end.

(** The string with U+FFFD for each invalid byte. *)
Definition ToValid (s : string) : string := foldr rune_bytes "" (runes s).

(** A code point in UTF-8, in front of [acc]. *)
Definition AppendRune (u : N) (acc : string) : string :=
  (if u <? 128 then String (byte u) acc
   else if u <? 2048 then String (byte (192 + u / 64)) (String (byte (128 + u mod 64)) acc)
   else if u <? 65536 then
     String (byte (224 + u / 4096))
       (String (byte (128 + u / 64 mod 64)) (String (byte (128 + u mod 64)) acc))
   else String (byte (240 + u / 262144))
     (String (byte (128 + u / 4096 mod 64))
        (String (byte (128 + u / 64 mod 64)) (String (byte (128 + u mod 64)) acc))))%N.

(** ** Encoding *)

Definition quote_char : ascii := "034"%char.
Definition backslash : ascii := "092"%char.

Definition hex_digit (n : N) : ascii := (if n <? 10 then byte (48 + n) else byte (87 + n))%N.

Definition unicode_escape (u : N) (acc : string) : string :=
  String backslash (String "u" (String (hex_digit (u / 4096)) (String (hex_digit (u / 256 mod 16))
    (String (hex_digit (u / 16 mod 16)) (String (hex_digit (u mod 16)) acc)))))%N.

(** [appendString] on one rune, with [escapeHTML]. *)
Definition escape_rune (r : rune) (acc : string) : string :=
  match r with
  | Rune1 c =>
      if bool_decide (c = backslash) || bool_decide (c = quote_char) then String backslash (String c acc)
      else if bool_decide (c = "008"%char) then String backslash (String "b" acc)
      else if bool_decide (c = "012"%char) then String backslash (String "f" acc)
      else if bool_decide (c = "010"%char) then String backslash (String "n" acc)
      else if bool_decide (c = "013"%char) then String backslash (String "r" acc)
      else if bool_decide (c = "009"%char) then String backslash (String "t" acc)
      else if byte_in 0 31 c || bool_decide (c = "<"%char) || bool_decide (c = ">"%char) ||
              bool_decide (c = "&"%char)
      then unicode_escape (N_of_ascii c) acc
      else String c acc
  | Rune3 c0 c1 c2 =>
      if bool_decide (c0 = byte 226) && bool_decide (c1 = byte 128) && byte_in 168 169 c2
      then unicode_escape (8192 + (N_of_ascii c2 - 128)) acc
      else rune_bytes r acc
  | RuneError => unicode_escape 65533 acc
  | _ => rune_bytes r acc
  end.

Definition quote (s : string) (acc : string) : string :=
  String quote_char (foldr escape_rune (String quote_char acc) (runes s)).

(** A list between separators. *)
Fixpoint print_list {A} (print : A → string → string) (l : list A) (acc : string) : string :=
  match l with
  | [] => acc
  | [x] => print x acc
  | x :: l => print x (String "," (print_list print l acc))
  end.

Fixpoint print (j : json) (acc : string) : string :=
  match j with
  | JNull => String.app "null" acc
  | JBool b => String.app (if b then "true" else "false") acc
  | JNumber literal => String.app literal acc
  | JString s => quote s acc
  | JArray l => String "[" (print_list print l (String "]" acc))
  | JObject m =>
      String "{" (print_list (λ p acc, quote p.1 (String ":" (print p.2 acc))) m (String "}" acc))
  end.

(** [json.Marshal], and [Encoder.Encode], which ends the line. *)
Definition Marshal (j : json) : string := print j "".
Definition Encode (j : json) : string := print j (String "010" "").

(** ** Decoding strings *)

Definition prepend (f : string → string) (r : option (string * string)) : option (string * string) :=
  p ← r; Some (f p.1, p.2).

Definition hex_value (c : ascii) : option N :=
  if byte_in 48 57 c then Some (N_of_ascii c - 48)%N
  else if byte_in 97 102 c then Some (N_of_ascii c - 87)%N
  else if byte_in 65 70 c then Some (N_of_ascii c - 55)%N
  else None.

Definition getu4 (h1 h2 h3 h4 : ascii) : option N :=
  a ← hex_value h1; b ← hex_value h2; c ← hex_value h3; d ← hex_value h4;
  Some (((a * 16 + b) * 16 + c) * 16 + d)%N.

Definition simple_escape (c : ascii) : option ascii :=
  if bool_decide (c = quote_char) || bool_decide (c = backslash) || bool_decide (c = "/"%char) then Some c
  else if bool_decide (c = "b"%char) then Some "008"%char
  else if bool_decide (c = "f"%char) then Some "012"%char
  else if bool_decide (c = "n"%char) then Some "010"%char
  else if bool_decide (c = "r"%char) then Some "013"%char
  else if bool_decide (c = "t"%char) then Some "009"%char
  else None.

Definition is_surrogate (u : N) : bool := (55296 <=? u)%N && (u <? 57344)%N.

(** [utf16.DecodeRune]. *)
Definition surrogate_pair (u1 u2 : N) : option N :=
  if ((55296 <=? u1) && (u1 <? 56320) && (56320 <=? u2) && (u2 <? 57344))%N
  then Some ((u1 - 55296) * 1024 + (u2 - 56320) + 65536)%N else None.

(** The string that starts after the opening quote, and what follows the
    closing one. *)
Fixpoint unquote (s : string) : option (string * string) :=
  match s with
  | EmptyString => None
  | String c0 s1 =>
      if bool_decide (c0 = quote_char) then Some ("", s1) else
      if bool_decide (c0 = backslash) then
        match s1 with
        | String e s2 =>
            match simple_escape e with
            | Some c => prepend (String c) (unquote s2)
            | None =>
                if negb (bool_decide (e = "u"%char)) then None else
                match s2 with
                | String h1 (String h2 (String h3 (String h4 s3))) =>
                    match getu4 h1 h2 h3 h4 with
                    | None => None
                    | Some u =>
                        if is_surrogate u then
                          match s3 with
                          | String b (String u' (String g1 (String g2 (String g3 (String g4 s4))))) =>
                              match
                                (if bool_decide (b = backslash) && bool_decide (u' = "u"%char)
                                 then getu4 g1 g2 g3 g4 ≫= surrogate_pair u else None)
                              with
                              | Some r => prepend (AppendRune r) (unquote s4)
                              | None => prepend (rune_bytes RuneError) (unquote s3)
                              end
                          | _ => prepend (rune_bytes RuneError) (unquote s3)
                          end
                        else prepend (AppendRune u) (unquote s3)
                    end
                | _ => None
                end
            end
        | EmptyString => None
        end
      else if byte_in 0 31 c0 then None
      else if is_ascii c0 then prepend (String c0) (unquote s1)
      else
        match s1 with
        | EmptyString => None
        | String c1 s2 =>
            if is_rune2 c0 c1 then prepend (rune_bytes (Rune2 c0 c1)) (unquote s2) else
            match s2 with
            | EmptyString => prepend (rune_bytes RuneError) (unquote s1)
            | String c2 s3 =>
                if is_rune3 c0 c1 c2 then prepend (rune_bytes (Rune3 c0 c1 c2)) (unquote s3) else
                match s3 with
                | EmptyString => prepend (rune_bytes RuneError) (unquote s1)
                | String c3 s4 =>
                    if is_rune4 c0 c1 c2 c3
                    then prepend (rune_bytes (Rune4 c0 c1 c2 c3)) (unquote s4)
                    else prepend (rune_bytes RuneError) (unquote s1)
                end
            end
        end
  end.

(** ** Decoding documents *)

Definition is_json_space (c : ascii) : bool :=
  bool_decide (c = " "%char) || bool_decide (c = "009"%char) || bool_decide (c = "010"%char) ||
  bool_decide (c = "013"%char).

Fixpoint skip_space (s : string) : string :=
  match s with
  | String c s' => if is_json_space c then skip_space s' else s
  | EmptyString => EmptyString
  end.

(** The digits at the start, and the rest. *)
Fixpoint take_digits (s : string) : string * string :=
  match s with
  | String c s' => if is_digit c then let '(ds, r) := take_digits s' in (String c ds, r) else ("", s)
  | EmptyString => ("", "")
  end.

Definition some_digits (s : string) : option (string * string) :=
  let '(ds, r) := take_digits s in if bool_decide (ds = "") then None else Some (ds, r).

(** The three parts of a number: no leading zero; digits after a point; an
    exponent with an optional sign. *)
Definition scan_int (s : string) : option (string * string) :=
  match s with
  | String c s' => if bool_decide (c = "0"%char) then Some ("0", s') else some_digits s
  | EmptyString => None
  end.

Definition scan_frac (s : string) : option (string * string) :=
  match s with
  | String c s' => if bool_decide (c = "."%char) then prepend (String c) (some_digits s') else Some ("", s)
  | EmptyString => Some ("", "")
  end.

Definition scan_exp (s : string) : option (string * string) :=
  match s with
  | String c s' =>
      if bool_decide (c = "e"%char) || bool_decide (c = "E"%char) then
        prepend (String c)
          match s' with
          | String g s'' => if bool_decide (g = "+"%char) || bool_decide (g = "-"%char)
                            then prepend (String g) (some_digits s'') else some_digits s'
          | EmptyString => None
          end
      else Some ("", s)
  | EmptyString => Some ("", "")
  end.

Definition scan_unsigned (s : string) : option (string * string) :=
  i ← scan_int s; f ← scan_frac i.2; e ← scan_exp f.2;
  Some (String.app i.1 (String.app f.1 e.1), e.2).

Definition scan_number (s : string) : option (string * string) :=
  match s with
  | String c s' => if bool_decide (c = "-"%char) then prepend (String c) (scan_unsigned s')
                   else scan_unsigned s
  | EmptyString => None
  end.

Fixpoint drop_prefix (p s : string) : option string :=
  match p, s with
  | EmptyString, _ => Some s
  | String a p, String b s => if bool_decide (a = b) then drop_prefix p s else None
  | _, _ => None
  end.

(** [maxNestingDepth]. *)
Definition maxNestingDepth : Z := 10000.

(** The text [s] starts with, up to [rest]. *)
Definition text_before (s rest : string) : string :=
  String.substring 0 (String.length s - String.length rest) s.

(** What follows [c], when that is the next character after space. *)
Definition next (c : ascii) (s : string) : option string :=
  match skip_space s with
  | String c' s' => if bool_decide (c' = c) then Some s' else None
  | EmptyString => None
  end.

(** One value, inside [depth] open ones; the elements of an array, and the
    members of an object with the text of each.  Every call but those on an
    opening bracket and on a member's value is on a shorter string, and the
    fuel is twice the length. *)
Fixpoint value (fuel : nat) (depth : Z) (s : string) : option (json * string) :=
  match fuel with
  | O => None
  | S fuel =>
      match skip_space s with
      | EmptyString => None
      | String c s' =>
          if bool_decide (c = "{"%char) then
            if maxNestingDepth <? depth + 1 then None else
            match next "}" s' with
            | Some r => Some (JObject [], r)
            | None =>
                p ← members fuel (depth + 1) s'; Some (JObject ((λ m, (m.1, m.2.1)) <$> p.1), p.2)
            end
          else if bool_decide (c = "["%char) then
            if maxNestingDepth <? depth + 1 then None else
            match next "]" s' with
            | Some r => Some (JArray [], r)
            | None => p ← elements fuel (depth + 1) s'; Some (JArray p.1, p.2)
            end
          else if bool_decide (c = quote_char) then p ← unquote s'; Some (JString p.1, p.2)
          else if bool_decide (c = "t"%char) then r ← drop_prefix "rue" s'; Some (JBool true, r)
          else if bool_decide (c = "f"%char) then r ← drop_prefix "alse" s'; Some (JBool false, r)
          else if bool_decide (c = "n"%char) then r ← drop_prefix "ull" s'; Some (JNull, r)
          else p ← scan_number (String c s'); Some (JNumber p.1, p.2)
      end
  end
with elements (fuel : nat) (depth : Z) (s : string) : option (list json * string) :=
  match fuel with
  | O => None
  | S fuel =>
      p ← value fuel depth s;
      match next "]" p.2 with
      | Some r => Some ([p.1], r)
      | None => r ← next "," p.2; q ← elements fuel depth r; Some (p.1 :: q.1, q.2)
      end
  end
with members (fuel : nat) (depth : Z) (s : string) :
    option (list (string * (json * string)) * string) :=
  match fuel with
  | O => None
  | S fuel =>
      s ← next quote_char s; k ← unquote s; r ← next ":" k.2; p ← value fuel depth r;
      let m := (k.1, (p.1, text_before (skip_space r) p.2)) in
      match next "}" p.2 with
      | Some r => Some ([m], r)
      | None => r ← next "," p.2; q ← members fuel depth r; Some (m :: q.1, q.2)
      end
  end.

(** The fuel for a text. *)
Definition enough (s : string) : nat := 2 * String.length s + 2.

(** [Decoder.Decode]: the first value, whatever follows it. *)
Definition Decode (s : string) : option json := fst <$> value (enough s) 0 s.

(** [json.Unmarshal]: one value and space. *)
Definition Unmarshal (s : string) : option json :=
  p ← value (enough s) 0 s;
  match skip_space p.2 with EmptyString => Some p.1 | _ => None end.

(** The members of the object a text starts with, with their texts. *)
Definition object_members (s : string) : option (list (string * (json * string))) :=
  s' ← next "{" s;
  match next "}" s' with
  | Some _ => Some []
  | None => fst <$> members (enough s) 1 s'
  end.

(** ** Evaluation *)

Definition quoted (s : string) : string := String quote_char (String.app s (String quote_char "")).

Example print_ok :
  Marshal (JObject [("a<b", JArray [JNumber "1"; JBool true]); ("c", JString (String "010" "x"))]) =
  concat_strings ["{"; quoted (concat_strings ["a"; String backslash "u003cb"]); ":[1,true],"; quoted "c"; ":";
                  quoted (concat_strings [String backslash "nx"]); "}"].
Proof. vm_compute. reflexivity. Qed.

Example decode_ok :
  Decode (concat_strings [" { "; quoted "k"; " : [ null , -1.5e+3 , { } , "; quoted (String backslash "u00e9"); " ] } x"]) =
  Some (JObject [("k", JArray [JNull; JNumber "-1.5e+3"; JObject []; JString (AppendRune 233 "")])]) ∧
  Decode "[01]" = None ∧ Decode "{" = None ∧ Unmarshal "1 x" = None ∧ Unmarshal " 1 " = Some (JNumber "1").
Proof. split_and!; vm_compute; reflexivity. Qed.

(** ** The fuel is enough *)

Abbreviation len := String.length.

(** What follows a value is no longer than the text. *)
Definition shrinks {A} (r : option (A * string)) (s : string) : Prop :=
  ∀ p, r = Some p → (len p.2 ≤ len s)%nat.

Lemma shrinks_prepend f r s : shrinks r s → shrinks (prepend f r) s.
Proof. intros Hr p Hp. apply bind_Some in Hp as (q & Hq & [= <-]). by apply (Hr q). Qed.

Lemma shrinks_le {A} (r : option (A * string)) s t : (len s ≤ len t)%nat → shrinks r s → shrinks r t.
Proof. intros Hle Hr p Hp. specialize (Hr p Hp). lia. Qed.

Lemma shrinks_None {A} s : shrinks (None : option (A * string)) s.
Proof. by intros p. Qed.

Lemma shrinks_Some {A} (x : A) r s : (len r ≤ len s)%nat → shrinks (Some (x, r)) s.
Proof. intros Hle p [= <-]. done. Qed.

Lemma unquote_shrinks s : shrinks (unquote s) s.
Proof.
  remember (len s) as n eqn:Hn. assert (len s ≤ n)%nat as Hle by lia. clear Hn.
  revert s Hle. induction n as [|n IH]; intros s Hle;
    (destruct s as [|c s]; [by apply shrinks_None|]); cbn [String.length] in Hle; [lia|].
  assert (∀ f t, (len t ≤ len s)%nat → shrinks (prepend f (unquote t)) (String c s)) as Hrec.
  { intros f t Ht. apply shrinks_prepend, (shrinks_le _ t); [cbn; lia|]. apply IH. lia. }
  cbn [unquote]. repeat (case_match; subst; try (by apply shrinks_None);
    try (apply Hrec; cbn; lia); try (apply shrinks_Some; cbn; lia)).
Qed.

Lemma skip_space_shrinks s : (len (skip_space s) ≤ len s)%nat.
Proof. induction s as [|c s IH]; [done|]. cbn [skip_space]. destruct (is_json_space c); cbn in *; lia. Qed.

Lemma take_digits_shrinks s : (len (take_digits s).2 ≤ len s)%nat.
Proof.
  induction s as [|c s IH]; [done|]. cbn [take_digits]. destruct (is_digit c); [|done].
  destruct (take_digits s) as [ds r]. cbn in *. lia.
Qed.

Lemma some_digits_shrinks s : shrinks (some_digits s) s.
Proof.
  unfold some_digits. pose proof (take_digits_shrinks s) as Hd. destruct (take_digits s) as [ds r].
  destruct (bool_decide _); [by apply shrinks_None|by apply shrinks_Some].
Qed.

Lemma scan_unsigned_shrinks s : shrinks (scan_unsigned s) s.
Proof.
  assert (∀ s, shrinks (scan_int s) s) as Hi.
  { intros [|c t]; [by apply shrinks_None|]. cbn [scan_int].
    destruct (bool_decide _); [apply shrinks_Some; cbn; lia|apply some_digits_shrinks]. }
  assert (∀ s, shrinks (scan_frac s) s) as Hf.
  { intros [|c t]; [by apply shrinks_Some|]. cbn [scan_frac].
    destruct (bool_decide _); [|by apply shrinks_Some]. apply shrinks_prepend.
    eapply shrinks_le; [|apply some_digits_shrinks]. cbn. lia. }
  assert (∀ s, shrinks (scan_exp s) s) as He.
  { intros [|c t]; [by apply shrinks_Some|]. cbn [scan_exp].
    destruct (_ || _); [|by apply shrinks_Some]. apply shrinks_prepend.
    destruct t as [|g t]; [by apply shrinks_None|]. destruct (_ || _).
    - apply shrinks_prepend. eapply shrinks_le; [|apply some_digits_shrinks]. cbn. lia.
    - eapply shrinks_le; [|apply some_digits_shrinks]. cbn. lia. }
  intros p Hp. apply bind_Some in Hp as (i & Hi' & Hp). apply bind_Some in Hp as (f & Hf' & Hp).
  apply bind_Some in Hp as (e & He' & [= <-]). cbn.
  specialize (Hi s i Hi'). specialize (Hf _ f Hf'). specialize (He _ e He'). lia.
Qed.

Lemma scan_number_shrinks s : shrinks (scan_number s) s.
Proof.
  destruct s as [|c s]; [by apply shrinks_None|]. cbn [scan_number].
  destruct (bool_decide _); [|apply scan_unsigned_shrinks]. apply shrinks_prepend.
  eapply shrinks_le; [|apply scan_unsigned_shrinks]. cbn. lia.
Qed.

Lemma drop_prefix_shrinks p s r : drop_prefix p s = Some r → (len r ≤ len s)%nat.
Proof.
  revert s. induction p as [|a p IH]; intros s Hr; [by injection Hr as <-|].
  destruct s as [|b s]; [done|]. cbn in Hr. destruct (bool_decide _); [|done].
  specialize (IH s Hr). cbn. lia.
Qed.

Lemma next_shrinks c s r : next c s = Some r → (len r < len s)%nat.
Proof.
  unfold next. pose proof (skip_space_shrinks s) as Hs. destruct (skip_space s) as [|c' s']; [done|].
  cbn in Hs. destruct (bool_decide _); [|done]. intros [= <-]. lia.
Qed.

Lemma json_shrinks fuel :
  (∀ d s, shrinks (value fuel d s) s) ∧ (∀ d s, shrinks (elements fuel d s) s) ∧
  (∀ d s, shrinks (members fuel d s) s).
Proof.
  induction fuel as [|fuel (IHv & IHe & IHm)]; [by split_and!; intros; apply shrinks_None|].
  split_and!; intros d s.
  - cbn [value]. pose proof (skip_space_shrinks s) as Hs.
    destruct (skip_space s) as [|c s'] eqn:E; [by apply shrinks_None|]. cbn [String.length] in Hs.
    assert (∀ {A} (r : option (A * string)) (f : A → json), shrinks r (String c s') →
      shrinks (p ← r; Some (f p.1, p.2)) s) as Hbind.
    { intros A r f Hr p Hp. apply bind_Some in Hp as (q & Hq & [= <-]). specialize (Hr q Hq).
      cbn in *. lia. }
    assert (∀ {A} (r : option (A * string)), shrinks r s' → shrinks r (String c s')) as Hcons
      by (intros A r; apply shrinks_le; cbn; lia).
    assert (∀ (r : option string) j, (∀ x, r = Some x → (len x ≤ len s')%nat) →
      shrinks (r ← r; Some (j : json, r)) s) as Hlit.
    { intros r j Hr p Hp. apply bind_Some in Hp as (q & Hq & [= <-]). specialize (Hr q Hq). cbn. lia. }
    repeat (case_match; subst; try (by apply shrinks_None)).
    + apply shrinks_Some. apply next_shrinks in H1. lia.
    + apply (Hbind _ _ (λ l, JObject ((λ m, (m.1, m.2.1)) <$> l))), Hcons, IHm.
    + apply shrinks_Some. apply next_shrinks in H2. lia.
    + apply (Hbind _ _ JArray), Hcons, IHe.
    + apply (Hbind _ _ JString), Hcons, unquote_shrinks.
    + apply Hlit, drop_prefix_shrinks.
    + apply Hlit, drop_prefix_shrinks.
    + apply Hlit, drop_prefix_shrinks.
    + apply (Hbind _ _ JNumber), scan_number_shrinks.
  - cbn [elements]. intros p Hp. apply bind_Some in Hp as (q & Hq & Hp).
    pose proof (IHv d s q Hq) as H1. destruct (next "]" q.2) as [r|] eqn:E.
    + injection Hp as <-. apply next_shrinks in E. cbn. lia.
    + apply bind_Some in Hp as (r & Hr & Hp). apply bind_Some in Hp as (q' & Hq' & [= <-]).
      apply next_shrinks in Hr. pose proof (IHe d r q' Hq'). cbn. lia.
  - cbn [members]. intros p Hp. apply bind_Some in Hp as (s' & Hs & Hp).
    apply bind_Some in Hp as (k & Hk & Hp). apply bind_Some in Hp as (r & Hr & Hp).
    apply bind_Some in Hp as (v & Hv & Hp). cbv zeta in Hp.
    apply next_shrinks in Hs, Hr. pose proof (unquote_shrinks s' k Hk). pose proof (IHv d r v Hv).
    destruct (next "}" v.2) as [t|] eqn:E.
    + injection Hp as <-. apply next_shrinks in E. cbn. lia.
    + apply bind_Some in Hp as (t & Ht & Hp). apply bind_Some in Hp as (q' & Hq' & [= <-]).
      apply next_shrinks in Ht. pose proof (IHm d t q' Hq'). cbn. lia.
Qed.

Lemma bind_value_ext {A B} (r : option A) (f g : A → option B) :
  (∀ x, r = Some x → f x = g x) → (x ← r; f x) = (x ← r; g x).
Proof. destruct r as [x|]; [|done]. intros H. by apply H. Qed.

(** One more unit of fuel than enough changes nothing. *)
Lemma json_fuel fuel :
  (∀ d s, (2 * len s + 2 ≤ fuel)%nat → value fuel d s = value (S fuel) d s) ∧
  (∀ d s, (2 * len s + 3 ≤ fuel)%nat → elements fuel d s = elements (S fuel) d s) ∧
  (∀ d s, (2 * len s + 3 ≤ fuel)%nat → members fuel d s = members (S fuel) d s).
Proof.
  induction fuel as [|fuel (IHv & IHe & IHm)]; [split_and!; intros; lia|].
  split_and!; intros d s Hl.
  - change (value (S fuel) d s) with (ltac:(let t := eval cbn [value] in (value (S fuel) d s) in exact t)).
    change (value (S (S fuel)) d s) with
      (ltac:(let t := eval cbn [value] in (value (S (S fuel)) d s) in exact t)).
    pose proof (skip_space_shrinks s) as Hs. destruct (skip_space s) as [|c s']; [done|].
    cbn [String.length] in Hs. rewrite IHe, IHm by lia. done.
  - change (elements (S (S fuel)) d s) with
      (ltac:(let t := eval cbn [elements] in (elements (S (S fuel)) d s) in exact t)).
    cbn [elements]. rewrite (IHv d s) by lia. apply bind_value_ext. intros p Hp.
    destruct (json_shrinks (S fuel)) as (Hv & _ & _). pose proof (Hv d s p Hp).
    destruct (next "]" p.2); [done|]. apply bind_value_ext. intros r Hr. apply next_shrinks in Hr.
    by rewrite IHe by lia.
  - cbn [members]. apply bind_value_ext. intros s' Hs'. apply next_shrinks in Hs'. apply bind_value_ext. intros k Hk.
    apply unquote_shrinks in Hk. apply bind_value_ext. intros r Hr. apply next_shrinks in Hr.
    rewrite (IHv d r) by lia. apply bind_value_ext. intros p Hp.
    destruct (json_shrinks (S fuel)) as (Hv & _ & _). pose proof (Hv d r p Hp).
    destruct (next "}" p.2); [done|]. apply bind_value_ext. intros t Ht. apply next_shrinks in Ht.
    by rewrite IHm by lia.
Qed.

Lemma value_fuel n d s : (enough s ≤ n)%nat → value n d s = value (enough s) d s.
Proof.
  induction 1 as [|n Hn IH]; [done|]. rewrite <-IH. symmetry.
  destruct (json_fuel n) as (Hv & _ & _). apply Hv. unfold enough in Hn. lia.
Qed.

Lemma members_fuel n d s : (enough s + 1 ≤ n)%nat → members n d s = members (enough s + 1) d s.
Proof.
  induction 1 as [|n Hn IH]; [done|]. rewrite <-IH. symmetry.
  destruct (json_fuel n) as (_ & _ & Hm). apply Hm. unfold enough in Hn. lia.
Qed.

(** ** Strings read back *)

Definition rune_ok (r : rune) : Prop :=
  match r with
  | Rune1 c0 => is_ascii c0 = true
  | Rune2 c0 c1 => is_rune2 c0 c1 = true
  | Rune3 c0 c1 c2 => is_rune3 c0 c1 c2 = true
  | Rune4 c0 c1 c2 c3 => is_rune4 c0 c1 c2 c3 = true
  | RuneError => True
  end.

Lemma runes_ok s : Forall rune_ok (runes s).
Proof.
  remember (len s) as n eqn:Hn. assert (len s ≤ n)%nat as Hle by lia. clear Hn.
  revert s Hle. induction n as [|n IH]; intros s Hle; (destruct s as [|c s]; [by constructor|]);
    cbn [String.length] in Hle; [lia|].
  cbn [runes]. repeat (case_match; subst); (constructor; [done|]); try (by constructor);
    apply IH; cbn [String.length] in *; lia.
Qed.

Lemma byte_in_spec lo hi c : byte_in lo hi c = true ↔ (lo ≤ N_of_ascii c ≤ hi)%N.
Proof. unfold byte_in. rewrite andb_true_iff, !N.leb_le. done. Qed.

(** A byte that starts a longer rune is no special character. *)
Lemma high_byte c :
  (128 ≤ N_of_ascii c)%N →
  bool_decide (c = quote_char) = false ∧ bool_decide (c = backslash) = false ∧
  byte_in 0 31 c = false ∧ is_ascii c = false.
Proof.
  intros Hc. split_and!.
  - apply bool_decide_eq_false_2. intros ->. by vm_compute in Hc.
  - apply bool_decide_eq_false_2. intros ->. by vm_compute in Hc.
  - apply not_true_iff_false. rewrite byte_in_spec. lia.
  - unfold is_ascii. apply N.ltb_ge. lia.
Qed.

Lemma rune2_first c0 c1 : is_rune2 c0 c1 = true → (194 ≤ N_of_ascii c0 ≤ 223)%N.
Proof. unfold is_rune2. rewrite andb_true_iff, !byte_in_spec. lia. Qed.

Lemma rune3_first c0 c1 c2 : is_rune3 c0 c1 c2 = true → (224 ≤ N_of_ascii c0 ≤ 239)%N.
Proof.
  unfold is_rune3. rewrite !andb_true_iff, !orb_true_iff, !andb_true_iff, !byte_in_spec. lia.
Qed.

Lemma rune4_first c0 c1 c2 c3 : is_rune4 c0 c1 c2 c3 = true → (240 ≤ N_of_ascii c0)%N.
Proof.
  unfold is_rune4. rewrite !andb_true_iff, !orb_true_iff, !andb_true_iff, !byte_in_spec. lia.
Qed.

Lemma unquote_rune r t :
  rune_ok r → unquote (escape_rune r t) = prepend (rune_bytes r) (unquote t).
Proof.
  destruct r as [c0|c0 c1|c0 c1 c2|c0 c1 c2 c3|]; intros Hr; cbn [rune_ok] in Hr.
  - revert Hr. destruct c0 as [[] [] [] [] [] [] [] []]; intros Hr; try done; reflexivity.
  - pose proof (rune2_first _ _ Hr) as H0. destruct (high_byte c0) as (E1 & E2 & E3 & E4); [lia|].
    cbn [escape_rune rune_bytes unquote]. by rewrite E1, E2, E3, E4, Hr.
  - pose proof (rune3_first _ _ _ Hr) as H0. destruct (high_byte c0) as (E1 & E2 & E3 & E4); [lia|].
    assert (is_rune2 c0 c1 = false) as E5.
    { apply not_true_iff_false. intros ?%rune2_first. lia. }
    cbn [escape_rune]. destruct (_ && _ && _) eqn:E.
    + apply andb_true_iff in E as [[H1%bool_decide_eq_true H2%bool_decide_eq_true]%andb_true_iff H3].
      apply byte_in_spec in H3. assert (c2 = byte 168 ∨ c2 = byte 169) as Hc2.
      { assert (N_of_ascii c2 = 168 ∨ N_of_ascii c2 = 169)%N as [Hc|Hc] by lia;
          [left|right]; rewrite <-Hc; symmetry; apply ascii_N_embedding. }
      destruct Hc2; subst; reflexivity.
    + cbn [rune_bytes unquote]. by rewrite E1, E2, E3, E4, E5, Hr.
  - pose proof (rune4_first _ _ _ _ Hr) as H0. destruct (high_byte c0) as (E1 & E2 & E3 & E4); [lia|].
    assert (is_rune2 c0 c1 = false) as E5.
    { apply not_true_iff_false. intros ?%rune2_first. lia. }
    assert (is_rune3 c0 c1 c2 = false) as E6.
    { apply not_true_iff_false. intros ?%rune3_first. lia. }
    cbn [escape_rune rune_bytes unquote]. by rewrite E1, E2, E3, E4, E5, E6, Hr.
  - reflexivity.
Qed.

Lemma unquote_escape s t :
  unquote (foldr escape_rune (String quote_char t) (runes s)) = Some (ToValid s, t).
Proof.
  unfold ToValid. induction (runes_ok s) as [|r rs Hr _ IH]; [reflexivity|].
  cbn [foldr]. rewrite unquote_rune by done. by rewrite IH.
Qed.

(** A valid string is read back as it is. *)
Lemma ToValid_id s : ValidString s = true → ToValid s = s.
Proof.
  unfold ToValid. remember (len s) as n eqn:Hn. assert (len s ≤ n)%nat as Hle by lia. clear Hn.
  revert s Hle. induction n as [|n IH]; intros s Hle; (destruct s as [|c s]; [done|]);
    cbn [String.length] in Hle; [lia|].
  cbn [runes ValidString]. intros Hv.
  repeat (case_match; subst; try done); cbn [foldr rune_bytes String.length] in *;
    repeat f_equal; apply IH; try (by apply andb_true_iff in Hv as [_ ?]); try done; lia.
Qed.

(** ** Numbers read back *)

(** The text after a value: nothing, or a separator. *)
Definition closed (s : string) : Prop :=
  match s with
  | EmptyString => True
  | String c _ => c = ","%char ∨ c = "]"%char ∨ c = "}"%char ∨ c = "010"%char
  end.

Lemma take_digits_app ds rest :
  string_forallb is_digit ds = true → closed rest → take_digits (String.app ds rest) = (ds, rest).
Proof.
  intros Hds Hr. induction ds as [|c ds IH].
  - destruct rest as [|c rest]; [done|].
    change (String.app "" (String c rest)) with (String c rest). cbn [take_digits].
    cbn in Hr. by destruct Hr as [-> | [-> | [-> | ->]]].
  - cbn [string_forallb] in Hds. apply andb_true_iff in Hds as [Hc Hds].
    change (String.app (String c ds) rest) with (String c (String.app ds rest)).
    cbn [take_digits]. by rewrite Hc, IH.
Qed.

(** [strconv.FormatInt] of a value of 64 bits, signed or not. *)
Definition FormatInt (z : Z) : string :=
  if z <? 0 then String "-" (print_nat 20 (- z) "") else print_nat 20 z "".

Definition JInt (z : Z) : json := JNumber (FormatInt z).

Lemma digit_char_spec d : 0 ≤ d ≤ 9 → is_digit (digit_char d) = true ∧ (d ≠ 0 → digit_char d ≠ "0"%char).
Proof.
  intros Hd. assert (∃ n : nat, d = Z.of_nat n ∧ (n ≤ 9)%nat) as (n & -> & Hn)
    by (exists (Z.to_nat d); lia).
  do 10 (destruct n as [|n]; [by vm_compute|]). lia.
Qed.

Lemma mod10_digit n : 0 ≤ n mod 10 ≤ 9.
Proof. pose proof (Z.mod_pos_bound n 10 ltac:(lia)). lia. Qed.

Lemma print_nat_digits fuel n acc :
  string_forallb is_digit acc = true → string_forallb is_digit (print_nat fuel n acc) = true.
Proof.
  revert n acc. induction fuel as [|fuel IH]; intros n acc Hacc; [done|]. cbn [print_nat].
  assert (string_forallb is_digit (String (digit_char (n mod 10)) acc) = true) as Ha.
  { cbn [string_forallb]. by rewrite (proj1 (digit_char_spec _ (mod10_digit n))). }
  destruct (_ =? 0); [done|by apply IH].
Qed.

(** No leading zero. *)
Lemma print_nat_head fuel n acc :
  0 < n < 10 ^ Z.of_nat fuel → ∃ c s, print_nat fuel n acc = String c s ∧ c ≠ "0"%char.
Proof.
  revert n acc. induction fuel as [|fuel IH]; intros n acc Hn; [cbn in Hn; lia|]. cbn [print_nat].
  pose proof (Z.div_mod n 10 ltac:(lia)). destruct (Z.eqb_spec (n / 10) 0) as [H0|H0].
  - eexists _, _. split; [reflexivity|]. apply (digit_char_spec _ (mod10_digit n)). lia.
  - apply IH. rewrite Nat2Z.inj_succ, Z.pow_succ_r in Hn by lia. split.
    + pose proof (Z.div_pos n 10 ltac:(lia) ltac:(lia)). lia.
    + apply Z.div_lt_upper_bound; lia.
Qed.

Lemma digit_not_dash c : is_digit c = true → bool_decide (c = "-"%char) = false ∧ is_json_space c = false.
Proof. intros Hc. split; destruct c as [[] [] [] [] [] [] [] []]; done. Qed.

(** The digits of a number, with what follows. *)
Lemma scan_unsigned_print n rest :
  0 ≤ n < 10 ^ 20 → closed rest →
  scan_unsigned (String.app (print_nat 20 n "") rest) = Some (print_nat 20 n "", rest) ∧
  ∃ c s, print_nat 20 n "" = String c s ∧ is_digit c = true.
Proof.
  intros Hn Hr.
  assert (∃ c s, print_nat 20 n "" = String c s ∧ is_digit c = true) as (c & s & Hs & Hc).
  { destruct (print_nat_cons 19 n "") as (c & s & Hs). exists c, s. split; [done|].
    pose proof (print_nat_digits 20 n "" eq_refl) as Hd. rewrite Hs in Hd. cbn in Hd.
    by apply andb_true_iff in Hd as [? _]. }
  split; [|by exists c, s].
  assert (scan_int (String.app (print_nat 20 n "") rest) = Some (print_nat 20 n "", rest)) as Hi.
  { destruct (decide (n = 0)) as [->|Hne]; [reflexivity|].
    destruct (print_nat_head 20 n "") as (c' & s' & Hs' & Hc'); [lia|].
    pose proof (take_digits_app _ rest (print_nat_digits 20 n "" eq_refl) Hr) as Ht.
    rewrite Hs' in Ht |- *. change (String.app (String c' s') rest) with (String c' (String.app s' rest)) in *.
    cbn [scan_int]. rewrite bool_decide_eq_false_2 by done. unfold some_digits. rewrite Ht.
    by rewrite bool_decide_eq_false_2. }
  unfold scan_unsigned. rewrite Hi. cbn [mbind option_bind snd fst].
  assert (scan_frac rest = Some ("", rest)) as ->.
  { destruct rest as [|c' r]; [done|]. cbn in Hr |- *.
    by destruct Hr as [-> | [-> | [-> | ->]]]. }
  cbn [mbind option_bind snd fst].
  assert (scan_exp rest = Some ("", rest)) as ->.
  { destruct rest as [|c' r]; [done|]. cbn in Hr |- *.
    by destruct Hr as [-> | [-> | [-> | ->]]]. }
  cbn [mbind option_bind snd fst]. by rewrite !string_app_nil.
Qed.

Lemma scan_FormatInt z rest :
  Z.abs z < 10 ^ 20 → closed rest →
  ∃ c s, FormatInt z = String c s ∧ (is_digit c = true ∨ c = "-"%char) ∧
  scan_number (String.app (FormatInt z) rest) = Some (FormatInt z, rest).
Proof.
  intros Hz Hr. unfold FormatInt. destruct (Z.ltb_spec z 0) as [Hneg|Hpos].
  - destruct (scan_unsigned_print (- z) rest) as [Hs _]; [lia|done|].
    eexists _, _. split; [reflexivity|]. split; [by right|].
    set (t := print_nat 20 (- z) "") in *.
    change (String.app (String "-" t) rest) with (String "-" (String.app t rest)).
    cbn [scan_number]. rewrite bool_decide_eq_true_2 by done. by rewrite Hs.
  - destruct (scan_unsigned_print z rest) as [Hs (c & s & Hc & Hd)]; [lia|done|].
    exists c, s. split; [done|]. split; [by left|]. rewrite Hc in *.
    change (String.app (String c s) rest) with (String c (String.app s rest)) in *.
    cbn [scan_number]. destruct (digit_not_dash c Hd) as [-> _]. done.
Qed.

(** ** Documents read back *)

(** The documents the encoder is given: integers of 64 bits. *)
Fixpoint doc_ok (j : json) : Prop :=
  match j with
  | JNumber literal => ∃ z, Z.abs z < 10 ^ 20 ∧ literal = FormatInt z
  | JArray l => foldr (λ x P, doc_ok x ∧ P) True l
  | JObject m => foldr (λ p P, doc_ok p.2 ∧ P) True m
  | _ => True
  end.

(** How deep the brackets go. *)
Fixpoint depth (j : json) : Z :=
  match j with
  | JArray l => 1 + foldr (λ x n, Z.max (depth x) n) 0 l
  | JObject m => 1 + foldr (λ p n, Z.max (depth p.2) n) 0 m
  | _ => 0
  end.

(** What a reader sees: U+FFFD for the bytes that are not UTF-8. *)
Fixpoint sanitize (j : json) : json :=
  match j with
  | JString s => JString (ToValid s)
  | JArray l => JArray (map sanitize l)
  | JObject m => JObject (map (λ p, (ToValid p.1, sanitize p.2)) m)
  | j => j
  end.

(** A printer that only adds in front. *)
Definition linear (f : string → string) : Prop := ∀ acc, f acc = String.app (f "") acc.

Lemma linear_compose f g : linear f → linear g → linear (λ acc, f (g acc)).
Proof.
  intros Hf Hg acc. rewrite Hf, (Hf (g "")), Hg, string_app_assoc. done.
Qed.

Lemma linear_const s : linear (String.app s).
Proof. intros acc. by rewrite string_app_nil. Qed.

Lemma linear_cons c : linear (String c).
Proof. done. Qed.

Lemma linear_escape r : linear (escape_rune r).
Proof.
  intros acc. destruct r; cbn [escape_rune]; repeat case_match; reflexivity.
Qed.

Lemma linear_quote s : linear (quote s).
Proof.
  apply (linear_compose (String quote_char) (λ acc, foldr escape_rune (String quote_char acc) (runes s)));
    [apply linear_cons|].
  induction (runes s) as [|r rs IH]; [apply linear_cons|].
  apply (linear_compose (escape_rune r) (λ acc, foldr escape_rune (String quote_char acc) rs));
    [apply linear_escape|apply IH].
Qed.

Lemma linear_list {A} (pr : A → string → string) l :
  Forall (λ x, linear (pr x)) l → linear (print_list pr l).
Proof.
  induction 1 as [|x l Hx Hl IH]; [done|]. destruct l as [|y l]; [exact Hx|].
  apply (linear_compose (pr x) (λ acc, String "," (print_list pr (y :: l) acc))); [done|].
  apply (linear_compose (String ",") (print_list pr (y :: l))); [apply linear_cons|done].
Qed.

Lemma linear_print j : linear (print j).
Proof.
  induction j as [|b|s|s|l IH|m IH] using json_induction; cbn [print].
  - apply (linear_const "null").
  - apply (linear_const (if b then "true" else "false")).
  - apply linear_const.
  - apply linear_quote.
  - apply (linear_compose (λ acc, String "[" (print_list print l acc)) (String "]")); [|apply linear_cons].
    apply (linear_compose (String "[") (print_list print l)); [apply linear_cons|].
    by apply linear_list.
  - apply (linear_compose
      (λ acc, String "{" (print_list (λ p acc, quote p.1 (String ":" (print p.2 acc))) m acc)) (String "}"));
      [|apply linear_cons].
    apply (linear_compose (String "{") (print_list (λ p acc, quote p.1 (String ":" (print p.2 acc))) m));
      [apply linear_cons|].
    apply linear_list. eapply Forall_impl; [exact IH|]. intros p Hp. cbn in Hp.
    apply (linear_compose (quote p.1) (λ acc, String ":" (print p.2 acc))); [apply linear_quote|].
    apply (linear_compose (String ":") (print p.2)); [apply linear_cons|done].
Qed.

Lemma length_string_app s t : len (String.app s t) = (len s + len t)%nat.
Proof. induction s as [|c s IH]; [done|]. exact (f_equal S IH). Qed.

Lemma text_before_app s t : text_before (String.app s t) t = s.
Proof.
  unfold text_before. rewrite length_string_app. replace (len s + len t - len t)%nat with (len s) by lia.
  induction s as [|c s IH]; [by destruct t|]. exact (f_equal (String c) IH).
Qed.

(** A printed value starts with no space. *)
Lemma print_head j rest :
  doc_ok j → ∃ c s, print j rest = String c s ∧ is_json_space c = false ∧
    c ≠ "]"%char ∧ c ≠ "}"%char.
Proof.
  destruct j as [|b|s|s|l|m]; intros Hj; cbn [print]; try (by eexists _, _).
  - destruct b; by eexists _, _.
  - destruct Hj as (z & Hz & ->). destruct (scan_FormatInt z "" Hz I) as (c & s & -> & Hc & _).
    eexists c, _. split; [reflexivity|]. destruct Hc as [Hc| ->]; [|done].
    destruct (digit_not_dash c Hc) as [_ Hsp]. split; [done|].
    split; intros ->; done.
Qed.

Lemma skip_space_print j rest : doc_ok j → skip_space (print j rest) = print j rest.
Proof. intros Hj. destruct (print_head j rest Hj) as (c & s & -> & Hc & _). cbn. by rewrite Hc. Qed.

(** [j] is read back, given fuel. *)
Definition reads (j : json) : Prop :=
  ∀ d rest, doc_ok j → d + depth j ≤ maxNestingDepth → closed rest →
  ∃ n, ∀ fuel, (n ≤ fuel)%nat → value fuel d (print j rest) = Some (sanitize j, rest).

Lemma next_here c s : is_json_space c = false → next c (String c s) = Some s.
Proof. intros Hc. unfold next. cbn. by rewrite Hc, bool_decide_eq_true_2. Qed.

Lemma next_other c c' s : is_json_space c' = false → c' ≠ c → next c (String c' s) = None.
Proof. intros Hc Hne. unfold next. cbn. by rewrite Hc, bool_decide_eq_false_2. Qed.

Lemma next_print c j rest :
  doc_ok j → (c = "]"%char ∨ c = "}"%char) → next c (print j rest) = None.
Proof.
  intros Hj Hc. destruct (print_head j rest Hj) as (c' & s & -> & Hsp & H1 & H2).
  apply next_other; [done|]. by destruct Hc as [-> | ->].
Qed.

(** A positive amount of fuel. *)
Lemma fuel_succ (P : nat → Prop) n :
  (∀ fuel, (n ≤ fuel)%nat → P (S fuel)) → ∃ n, ∀ fuel, (n ≤ fuel)%nat → P fuel.
Proof. intros H. exists (S n). intros [|fuel] Hf; [lia|]. apply H. lia. Qed.

Lemma reads_elements d l rest :
  Forall reads l → Forall doc_ok l → Forall (λ x, d + depth x ≤ maxNestingDepth) l → l ≠ [] →
  ∃ n, ∀ fuel, (n ≤ fuel)%nat →
    elements fuel d (print_list print l (String "]" rest)) = Some (map sanitize l, rest).
Proof.
  intros Hr Hok Hd. induction Hr as [|x l Hx Hl IH]; intros Hne; [done|].
  apply Forall_cons in Hok as [Hxok Hok]. apply Forall_cons in Hd as [Hxd Hd].
  destruct l as [|y l].
  - destruct (Hx d (String "]" rest)) as [n Hn]; [done|done|by right; left|].
    apply (fuel_succ _ n). intros fuel Hf. cbn [print_list elements]. rewrite Hn by done.
    cbn [mbind option_bind snd fst]. by rewrite next_here.
  - destruct (IH Hok Hd ltac:(done)) as [n Hn].
    set (tail := print_list print (y :: l) (String "]" rest)) in *.
    destruct (Hx d (String "," tail)) as [n' Hn']; [done|done|by left|].
    apply (fuel_succ _ (Nat.max n n')). intros fuel Hf.
    change (print_list print (x :: y :: l) (String "]" rest)) with (print x (String "," tail)).
    cbn [elements]. rewrite Hn' by lia. cbn [mbind option_bind snd fst].
    rewrite next_other, next_here by done. cbn [mbind option_bind snd fst].
    by rewrite Hn by lia.
Qed.

Definition print_member (p : string * json) (acc : string) : string :=
  quote p.1 (String ":" (print p.2 acc)).

(** What the decoder makes of a member: its text too. *)
Definition read_member (p : string * json) : string * (json * string) :=
  (ToValid p.1, (sanitize p.2, Marshal p.2)).

Lemma next_quote s acc :
  next quote_char (quote s acc) = Some (foldr escape_rune (String quote_char acc) (runes s)).
Proof. by apply next_here. Qed.

Lemma text_of_print j rest :
  doc_ok j → text_before (skip_space (print j rest)) rest = Marshal j.
Proof. intros Hj. by rewrite skip_space_print, linear_print, text_before_app. Qed.

Lemma reads_members d m rest :
  Forall (λ p, reads p.2) m → Forall (λ p, doc_ok p.2) m →
  Forall (λ p, d + depth p.2 ≤ maxNestingDepth) m → m ≠ [] →
  ∃ n, ∀ fuel, (n ≤ fuel)%nat →
    members fuel d (print_list print_member m (String "}" rest)) = Some (read_member <$> m, rest).
Proof.
  intros Hr Hok Hd. induction Hr as [|x m Hx Hm IH]; intros Hne; [done|].
  apply Forall_cons in Hok as [Hxok Hok]. apply Forall_cons in Hd as [Hxd Hd].
  destruct m as [|y m].
  - destruct (Hx d (String "}" rest)) as [n Hn]; [done|done|by right; right; left|].
    apply (fuel_succ _ n). intros fuel Hf. cbn [print_list]. unfold print_member. cbn [members].
    rewrite next_quote. cbn [mbind option_bind]. rewrite unquote_escape.
    cbn [mbind option_bind snd fst]. rewrite next_here by done. cbn [mbind option_bind snd fst].
    rewrite Hn by done. cbn [mbind option_bind snd fst]. rewrite text_of_print by done.
    by rewrite next_here.
  - destruct (IH Hok Hd ltac:(done)) as [n Hn].
    set (tail := print_list print_member (y :: m) (String "}" rest)) in *.
    destruct (Hx d (String "," tail)) as [n' Hn']; [done|done|by left|].
    apply (fuel_succ _ (Nat.max n n')). intros fuel Hf.
    change (print_list print_member (x :: y :: m) (String "}" rest))
      with (quote x.1 (String ":" (print x.2 (String "," tail)))).
    cbn [members]. rewrite next_quote. cbn [mbind option_bind]. rewrite unquote_escape.
    cbn [mbind option_bind snd fst]. rewrite next_here by done. cbn [mbind option_bind snd fst].
    rewrite Hn' by lia. cbn [mbind option_bind snd fst]. rewrite text_of_print by done.
    rewrite next_other, next_here by done. cbn [mbind option_bind snd fst].
    by rewrite Hn by lia.
Qed.

Lemma foldr_and {A} (f : A → Prop) l : foldr (λ x P, f x ∧ P) True l → Forall f l.
Proof. induction l as [|x l IH]; [by constructor|]. intros [Hx Hl]. constructor; [done|by apply IH]. Qed.

Lemma foldr_max {A} (f : A → Z) d b l :
  d + foldr (λ x n, Z.max (f x) n) 0 l ≤ b → Forall (λ x, d + f x ≤ b) l.
Proof.
  induction l as [|x l IH]; [by constructor|]. cbn. intros Hl. constructor; [lia|]. apply IH. lia.
Qed.

Lemma reads_all j : reads j.
Proof.
  induction j as [|b|s|s|l IH|m IH] using json_induction; intros d rest Hok Hd Hr.
  - apply (fuel_succ _ 0). intros fuel _. reflexivity.
  - apply (fuel_succ _ 0). intros fuel _. destruct b; reflexivity.
  - apply (fuel_succ _ 0). intros fuel _. cbn [print]. destruct Hok as (z & Hz & ->).
    destruct (scan_FormatInt z rest Hz Hr) as (c & s & Hs & Hc & Hscan). rewrite Hs in *.
    change (String.app (String c s) rest) with (String c (String.app s rest)) in *.
    assert (is_json_space c = false ∧ c ≠ "{"%char ∧ c ≠ "["%char ∧ c ≠ quote_char ∧
      c ≠ "t"%char ∧ c ≠ "f"%char ∧ c ≠ "n"%char) as (H0 & H1 & H2 & H3 & H4 & H5 & H6).
    { destruct Hc as [Hc| ->]; [|by split_and!].
      split; [by apply digit_not_dash|]. split_and!; intros ->; done. }
    cbn [value skip_space]. rewrite H0. rewrite !bool_decide_eq_false_2 by done. by rewrite Hscan.
  - apply (fuel_succ _ 0). intros fuel _. cbn [print]. unfold quote.
    cbn [value skip_space]. change (is_json_space quote_char) with false. cbn iota.
    rewrite !bool_decide_eq_false_2 by done. rewrite bool_decide_eq_true_2 by done.
    by rewrite unquote_escape.
  - cbn [print depth doc_ok] in *. apply foldr_and in Hok.
    assert (Forall (λ x, d + 1 + depth x ≤ maxNestingDepth) l) as Hl by (apply foldr_max; lia).
    assert ((maxNestingDepth <? d + 1) = false) as Hn.
    { apply Z.ltb_ge. destruct Hl as [|x l Hx _]; [cbn in Hd; lia|].
      assert (0 ≤ foldr (λ x n, Z.max (depth x) n) 0 (x :: l)); [|lia].
      clear. induction (x :: l) as [|y l' IH]; cbn; lia. }
    destruct l as [|x l].
    + apply (fuel_succ _ 0). intros fuel _. cbn [value print_list skip_space].
      change (is_json_space "[") with false. cbn iota.
      rewrite bool_decide_eq_false_2, bool_decide_eq_true_2 by done. rewrite Hn.
      by rewrite next_here.
    + destruct (reads_elements (d + 1) (x :: l) rest IH Hok Hl ltac:(done)) as [n Hf].
      apply (fuel_succ _ n). intros fuel Hfu. cbn [value skip_space].
      change (is_json_space "[") with false. cbn iota.
      rewrite bool_decide_eq_false_2, bool_decide_eq_true_2 by done. rewrite Hn.
      assert (∀ acc, ∃ acc', print_list print (x :: l) acc = print x acc') as Hhd
        by (intros acc; destruct l; by eexists).
      destruct (Hhd (String "]" rest)) as [acc' Hacc].
      apply Forall_cons in Hok as [Hx _]. rewrite Hacc, next_print by (done || by left).
      rewrite <-Hacc, Hf by done. done.
  - cbn [print depth doc_ok] in *. apply foldr_and in Hok.
    assert (Forall (λ p, d + 1 + depth p.2 ≤ maxNestingDepth) m) as Hl
      by (apply (foldr_max (λ p, depth p.2)); lia).
    assert ((maxNestingDepth <? d + 1) = false) as Hn.
    { apply Z.ltb_ge.
      assert (0 ≤ foldr (λ p n, Z.max (depth p.2) n) 0 m); [|lia].
      clear. induction m as [|y l' IH]; cbn; lia. }
    change (λ p acc, quote p.1 (String ":" (print p.2 acc))) with print_member.
    destruct m as [|x m].
    + apply (fuel_succ _ 0). intros fuel _. cbn [value print_list skip_space].
      change (is_json_space "{") with false. cbn iota.
      rewrite bool_decide_eq_true_2 by done. rewrite Hn. by rewrite next_here.
    + destruct (reads_members (d + 1) (x :: m) rest IH Hok Hl ltac:(done)) as [n Hf].
      apply (fuel_succ _ n). intros fuel Hfu. cbn [value skip_space].
      change (is_json_space "{") with false. cbn iota.
      rewrite bool_decide_eq_true_2 by done. rewrite Hn.
      assert (∀ acc, ∃ t, print_list print_member (x :: m) acc = String quote_char t) as Hhd
        by (intros acc; destruct m; by eexists).
      destruct (Hhd (String "}" rest)) as [t Ht]. rewrite Ht, next_other by done.
      rewrite <-Ht, Hf by done. cbn [mbind option_bind fst snd].
      do 3 f_equal. rewrite <-list_fmap_compose. reflexivity.
Qed.

(** ** Properties of the codec *)

Lemma value_print j rest :
  doc_ok j → depth j ≤ maxNestingDepth → closed rest →
  value (enough (print j rest)) 0 (print j rest) = Some (sanitize j, rest).
Proof.
  intros Hok Hd Hr. destruct (reads_all j 0 rest Hok ltac:(lia) Hr) as [n Hn].
  rewrite <-(value_fuel (Nat.max n (enough (print j rest)))) by lia. apply Hn. lia.
Qed.

Lemma Decode_Encode j :
  doc_ok j → depth j ≤ maxNestingDepth → Decode (Encode j) = Some (sanitize j).
Proof.
  intros Hok Hd. unfold Decode, Encode. rewrite value_print; [done..|]. by right; right; right.
Qed.

Lemma Unmarshal_Marshal j :
  doc_ok j → depth j ≤ maxNestingDepth → Unmarshal (Marshal j) = Some (sanitize j).
Proof. intros Hok Hd. unfold Unmarshal, Marshal. by rewrite value_print. Qed.

(** The members of an object, each with the text it was printed as. *)
Lemma object_members_print m rest :
  doc_ok (JObject m) → depth (JObject m) ≤ maxNestingDepth →
  object_members (print (JObject m) rest) = Some (read_member <$> m).
Proof.
  intros Hok Hd. cbn [print]. change (λ p acc, quote p.1 (String ":" (print p.2 acc))) with print_member.
  unfold object_members. rewrite next_here by done. cbn [mbind option_bind].
  destruct m as [|x m]; [cbn [print_list]; by rewrite next_here|].
  cbn [doc_ok depth] in *. apply foldr_and in Hok.
  destruct (reads_members 1 (x :: m) rest) as [n Hn].
  - apply Forall_true. intros p. apply reads_all.
  - done.
  - apply (foldr_max (λ p, depth p.2)). lia.
  - done.
  - assert (∃ t, print_list print_member (x :: m) (String "}" rest) = String quote_char t) as [t Ht]
      by (destruct m; by eexists).
    rewrite Ht, next_other by done. rewrite <-Ht.
    set (s := print_list print_member (x :: m) (String "}" rest)) in *.
    set (e := enough (String "{" s)).
    rewrite (members_fuel e) by (subst e; unfold enough; cbn; lia).
    rewrite <-(members_fuel (Nat.max n (enough s + 1))) by lia. rewrite Hn by lia. done.
Qed.

(** Valid strings come back unchanged. *)
Fixpoint doc_valid (j : json) : bool :=
  match j with
  | JString s => ValidString s
  | JArray l => forallb doc_valid l
  | JObject m => forallb (λ p, ValidString p.1 && doc_valid p.2) m
  | _ => true
  end.

Lemma sanitize_id j : doc_valid j = true → sanitize j = j.
Proof.
  induction j as [|b|s|s|l IH|m IH] using json_induction; cbn [doc_valid sanitize]; intros Hv; try done.
  - by rewrite ToValid_id.
  - f_equal. induction IH as [|x l Hx _ IH]; [done|]. cbn in *. apply andb_true_iff in Hv as [H1 H2].
    by rewrite Hx, IH.
  - f_equal. induction IH as [|[k x] m Hx _ IH]; [done|]. cbn [forallb map fst snd] in *.
    apply andb_true_iff in Hv as [[H1 H2]%andb_true_iff H3]. rewrite ToValid_id, Hx, IH; done.
Qed.
