(* ===== verification/JsonTime.v ===== *)
(** * An instant in JSON: RFC 3339 with nanoseconds, and back

    [time.Time.MarshalJSON] of the Go standard library, and a reader of the
    form it writes.  A value of [time.Time] carries a location; the zero one
    is in UTC, the clock's readings and what pgx and time.Unix return are in
    the process's local zone, whose offset from UTC at an instant is a
    parameter ([Location]). *)

From Stdlib Require Import ZArith Lia Ascii String.
From S2P Require Import Prelude GoLang GoParse GoUrl GoTime.
Local Open Scope Z_scope.

(** Seconds east of UTC. *)
Class Location := { zone_offset : Time → Z }.

(** ** Writing *)

(** The nanoseconds of a second: nine digits less the trailing zeros, or
    nothing. *)
Fixpoint trim_zeros (s : string) : string :=
  match s with
  | EmptyString => EmptyString
  | String c s =>
      match trim_zeros s with
      | EmptyString => if bool_decide (c = "0"%char) then EmptyString else String c EmptyString
      | t => String c t
      end
  end.

Definition format_frac (nanos : Z) : string :=
  match trim_zeros (pad 9 nanos) with EmptyString => EmptyString | t => String "." t end.

(** "Z", or the sign, hours and minutes. *)
Definition format_zone (offset : Z) : string :=
  if offset =? 0 then "Z" else
  let zone := Z.quot offset 60 in
  String (if zone <? 0 then "-" else "+")
    (String.app (pad 2 (Z.abs zone / 60)) (String ":" (pad 2 (Z.abs zone mod 60)))).

(** [t.Format(time.RFC3339Nano)] in a zone. *)
Definition format_RFC3339Nano (offset : Z) (t : Time) : string :=
  let secs := t / 10 ^ 9 + offset in
  let '(y, m, d) := civil_from_days (secs / 86400) in
  let sod := secs mod 86400 in
  String.app (pad 4 y) (String "-" (String.app (pad 2 m) (String "-" (String.app (pad 2 d) (String "T"
    (String.app (pad 2 (sod / 3600)) (String ":" (String.app (pad 2 (sod / 60 mod 60)) (String ":"
      (String.app (pad 2 (sod mod 60))
        (String.app (format_frac (t mod 10 ^ 9)) (format_zone offset)))))))))))).

(** [MarshalJSON] refuses a year of other than four digits and an offset of a
    day or more. *)
Definition MarshalText (offset : Z) (t : Time) : option string :=
  let '(y, _, _) := civil_from_days ((t / 10 ^ 9 + offset) / 86400) in
  if (0 <=? y) && (y <=? 9999) && (Z.abs (Z.quot offset 60) / 60 <? 24)
  then Some (format_RFC3339Nano offset t) else None.

(** The offset an instant of the program is written at. *)
Definition offset_of `{Location} (t : Time) : Z := if IsZero t then 0 else zone_offset t.

(** ** Reading *)

Definition days_from_civil (y m d : Z) : Z :=
  let y := if m <=? 2 then y - 1 else y in
  let era := y / 400 in
  let yoe := y mod 400 in
  let doy := (153 * (if 2 <? m then m - 3 else m + 9) + 2) / 5 + d - 1 in
  let doe := yoe * 365 + yoe / 4 - yoe / 100 + doy in
  era * 146097 + doe - 719468.

(** A number of [w] digits. *)
Definition take_int (w : nat) (s : string) : option (Z * string) :=
  n ← parse_nat (String.substring 0 w s); Some (n, String.substring w (String.length s - w) s).

Definition expect (c : ascii) (s : string) : option string :=
  match s with String c' s => if bool_decide (c' = c) then Some s else None | EmptyString => None end.

Fixpoint span_digits (s : string) : string * string :=
  match s with
  | String c s' => if is_digit c then let '(ds, r) := span_digits s' in (String c ds, r) else ("", s)
  | EmptyString => ("", "")
  end.

Definition parse_frac (s : string) : option (Z * string) :=
  match expect "." s with
  | Some s => let '(ds, r) := span_digits s in
      n ← parse_nat (String.app ds (zeros (9 - String.length ds))); Some (n, r)
  | None => Some (0, s)
  end.

Definition parse_zone (s : string) : option Z :=
  match s with
  | String c s =>
      if bool_decide (c = "Z"%char) then Some 0 else
      h ← take_int 2 s; r ← expect ":" h.2; m ← take_int 2 r;
      Some ((if bool_decide (c = "-"%char) then -1 else 1) * (h.1 * 60 + m.1) * 60)
  | EmptyString => None
  end.

Definition parse_RFC3339Nano (s : string) : option Time :=
  y ← take_int 4 s; r ← expect "-" y.2; m ← take_int 2 r; r ← expect "-" m.2; d ← take_int 2 r;
  r ← expect "T" d.2; h ← take_int 2 r; r ← expect ":" h.2; i ← take_int 2 r; r ← expect ":" i.2;
  c ← take_int 2 r; f ← parse_frac c.2; z ← parse_zone f.2;
  Some ((days_from_civil y.1 m.1 d.1 * 86400 + h.1 * 3600 + i.1 * 60 + c.1 - z) * 10 ^ 9 + f.1).

Example RFC3339Nano_ok :
  (format_RFC3339Nano 0 time_zero, format_RFC3339Nano (-16200) 1500000000,
   MarshalText 0 (253402300800 * 10 ^ 9)) =
  ("0001-01-01T00:00:00Z", "1969-12-31T19:30:01.5-04:30", None) ∧
  parse_RFC3339Nano "1969-12-31T19:30:01.5-04:30" = Some 1500000000.
Proof. split; vm_compute; reflexivity. Qed.

(** ** The calendar *)

Fixpoint all_from (n : nat) (z : Z) (P : Z → bool) : bool :=
  match n with O => true | S n => P z && all_from n (z + 1) P end.

Lemma all_from_spec n z P : all_from n z P = true → ∀ x, z ≤ x < z + Z.of_nat n → P x = true.
Proof.
  revert z. induction n as [|n IH]; intros z Ha x Hx; [lia|]. cbn [all_from] in Ha.
  apply andb_true_iff in Ha as [H1 H2]. destruct (Z.eq_dec x z) as [->|Hne]; [done|].
  apply (IH (z + 1)); [done|lia].
Qed.

(** Month and day of a day of the year that starts in March. *)
Definition md_of (doy : Z) : Z * Z :=
  let mp := (5 * doy + 2) / 153 in
  (if mp <? 10 then mp + 3 else mp - 9, doy - (153 * mp + 2) / 5 + 1).

Lemma md_back doy :
  0 ≤ doy < 366 →
  let '(m, d) := md_of doy in
  (153 * (if 2 <? m then m - 3 else m + 9) + 2) / 5 + d - 1 = doy ∧ 1 ≤ m ≤ 12 ∧ 1 ≤ d ≤ 31.
Proof.
  intros Hd.
  pose (P := λ doy, let '(m, d) := md_of doy in
    bool_decide ((153 * (if 2 <? m then m - 3 else m + 9) + 2) / 5 + d - 1 = doy ∧
                 1 ≤ m ≤ 12 ∧ 1 ≤ d ≤ 31)).
  assert (all_from 366 0 P = true) as Ha by (vm_compute; reflexivity).
  pose proof (all_from_spec 366 0 P Ha doy ltac:(lia)) as Hp. unfold P in Hp.
  destruct (md_of doy) as [m d]. by apply bool_decide_eq_true in Hp.
Qed.

(** Year and day of the year of a day of the 400 year cycle. *)
Definition yd_of (doe : Z) : Z * Z :=
  let yoe := (doe - doe / 1460 + doe / 36524 - doe / 146096) / 365 in
  (yoe, doe - (365 * yoe + yoe / 4 - yoe / 100)).

Lemma div_bounds a b : 0 < b → b * (a / b) ≤ a < b * (a / b) + b.
Proof. intros Hb. pose proof (Z.div_mod a b ltac:(lia)). pose proof (Z.mod_pos_bound a b Hb). lia. Qed.

Lemma yd_range doe : 0 ≤ doe < 146097 → let '(yoe, doy) := yd_of doe in 0 ≤ yoe < 400 ∧ 0 ≤ doy < 366.
Proof.
  intros Hd. unfold yd_of. cbv zeta.
  pose proof (div_bounds doe 1460 ltac:(lia)). pose proof (div_bounds doe 36524 ltac:(lia)).
  pose proof (div_bounds doe 146096 ltac:(lia)).
  set (a := doe / 1460) in *. set (b := doe / 36524) in *. set (c := doe / 146096) in *.
  pose proof (div_bounds (doe - a + b - c) 365 ltac:(lia)).
  set (y := (doe - a + b - c) / 365) in *.
  pose proof (div_bounds y 4 ltac:(lia)). pose proof (div_bounds y 100 ltac:(lia)).
  set (q := y / 4) in *. set (r := y / 100) in *.
  assert (b = 0 ∨ b = 1 ∨ b = 2 ∨ b = 3 ∨ b = 4) as Hb by lia.
  assert (c = 0 ∨ c = 1) as Hc by lia.
  clearbody a b c y q r. destruct Hb as [-> |[-> |[-> |[-> | ->]]]]; destruct Hc as [-> | ->]; lia.
Qed.

Lemma days_from_civil_back days :
  let '(y, m, d) := civil_from_days days in
  days_from_civil y m d = days ∧ 1 ≤ m ≤ 12 ∧ 1 ≤ d ≤ 31.
Proof.
  unfold civil_from_days. cbv zeta. set (z := days + 719468). set (doe := z mod 146097).
  assert (0 ≤ doe < 146097) as Hdoe by (apply Z.mod_pos_bound; lia).
  pose proof (yd_range doe Hdoe) as Hyd. unfold yd_of in Hyd. cbv zeta in Hyd.
  set (yoe := (doe - doe / 1460 + doe / 36524 - doe / 146096) / 365) in *.
  set (doy := doe - (365 * yoe + yoe / 4 - yoe / 100)) in *.
  destruct Hyd as [Hy Hdoy]. pose proof (md_back doy Hdoy) as Hmd. unfold md_of in Hmd. cbv zeta in Hmd.
  set (mp := (5 * doy + 2) / 153) in *. set (d := doy - (153 * mp + 2) / 5 + 1) in *.
  set (m := if mp <? 10 then mp + 3 else mp - 9) in *. destruct Hmd as (Hdoy' & Hm & Hd).
  split; [|done]. unfold days_from_civil.
  assert ((if m <=? 2 then yoe + z / 146097 * 400 + (if m <=? 2 then 1 else 0) - 1
           else yoe + z / 146097 * 400 + (if m <=? 2 then 1 else 0)) = yoe + z / 146097 * 400) as ->
    by (destruct (m <=? 2); lia).
  rewrite Z.div_add, Z.mod_add, (Z.div_small yoe), (Z.mod_small yoe) by lia.
  rewrite Hdoy'. pose proof (Z.div_mod z 146097 ltac:(lia)) as Hz. fold doe in Hz.
  subst doy z. lia.
Qed.

(** ** Reading back what was written *)

Lemma substring_split s t :
  String.substring 0 (String.length s) (String.app s t) = s ∧
  String.substring (String.length s) (String.length (String.app s t) - String.length s) (String.app s t) = t.
Proof.
  split.
  - induction s as [|c s IH]; [by destruct t|]. exact (f_equal (String c) IH).
  - induction s as [|c s IH].
    + change (String.app "" t) with t. change (String.length "") with 0%nat. rewrite Nat.sub_0_r.
      induction t as [|c t IH]; [done|]. exact (f_equal (String c) IH).
    + exact IH.
Qed.

Lemma take_int_app w s n rest :
  String.length s = w → parse_nat s = Some n → take_int w (String.app s rest) = Some (n, rest).
Proof.
  intros <- Hn. destruct (substring_split s rest) as [H1 H2]. unfold take_int. by rewrite H1, Hn, H2.
Qed.

(** Small numbers, by enumeration. *)
Definition pad_check (w : nat) (n : Z) : bool :=
  bool_decide (String.length (pad w n) = w ∧ parse_nat (pad w n) = Some n).

Lemma pad2 n rest : 0 ≤ n < 100 → take_int 2 (String.app (pad 2 n) rest) = Some (n, rest).
Proof.
  intros Hn. assert (all_from 100 0 (pad_check 2) = true) as Ha by (vm_compute; reflexivity).
  pose proof (all_from_spec _ _ _ Ha n ltac:(lia)) as Hp. apply bool_decide_eq_true in Hp as [H1 H2].
  by apply take_int_app.
Qed.

Lemma length_print_nat fuel n acc w :
  0 ≤ n < 10 ^ Z.of_nat w → (0 < w)%nat → (w ≤ fuel)%nat →
  (String.length (print_nat fuel n acc) ≤ w + String.length acc)%nat.
Proof.
  revert fuel n acc. induction w as [|w IH]; intros fuel n acc Hn Hw Hf; [lia|].
  destruct fuel as [|fuel]; [lia|]. cbn [print_nat]. destruct (Z.eqb_spec (n / 10) 0) as [H0|H0].
  - cbn. lia.
  - assert (0 ≤ n / 10 < 10 ^ Z.of_nat w) as Hb.
    { split; [apply Z.div_pos; lia|]. apply Z.div_lt_upper_bound; [lia|].
      rewrite Nat2Z.inj_succ, Z.pow_succ_r in Hn by lia. lia. }
    specialize (IH fuel (n / 10) (String (digit_char (n mod 10)) acc) Hb).
    destruct w as [|w]; [cbn in Hb; lia|]. cbn [String.length] in IH. lia.
Qed.

Lemma parse_digits_zeros k n s : parse_digits n (String.app (zeros k) s) = parse_digits (n * 10 ^ Z.of_nat k) s.
Proof.
  revert n. induction k as [|k IH]; intros n.
  - cbn [zeros]. rewrite Z.mul_1_r. reflexivity.
  - change (parse_digits (n * 10 + 0) (String.app (zeros k) s) = parse_digits (n * 10 ^ Z.of_nat (S k)) s).
    rewrite IH, Nat2Z.inj_succ, Z.pow_succ_r by lia. f_equal. lia.
Qed.

Lemma length_zeros k : String.length (zeros k) = k.
Proof. induction k as [|k IH]; [done|]. exact (f_equal S IH). Qed.

Lemma length_app s t : String.length (String.app s t) = (String.length s + String.length t)%nat.
Proof. induction s as [|c s IH]; [done|]. exact (f_equal S IH). Qed.

Lemma pad_spec w n :
  0 ≤ n < 10 ^ Z.of_nat w → (0 < w ≤ 19)%nat →
  String.length (pad w n) = w ∧ parse_nat (pad w n) = Some n.
Proof.
  intros Hn Hw. unfold pad. rewrite (proj2 (Z.ltb_ge _ _)) by lia. rewrite Z.abs_eq by lia.
  unfold Itoa. rewrite (proj2 (Z.ltb_ge _ _)) by lia.
  assert (0 ≤ n < 10 ^ 19) as Hn'.
  { split; [lia|]. apply (Z.lt_le_trans _ (10 ^ Z.of_nat w)); [lia|]. apply Z.pow_le_mono_r; lia. }
  pose proof (length_print_nat 19 n "" w Hn ltac:(lia) ltac:(lia)) as Hl. cbn [String.length] in Hl.
  pose proof (parse_digits_print 19 n "" Hn' ltac:(lia)) as Hp.
  destruct (print_nat_cons 18 n "") as (c & s & Hs).
  rewrite length_app, length_zeros. split; [lia|].
  unfold parse_nat.
  assert (String.app (zeros (w - String.length (print_nat 19 n ""))) (print_nat 19 n "") ≠ "") as Hne.
  { rewrite Hs. destruct (zeros _); done. }
  destruct (String.app _ _) as [|c' s'] eqn:E; [done|]. rewrite <-E, parse_digits_zeros. exact Hp.
Qed.

(** ** The fraction *)

Lemma trim_zeros_spec s :
  String.app (trim_zeros s) (zeros (String.length s - String.length (trim_zeros s))) = s ∧
  (String.length (trim_zeros s) ≤ String.length s)%nat.
Proof.
  induction s as [|c s [IH Hl]]; [done|]. cbn [trim_zeros].
  destruct (trim_zeros s) as [|c' t] eqn:E.
  - destruct (bool_decide (c = "0"%char)) eqn:Ec.
    + apply bool_decide_eq_true in Ec as ->. split; [|cbn; lia].
      change (zeros (S (String.length s)) = String "0" s). cbn [zeros]. f_equal.
      cbn [String.length] in IH. rewrite Nat.sub_0_r in IH. exact IH.
    + split; [|cbn; lia]. cbn [String.length] in IH |- *. rewrite Nat.sub_0_r in IH.
      replace (S (String.length s) - 1)%nat with (String.length s) by lia.
      exact (f_equal (String c) IH).
  - split; [|cbn in *; lia]. exact (f_equal (String c) IH).
Qed.

Lemma span_digits_app ds rest :
  string_forallb is_digit ds = true →
  match rest with EmptyString => True | String c _ => is_digit c = false end →
  span_digits (String.app ds rest) = (ds, rest).
Proof.
  intros Hds Hr. induction ds as [|c ds IH].
  - change (String.app "" rest) with rest. destruct rest as [|c rest]; [done|]. cbn. by rewrite Hr.
  - cbn [string_forallb] in Hds. apply andb_true_iff in Hds as [Hc Hds].
    change (String.app (String c ds) rest) with (String c (String.app ds rest)).
    cbn [span_digits]. by rewrite Hc, IH.
Qed.

Lemma parse_digits_forallb n s m : parse_digits n s = Some m → string_forallb is_digit s = true.
Proof.
  revert n. induction s as [|c s IH]; intros n; [done|]. cbn [parse_digits string_forallb].
  intros Hp. apply bind_Some in Hp as (d & Hd & Hp). rewrite (IH _ Hp).
  unfold is_digit. by rewrite bool_decide_eq_true_2 by by eexists.
Qed.

Lemma trim_forallb f s : string_forallb f s = true → string_forallb f (trim_zeros s) = true.
Proof.
  induction s as [|c s IH]; [done|]. cbn [string_forallb trim_zeros].
  intros [Hc Hs]%andb_true_iff. specialize (IH Hs).
  destruct (trim_zeros s) as [|c' t]; [|by cbn [string_forallb]; rewrite Hc].
  destruct (bool_decide _); [done|]. cbn. by rewrite Hc.
Qed.

Lemma parse_frac_format nanos rest :
  0 ≤ nanos < 10 ^ 9 →
  match rest with EmptyString => True | String c _ => is_digit c = false ∧ c ≠ "."%char end →
  parse_frac (String.app (format_frac nanos) rest) = Some (nanos, rest).
Proof.
  intros Hn Hr. destruct (pad_spec 9 nanos Hn ltac:(lia)) as [Hl Hp].
  destruct (trim_zeros_spec (pad 9 nanos)) as [Ht _]. rewrite Hl in Ht.
  unfold format_frac. destruct (trim_zeros (pad 9 nanos)) as [|c t] eqn:E.
  - change (String.app "" rest) with rest. unfold parse_frac.
    assert (nanos = 0) as ->.
    { change (zeros 9 = pad 9 nanos) in Ht. rewrite <-Ht in Hp. vm_compute in Hp. congruence. }
    destruct rest as [|c r]; [done|]. destruct Hr as [_ Hr]. cbn [expect].
    by rewrite bool_decide_eq_false_2.
  - assert (string_forallb is_digit (String c t) = true) as Hd.
    { rewrite <-E. apply trim_forallb. unfold parse_nat in Hp.
      destruct (pad 9 nanos) as [|c' s']; [done|]. by eapply parse_digits_forallb. }
    change (String.app (String "." (String c t)) rest) with (String "." (String.app (String c t) rest)).
    unfold parse_frac. cbn [expect]. rewrite bool_decide_eq_true_2 by done.
    rewrite span_digits_app by (done || by destruct rest; [|destruct Hr]). by rewrite Ht, Hp.
Qed.

(** ** The zone, and the whole *)

Lemma zone_parts offset :
  offset mod 60 = 0 → Z.abs (Z.quot offset 60) / 60 < 24 →
  ∃ h m, 0 ≤ h < 100 ∧ 0 ≤ m < 100 ∧ Z.abs (Z.quot offset 60) / 60 = h ∧
    Z.abs (Z.quot offset 60) mod 60 = m ∧
    offset = (if Z.quot offset 60 <? 0 then -1 else 1) * (h * 60 + m) * 60.
Proof.
  intros Hm Hh. assert (∃ k, offset = 60 * k) as [k ->].
  { exists (offset / 60). pose proof (Z.div_mod offset 60 ltac:(lia)). lia. }
  rewrite (Z.mul_comm 60 k), Z.quot_mul by lia. rewrite (Z.mul_comm 60 k), Z.quot_mul in Hh by lia.
  pose proof (Z.div_mod (Z.abs k) 60 ltac:(lia)). pose proof (Z.mod_pos_bound (Z.abs k) 60 ltac:(lia)).
  pose proof (Z.div_pos (Z.abs k) 60 ltac:(lia) ltac:(lia)).
  exists (Z.abs k / 60), (Z.abs k mod 60). split_and!; try lia. destruct (Z.ltb_spec k 0); lia.
Qed.

Lemma expect_here c s : expect c (String c s) = Some s.
Proof. cbn. by rewrite bool_decide_eq_true_2. Qed.

Lemma parse_zone_format offset :
  offset mod 60 = 0 → Z.abs (Z.quot offset 60) / 60 < 24 → parse_zone (format_zone offset) = Some offset.
Proof.
  intros Hm Hh. unfold format_zone. destruct (Z.eqb_spec offset 0) as [->|Hne]; [done|].
  destruct (zone_parts offset Hm Hh) as (h & m & Hh' & Hm' & -> & -> & Heq).
  set (sign := if Z.quot offset 60 <? 0 then "-"%char else "+"%char).
  unfold parse_zone. rewrite bool_decide_eq_false_2 by (subst sign; by destruct (_ <? _)).
  rewrite pad2 by lia. cbn [mbind option_bind snd fst]. rewrite expect_here.
  cbn [mbind option_bind snd fst].
  rewrite <-(string_app_nil (pad 2 m)), pad2 by lia. cbn [mbind option_bind snd fst].
  f_equal. symmetry. subst sign. clear -Heq. revert Heq. by destruct (Z.quot offset 60 <? 0).
Qed.

Lemma format_zone_head offset :
  match format_zone offset with EmptyString => True | String c _ => is_digit c = false ∧ c ≠ "."%char end.
Proof. unfold format_zone. destruct (offset =? 0); [done|]. by destruct (_ <? 0). Qed.

(** The instant reads back, at whatever offset of whole minutes it was written. *)
Lemma parse_RFC3339Nano_format offset t s :
  MarshalText offset t = Some s → offset mod 60 = 0 → parse_RFC3339Nano s = Some t.
Proof.
  unfold MarshalText, format_RFC3339Nano. set (secs := t / 10 ^ 9 + offset).
  pose proof (days_from_civil_back (secs / 86400)) as Hciv.
  destruct (civil_from_days (secs / 86400)) as [[y m] d]. destruct Hciv as (Hdays & Hm & Hd).
  destruct (_ && _ && _) eqn:E; [|done]. apply andb_true_iff in E as [[H1 H2]%andb_true_iff H3].
  apply Z.leb_le in H1, H2. apply Z.ltb_lt in H3. intros [= <-] Hoff.
  destruct (pad_spec 4 y ltac:(lia) ltac:(lia)) as [Hl Hp].
  pose proof (Z.mod_pos_bound secs 86400 ltac:(lia)) as Hs.
  pose proof (Z.div_mod secs 86400 ltac:(lia)) as Hsd. set (sod := secs mod 86400) in *.
  assert (0 ≤ sod / 3600 < 100) as Hh.
  { split; [apply Z.div_pos; lia|apply Z.div_lt_upper_bound; lia]. }
  pose proof (Z.mod_pos_bound (sod / 60) 60 ltac:(lia)) as Hi.
  pose proof (Z.mod_pos_bound sod 60 ltac:(lia)) as Hc.
  pose proof (Z.mod_pos_bound t (10 ^ 9) ltac:(lia)) as Hn.
  pose proof (format_zone_head offset) as Hz.
  unfold parse_RFC3339Nano.
  rewrite (take_int_app 4 _ y) by done.
  do 5 (cbn [mbind option_bind snd fst]; rewrite expect_here;
        cbn [mbind option_bind snd fst]; rewrite pad2 by lia).
  cbn [mbind option_bind snd fst]. rewrite parse_frac_format by done.
  cbn [mbind option_bind snd fst]. rewrite parse_zone_format by done. cbn [mbind option_bind snd fst].
  f_equal. rewrite Hdays.
  assert (sod / 3600 * 3600 + sod / 60 mod 60 * 60 + sod mod 60 = sod) as Hsod.
  { pose proof (Z.div_mod sod 60 ltac:(lia)). pose proof (Z.div_mod (sod / 60) 60 ltac:(lia)) as Hq.
    rewrite Z.div_div in Hq by lia. change (60 * 60) with 3600 in Hq. lia. }
  pose proof (Z.div_mod t (10 ^ 9) ltac:(lia)). unfold Time in *. subst secs. lia.
Qed.
