(* ===== verification/JsonStruct.v ===== *)
(** * Structs, maps and slices as JSON documents

    How encoding/json lays out the Go values the program encodes: a struct is an
    object of its fields in order, less the empty ones tagged omitempty; a map
    is an object sorted by key; and how a reader finds a field again.  The other
    way round, [fill] is [json.Unmarshal] into a struct: members in order, names
    matched exactly or up to case, unknown ones skipped. *)

From Stdlib Require Import ZArith Lia Ascii String.
From S2P Require Import Prelude GoLang GoParse GoUrl Json.
Local Open Scope Z_scope.

(** ** Encoding *)

(** A field that is omitted has no value. *)
Abbreviation struct := (list (string * option json)).

Definition present (p : string * option json) : option (string * json) := pair p.1 <$> p.2.

Definition obj (fs : struct) : json := JObject (omap present fs).

(** omitempty, by type. *)
Definition omit_string (s : string) : option json :=
  if bool_decide (s = "") then None else Some (JString s).

Definition omit_list (l : list string) : option json :=
  if bool_decide (l = []) then None else Some (JArray (JString <$> l)).

Definition key_le {A} (p q : string * A) : Prop := cmp_le string_Compare p.1 q.1.

#[export] Instance key_le_dec {A} (p q : string * A) : Decision (key_le p q).
Proof. unfold key_le. apply _. Defined.

(** The entries of a map in the order of their keys. *)
Definition entries {A} (m : gmap string A) : list (string * A) := merge_sort key_le (map_to_list m).

Definition map_json {A} (f : A → json) (m : gmap string A) : json :=
  JObject ((λ p, (p.1, f p.2)) <$> entries m).

Definition omit_map {A} (f : A → json) (m : gmap string A) : option json :=
  if bool_decide (map_to_list m = []) then None else Some (map_json f m).

(** ** Reading fields *)

Fixpoint assoc {A} (k : string) (l : list (string * A)) : option A :=
  match l with
  | [] => None
  | (k', x) :: l => if String.eqb k k' then Some x else assoc k l
  end.

Definition field (k : string) (j : json) : option json :=
  match j with JObject m => assoc k m | _ => None end.

Definition as_string (j : option json) : option string :=
  match j with None => Some "" | Some (JString s) => Some s | _ => None end.

Definition as_bool (j : option json) : option bool :=
  match j with Some (JBool b) => Some b | _ => None end.

Definition ParseInt (s : string) : option Z :=
  match s with
  | String c s' => if bool_decide (c = "-"%char) then Z.opp <$> parse_nat s' else parse_nat s
  | EmptyString => None
  end.

Definition as_int (j : option json) : option Z :=
  match j with Some (JNumber s) => ParseInt s | _ => None end.

Definition as_list (j : option json) : option (list string) :=
  match j with
  | None => Some []
  | Some (JArray l) => mapM (λ j, as_string (Some j)) l
  | _ => None
  end.

Definition as_map {A} (f : json → option A) (j : option json) : option (gmap string A) :=
  match j with
  | None => Some ∅
  | Some (JObject m) => list_to_map <$> mapM (λ p : string * json, pair p.1 <$> f p.2) m
  | _ => None
  end.

(** ** Unmarshalling into a struct *)

(** [foldName] on names of ASCII: letters upper, and the two runes outside
    ASCII that fold into it. *)
Definition fold_rune (r : rune) (acc : string) : string :=
  match r with
  | Rune1 c => String (if byte_in 97 122 c then byte (N_of_ascii c - 32) else c) acc
  | Rune2 c0 c1 =>
      if bool_decide (c0 = byte 197 ∧ c1 = byte 191) then String "S" acc else rune_bytes r acc
  | Rune3 c0 c1 c2 =>
      if bool_decide (c0 = byte 226 ∧ c1 = byte 132 ∧ c2 = byte 170) then String "K" acc
      else rune_bytes r acc
  | _ => rune_bytes r acc
  end.

Definition foldName (s : string) : string := foldr fold_rune "" (runes s).

(** A field of a struct [S]: its name, and how a value with its text is
    stored; [None] is a value of another type. *)
Record setter S := mkSetter { set_name : string; set_value : json → string → S → option S }.
Arguments mkSetter {S}.
Arguments set_name {S}.
Arguments set_value {S}.

Definition find_setter {S} (fs : list (setter S)) (key : string) : option (setter S) :=
  match List.find (λ f, String.eqb (set_name f) key) fs with
  | Some f => Some f
  | None => List.find (λ f, String.eqb (foldName (set_name f)) (foldName key)) fs
  end.

Fixpoint fill {S} (fs : list (setter S)) (m : list (string * (json * string))) (x : S) : option S :=
  match m with
  | [] => Some x
  | (key, (v, text)) :: m =>
      match find_setter fs key with
      | None => fill fs m x
      | Some f => x ← set_value f v text x; fill fs m x
      end
  end.

(** A string field; null leaves it alone. *)
Definition set_string {S} (upd : string → S → S) (v : json) (_ : string) (x : S) : option S :=
  match v with JString s => Some (upd s x) | JNull => Some x | _ => None end.

(** A [json.RawMessage] field: the value's text. *)
Definition set_raw {S} (upd : string → S → S) (_ : json) (text : string) (x : S) : option S :=
  Some (upd text x).

(** A map[string][]string field: its type is checked; null elements are "". *)
Definition header_value (v : json) : bool :=
  match v with
  | JNull => true
  | JArray l => forallb (λ j, match j with JString _ | JNull => true | _ => false end) l
  | _ => false
  end.

Definition check_header {S} (v : json) (_ : string) (x : S) : option S :=
  match v with
  | JNull => Some x
  | JObject m => if forallb (λ p, header_value p.2) m then Some x else None
  | _ => None
  end.

(** Into a struct from the text of one value: an object fills it, null leaves
    it alone. *)
Definition fill_from {S} (fs : list (setter S)) (decoded : option json) (text : string) (zero : S) :
    option S :=
  match decoded with
  | Some (JObject _) => m ← object_members text; fill fs m zero
  | Some JNull => Some zero
  | _ => None
  end.

(** ** Lemmas: fields *)

Lemma assoc_present k fs :
  NoDup fs.*1 → assoc k (omap present fs) = assoc k fs ≫= id.
Proof.
  induction fs as [|[k' v] fs IH]; intros Hnd; [done|].
  rewrite fmap_cons in Hnd. apply NoDup_cons in Hnd as [Hn Hnd]. specialize (IH Hnd).
  assert (k = k' → assoc k (omap present fs) = None) as Hnone.
  { intros ->. rewrite IH. clear -Hn. induction fs as [|[k1 v1] fs IH]; [done|]. cbn in Hn |- *.
    apply not_elem_of_cons in Hn as [H1 H2]. destruct (String.eqb_spec k' k1); [done|]. by apply IH. }
  destruct v as [v|]; cbn; destruct (String.eqb_spec k k'); cbn; try done. by apply Hnone.
Qed.

(** A field of a struct: what the struct put there. *)
Lemma field_obj k fs : bool_decide (NoDup fs.*1) = true → field k (obj fs) = assoc k fs ≫= id.
Proof. intros Hnd. apply assoc_present. by apply bool_decide_eq_true in Hnd. Qed.

Lemma as_omit_string s : as_string (omit_string s) = Some s.
Proof. unfold omit_string. by case_bool_decide; subst. Qed.

Lemma as_omit_list l : as_list (omit_list l) = Some l.
Proof.
  unfold omit_list. case_bool_decide as Hl; [by subst|]. cbn. clear Hl.
  induction l as [|s l IH]; [done|]. cbn. by rewrite IH.
Qed.

Lemma ParseInt_FormatInt z : Z.abs z < 10 ^ 20 → ParseInt (FormatInt z) = Some z.
Proof.
  intros Hz.
  assert (∀ n, 0 ≤ n < 10 ^ 20 → parse_nat (print_nat 20 n "") = Some n) as Hp.
  { intros n Hn. pose proof (parse_digits_print 20 n "" Hn ltac:(lia)) as H. unfold parse_nat.
    destruct (print_nat_cons 19 n "") as (c & s & Hs). by rewrite Hs in *. }
  unfold FormatInt. destruct (Z.ltb_spec z 0).
  - unfold ParseInt. rewrite bool_decide_eq_true_2 by done. rewrite Hp by lia. cbn. f_equal. lia.
  - destruct (scan_FormatInt z "" Hz I) as (c & s & Hs & Hc & _). unfold FormatInt in Hs.
    rewrite (proj2 (Z.ltb_ge _ _)) in Hs by done.
    specialize (Hp z ltac:(lia)). rewrite Hs in Hp |- *. unfold ParseInt.
    rewrite bool_decide_eq_false_2; [done|]. intros ->. by vm_compute in Hp.
Qed.

Lemma as_JInt z : Z.abs z < 10 ^ 20 → as_int (Some (JInt z)) = Some z.
Proof. apply ParseInt_FormatInt. Qed.

Lemma as_JString s : as_string (Some (JString s)) = Some s.
Proof. done. Qed.

Lemma member_list_perm {A} (m : gmap string A) : entries m ≡ₚ map_to_list m.
Proof. apply merge_sort_Permutation. Qed.

Lemma mapM_entries {A} (f : A → json) (g : json → option A) (l : list (string * A)) :
  Forall (λ p, g (f p.2) = Some p.2) l →
  mapM (λ p : string * json, pair p.1 <$> g p.2) ((λ p, (p.1, f p.2)) <$> l) = Some l.
Proof.
  induction 1 as [|[k x] l Hx _ IH]; [done|]. cbn in *. rewrite Hx. cbn. by rewrite IH.
Qed.

Lemma as_map_json {A} (f : A → json) (g : json → option A) (m : gmap string A) :
  (∀ k x, m !! k = Some x → g (f x) = Some x) → as_map g (Some (map_json f m)) = Some m.
Proof.
  intros Hg. unfold as_map, map_json. rewrite mapM_entries.
  - cbn. f_equal. rewrite <-(list_to_map_to_list m) at 2. apply list_to_map_proper; [|apply member_list_perm].
    rewrite member_list_perm. apply NoDup_fst_map_to_list.
  - rewrite Forall_forall. intros [k x] Hin. rewrite member_list_perm in Hin.
    apply elem_of_map_to_list in Hin. cbn. by apply (Hg k).
Qed.

Lemma as_omit_map {A} (f : A → json) (g : json → option A) (m : gmap string A) :
  (∀ k x, m !! k = Some x → g (f x) = Some x) → as_map g (omit_map f m) = Some m.
Proof.
  intros Hg. unfold omit_map. case_bool_decide as Hm; [|by apply as_map_json].
  cbn. f_equal. symmetry. by apply map_to_list_empty_iff.
Qed.

(** ** Lemmas: the documents of structs *)

Definition opt_all (P : json → Prop) (p : string * option json) : Prop :=
  match p.2 with Some j => P j | None => True end.

Lemma present_all (P : json → Prop) fs :
  Forall (opt_all P) fs → Forall (λ p, P p.2) (omap present fs).
Proof.
  induction 1 as [|[k [v|]] fs Hp _ IH]; cbn; [constructor|by constructor|done].
Qed.

Lemma doc_ok_object m : Forall (λ p, doc_ok p.2) m → doc_ok (JObject m).
Proof. cbn. induction 1; cbn; auto. Qed.

Lemma doc_ok_array l : Forall doc_ok l → doc_ok (JArray l).
Proof. cbn. induction 1; cbn; auto. Qed.

Lemma depth_object n m : 0 ≤ n → Forall (λ p, depth p.2 ≤ n) m → depth (JObject m) ≤ 1 + n.
Proof.
  intros Hn Hm. cbn. assert (foldr (λ p n, Z.max (depth p.2) n) 0 m ≤ n); [|lia].
  induction Hm; cbn; lia.
Qed.

Lemma depth_array n l : 0 ≤ n → Forall (λ j, depth j ≤ n) l → depth (JArray l) ≤ 1 + n.
Proof.
  intros Hn Hm. cbn. assert (foldr (λ j n, Z.max (depth j) n) 0 l ≤ n); [|lia].
  induction Hm; cbn; lia.
Qed.

(** What [doc_ok] and [depth] need of a document, together. *)
Definition fits (n : Z) (j : json) : Prop := doc_ok j ∧ depth j ≤ n.

Lemma fits_object n m : 1 ≤ n → Forall (λ p, fits (n - 1) p.2) m → fits n (JObject m).
Proof.
  intros Hn Hm. replace n with (1 + (n - 1)) by lia.
  split; [apply doc_ok_object|apply depth_object; [lia|]];
    (eapply Forall_impl; [exact Hm|]); by intros p [? ?].
Qed.

Lemma fits_array n l : 1 ≤ n → Forall (fits (n - 1)) l → fits n (JArray l).
Proof.
  intros Hn Hm. replace n with (1 + (n - 1)) by lia.
  split; [apply doc_ok_array|apply depth_array; [lia|]];
    (eapply Forall_impl; [exact Hm|]); by intros p [? ?].
Qed.

Lemma fits_obj n fs : 1 ≤ n → Forall (opt_all (fits (n - 1))) fs → fits n (obj fs).
Proof. intros Hn Hf. apply fits_object; [done|]. by apply present_all. Qed.

Lemma fits_string n s : 0 ≤ n → fits n (JString s).
Proof. by split. Qed.

Lemma fits_null n : 0 ≤ n → fits n JNull.
Proof. by split. Qed.

Lemma fits_bool n b : 0 ≤ n → fits n (JBool b).
Proof. by split. Qed.

Lemma fits_int n z : 0 ≤ n → Z.abs z < 10 ^ 20 → fits n (JInt z).
Proof. split; [by exists z|done]. Qed.

Lemma fits_map {A} n (f : A → json) m :
  1 ≤ n → (∀ x, fits (n - 1) (f x)) → fits n (map_json f m).
Proof.
  intros Hn Hf. apply fits_object; [done|]. apply Forall_fmap, Forall_true. intros p. apply Hf.
Qed.

Lemma fits_strings n l : 1 ≤ n → fits n (JArray (JString <$> l)).
Proof.
  intros Hn. apply fits_array; [done|]. apply Forall_fmap, Forall_true. intros s.
  apply fits_string. lia.
Qed.

Lemma opt_some n k j : fits n j → opt_all (fits n) (k, Some j).
Proof. done. Qed.

Lemma opt_string n k s : 0 ≤ n → opt_all (fits n) (k, omit_string s).
Proof. unfold opt_all, omit_string. cbn. destruct (bool_decide _); [done|]. apply fits_string. Qed.

Lemma opt_list n k l : 1 ≤ n → opt_all (fits n) (k, omit_list l).
Proof. unfold opt_all, omit_list. cbn. destruct (bool_decide _); [done|]. apply fits_strings. Qed.

Lemma opt_map {A} n k (f : A → json) m :
  1 ≤ n → (∀ x, fits (n - 1) (f x)) → opt_all (fits n) (k, omit_map f m).
Proof. unfold opt_all, omit_map. cbn. destruct (bool_decide _); [done|]. apply fits_map. Qed.

(** A document of the structs above: its shape decides. *)
Ltac fits :=
  intros; cbn [fst snd app];
  repeat match goal with
    | |- fits _ (JString _) => apply fits_string
    | |- fits _ JNull => apply fits_null
    | |- fits _ (JBool _) => apply fits_bool
    | |- fits _ (JInt _) => apply fits_int
    | |- fits _ (JArray (JString <$> _)) => apply fits_strings
    | |- fits _ (JArray _) => apply fits_array
    | |- fits _ (JObject _) => apply fits_object
    | |- fits _ (obj _) => apply fits_obj
    | |- fits _ (map_json _ _) => apply fits_map; [|intros]
    | |- Forall _ _ => constructor
    | |- opt_all _ (_, Some _) => apply opt_some
    | |- opt_all _ (_, omit_string _) => apply opt_string
    | |- opt_all _ (_, omit_list _) => apply opt_list
    | |- opt_all _ (_, omit_map _ _) => apply opt_map; [|intros]
    | |- _ => progress cbn [fst snd app]
    end; try lia.

(** What fits is read back. *)
Lemma Decode_fits n j : fits n j → n ≤ maxNestingDepth → Decode (Encode j) = Some (sanitize j).
Proof. intros [Hok Hd] Hn. apply Decode_Encode; [done|lia]. Qed.

(** ** Lemmas: filling a struct *)

(** A member by its name, up to case. *)
Definition member (k : string) (m : list (string * json)) : option json :=
  snd <$> List.find (λ p, String.eqb (foldName k) (foldName p.1)) m.

(** The string a string field gets, [""] by default; the text a raw one gets. *)
Definition text_of (j : option json) : option string :=
  match j with None | Some JNull => Some "" | Some (JString s) => Some s | _ => None end.

Definition raw_of (j : option json) : string := match j with Some j => Marshal j | None => "" end.

(** With distinct names up to case, exact matches need no priority. *)
Lemma find_setter_fold {S} (fs : list (setter S)) key :
  NoDup ((foldName ∘ set_name) <$> fs) →
  find_setter fs key = List.find (λ f, String.eqb (foldName (set_name f)) (foldName key)) fs.
Proof.
  intros Hnd. unfold find_setter.
  destruct (List.find (λ f, String.eqb (set_name f) key) fs) as [f|] eqn:E; [|done].
  apply List.find_some in E as [Hin Hk]. apply String.eqb_eq in Hk. subst key. symmetry.
  apply list_elem_of_In in Hin. clear -Hnd Hin. induction Hin as [f fs|f g fs Hin IH].
  - cbn [List.find]. by rewrite String.eqb_refl.
  - rewrite fmap_cons in Hnd. apply NoDup_cons in Hnd as [Hn Hnd]. cbn [List.find].
    destruct (String.eqb_spec (foldName (set_name g)) (foldName (set_name f))) as [He|]; [|by apply IH].
    destruct Hn. change ((foldName ∘ set_name) g) with (foldName (set_name g)). rewrite He.
    by apply (list_elem_of_fmap_2 (foldName ∘ set_name)).
Qed.

(** A name that is in the list only once. *)
Lemma member_tail k p m :
  NoDup ((foldName ∘ fst) <$> p :: m) → foldName k = foldName p.1 → member k m = None.
Proof.
  rewrite fmap_cons. intros [Hn _]%NoDup_cons Hk. unfold member.
  destruct (List.find _ m) as [p'|] eqn:E; [|done]. apply List.find_some in E as [Hin He].
  apply String.eqb_eq in He. destruct Hn. apply list_elem_of_fmap. exists p'.
  split; [cbn; by rewrite <-Hk|by apply list_elem_of_In].
Qed.

Lemma member_cons k p m :
  member k (p :: m) = if String.eqb (foldName k) (foldName p.1) then Some p.2 else member k m.
Proof. unfold member. cbn [List.find]. by destruct (String.eqb _ _). Qed.

(** The members of a printed object of valid strings. *)
Lemma fill_from_object {S} (fs : list (setter S)) m rest (decode : string → option json) zero n :
  fits n (JObject m) → n ≤ maxNestingDepth → doc_valid (JObject m) = true →
  decode (print (JObject m) rest) = Some (JObject m) →
  fill_from fs (decode (print (JObject m) rest)) (print (JObject m) rest) zero =
    fill fs ((λ p, (p.1, (p.2, Marshal p.2))) <$> m) zero.
Proof.
  intros [Hok Hd] Hn Hv Hdec. unfold fill_from. rewrite Hdec.
  rewrite object_members_print by (done || lia). cbn [mbind option_bind]. f_equal.
  clear -Hv. cbn [doc_valid] in Hv. induction m as [|[k v] m IH]; [done|].
  cbn [forallb fst snd] in Hv. apply andb_true_iff in Hv as [[H1 H2]%andb_true_iff H3].
  rewrite !fmap_cons, IH by done. unfold read_member. cbn [fst snd].
  by rewrite ToValid_id, sanitize_id.
Qed.
