(* ===== verification/Fleet.v ===== *)
(** * Package fleet: the agent record and its derived views

    [Agent], [ConnMeta] and [Package] of internal/fleet/registry.go with the
    capability decoder, and the presentation helpers of
    internal/fleet/view.go.  A Go map is a [gmap]: a nil map and an empty one
    agree on lookup, length and iteration, which is all the code observes of
    them, and are the same value here; likewise a nil and an empty slice. *)

From Stdlib Require Import ZArith Lia.
From S2P Require Import Prelude GoLang.
Local Open Scope Z_scope.

(** ** Data *)

Record ConnMeta := mkConnMeta {
  RemoteAddr : string;
  TLSSubject : string;
  ViaGateway : bool;
  Transport : string
}.

Record Package := mkPackage {
  PkgName : string;
  AgentHasVersion : string;
  ServerOfferedVersion : string;
  PkgStatus : string;
  PkgErrorMessage : string
}.

Record Agent := mkAgent {
  InstanceUID : string;
  SequenceNum : Z;
  Identifying : gmap string string;
  NonIdentifying : gmap string string;
  AgentCapabilities : Z;
  Healthy : bool;
  HealthError : string;
  HealthStatus : string;
  HealthStartTime : Time;
  HealthStatusTime : Time;
  HealthReported : bool;
  DescriptionReported : bool;
  EffectiveConfig : gmap string string;
  Packages : gmap string Package;
  Conn : ConnMeta;
  Connected : bool;
  FirstSeen : Time;
  LastSeen : Time;
  MissingAttributes : list string;
  ReservedAttributeConflicts : list string;
  EvictedAt : option Time;
  SessionUpdatedAt : Time
}.

#[export] Instance eta_ConnMeta : Eta ConnMeta := λ c,
  mkConnMeta (RemoteAddr c) (TLSSubject c) (ViaGateway c) (Transport c).

#[export] Instance eta_Agent : Eta Agent := λ a,
  mkAgent (InstanceUID a) (SequenceNum a) (Identifying a) (NonIdentifying a)
    (AgentCapabilities a) (Healthy a) (HealthError a) (HealthStatus a)
    (HealthStartTime a) (HealthStatusTime a) (HealthReported a)
    (DescriptionReported a) (EffectiveConfig a) (Packages a) (Conn a)
    (Connected a) (FirstSeen a) (LastSeen a) (MissingAttributes a)
    (ReservedAttributeConflicts a) (EvictedAt a) (SessionUpdatedAt a).

#[export] Instance ConnMeta_eq_dec : EqDecision ConnMeta.
Proof. solve_decision. Defined.
#[export] Instance Package_eq_dec : EqDecision Package.
Proof. solve_decision. Defined.
#[export] Instance Agent_eq_dec : EqDecision Agent.
Proof. solve_decision. Defined.

(** The zero values of Go. *)
Definition zero_ConnMeta : ConnMeta := mkConnMeta "" "" false "".

Definition zero_Agent : Agent :=
  mkAgent "" 0 ∅ ∅ 0 false "" "" time_zero time_zero false false ∅ ∅
    zero_ConnMeta false time_zero time_zero [] [] None time_zero.

(** [ReservedAttributeKeys]. *)
Definition ReservedAttributeKeys : list string :=
  ["healthy"; "connected"; "via_gateway"; "supervisor_managed"].

(** ** Capabilities *)

Record Capabilities := mkCapabilities {
  ReportsStatus : bool;
  AcceptsRemoteConfig : bool;
  ReportsEffectiveConfig : bool;
  AcceptsPackages : bool;
  ReportsPackageStatuses : bool;
  ReportsOwnTraces : bool;
  ReportsOwnMetrics : bool;
  ReportsOwnLogs : bool;
  AcceptsOpAMPConnectionSettings : bool;
  AcceptsOtherConnectionSettings : bool;
  AcceptsRestartCommand : bool;
  ReportsHealth : bool;
  ReportsRemoteConfig : bool;
  ReportsHeartbeat : bool;
  ReportsAvailableComponents : bool;
  ReportsConnectionSettingsStatus : bool
}.

(** The bits of the OpAMP protocol's [AgentCapabilities] enum, which the
    generated package protobufs exports; the decoder is a function of them. *)
Record CapabilityBits := {
  bit_ReportsStatus : Z;
  bit_AcceptsRemoteConfig : Z;
  bit_ReportsEffectiveConfig : Z;
  bit_AcceptsPackages : Z;
  bit_ReportsPackageStatuses : Z;
  bit_ReportsOwnTraces : Z;
  bit_ReportsOwnMetrics : Z;
  bit_ReportsOwnLogs : Z;
  bit_AcceptsOpAMPConnectionSettings : Z;
  bit_AcceptsOtherConnectionSettings : Z;
  bit_AcceptsRestartCommand : Z;
  bit_ReportsHealth : Z;
  bit_ReportsRemoteConfig : Z;
  bit_ReportsHeartbeat : Z;
  bit_ReportsAvailableComponents : Z;
  bit_ReportsConnectionSettingsStatus : Z
}.

Definition DecodedCapabilities (bits : CapabilityBits) (a : Agent) : Capabilities :=
  let has bit := negb (bool_decide (Z.land (AgentCapabilities a) (uint64 bit) = 0)) in
  mkCapabilities
    (has (bit_ReportsStatus bits))
    (has (bit_AcceptsRemoteConfig bits))
    (has (bit_ReportsEffectiveConfig bits))
    (has (bit_AcceptsPackages bits))
    (has (bit_ReportsPackageStatuses bits))
    (has (bit_ReportsOwnTraces bits))
    (has (bit_ReportsOwnMetrics bits))
    (has (bit_ReportsOwnLogs bits))
    (has (bit_AcceptsOpAMPConnectionSettings bits))
    (has (bit_AcceptsOtherConnectionSettings bits))
    (has (bit_AcceptsRestartCommand bits))
    (has (bit_ReportsHealth bits))
    (has (bit_ReportsRemoteConfig bits))
    (has (bit_ReportsHeartbeat bits))
    (has (bit_ReportsAvailableComponents bits))
    (has (bit_ReportsConnectionSettingsStatus bits)).

(** ** View helpers (view.go) *)

Definition supervisorManagedByValue : string := "opentelemetry-opampsupervisor".

(** [Attr]: identifying wins; an attribute present nowhere reads as "". *)
Definition Attr (a : Agent) (key : string) : string :=
  match Identifying a !! key with
  | Some v => v
  | None => default "" (NonIdentifying a !! key)
  end.

Definition SupervisorManaged (a : Agent) : bool :=
  bool_decide (Attr a "opamp.managed_by" = supervisorManagedByValue).

Definition RoleOf `{Unicode} (a : Agent) : string :=
  let c := Attr a "service.component" in
  if bool_decide (c ≠ "") then c
  else
    let name := ToLower (Attr a "service.name") in
    if Contains name "gateway" then "Gateway" else "Collector".

Definition DisplayNameOf (a : Agent) : string :=
  let n := Attr a "service.name" in
  if bool_decide (n ≠ "") then n
  else
    let n := Attr a "host.name" in
    if bool_decide (n ≠ "") then n else InstanceUID a.

Record AgentView := mkAgentView {
  v_InstanceUID : string;
  v_SequenceNum : Z;
  v_Identifying : gmap string string;
  v_NonIdentifying : gmap string string;
  v_Capabilities : Z;
  v_CapabilityFlags : Capabilities;
  v_Healthy : bool;
  v_HealthError : string;
  v_HealthStatus : string;
  v_HealthStartTime : Time;
  v_HealthStatusTime : Time;
  v_HealthReported : bool;
  v_DescriptionReported : bool;
  v_EffectiveConfig : gmap string string;
  v_Packages : gmap string Package;
  v_Conn : ConnMeta;
  v_Connected : bool;
  v_FirstSeen : Time;
  v_LastSeen : Time;
  v_MissingAttributes : list string;
  v_Role : string;
  v_DisplayName : string;
  v_HostName : string;
  v_Version : string;
  v_SupervisorManaged : bool
}.

#[export] Instance eta_AgentView : Eta AgentView := λ v,
  mkAgentView (v_InstanceUID v) (v_SequenceNum v) (v_Identifying v)
    (v_NonIdentifying v) (v_Capabilities v) (v_CapabilityFlags v) (v_Healthy v)
    (v_HealthError v) (v_HealthStatus v) (v_HealthStartTime v)
    (v_HealthStatusTime v) (v_HealthReported v) (v_DescriptionReported v)
    (v_EffectiveConfig v) (v_Packages v) (v_Conn v) (v_Connected v)
    (v_FirstSeen v) (v_LastSeen v) (v_MissingAttributes v) (v_Role v)
    (v_DisplayName v) (v_HostName v) (v_Version v) (v_SupervisorManaged v).

Section view.
Context `{Unicode} (bits : CapabilityBits).

Definition fullView (a : Agent) : AgentView :=
  mkAgentView (InstanceUID a) (SequenceNum a) (Identifying a) (NonIdentifying a)
    (AgentCapabilities a) (DecodedCapabilities bits a) (Healthy a)
    (HealthError a) (HealthStatus a) (HealthStartTime a) (HealthStatusTime a)
    (HealthReported a) (DescriptionReported a) (EffectiveConfig a) (Packages a)
    (Conn a) (Connected a) (FirstSeen a) (LastSeen a) (MissingAttributes a)
    (RoleOf a) (DisplayNameOf a) (Attr a "host.name") (Attr a "service.version")
    (SupervisorManaged a).

Definition SummaryView (a : Agent) : AgentView :=
  let v := fullView a in
  v <| v_EffectiveConfig := ∅ |> <| v_Packages := ∅ |>.

Definition DetailView (a : Agent) : AgentView := fullView a.

End view.
