(* ===== verification/FleetJson.v ===== *)
(** * Agents as JSON

    [Agent.MarshalJSON] of internal/fleet/json.go, the tags of the structs of
    internal/fleet/registry.go and view.go, and a client of GET
    /api/agents/{id} that reads them.  Encoding fails on an instant RFC 3339
    cannot write, and on nothing else; [view_ok] says when it does
    not.  The theorems: a client reads back the view that was encoded; the
    capability flags come beside an agent's own fields, whose other values are
    those of the view. *)

From Stdlib Require Import ZArith Lia Ascii String.
From S2P Require Import Prelude GoLang GoParse GoUrl GoTime Json JsonTime JsonStruct Fleet.
Local Open Scope Z_scope.

#[export] Instance eta_Package : Eta Package := λ p,
  mkPackage (PkgName p) (AgentHasVersion p) (ServerOfferedVersion p) (PkgStatus p) (PkgErrorMessage p).

(** ** Encoding *)

Definition ConnMeta_json (c : ConnMeta) : json :=
  obj [("remote_addr", omit_string (RemoteAddr c)); ("tls_subject", omit_string (TLSSubject c));
       ("via_gateway", Some (JBool (ViaGateway c))); ("transport", omit_string (Transport c))].

Definition Package_json (p : Package) : json :=
  obj [("name", Some (JString (PkgName p))); ("agent_has_version", omit_string (AgentHasVersion p));
       ("server_offered_version", omit_string (ServerOfferedVersion p));
       ("status", omit_string (PkgStatus p)); ("error_message", omit_string (PkgErrorMessage p))].

Definition Capabilities_json (c : Capabilities) : json :=
  obj [("reports_status", Some (JBool (ReportsStatus c)));
       ("accepts_remote_config", Some (JBool (AcceptsRemoteConfig c)));
       ("reports_effective_config", Some (JBool (ReportsEffectiveConfig c)));
       ("accepts_packages", Some (JBool (AcceptsPackages c)));
       ("reports_package_statuses", Some (JBool (ReportsPackageStatuses c)));
       ("reports_own_traces", Some (JBool (ReportsOwnTraces c)));
       ("reports_own_metrics", Some (JBool (ReportsOwnMetrics c)));
       ("reports_own_logs", Some (JBool (ReportsOwnLogs c)));
       ("accepts_opamp_connection_settings", Some (JBool (AcceptsOpAMPConnectionSettings c)));
       ("accepts_other_connection_settings", Some (JBool (AcceptsOtherConnectionSettings c)));
       ("accepts_restart_command", Some (JBool (AcceptsRestartCommand c)));
       ("reports_health", Some (JBool (ReportsHealth c)));
       ("reports_remote_config", Some (JBool (ReportsRemoteConfig c)));
       ("reports_heartbeat", Some (JBool (ReportsHeartbeat c)));
       ("reports_available_components", Some (JBool (ReportsAvailableComponents c)));
       ("reports_connection_settings_status", Some (JBool (ReportsConnectionSettingsStatus c)))].

Section json.
Context `{LO : Location}.

Definition Time_json (t : Time) : option json := JString <$> MarshalText (offset_of t) t.

(** [AgentView].  omitempty does nothing on a time. *)
Definition AgentView_fields (v : AgentView) : option struct :=
  start ← Time_json (v_HealthStartTime v); status ← Time_json (v_HealthStatusTime v);
  first ← Time_json (v_FirstSeen v); last ← Time_json (v_LastSeen v);
  Some [("instance_uid", Some (JString (v_InstanceUID v)));
        ("sequence_num", Some (JInt (v_SequenceNum v)));
        ("identifying_attributes", omit_map JString (v_Identifying v));
        ("non_identifying_attributes", omit_map JString (v_NonIdentifying v));
        ("capabilities", Some (JInt (v_Capabilities v)));
        ("capability_flags", Some (Capabilities_json (v_CapabilityFlags v)));
        ("healthy", Some (JBool (v_Healthy v)));
        ("health_error", omit_string (v_HealthError v));
        ("health_status", omit_string (v_HealthStatus v));
        ("health_start_time", Some start);
        ("health_status_time", Some status);
        ("health_reported", Some (JBool (v_HealthReported v)));
        ("description_reported", Some (JBool (v_DescriptionReported v)));
        ("effective_config", omit_map JString (v_EffectiveConfig v));
        ("packages", omit_map Package_json (v_Packages v));
        ("connection", Some (ConnMeta_json (v_Conn v)));
        ("connected", Some (JBool (v_Connected v)));
        ("first_seen", Some first);
        ("last_seen", Some last);
        ("missing_attributes", omit_list (v_MissingAttributes v));
        ("role", Some (JString (v_Role v)));
        ("display_name", Some (JString (v_DisplayName v)));
        ("host_name", omit_string (v_HostName v));
        ("version", omit_string (v_Version v));
        ("supervisor_managed", Some (JBool (v_SupervisorManaged v)))].

Definition AgentView_json (v : AgentView) : option json := obj <$> AgentView_fields v.

(** [Agent]'s own fields. *)
Definition Agent_fields (a : Agent) : option struct :=
  start ← Time_json (HealthStartTime a); status ← Time_json (HealthStatusTime a);
  first ← Time_json (FirstSeen a); last ← Time_json (LastSeen a);
  Some [("instance_uid", Some (JString (InstanceUID a)));
        ("sequence_num", Some (JInt (SequenceNum a)));
        ("identifying_attributes", omit_map JString (Identifying a));
        ("non_identifying_attributes", omit_map JString (NonIdentifying a));
        ("capabilities", Some (JInt (AgentCapabilities a)));
        ("healthy", Some (JBool (Healthy a)));
        ("health_error", omit_string (HealthError a));
        ("health_status", omit_string (HealthStatus a));
        ("health_start_time", Some start);
        ("health_status_time", Some status);
        ("health_reported", Some (JBool (HealthReported a)));
        ("description_reported", Some (JBool (DescriptionReported a)));
        ("effective_config", omit_map JString (EffectiveConfig a));
        ("packages", omit_map Package_json (Packages a));
        ("connection", Some (ConnMeta_json (Conn a)));
        ("connected", Some (JBool (Connected a)));
        ("first_seen", Some first);
        ("last_seen", Some last);
        ("missing_attributes", omit_list (MissingAttributes a));
        ("reserved_attribute_conflicts", omit_list (ReservedAttributeConflicts a))].

(** [MarshalJSON]: the embedded fields, then the flags. *)
Definition MarshalJSON (bits : CapabilityBits) (a : Agent) : option json :=
  fs ← Agent_fields a;
  Some (obj (fs ++ [("capability_flags", Some (Capabilities_json (DecodedCapabilities bits a)))])).

End json.

(** ** A client *)

Definition read_string (j : json) : option string := as_string (Some j).

Definition read_ConnMeta (j : json) : option ConnMeta :=
  a ← as_string (field "remote_addr" j); t ← as_string (field "tls_subject" j);
  g ← as_bool (field "via_gateway" j); tr ← as_string (field "transport" j);
  Some (mkConnMeta a t g tr).

Definition read_Package (j : json) : option Package :=
  n ← as_string (field "name" j); v ← as_string (field "agent_has_version" j);
  o ← as_string (field "server_offered_version" j); s ← as_string (field "status" j);
  e ← as_string (field "error_message" j); Some (mkPackage n v o s e).

Definition read_Capabilities (j : json) : option Capabilities :=
  let b k := as_bool (field k j) in
  c1 ← b "reports_status"; c2 ← b "accepts_remote_config"; c3 ← b "reports_effective_config";
  c4 ← b "accepts_packages"; c5 ← b "reports_package_statuses"; c6 ← b "reports_own_traces";
  c7 ← b "reports_own_metrics"; c8 ← b "reports_own_logs";
  c9 ← b "accepts_opamp_connection_settings"; c10 ← b "accepts_other_connection_settings";
  c11 ← b "accepts_restart_command"; c12 ← b "reports_health"; c13 ← b "reports_remote_config";
  c14 ← b "reports_heartbeat"; c15 ← b "reports_available_components";
  c16 ← b "reports_connection_settings_status";
  Some (mkCapabilities c1 c2 c3 c4 c5 c6 c7 c8 c9 c10 c11 c12 c13 c14 c15 c16).

Definition read_time (j : option json) : option Time :=
  match j with Some (JString s) => parse_RFC3339Nano s | _ => None end.

Definition read_AgentView (j : json) : option AgentView :=
  let str k := as_string (field k j) in let bool k := as_bool (field k j) in
  uid ← str "instance_uid"; seq ← as_int (field "sequence_num" j);
  ia ← as_map read_string (field "identifying_attributes" j);
  na ← as_map read_string (field "non_identifying_attributes" j);
  caps ← as_int (field "capabilities" j); flags ← field "capability_flags" j ≫= read_Capabilities;
  healthy ← bool "healthy"; he ← str "health_error"; hs ← str "health_status";
  hst ← read_time (field "health_start_time" j); hsu ← read_time (field "health_status_time" j);
  hr ← bool "health_reported"; dr ← bool "description_reported";
  ec ← as_map read_string (field "effective_config" j); pk ← as_map read_Package (field "packages" j);
  cm ← field "connection" j ≫= read_ConnMeta; cn ← bool "connected";
  fsn ← read_time (field "first_seen" j); lsn ← read_time (field "last_seen" j);
  ma ← as_list (field "missing_attributes" j); role ← str "role"; dn ← str "display_name";
  hn ← str "host_name"; ver ← str "version"; sm ← bool "supervisor_managed";
  Some (mkAgentView uid seq ia na caps flags healthy he hs hst hsu hr dr ec pk cm cn fsn lsn ma role dn
    hn ver sm).

(** ** Lemmas *)

Lemma read_ConnMeta_json c : read_ConnMeta (ConnMeta_json c) = Some c.
Proof.
  unfold read_ConnMeta, ConnMeta_json. rewrite !field_obj by reflexivity.
  cbn. rewrite !as_omit_string. by destruct c.
Qed.

Lemma read_Package_json p : read_Package (Package_json p) = Some p.
Proof.
  unfold read_Package, Package_json. rewrite !field_obj by reflexivity. cbn.
  rewrite !as_omit_string. by destruct p.
Qed.

Lemma read_Capabilities_json c : read_Capabilities (Capabilities_json c) = Some c.
Proof.
  unfold read_Capabilities, Capabilities_json. cbv zeta. rewrite !field_obj by reflexivity. cbn.
  by destruct c.
Qed.

(** The instants of the program: unset, or within the range of UnixNano, up to
    the microsecond a timestamp column rounds to. *)
Definition near (m : Z) (t : Time) : Prop := int64_min - m ≤ t ≤ int64_max + m.
Definition instant (t : Time) : Prop := t = time_zero ∨ near 1000 t.

(** Zones are whole minutes, less than a day away from UTC. *)
Class LocationLaws (L : Location) := {
  zone_minutes t : zone_offset t mod 60 = 0;
  zone_range t : Z.abs (zone_offset t) < 86400
}.

Section roundtrip.
Context {LO : Location} {LL : LocationLaws LO}.

Lemma offset_of_laws t : offset_of t mod 60 = 0 ∧ Z.abs (offset_of t) < 86400.
Proof. unfold offset_of. destruct (IsZero t); [done|]. split; [apply zone_minutes|apply zone_range]. Qed.

Lemma civil_year days :
  -110000 ≤ days ≤ 110000 → let '(y, _, _) := civil_from_days days in 0 ≤ y ≤ 9999.
Proof.
  intros Hd. unfold civil_from_days. cbv zeta. set (z := days + 719468).
  pose proof (Z.mod_pos_bound z 146097 ltac:(lia)) as Hm. pose proof (div_bounds z 146097 ltac:(lia)).
  pose proof (yd_range _ Hm) as Hy. unfold yd_of in Hy. cbv zeta in Hy.
  set (yoe := (_ / 365)) in *. destruct (_ <=? 2); subst z; lia.
Qed.

Lemma Time_json_instant t :
  instant t → ∃ s, Time_json t = Some (JString s) ∧ parse_RFC3339Nano s = Some t.
Proof.
  intros Ht. destruct (offset_of_laws t) as [Hoff Hr].
  assert (∃ s, MarshalText (offset_of t) t = Some s) as [s Hs].
  { destruct Ht as [->|[H1 H2]]; [eexists; vm_compute; reflexivity|]. unfold MarshalText.
    pose proof (civil_year ((t / 10 ^ 9 + offset_of t) / 86400)) as Hy.
    pose proof (div_bounds t (10 ^ 9) ltac:(lia)).
    pose proof (div_bounds (t / 10 ^ 9 + offset_of t) 86400 ltac:(lia)).
    unfold int64_min, int64_max, Time in *. specialize (Hy ltac:(lia)).
    destruct (civil_from_days _) as [[y m] d].
    rewrite (proj2 (Z.leb_le 0 y)), (proj2 (Z.leb_le y 9999)) by lia.
    rewrite (proj2 (Z.ltb_lt _ 24)); [by eexists|].
    rewrite <-Z.quot_abs by lia. apply Z.div_lt_upper_bound; [lia|].
    rewrite Z.quot_div_nonneg by lia. apply Z.div_lt_upper_bound; lia. }
  exists s. unfold Time_json. rewrite Hs. split; [done|].
  by eapply parse_RFC3339Nano_format.
Qed.

(** A view the program can build. *)
Record view_ok (v : AgentView) : Prop := {
  vo_seq : is_uint64 (v_SequenceNum v);
  vo_caps : is_uint64 (v_Capabilities v);
  vo_start : instant (v_HealthStartTime v);
  vo_status : instant (v_HealthStatusTime v);
  vo_first : instant (v_FirstSeen v);
  vo_last : instant (v_LastSeen v)
}.

Lemma uint64_fits z : is_uint64 z → Z.abs z < 10 ^ 20.
Proof. unfold is_uint64. lia. Qed.

Lemma read_AgentView_json v :
  view_ok v → ∃ j, AgentView_json v = Some j ∧ read_AgentView j = Some v.
Proof.
  intros [Hseq Hcaps Hst Hsu Hf Hl].
  destruct (Time_json_instant _ Hst) as (s1 & H1 & P1), (Time_json_instant _ Hsu) as (s2 & H2 & P2),
    (Time_json_instant _ Hf) as (s3 & H3 & P3), (Time_json_instant _ Hl) as (s4 & H4 & P4).
  unfold AgentView_json, AgentView_fields. rewrite H1, H2, H3, H4. cbn [mbind option_bind fmap option_fmap option_map].
  eexists. split; [reflexivity|]. unfold read_AgentView. cbv zeta.
  rewrite !field_obj by reflexivity.
  cbn [assoc String.eqb Ascii.eqb Bool.eqb mbind option_bind id as_bool read_time].
  rewrite !as_JString, !as_omit_string, !as_omit_list, !as_omit_map, !as_JInt, P1, P2, P3, P4,
    read_Capabilities_json, read_ConnMeta_json by (done || by apply uint64_fits || (intros; apply read_Package_json)).
  cbn [mbind option_bind]. by destruct v.
Qed.

Lemma ConnMeta_fits n c : 1 ≤ n → fits n (ConnMeta_json c).
Proof. unfold ConnMeta_json. fits. Qed.

Lemma Package_fits n p : 1 ≤ n → fits n (Package_json p).
Proof. unfold Package_json. fits. Qed.

Lemma Capabilities_fits n c : 1 ≤ n → fits n (Capabilities_json c).
Proof. unfold Capabilities_json. fits. Qed.

Lemma Time_json_string t j : Time_json t = Some j → ∃ s, j = JString s.
Proof. unfold Time_json. intros (s & _ & ->)%fmap_Some. by exists s. Qed.

Lemma AgentView_fits v j :
  is_uint64 (v_SequenceNum v) → is_uint64 (v_Capabilities v) → AgentView_json v = Some j → fits 3 j.
Proof.
  intros Hseq Hcaps. unfold AgentView_json, AgentView_fields. intros (fs & Hf & ->)%fmap_Some.
  repeat (apply bind_Some in Hf as (? & [? ->]%Time_json_string & Hf)). injection Hf as <-.
  fits; first [by apply uint64_fits|apply Package_fits|apply ConnMeta_fits|apply Capabilities_fits]; lia.
Qed.

(** ** Properties *)

(** C20: a client of the detail endpoint gets the agent.  Every view the program
    can build is encoded, whatever the server's time zone; the text is read
    back by a JSON decoder; and when the strings of the view are valid UTF-8
    the client has every field as it was, the empty ones that are left out, the
    64 bit counters, the capability flags, the packages and the instants to the
    nanosecond included. *)
Theorem AgentView_roundtrip v :
  view_ok v →
  ∃ j, AgentView_json v = Some j ∧ Decode (Encode j) = Some (sanitize j) ∧
    (doc_valid j = true → Decode (Encode j) ≫= read_AgentView = Some v).
Proof.
  intros Hv. destruct (read_AgentView_json v Hv) as (j & Hj & Hr). exists j.
  assert (Decode (Encode j) = Some (sanitize j)) as Hd.
  { apply (Decode_fits 3); [|by vm_compute]. apply (AgentView_fits v); [by apply Hv..|done]. }
  split_and!; [done..|]. intros Hval. rewrite Hd. by rewrite sanitize_id.
Qed.

(** [Agent.MarshalJSON].  The flags are those decoded from the bitmask,
    beside the bitmask and not instead of it; every field the API's view has of
    an agent has the same value here, but those the view computes; the eviction
    and the session's freshness stay out. *)
Theorem MarshalJSON_functional `{Unicode} bits a j j' :
  MarshalJSON bits a = Some j → AgentView_json (DetailView bits a) = Some j' →
  field "capability_flags" j = Some (Capabilities_json (DecodedCapabilities bits a)) ∧
  as_int (field "capabilities" j) = as_int (Some (JInt (AgentCapabilities a))) ∧
  as_list (field "reserved_attribute_conflicts" j) = Some (ReservedAttributeConflicts a) ∧
  (∀ k, k ∉ ["role"; "display_name"; "host_name"; "version"; "supervisor_managed";
             "reserved_attribute_conflicts"] → field k j = field k j').
Proof.
  unfold MarshalJSON, Agent_fields, AgentView_json, AgentView_fields.
  cbn [DetailView fullView v_HealthStartTime v_HealthStatusTime v_FirstSeen v_LastSeen].
  unfold DetailView, fullView. cbn [v_HealthStartTime v_HealthStatusTime v_FirstSeen v_LastSeen].
  destruct (Time_json (HealthStartTime a)) as [t1|]; [|done].
  destruct (Time_json (HealthStatusTime a)) as [t2|]; [|done].
  destruct (Time_json (FirstSeen a)) as [t3|]; [|done].
  destruct (Time_json (LastSeen a)) as [t4|]; [|done].
  cbn [mbind option_bind fmap option_fmap option_map app]. intros [= <-] [= <-].
  rewrite !field_obj by reflexivity. split_and!.
  - done.
  - done.
  - apply as_omit_list.
  - intros k Hk. rewrite !field_obj by reflexivity. cbn [assoc].
    repeat match goal with
      | |- context [String.eqb k ?s] =>
          destruct (String.eqb_spec k s) as [->|?]; [try done; exfalso; apply Hk; set_solver|]
      end. done.
Qed.

End roundtrip.

(** ** At concrete agents *)

#[export] Instance utc_plus_2 : Location := {| zone_offset _ := 7200 |}.

#[export] Instance utc_plus_2_laws : LocationLaws utc_plus_2.
Proof. split; intros; vm_compute; done. Qed.

Definition view1 : AgentView :=
  mkAgentView "a" 18446744073709551615 {["service.name" := "gw <1>"]} ∅ 3
    (mkCapabilities true true false false false false false false false false false false false false
       false false)
    true "" "ok" time_zero (1700000000 * 10 ^ 9 + 5000) true true {["otel.yaml" := "a: 1"]}
    {["p" := mkPackage "p" "1.0" "" "installed" ""]} (mkConnMeta "10.0.0.1:1" "" false "ws") true
    (1700000000 * 10 ^ 9) (1700000001 * 10 ^ 9) ["host.name"] "Collector" "gw <1>" "" "0.1" false.

Example AgentView_roundtrip_witness :
  ∃ j, AgentView_json view1 = Some j ∧ Decode (Encode j) ≫= read_AgentView = Some view1 ∧
    field "health_start_time" j = Some (JString "0001-01-01T00:00:00Z").
Proof.
  assert (view_ok view1) as Hv by (split; first [by vm_compute|by left|right; by vm_compute]).
  destruct (AgentView_roundtrip view1 Hv) as (j & Hj & _ & Hr). exists j. split; [exact Hj|].
  assert (∃ j', AgentView_json view1 = Some j' ∧ doc_valid j' = true ∧
    field "health_start_time" j' = Some (JString "0001-01-01T00:00:00Z")) as (j' & Hj' & Hval & Hf).
  { eexists. split; [vm_compute; reflexivity|]. split; vm_compute; reflexivity. }
  rewrite Hj in Hj'. injection Hj' as ->. split; [by apply Hr|done].
Defined.
