(* ===== verification/Registry.v ===== *)
(** * Package fleet: the sharded registry (internal/fleet/registry.go)

    The registry keeps the live fleet in [ShardCount] independently locked
    maps.  Every operation takes one shard's lock at a time, so the model's
    atomic steps are per shard: [Report], [SetConnected] and [Get] touch one
    shard, [Sweep], [List] and [Aggregate] visit them in turn.  [flat] is the
    abstract state, one map from instance uid to agent; the file
    RegistryProps relates the two. *)

From Stdlib Require Import Ascii ZArith Lia.
From S2P Require Import Prelude GoLang Fleet.
Local Open Scope Z_scope.

(** ** The OpAMP messages, as the accessors the handler calls expose them

    These are generated by protoc, in package protobufs.  A getter on an
    absent submessage returns the zero value, so an absent package list or
    config map is the empty map. *)

Inductive AnyValue :=
  | StringValue (s : string)
  | OtherValue (raw : string).

Record KeyValue := mkKeyValue { kv_Key : string; kv_Value : AnyValue }.

Record AgentDescription := mkAgentDescription {
  IdentifyingAttributes : list KeyValue;
  NonIdentifyingAttributes : list KeyValue
}.

Record ComponentHealth := mkComponentHealth {
  h_Healthy : bool;
  h_LastError : string;
  h_Status : string;
  h_StartTimeUnixNano : Z;
  h_StatusTimeUnixNano : Z
}.

Record PackageStatus := mkPackageStatus {
  ps_Name : string;
  ps_AgentHasVersion : string;
  ps_ServerOfferedVersion : string;
  ps_Status : Z;
  ps_ErrorMessage : string
}.

Record CustomMessage := mkCustomMessage {
  cm_Capability : string;
  cm_Type : string;
  cm_Data : string
}.

Record AgentToServer := mkAgentToServer {
  m_InstanceUid : string;
  m_SequenceNum : Z;
  m_Capabilities : Z;
  m_AgentDescription : option AgentDescription;
  m_Health : option ComponentHealth;
  m_PackageStatuses : gmap string PackageStatus;
  m_EffectiveConfig : gmap string string;
  m_CustomMessage : option CustomMessage
}.

(** Rendering done by the generated code: [AnyValue.String] on a value that is
    not a string, [PackageStatusEnum.String]. *)
Class Protobuf := {
  AnyValue_String : string → string;
  PackageStatusEnum_String : Z → string
}.

(** [uuid.FromBytes] followed by [UUID.String], from google/uuid. *)
Class UUID := uuid_FromBytes : string → option string.

(** ** Events *)

Inductive Event :=
  | AgentConnected (id : string)
  | AgentDisconnected (id : string)
  | AgentEvicted (id : string)
  | ReportReceived (id kind : string)
  | MissingAttribute (id key : string)
  | ReservedAttributeConflict (id key : string).

#[export] Instance Event_eq_dec : EqDecision Event.
Proof. solve_decision. Defined.

Definition event_id (e : Event) : string :=
  match e with
  | AgentConnected i | AgentDisconnected i | AgentEvicted i
  | ReportReceived i _ | MissingAttribute i _ | ReservedAttributeConflict i _ => i
  end.

(** A listener folds notifications into its own state: the interface
    [fleet.Events] promises to the registry's clients. *)
Class Listener (S : Type) := notify : S → Event → S.

Definition notify_all {S} `{Listener S} (s : S) (es : list Event) : S :=
  foldl notify s es.

(** [noopEvents] and the fan-out of [MultiEvents]: every listener is told, in
    order. *)
#[export] Instance noopEvents : Listener unit := λ s _, s.

#[export] Instance multiEvents {S T} `{Listener S, Listener T} : Listener (S * T) :=
  λ st e, (notify st.1 e, notify st.2 e).

(** ** Configuration and state *)

Record Config := mkConfig {
  HeartbeatInterval : Duration;
  StaleMissedHeartbeats : Z;
  RequiredAttributes : list string;
  ShardCount : Z
}.

Definition defaultShardCount : Z := 256.

Abbreviation Shard := (gmap string Agent).

Record Registry := mkRegistry { cfg : Config; shards : list Shard }.

#[export] Instance eta_Registry : Eta Registry := λ r,
  mkRegistry (cfg r) (shards r).

(** [New]: the listener is not part of the state, every operation returns the
    notifications it makes. *)
Definition New (c : Config) : Registry :=
  let shardCount := if ShardCount c <=? 0 then defaultShardCount else ShardCount c in
  mkRegistry c (replicate (Z.to_nat shardCount) ∅).

(** hash/fnv's New32a: xor the byte in, multiply by the prime, modulo 2^32. *)
Fixpoint fnv32a (h : Z) (s : string) : Z :=
  match s with
  | EmptyString => h
  | String c s' =>
      fnv32a (uint32 (Z.lxor h (Z.of_N (N_of_ascii c)) * 16777619)) s'
  end.

Definition Sum32 (s : string) : Z := fnv32a 2166136261 s.

(** [shardFor], as an index into [shards]. *)
Definition shardFor (r : Registry) (id : string) : nat :=
  Z.to_nat (Sum32 id mod uint32 (Z.of_nat (length (shards r)))).

(** The shard an operation locked, and the registry after it wrote it back. *)
Definition get_shard (r : Registry) (i : nat) : Shard := default ∅ (shards r !! i).
Definition set_shard (r : Registry) (i : nat) (s : Shard) : Registry :=
  r <| shards := <[i := s]> (shards r) |>.

(** ** Folding a message into an agent *)

Definition emit_all {E} (es : list E) : writer E unit := (tt, es).

Definition checkRequiredAttributes (c : Config) (agent : Agent) : writer Event Agent :=
  let missing := filter (λ key, Identifying agent !! key = None ∧
                                NonIdentifying agent !! key = None)
                        (RequiredAttributes c) in
  let changed := bool_decide (MissingAttributes agent ≠ missing) in
  let agent := agent <| MissingAttributes := missing |> in
  _ ← (if (0 <? Z.of_nat (length missing)) && changed
       then emit_all (MissingAttribute (InstanceUID agent) <$> missing)
       else mret tt);
  mret agent.

Definition checkReservedAttributeConflicts (agent : Agent) : writer Event Agent :=
  let conflicts := filter (λ key, is_Some (Identifying agent !! key) ∨
                                  is_Some (NonIdentifying agent !! key))
                          ReservedAttributeKeys in
  let changed := bool_decide (ReservedAttributeConflicts agent ≠ conflicts) in
  let agent := agent <| ReservedAttributeConflicts := conflicts |> in
  _ ← (if (0 <? Z.of_nat (length conflicts)) && changed
       then emit_all (ReservedAttributeConflict (InstanceUID agent) <$> conflicts)
       else mret tt);
  mret agent.

Section registry.
Context `{PB : Protobuf, UU : UUID, MR : MapRange}.

Definition anyValueString (v : AnyValue) : string :=
  match v with
  | StringValue s => s
  | OtherValue raw => AnyValue_String raw
  end.

(** A later duplicate key overwrites an earlier one. *)
Definition attrsToMap (attrs : list KeyValue) : gmap string string :=
  foldl (λ m kv, <[kv_Key kv := anyValueString (kv_Value kv)]> m) ∅ attrs.

Definition package_of (p : PackageStatus) : Package :=
  mkPackage (ps_Name p) (ps_AgentHasVersion p) (ps_ServerOfferedVersion p)
    (PackageStatusEnum_String (ps_Status p)) (ps_ErrorMessage p).

Definition report_description (c : Config) (id : string)
    (d : option AgentDescription) (agent : Agent) : writer Event Agent :=
  match d with
  | None => mret agent
  | Some desc =>
      _ ← emit (ReportReceived id "status");
      let agent := agent <| DescriptionReported := true |>
        <| Identifying := attrsToMap (IdentifyingAttributes desc) |>
        <| NonIdentifying := attrsToMap (NonIdentifyingAttributes desc) |> in
      agent ← checkRequiredAttributes c agent;
      checkReservedAttributeConflicts agent
  end.

Definition report_health (id : string) (h : option ComponentHealth)
    (agent : Agent) : writer Event Agent :=
  match h with
  | None => mret agent
  | Some health =>
      _ ← emit (ReportReceived id "health");
      let agent := agent <| HealthReported := true |>
        <| Healthy := h_Healthy health |>
        <| HealthError := h_LastError health |>
        <| HealthStatus := h_Status health |> in
      let ns := h_StartTimeUnixNano health in
      let agent := if bool_decide (ns ≠ 0)
        then agent <| HealthStartTime := time_UnixNano (int64 ns) |> else agent in
      let ns := h_StatusTimeUnixNano health in
      let agent := if bool_decide (ns ≠ 0)
        then agent <| HealthStatusTime := time_UnixNano (int64 ns) |> else agent in
      mret agent
  end.

Definition report_packages (id : string) (pkgs : gmap string PackageStatus)
    (agent : Agent) : writer Event Agent :=
  if bool_decide (pkgs = ∅) then mret agent else
  _ ← emit (ReportReceived id "package_statuses");
  mret (agent <| Packages := package_of <$> pkgs |>).

Definition report_config (id : string) (cfgMap : gmap string string)
    (agent : Agent) : writer Event Agent :=
  if bool_decide (cfgMap = ∅) then mret agent else
  _ ← emit (ReportReceived id "effective_config");
  mret (agent <| EffectiveConfig := cfgMap |>).

(** The body of [Report] on the shard's entry for [id]. *)
Definition report_agent (c : Config) (now : Time) (id : string)
    (msg : AgentToServer) (meta : ConnMeta) (entry : option Agent) :
    writer Event Agent :=
  let agent := match entry with
    | Some agent => agent
    | None => zero_Agent <| InstanceUID := id |> <| FirstSeen := now |>
    end in
  _ ← (if negb (Connected agent) then emit (AgentConnected id) else mret tt);
  let agent := agent <| LastSeen := now |> <| Connected := true |>
    <| Conn := meta |> <| SequenceNum := m_SequenceNum msg |> in
  let agent := if bool_decide (m_Capabilities msg ≠ 0)
    then agent <| AgentCapabilities := m_Capabilities msg |> else agent in
  agent ← report_description c id (m_AgentDescription msg) agent;
  agent ← report_health id (m_Health msg) agent;
  agent ← report_packages id (m_PackageStatuses msg) agent;
  report_config id (m_EffectiveConfig msg) agent.

(** [Report]; a message with an invalid instance uid is dropped. *)
Definition Report (now : Time) (msg : AgentToServer) (meta : ConnMeta)
    (r : Registry) : writer Event Registry :=
  match uuid_FromBytes (m_InstanceUid msg) with
  | None => mret r
  | Some id =>
      let i := shardFor r id in
      let s := get_shard r i in
      agent ← report_agent (cfg r) now id msg meta (s !! id);
      mret (set_shard r i (<[id := agent]> s))
  end.

(** [SetConnected] leaves [LastSeen] alone. *)
Definition setConnected_agent (id : string) (connected : bool) (agent : Agent) :
    writer Event Agent :=
  _ ← (if Connected agent && negb connected then emit (AgentDisconnected id)
       else if negb (Connected agent) && connected then emit (AgentConnected id)
       else mret tt);
  mret (agent <| Connected := connected |>).

Definition SetConnected (id : string) (connected : bool) (r : Registry) :
    writer Event Registry :=
  let i := shardFor r id in
  let s := get_shard r i in
  match s !! id with
  | None => mret r
  | Some agent =>
      agent ← setConnected_agent id connected agent;
      mret (set_shard r i (<[id := agent]> s))
  end.

Definition DisconnectThreshold (c : Config) : Duration :=
  int64 (HeartbeatInterval c + Z.quot (HeartbeatInterval c) 2).

(** [snapshot] copies every field and clones the maps and slices. *)
Definition snapshot (agent : Agent) : Agent := agent.

Definition Get (r : Registry) (id : string) : option Agent :=
  snapshot <$> get_shard r (shardFor r id) !! id.

Definition List (r : Registry) : list Agent :=
  s ← shards r; snapshot <$> (range s).*2.

(** ** Sweep *)

Definition evictAfter (c : Config) : Duration :=
  int64 (HeartbeatInterval c * int64 (StaleMissedHeartbeats c)).

(** One iteration of the inner loop: the entry afterwards, [None] when it was
    deleted. *)
Definition sweep_agent (c : Config) (now : Time) (id : string) (agent : Agent) :
    writer Event (option Agent) :=
  let age := time_Sub now (LastSeen agent) in
  agent ← (if Connected agent && (DisconnectThreshold c <? age) then
             let agent := agent <| Connected := false |> in
             _ ← emit (AgentDisconnected id); mret agent
           else mret agent);
  if evictAfter c <? age then _ ← emit (AgentEvicted id); mret None
  else mret (Some agent).

Fixpoint sweep_loop (c : Config) (now : Time) (entries : list (string * Agent))
    (s : Shard) (evicted : list string) : writer Event (Shard * list string) :=
  match entries with
  | [] => mret (s, evicted)
  | (id, agent) :: entries =>
      o ← sweep_agent c now id agent;
      match o with
      | Some agent' => sweep_loop c now entries (<[id := agent']> s) evicted
      | None => sweep_loop c now entries (delete id s) (evicted ++ [id])
      end
  end.

(** The critical section of one shard. *)
Definition sweep_shard (c : Config) (now : Time) (s : Shard)
    (evicted : list string) : writer Event (Shard * list string) :=
  sweep_loop c now (range s) s evicted.

Fixpoint sweep_shards (c : Config) (now : Time) (ss : list Shard)
    (evicted : list string) : writer Event (list Shard * list string) :=
  match ss with
  | [] => mret ([], evicted)
  | s :: ss =>
      se ← sweep_shard c now s evicted;
      rest ← sweep_shards c now ss se.2;
      mret (se.1 :: rest.1, rest.2)
  end.

Definition Sweep (now : Time) (r : Registry) : writer Event (Registry * list string) :=
  se ← sweep_shards (cfg r) now (shards r) [];
  mret (r <| shards := se.1 |>, se.2).

(** [Run]: one sweep per tick of the heartbeat ticker, until the context is
    cancelled. *)
Fixpoint Run (ticks : list Time) (r : Registry) : writer Event Registry :=
  match ticks with
  | [] => mret r
  | now :: ticks => re ← Sweep now r; Run ticks re.1
  end.

(** ** Aggregate and AgentSeries *)

(** Transport and "direct" or "gateway". *)
Definition ConnRoute : Type := string * string.

Record FleetStats := mkFleetStats {
  Size : Z;
  StatsConnected : gmap ConnRoute Z;
  Disconnected : Z;
  Noncompliant : Z;
  StatsSupervisorManaged : Z;
  AwaitingFullState : Z
}.

#[export] Instance eta_FleetStats : Eta FleetStats := λ s,
  mkFleetStats (Size s) (StatsConnected s) (Disconnected s) (Noncompliant s)
    (StatsSupervisorManaged s) (AwaitingFullState s).

Definition zero_FleetStats : FleetStats := mkFleetStats 0 ∅ 0 0 0 0.

Definition route_of (agent : Agent) : ConnRoute :=
  (Transport (Conn agent), if ViaGateway (Conn agent) then "gateway" else "direct").

Definition aggregate_agent (stats : FleetStats) (agent : Agent) : FleetStats :=
  let stats := stats <| Size := Size stats + 1 |> in
  let stats := if Connected agent then
      let route := route_of agent in
      stats <| StatsConnected :=
        <[route := default 0 (StatsConnected stats !! route) + 1]> (StatsConnected stats) |>
    else stats <| Disconnected := Disconnected stats + 1 |> in
  let stats := if 0 <? Z.of_nat (length (MissingAttributes agent))
    then stats <| Noncompliant := Noncompliant stats + 1 |> else stats in
  let stats := if SupervisorManaged agent
    then stats <| StatsSupervisorManaged := StatsSupervisorManaged stats + 1 |> else stats in
  if negb (DescriptionReported agent)
  then stats <| AwaitingFullState := AwaitingFullState stats + 1 |> else stats.

Definition Aggregate (r : Registry) : FleetStats :=
  foldl (λ stats s, foldl aggregate_agent stats (range s).*2) zero_FleetStats (shards r).

Record AgentSeries := mkAgentSeries {
  as_InstanceUID : string;
  as_HealthReported : bool;
  as_Healthy : bool;
  as_LastSeen : Time
}.

Definition series_of (agent : Agent) : AgentSeries :=
  mkAgentSeries (InstanceUID agent) (HealthReported agent) (Healthy agent)
    (LastSeen agent).

Definition AgentSeries_list (r : Registry) : list AgentSeries :=
  s ← shards r; series_of <$> (range s).*2.

End registry.
