(* ===== verification/RegistryProps.v ===== *)
(** * The registry refines one flat map

    [wf] is the invariant of the sharded state; [action] and [act] are the
    registry's atomic steps, one per critical section, so a run of [acts] is
    any interleaving of concurrent callers.  [spec_act] is the abstract
    specification on a single map; the theorems show that every step
    preserves [wf] and implements [spec_act], and derive the behaviour of
    [Sweep], [List], [Aggregate] and the notifications from it. *)

From Stdlib Require Import ZArith Lia.
From S2P Require Import Prelude GoLang Fleet Registry.
Local Open Scope Z_scope.

(** ** The abstract state and the invariant *)

Definition flat (r : Registry) : Shard := foldr (∪) ∅ (shards r).

(** What a registry-held agent always satisfies: [MissingAttributes] and
    [ReservedAttributeConflicts] are what its last description implies, and
    the fields only persistence sets are unset. *)
Record agent_ok (c : Config) (id : string) (a : Agent) : Prop := {
  ok_uid : InstanceUID a = id;
  ok_missing : MissingAttributes a =
    if DescriptionReported a
    then filter (λ key, Identifying a !! key = None ∧ NonIdentifying a !! key = None)
           (RequiredAttributes c)
    else [];
  ok_conflicts : ReservedAttributeConflicts a =
    if DescriptionReported a
    then filter (λ key, is_Some (Identifying a !! key) ∨ is_Some (NonIdentifying a !! key))
           ReservedAttributeKeys
    else [];
  ok_unpersisted : EvictedAt a = None ∧ SessionUpdatedAt a = time_zero;
  ok_health : HealthReported a = false →
    Healthy a = false ∧ HealthError a = "" ∧ HealthStatus a = ""
}.

Record wf (r : Registry) : Prop := {
  wf_len : 0 < Z.of_nat (length (shards r)) < 2 ^ 32;
  wf_place i s id a : shards r !! i = Some s → s !! id = Some a →
    i = shardFor r id ∧ agent_ok (cfg r) id a
}.

(** ** Steps *)

Inductive action :=
  | ActReport (now : Time) (msg : AgentToServer) (meta : ConnMeta)
  | ActSetConnected (id : string) (connected : bool)
  | ActSweepShard (i : nat) (now : Time).

(** The state-changing entry points of the registry; [OpSweep] is the whole
    [Sweep], over every shard. *)
Inductive op :=
  | OpReport (now : Time) (msg : AgentToServer) (meta : ConnMeta)
  | OpSetConnected (id : string) (connected : bool)
  | OpSweep (now : Time).

(** The notifications about attributes. *)
Definition is_compliance (e : Event) : bool :=
  match e with MissingAttribute _ _ | ReservedAttributeConflict _ _ => true | _ => false end.

Abbreviation compliance es := (filter (λ e, is_compliance e = true) es).

Section props.
Context `{PB : Protobuf, UU : UUID, MR : MapRange}.

Definition sweep_one (i : nat) (now : Time) (r : Registry) : writer Event Registry :=
  se ← sweep_shard (cfg r) now (get_shard r i) [];
  mret (set_shard r i se.1).

Definition act (a : action) (r : Registry) : writer Event Registry :=
  match a with
  | ActReport now msg meta => Report now msg meta r
  | ActSetConnected id connected => SetConnected id connected r
  | ActSweepShard i now => sweep_one i now r
  end.

Fixpoint acts (l : list action) (r : Registry) : writer Event Registry :=
  match l with
  | [] => mret r
  | a :: l => r ← act a r; acts l r
  end.

(** *** The specification *)

(** Sweeping the agents [visit] selects. *)
Definition spec_sweep (c : Config) (visit : string → bool) (now : Time)
    (m : Shard) : Shard :=
  map_imap (λ id a, if visit id then (sweep_agent c now id a).1 else Some a) m.

Definition spec_sweep_events (c : Config) (visit : string → bool) (now : Time)
    (m : Shard) : list Event :=
  '(id, a) ← map_to_list m;
  if visit id then (sweep_agent c now id a).2 else [].

(** [spec_act c shard a m m' es]: on the flat map [m], [a] may produce [m']
    while notifying [es]. *)
Definition spec_act (c : Config) (shard : string → nat) (a : action)
    (m m' : Shard) (es : list Event) : Prop :=
  match a with
  | ActReport now msg meta =>
      match uuid_FromBytes (m_InstanceUid msg) with
      | None => m' = m ∧ es = []
      | Some id =>
          let w := report_agent c now id msg meta (m !! id) in
          m' = <[id := w.1]> m ∧ es = w.2
      end
  | ActSetConnected id connected =>
      match m !! id with
      | None => m' = m ∧ es = []
      | Some agent =>
          let w := setConnected_agent id connected agent in
          m' = <[id := w.1]> m ∧ es = w.2
      end
  | ActSweepShard i now =>
      let visit id := bool_decide (shard id = i) in
      m' = spec_sweep c visit now m ∧ es ≡ₚ spec_sweep_events c visit now m
  end.

(** A sequence of steps, the notifications concatenated. *)
Inductive spec_acts (c : Config) (shard : string → nat) :
    list action → Shard → Shard → list Event → Prop :=
  | spec_acts_nil m : spec_acts c shard [] m m []
  | spec_acts_cons a l m m' m'' es es' :
      spec_act c shard a m m' es → spec_acts c shard l m' m'' es' →
      spec_acts c shard (a :: l) m m'' (es ++ es').

(** What a description makes of an agent. *)
Definition described (c : Config) (desc : AgentDescription) (a : Agent) : Agent :=
  let ids := attrsToMap (IdentifyingAttributes desc) in
  let nids := attrsToMap (NonIdentifyingAttributes desc) in
  a <| DescriptionReported := true |>
    <| Identifying := ids |> <| NonIdentifying := nids |>
    <| MissingAttributes := filter (λ key, ids !! key = None ∧ nids !! key = None)
                              (RequiredAttributes c) |>
    <| ReservedAttributeConflicts :=
         filter (λ key, is_Some (ids !! key) ∨ is_Some (nids !! key))
           ReservedAttributeKeys |>.

(** Past the eviction threshold, past the disconnect threshold. *)
Definition stale (c : Config) (now : Time) (a : Agent) : bool :=
  evictAfter c <? time_Sub now (LastSeen a).

Definition missed (c : Config) (now : Time) (a : Agent) : bool :=
  DisconnectThreshold c <? time_Sub now (LastSeen a).

(** Every entry of every shard. *)
Definition entries (r : Registry) : list (string * Agent) := shards r ≫= range.

(** *** Operations as the program calls them *)

Definition do_op (o : op) (r : Registry) : writer Event Registry :=
  match o with
  | OpReport now msg meta => Report now msg meta r
  | OpSetConnected id connected => SetConnected id connected r
  | OpSweep now => re ← Sweep now r; mret re.1
  end.

Fixpoint do_ops (l : list op) (r : Registry) : writer Event Registry :=
  match l with
  | [] => mret r
  | o :: l => r ← do_op o r; do_ops l r
  end.

(** The connected agents of a fleet, and the notifications that move them. *)
Definition online (m : Shard) : nat := mcount Connected m.

Definition is_connect (e : Event) : bool :=
  match e with AgentConnected _ => true | _ => false end.

Definition is_disconnect (e : Event) : bool :=
  match e with AgentDisconnected _ => true | _ => false end.

(** ** Lookup in the flattened registry *)

Lemma lookup_foldr_union (ss : list Shard) (id : string) (k : nat) :
  (∀ i s, ss !! i = Some s → is_Some (s !! id) → i = k) →
  foldr (∪) ∅ ss !! id = default ∅ (ss !! k) !! id.
Proof.
  revert k. induction ss as [|s ss IH]; intros k Hk; simpl.
  - by rewrite !lookup_empty.
  - rewrite lookup_union. destruct (s !! id) as [a|] eqn:Hs.
    + rewrite <-(Hk 0%nat s eq_refl) by eauto. simpl. rewrite Hs.
      by destruct (foldr _ _ _ !! id).
    + rewrite (left_id None _). destruct k as [|k]; simpl.
      * rewrite Hs, (IH (length ss)); [by rewrite lookup_ge_None_2 by lia|].
        intros i s' Hi Hs'. by specialize (Hk (S i) s' Hi Hs').
      * apply IH. intros i s' Hi Hs'. specialize (Hk (S i) s' Hi Hs'). lia.
Qed.

Lemma flat_lookup r id : wf r → flat r !! id = get_shard r (shardFor r id) !! id.
Proof.
  intros Hwf. apply lookup_foldr_union. intros i s Hi [a Ha].
  apply (wf_place r Hwf i s id a Hi Ha).
Qed.

Lemma shardFor_lt r id : wf r → (shardFor r id < length (shards r))%nat.
Proof.
  intros [Hlen _]. unfold shardFor, uint32.
  rewrite (Z.mod_small (Z.of_nat _)) by lia.
  pose proof (Z.mod_pos_bound (Sum32 id) (Z.of_nat (length (shards r))) ltac:(lia)).
  lia.
Qed.

Lemma shardFor_ext r r' id :
  length (shards r') = length (shards r) → shardFor r' id = shardFor r id.
Proof. unfold shardFor. by intros ->. Qed.

Lemma get_set_shard r i j s :
  (i < length (shards r))%nat →
  get_shard (set_shard r i s) j = if decide (i = j) then s else get_shard r j.
Proof.
  intros Hi. unfold get_shard, set_shard. simpl. case_decide as Hij.
  - subst j. by rewrite list_lookup_insert_eq.
  - by rewrite list_lookup_insert_ne.
Qed.

Lemma cfg_set_shard r i s : cfg (set_shard r i s) = cfg r.
Proof. done. Qed.

Lemma shardFor_set_shard r i s id : shardFor (set_shard r i s) id = shardFor r id.
Proof. apply shardFor_ext. apply length_insert. Qed.

(** Writing shard [i] back keeps the invariant when its new entries belong
    there. *)
Lemma wf_set_shard r i s :
  wf r →
  (∀ id a, s !! id = Some a → i = shardFor r id ∧ agent_ok (cfg r) id a) →
  wf (set_shard r i s).
Proof.
  intros Hwf Hs. split.
  - unfold set_shard. simpl. rewrite length_insert. apply Hwf.
  - intros j s' id a Hj Ha. rewrite shardFor_set_shard, cfg_set_shard.
    unfold set_shard in Hj. simpl in Hj.
    destruct (decide (i = j)) as [<-|Hij].
    + destruct (decide (i < length (shards r))%nat).
      * rewrite list_lookup_insert_eq in Hj by done. simplify_eq. by apply Hs.
      * rewrite list_insert_ge in Hj by lia. by apply (wf_place r Hwf i s').
    + rewrite list_lookup_insert_ne in Hj by done. by apply (wf_place r Hwf j s').
Qed.

(** The flat view of a shard write. *)
Lemma flat_set_shard r i s id :
  wf r →
  (∀ id a, s !! id = Some a → i = shardFor r id ∧ agent_ok (cfg r) id a) →
  (i < length (shards r))%nat →
  flat (set_shard r i s) !! id =
    if decide (i = shardFor r id) then s !! id else flat r !! id.
Proof.
  intros Hwf Hs Hi.
  rewrite (flat_lookup (set_shard r i s)) by (by apply wf_set_shard).
  rewrite shardFor_set_shard, get_set_shard by done.
  case_decide; [done|]. by rewrite flat_lookup.
Qed.

Lemma get_shard_ok r i id a :
  wf r → get_shard r i !! id = Some a → i = shardFor r id ∧ agent_ok (cfg r) id a.
Proof.
  intros Hwf. unfold get_shard. destruct (shards r !! i) as [s|] eqn:Hi; simpl.
  - by apply wf_place.
  - by rewrite lookup_empty.
Qed.

Lemma flat_ok r id a : wf r → flat r !! id = Some a → agent_ok (cfg r) id a.
Proof. intros Hwf. rewrite flat_lookup by done. intros ?. by eapply get_shard_ok. Qed.

Lemma wf_New c : ShardCount c < 2 ^ 32 → wf (New c).
Proof.
  intros Hc. split.
  - unfold New. simpl. rewrite length_replicate.
    destruct (Z.leb_spec (ShardCount c) 0); unfold defaultShardCount; lia.
  - intros i s id a Hi Ha. apply lookup_replicate in Hi as [-> _].
    by rewrite lookup_empty in Ha.
Qed.

Lemma flat_New c : flat (New c) = ∅.
Proof.
  unfold flat, New. simpl. induction (Z.to_nat _) as [|n IH]; simpl; [done|].
  by rewrite IH, (left_id_L ∅ _).
Qed.

(** ** Folding one message into an agent *)

Lemma checkRequiredAttributes_fst c a :
  (checkRequiredAttributes c a).1 = a <| MissingAttributes :=
    filter (λ key, Identifying a !! key = None ∧ NonIdentifying a !! key = None)
      (RequiredAttributes c) |>.
Proof. unfold checkRequiredAttributes. by rewrite fst_bind. Qed.

Lemma checkReservedAttributeConflicts_fst a :
  (checkReservedAttributeConflicts a).1 = a <| ReservedAttributeConflicts :=
    filter (λ key, is_Some (Identifying a !! key) ∨ is_Some (NonIdentifying a !! key))
      ReservedAttributeKeys |>.
Proof. unfold checkReservedAttributeConflicts. by rewrite fst_bind. Qed.

Lemma report_description_fst c id d a :
  (report_description c id d a).1 =
    match d with None => a | Some desc => described c desc a end.
Proof.
  destruct d as [desc|]; [|done]. unfold report_description. rewrite fst_bind.
  cbv zeta beta. rewrite fst_bind, checkReservedAttributeConflicts_fst.
  by rewrite checkRequiredAttributes_fst.
Qed.

Lemma report_agent_fst c now id msg meta o :
  (report_agent c now id msg meta o).1 =
    (report_config id (m_EffectiveConfig msg)
      (report_packages id (m_PackageStatuses msg)
        (report_health id (m_Health msg)
          (report_description c id (m_AgentDescription msg)
            (let a := default (zero_Agent <| InstanceUID := id |> <| FirstSeen := now |>) o in
             let a := a <| LastSeen := now |> <| Connected := true |>
                <| Conn := meta |> <| SequenceNum := m_SequenceNum msg |> in
             if bool_decide (m_Capabilities msg ≠ 0)
             then a <| AgentCapabilities := m_Capabilities msg |> else a)).1).1).1).1.
Proof. unfold report_agent. rewrite !fst_bind. by destruct o. Qed.

Lemma report_health_fst id h a :
  (report_health id h a).1 =
    match h with
    | None => a
    | Some health =>
        a <| HealthReported := true |> <| Healthy := h_Healthy health |>
          <| HealthError := h_LastError health |>
          <| HealthStatus := h_Status health |>
          <| HealthStartTime :=
               if bool_decide (h_StartTimeUnixNano health ≠ 0)
               then time_UnixNano (int64 (h_StartTimeUnixNano health))
               else HealthStartTime a |>
          <| HealthStatusTime :=
               if bool_decide (h_StatusTimeUnixNano health ≠ 0)
               then time_UnixNano (int64 (h_StatusTimeUnixNano health))
               else HealthStatusTime a |>
    end.
Proof.
  destruct h as [h|]; [|done]. unfold report_health. rewrite fst_bind.
  by repeat case_bool_decide.
Qed.

Lemma report_packages_fst id pkgs a :
  (report_packages id pkgs a).1 =
    if bool_decide (pkgs = ∅) then a else a <| Packages := package_of <$> pkgs |>.
Proof. unfold report_packages. by case_bool_decide. Qed.

Lemma report_config_fst id m a :
  (report_config id m a).1 =
    if bool_decide (m = ∅) then a else a <| EffectiveConfig := m |>.
Proof. unfold report_config. by case_bool_decide. Qed.

Lemma described_ok c id desc a : agent_ok c id a → agent_ok c id (described c desc a).
Proof. intros []. by split. Qed.

Lemma report_health_ok c id h a : agent_ok c id a → agent_ok c id (report_health id h a).1.
Proof. rewrite report_health_fst. destruct h; [|done]. intros []. by split. Qed.

Lemma report_packages_ok c id m a : agent_ok c id a → agent_ok c id (report_packages id m a).1.
Proof. rewrite report_packages_fst. case_bool_decide; [done|]. intros []. by split. Qed.

Lemma report_config_ok c id m a : agent_ok c id a → agent_ok c id (report_config id m a).1.
Proof. rewrite report_config_fst. case_bool_decide; [done|]. intros []. by split. Qed.

Lemma report_agent_ok c now id msg meta o :
  (∀ a, o = Some a → agent_ok c id a) →
  agent_ok c id (report_agent c now id msg meta o).1.
Proof.
  intros Ho. rewrite report_agent_fst, report_description_fst.
  apply report_config_ok, report_packages_ok, report_health_ok.
  cut (agent_ok c id (default (zero_Agent <| InstanceUID := id |> <| FirstSeen := now |>) o)).
  - intros [].
    destruct (m_AgentDescription msg); [apply described_ok|];
      case_bool_decide; by split.
  - destruct o as [a|]; simpl; [by apply Ho|]. by split.
Qed.

Lemma setConnected_agent_fst id b a :
  (setConnected_agent id b a).1 = a <| Connected := b |>.
Proof. unfold setConnected_agent. by rewrite fst_bind. Qed.

Lemma setConnected_agent_ok c id b a :
  agent_ok c id a → agent_ok c id (setConnected_agent id b a).1.
Proof. rewrite setConnected_agent_fst. intros []. by split. Qed.

(** ** Sweeping one shard *)

Lemma set_Connected_same a b : Connected a = b → a <| Connected := b |> = a.
Proof. by destruct a; intros [= <-]. Qed.

Lemma sweep_agent_fst c now id a :
  (sweep_agent c now id a).1 =
    if stale c now a then None
    else Some (a <| Connected := Connected a && negb (missed c now a) |>).
Proof.
  unfold sweep_agent, stale, missed.
  destruct (DisconnectThreshold c <? time_Sub now (LastSeen a)),
    (evictAfter c <? time_Sub now (LastSeen a)), (Connected a) eqn:Hc;
    simpl; try done; by rewrite set_Connected_same.
Qed.

Lemma sweep_agent_snd c now id a :
  (sweep_agent c now id a).2 =
    (if Connected a && missed c now a then [AgentDisconnected id] else []) ++
    (if stale c now a then [AgentEvicted id] else []).
Proof.
  unfold sweep_agent, stale, missed. rewrite snd_bind.
  by destruct (Connected a), (DisconnectThreshold c <? time_Sub now (LastSeen a)),
    (evictAfter c <? time_Sub now (LastSeen a)).
Qed.

Lemma sweep_agent_ok c now id a a' :
  agent_ok c id a → (sweep_agent c now id a).1 = Some a' → agent_ok c id a'.
Proof.
  rewrite sweep_agent_fst. intros []. destruct (stale c now a); [done|].
  intros [= <-]. by split.
Qed.

Lemma range_NoDup {A} (m : gmap string A) : NoDup (range m).*1.
Proof. rewrite range_perm. apply NoDup_fst_map_to_list. Qed.

Lemma range_list_to_map {A} (m : gmap string A) : list_to_map (range m) = m.
Proof.
  rewrite (list_to_map_proper _ (map_to_list m)).
  - apply list_to_map_to_list.
  - apply range_NoDup.
  - apply range_perm.
Qed.

Lemma elem_of_range {A} (m : gmap string A) id a : (id, a) ∈ range m ↔ m !! id = Some a.
Proof. rewrite range_perm. apply elem_of_map_to_list. Qed.

(** The inner loop, entry by entry. *)
Lemma sweep_loop_spec c now entries s ev :
  NoDup entries.*1 →
  let w := sweep_loop c now entries s ev in
  (∀ id, w.1.1 !! id =
     match (list_to_map entries : Shard) !! id with
     | Some a => (sweep_agent c now id a).1
     | None => s !! id
     end) ∧
  w.1.2 = ev ++ (entries ≫= λ p, if stale c now p.2 then [p.1] else []) ∧
  w.2 = entries ≫= λ p, (sweep_agent c now p.1 p.2).2.
Proof.
  revert s ev. induction entries as [|[id a] entries IH]; intros s ev Hnd; csimpl.
  - rewrite app_nil_r. split; [|done]. intros id. by rewrite lookup_empty.
  - rewrite fmap_cons in Hnd. apply NoDup_cons in Hnd as [Hid Hnd].
    rewrite fst_bind, snd_bind, sweep_agent_fst.
    assert ((list_to_map entries : Shard) !! id = None) as Hnone.
    { by apply not_elem_of_list_to_map_1. }
    destruct (stale c now a) eqn:Hst.
    + destruct (IH (delete id s) (ev ++ [id]) Hnd) as (Hl & He & Hs).
      rewrite He, Hs, <-app_assoc. split; [|done]. intros id'. rewrite Hl.
      destruct (decide (id = id')) as [<-|Hne].
      * by rewrite Hnone, lookup_insert_eq, lookup_delete_eq, sweep_agent_fst, Hst.
      * by rewrite lookup_insert_ne, lookup_delete_ne.
    + destruct (IH (<[id := a <| Connected := Connected a && negb (missed c now a) |>]> s)
                  ev Hnd) as (Hl & He & Hs).
      rewrite He, Hs. split; [|done]. intros id'. rewrite Hl.
      destruct (decide (id = id')) as [<-|Hne].
      * by rewrite Hnone, !lookup_insert_eq, sweep_agent_fst, Hst.
      * by rewrite !lookup_insert_ne.
Qed.

Lemma sweep_shard_lookup c now s ev id :
  (sweep_shard c now s ev).1.1 !! id = s !! id ≫= λ a, (sweep_agent c now id a).1.
Proof.
  destruct (sweep_loop_spec c now (range s) s ev (range_NoDup s)) as [Hl _].
  unfold sweep_shard. rewrite Hl, range_list_to_map. by destruct (s !! id).
Qed.

Lemma sweep_shard_evicted c now s ev :
  (sweep_shard c now s ev).1.2 =
    ev ++ (range s ≫= λ p, if stale c now p.2 then [p.1] else []).
Proof. apply (sweep_loop_spec c now (range s) s ev (range_NoDup s)). Qed.

Lemma sweep_shard_events c now s ev :
  (sweep_shard c now s ev).2 = range s ≫= λ p, (sweep_agent c now p.1 p.2).2.
Proof. apply (sweep_loop_spec c now (range s) s ev (range_NoDup s)). Qed.

(** ** Every step keeps the invariant *)

Lemma act_cfg a r : cfg (act a r).1 = cfg r ∧ length (shards (act a r).1) = length (shards r).
Proof.
  destruct a as [now msg meta|id b|i now]; simpl.
  - unfold Report. destruct (uuid_FromBytes _); [|done].
    rewrite fst_bind. simpl. by rewrite length_insert.
  - unfold SetConnected. case_match; [|done].
    rewrite fst_bind. simpl. by rewrite length_insert.
  - unfold sweep_one. rewrite fst_bind. simpl. by rewrite length_insert.
Qed.

Lemma Report_entries r id a' id' a :
  wf r → agent_ok (cfg r) id a' →
  <[id := a']> (get_shard r (shardFor r id)) !! id' = Some a →
  shardFor r id = shardFor r id' ∧ agent_ok (cfg r) id' a.
Proof.
  intros Hwf Hok. destruct (decide (id = id')) as [<-|Hne].
  - rewrite lookup_insert_eq. by intros [= <-].
  - rewrite lookup_insert_ne by done. by apply get_shard_ok.
Qed.

Lemma sweep_entries r i now ev id a :
  wf r →
  (sweep_shard (cfg r) now (get_shard r i) ev).1.1 !! id = Some a →
  i = shardFor r id ∧ agent_ok (cfg r) id a.
Proof.
  intros Hwf. rewrite sweep_shard_lookup.
  intros (a0 & Ha0 & Ha)%bind_Some.
  destruct (get_shard_ok r i id a0 Hwf Ha0). eauto using sweep_agent_ok.
Qed.

Lemma act_wf a r : wf r → wf (act a r).1.
Proof.
  intros Hwf. destruct a as [now msg meta|id b|i now]; simpl.
  - unfold Report. destruct (uuid_FromBytes _) as [id|]; [|done]. rewrite fst_bind.
    apply wf_set_shard; [done|]. intros id' a. apply Report_entries; [done|].
    apply report_agent_ok. intros a0 Ha0. by eapply get_shard_ok.
  - unfold SetConnected. destruct (get_shard _ _ !! id) as [a0|] eqn:Ha0; [|done].
    rewrite fst_bind. apply wf_set_shard; [done|]. intros id' a.
    apply Report_entries; [done|]. apply setConnected_agent_ok.
    by eapply get_shard_ok.
  - unfold sweep_one. rewrite fst_bind. apply wf_set_shard; [done|].
    intros id a. by apply sweep_entries.
Qed.

Lemma acts_wf l r : wf r → wf (acts l r).1.
Proof.
  revert r. induction l as [|a l IH]; intros r Hwf; simpl; [done|].
  rewrite fst_bind. by apply IH, act_wf.
Qed.

(** ** One entry list for the whole registry *)

Lemma elem_of_entries r id a :
  wf r → (id, a) ∈ entries r ↔ flat r !! id = Some a.
Proof.
  intros Hwf. unfold entries. rewrite list_elem_of_bind, flat_lookup by done. split.
  - intros (s & Ha & [i Hi]%list_elem_of_lookup). apply elem_of_range in Ha.
    destruct (wf_place r Hwf i s id a Hi Ha) as [-> _].
    unfold get_shard. by rewrite Hi.
  - intros Ha. exists (get_shard r (shardFor r id)). split; [by apply elem_of_range|].
    destruct (lookup_lt_is_Some_2 (shards r) (shardFor r id)) as [s Hs].
    { by apply shardFor_lt. }
    unfold get_shard. rewrite Hs. by apply (list_elem_of_lookup_2 _ (shardFor r id)).
Qed.

Lemma NoDup_range {A} (m : gmap string A) : NoDup (range m).
Proof. rewrite range_perm. apply NoDup_map_to_list. Qed.

Lemma entries_NoDup r : wf r → NoDup (entries r).
Proof.
  intros Hwf. unfold entries.
  assert (∀ k ss, (∀ i s, ss !! i = Some s → shards r !! (k + i)%nat = Some s) →
    NoDup (ss ≫= range)) as Hgen.
  { intros k ss. revert k. induction ss as [|s ss IH]; intros k Hss; csimpl; [constructor|].
    apply NoDup_app. split_and!.
    - apply NoDup_range.
    - intros [id a] Ha%elem_of_range (s' & Ha' & [i Hi]%list_elem_of_lookup)%list_elem_of_bind.
      apply elem_of_range in Ha'.
      destruct (wf_place r Hwf k s id a) as [Hk _]; [|done|].
      { rewrite <-(Hss 0%nat s eq_refl). f_equal. lia. }
      destruct (wf_place r Hwf (k + S i)%nat s' id a) as [Hk' _]; [by apply Hss|done|]. lia.
    - apply (IH (S k)). intros i s' Hi. rewrite <-(Hss (S i) s' Hi). f_equal. lia. }
  by apply (Hgen 0%nat).
Qed.

(** Iterating over every shard visits every agent of the flat map once. *)
Lemma entries_perm r : wf r → entries r ≡ₚ map_to_list (flat r).
Proof.
  intros Hwf. apply NoDup_Permutation.
  - by apply entries_NoDup.
  - apply NoDup_map_to_list.
  - intros [id a]. by rewrite elem_of_entries, elem_of_map_to_list.
Qed.

Lemma shard_entries_perm r i :
  wf r →
  range (get_shard r i) ≡ₚ filter (λ p, shardFor r p.1 = i) (map_to_list (flat r)).
Proof.
  intros Hwf. apply NoDup_Permutation.
  - apply NoDup_range.
  - apply NoDup_filter, NoDup_map_to_list.
  - intros [id a]. rewrite elem_of_range, list_elem_of_filter, elem_of_map_to_list. simpl.
    rewrite flat_lookup by done. split.
    + intros Ha. by destruct (get_shard_ok r i id a Hwf Ha) as [<- _].
    + by intros [<- Ha].
Qed.

(** ** Refinement *)

Lemma flat_sweep_one r i now :
  wf r →
  flat (sweep_one i now r).1 =
    spec_sweep (cfg r) (λ id, bool_decide (shardFor r id = i)) now (flat r).
Proof.
  intros Hwf. apply map_eq. intros id. unfold sweep_one, spec_sweep.
  rewrite fst_bind, map_lookup_imap. simpl.
  destruct (decide (i < length (shards r))%nat) as [Hi|Hi].
  - rewrite flat_set_shard; [|done|intros id' a; by apply sweep_entries|done].
    rewrite sweep_shard_lookup, flat_lookup by done.
    case_decide as Hid.
    + subst i. rewrite bool_decide_eq_true_2 by done. done.
    + rewrite bool_decide_eq_false_2 by done. by destruct (get_shard r _ !! id).
  - unfold set_shard. rewrite list_insert_ge by lia.
    pose proof (shardFor_lt r id Hwf).
    rewrite bool_decide_eq_false_2 by lia.
    destruct r; simpl. by destruct (_ !! id).
Qed.

Lemma sweep_one_events r i now :
  wf r →
  (sweep_one i now r).2 ≡ₚ
    spec_sweep_events (cfg r) (λ id, bool_decide (shardFor r id = i)) now (flat r).
Proof.
  intros Hwf. unfold sweep_one, spec_sweep_events.
  rewrite snd_bind, sweep_shard_events, app_nil_r.
  rewrite (shard_entries_perm r i Hwf), bind_filter.
  erewrite bind_ext; [done|]. intros [id a] _. simpl.
  by case_decide; [rewrite bool_decide_eq_true_2|rewrite bool_decide_eq_false_2].
Qed.

(** A write to the shard that owns [id] is an insertion in the flat map. *)
Lemma flat_insert r id a :
  wf r → agent_ok (cfg r) id a →
  flat (set_shard r (shardFor r id) (<[id := a]> (get_shard r (shardFor r id)))) =
    <[id := a]> (flat r).
Proof.
  intros Hwf Hok. apply map_eq. intros id'.
  rewrite flat_set_shard; [|done|by intros id'' a''; apply Report_entries|by apply shardFor_lt].
  destruct (decide (id = id')) as [<-|Hne].
  - by rewrite decide_True, !lookup_insert_eq.
  - rewrite !lookup_insert_ne by done. rewrite flat_lookup by done.
    by case_decide as Hs; [rewrite Hs|].
Qed.

Lemma act_refines r a :
  wf r →
  spec_act (cfg r) (shardFor r) a (flat r) (flat (act a r).1) (act a r).2.
Proof.
  intros Hwf. destruct a as [now msg meta|id b|i now]; simpl.
  - unfold Report. destruct (uuid_FromBytes _) as [id|]; [|done].
    rewrite fst_bind, snd_bind, app_nil_r, flat_lookup by done. simpl.
    rewrite flat_insert; [done..|].
    apply report_agent_ok. intros a0 Ha0. by eapply get_shard_ok.
  - unfold SetConnected. rewrite flat_lookup by done.
    destruct (get_shard _ _ !! id) as [a0|] eqn:Ha0; [|done].
    rewrite fst_bind, snd_bind, app_nil_r. simpl.
    rewrite flat_insert; [done..|].
    apply setConnected_agent_ok. by eapply get_shard_ok.
  - split; [by apply flat_sweep_one|by apply sweep_one_events].
Qed.

Lemma List_perm r : wf r → List r ≡ₚ (map_to_list (flat r)).*2.
Proof.
  intros Hwf. rewrite <-(entries_perm r Hwf). unfold List, entries.
  rewrite fmap_list_bind. erewrite bind_ext; [done|].
  intros s _. simpl. unfold snapshot. by rewrite list_fmap_id.
Qed.

Lemma elem_of_List r a : wf r → a ∈ List r ↔ flat r !! (InstanceUID a) = Some a.
Proof.
  intros Hwf. rewrite (List_perm r Hwf). rewrite list_elem_of_fmap. split.
  - intros ([id a'] & -> & Ha%elem_of_map_to_list). simpl.
    by rewrite (ok_uid _ _ _ (flat_ok r id a' Hwf Ha)).
  - intros Ha. exists (InstanceUID a, a). by rewrite elem_of_map_to_list.
Qed.

Lemma List_NoDup_uid r : wf r → NoDup (InstanceUID <$> List r).
Proof.
  intros Hwf. rewrite (List_perm r Hwf).
  assert (InstanceUID <$> (map_to_list (flat r)).*2 = (map_to_list (flat r)).*1) as ->.
  { rewrite <-list_fmap_compose. apply list_fmap_ext. intros i [id a] Hi. simpl.
    apply list_elem_of_lookup_2, elem_of_map_to_list in Hi.
    apply (ok_uid _ _ _ (flat_ok r id a Hwf Hi)). }
  apply NoDup_fst_map_to_list.
Qed.

Lemma acts_refine l r :
  wf r →
  spec_acts (cfg r) (shardFor r) l (flat r) (flat (acts l r).1) (acts l r).2.
Proof.
  revert r. induction l as [|a l IH]; intros r Hwf; simpl.
  - constructor.
  - rewrite fst_bind, snd_bind. econstructor; [by apply act_refines|].
    destruct (act_cfg a r) as [Hc Hn].
    pose proof (IH _ (act_wf a r Hwf)) as Hl. rewrite Hc in Hl.
    replace (shardFor r) with (shardFor (act a r).1); [done|].
    unfold shardFor. by rewrite Hn.
Qed.

(** ** The whole sweep *)

Lemma sweep_shard_fst_ev c now s ev :
  (sweep_shard c now s ev).1.1 = (sweep_shard c now s []).1.1.
Proof. apply map_eq. intros id. by rewrite !sweep_shard_lookup. Qed.

Lemma sweep_shards_spec c now ss ev :
  let w := sweep_shards c now ss ev in
  w.1.1 = (λ s, (sweep_shard c now s []).1.1) <$> ss ∧
  w.1.2 = ev ++ ((ss ≫= range) ≫= λ p, if stale c now p.2 then [p.1] else []) ∧
  w.2 = (ss ≫= range) ≫= λ p, (sweep_agent c now p.1 p.2).2.
Proof.
  revert ev. induction ss as [|s ss IH]; intros ev; csimpl.
  - by rewrite app_nil_r.
  - rewrite !fst_bind, !snd_bind.
    destruct (IH (sweep_shard c now s ev).1.2) as (H1 & H2 & H3).
    simpl. rewrite H1, H2, H3, sweep_shard_fst_ev, sweep_shard_evicted, sweep_shard_events.
    by rewrite app_nil_r, !bind_app, <-app_assoc.
Qed.

Lemma Sweep_wf now r : wf r → wf (Sweep now r).1.1.
Proof.
  intros Hwf. unfold Sweep. rewrite fst_bind. simpl.
  destruct (sweep_shards_spec (cfg r) now (shards r) []) as [-> _].
  split.
  - simpl. rewrite length_fmap. apply Hwf.
  - simpl. intros i s id a Hi Ha. rewrite list_lookup_fmap in Hi.
    apply fmap_Some in Hi as (s0 & Hi & ->).
    rewrite sweep_shard_lookup in Ha. apply bind_Some in Ha as (a0 & Ha0 & Ha).
    destruct (wf_place r Hwf i s0 id a0 Hi Ha0) as [-> Hok].
    split; [|by eapply sweep_agent_ok]. symmetry. apply shardFor_ext.
    simpl. by rewrite length_fmap.
Qed.

Lemma flat_Sweep now r :
  wf r → flat (Sweep now r).1.1 = spec_sweep (cfg r) (λ _, true) now (flat r).
Proof.
  intros Hwf. apply map_eq. intros id. unfold spec_sweep.
  rewrite map_lookup_imap, !flat_lookup by (try apply Sweep_wf; done).
  unfold Sweep. rewrite fst_bind. simpl.
  destruct (sweep_shards_spec (cfg r) now (shards r) []) as [-> _].
  rewrite (shardFor_ext r) by (simpl; by rewrite length_fmap).
  unfold get_shard. simpl. rewrite list_lookup_fmap.
  destruct (shards r !! shardFor r id) as [s|]; simpl.
  - apply sweep_shard_lookup.
  - by rewrite !lookup_empty.
Qed.

Lemma Sweep_evicted now r :
  (Sweep now r).1.2 = entries r ≫= λ p, if stale (cfg r) now p.2 then [p.1] else [].
Proof.
  unfold Sweep. rewrite fst_bind. simpl.
  by destruct (sweep_shards_spec (cfg r) now (shards r) []) as (_ & -> & _).
Qed.

Lemma Sweep_events now r :
  (Sweep now r).2 = entries r ≫= λ p, (sweep_agent (cfg r) now p.1 p.2).2.
Proof.
  unfold Sweep. rewrite snd_bind. simpl. rewrite app_nil_r.
  by destruct (sweep_shards_spec (cfg r) now (shards r) []) as (_ & _ & ->).
Qed.

Lemma spec_sweep_lookup c visit now m id :
  spec_sweep c visit now m !! id =
    a ← m !! id;
    if visit id then
      if stale c now a then None
      else Some (a <| Connected := Connected a && negb (missed c now a) |>)
    else Some a.
Proof.
  unfold spec_sweep. rewrite map_lookup_imap. destruct (m !! id); [|done]. simpl.
  destruct (visit id); [|done]. apply sweep_agent_fst.
Qed.

(** ** Connections are what the notifications say *)

Lemma online_insert_new m id a :
  m !! id = None → online (<[id := a]> m) = ((if Connected a then 1 else 0) + online m)%nat.
Proof. apply mcount_insert_new. Qed.

Lemma online_insert m id a :
  (online (<[id := a]> m) + (if default false (Connected <$> m !! id) then 1 else 0) =
   online m + (if Connected a then 1 else 0))%nat.
Proof. apply mcount_insert. Qed.

(** Notifications that say nothing about connections. *)
Definition quiet (es : list Event) : Prop :=
  Forall (λ e, is_connect e = false ∧ is_disconnect e = false) es.

Lemma quiet_count es :
  quiet es → count is_connect es = 0%nat ∧ count is_disconnect es = 0%nat.
Proof.
  induction 1 as [|e es [H1 H2] _ [IH1 IH2]]; [done|].
  by rewrite !count_cons, H1, H2, IH1, IH2.
Qed.

Lemma quiet_app es es' : quiet es → quiet es' → quiet (es ++ es').
Proof. apply Forall_app_2. Qed.

Lemma quiet_fmap {A} (f : A → Event) l :
  (∀ x, is_connect (f x) = false ∧ is_disconnect (f x) = false) → quiet (f <$> l).
Proof. intros Hf. apply Forall_fmap, Forall_true. intros x. apply Hf. Qed.

Lemma quiet_cons e es :
  is_connect e = false → is_disconnect e = false → quiet es → quiet (e :: es).
Proof. by constructor. Qed.

Lemma quiet_nil : quiet [].
Proof. constructor. Qed.

Hint Resolve quiet_nil quiet_cons quiet_app quiet_fmap : grex.

Lemma checkRequiredAttributes_quiet c a : quiet (checkRequiredAttributes c a).2.
Proof.
  unfold checkRequiredAttributes. rewrite snd_bind, app_nil_r.
  case_match; simpl; auto with grex.
Qed.

Lemma checkReservedAttributeConflicts_quiet a : quiet (checkReservedAttributeConflicts a).2.
Proof.
  unfold checkReservedAttributeConflicts. rewrite snd_bind, app_nil_r.
  case_match; simpl; auto with grex.
Qed.

Hint Resolve checkRequiredAttributes_quiet checkReservedAttributeConflicts_quiet : grex.

Lemma report_description_quiet c id d a : quiet (report_description c id d a).2.
Proof.
  destruct d; [|simpl; auto with grex].
  unfold report_description. rewrite !snd_bind. simpl. auto with grex.
Qed.

Lemma report_health_quiet id h a : quiet (report_health id h a).2.
Proof.
  destruct h; [|simpl; auto with grex].
  unfold report_health. rewrite snd_bind. simpl. auto with grex.
Qed.

Lemma report_packages_quiet id m a : quiet (report_packages id m a).2.
Proof. unfold report_packages. case_bool_decide; simpl; auto with grex. Qed.

Lemma report_config_quiet id m a : quiet (report_config id m a).2.
Proof. unfold report_config. case_bool_decide; simpl; auto with grex. Qed.

Hint Resolve report_description_quiet report_health_quiet report_packages_quiet
  report_config_quiet : grex.

(** A report announces a connection exactly when the entry was not connected. *)
Lemma report_agent_snd c now id msg meta o :
  ∃ es, quiet es ∧
    (report_agent c now id msg meta o).2 =
      (if default false (Connected <$> o) then [] else [AgentConnected id]) ++ es.
Proof.
  unfold report_agent. rewrite !snd_bind.
  destruct o as [a|]; simpl; [destruct (Connected a)|];
    (eexists; split; [|reflexivity]); auto 10 with grex.
Qed.

Lemma report_agent_Connected c now id msg meta o :
  Connected (report_agent c now id msg meta o).1 = true.
Proof.
  rewrite report_agent_fst, report_description_fst, report_config_fst,
    report_packages_fst, report_health_fst.
  by repeat case_match.
Qed.

Lemma report_agent_described c now id msg meta o :
  DescriptionReported (report_agent c now id msg meta o).1 =
    match m_AgentDescription msg with
    | Some _ => true
    | None => default false (DescriptionReported <$> o)
    end.
Proof.
  rewrite report_agent_fst, report_description_fst, report_config_fst,
    report_packages_fst, report_health_fst.
  destruct (m_AgentDescription msg), (m_Health msg), (bool_decide (m_PackageStatuses msg = ∅)),
    (bool_decide (m_EffectiveConfig msg = ∅)), (bool_decide (m_Capabilities msg ≠ 0)), o;
    done.
Qed.

Lemma sweep_agent_balance c now id a :
  DisconnectThreshold c ≤ evictAfter c →
  let w := sweep_agent c now id a in
  ((if default false (Connected <$> w.1) then 1 else 0) + count is_disconnect w.2 =
   (if Connected a then 1 else 0) + count is_connect w.2)%nat.
Proof.
  intros Hc. cbv zeta. rewrite sweep_agent_fst, sweep_agent_snd. unfold stale, missed.
  destruct (Z.ltb_spec (evictAfter c) (time_Sub now (LastSeen a)));
    destruct (Z.ltb_spec (DisconnectThreshold c) (time_Sub now (LastSeen a)));
    destruct (Connected a) eqn:?; simpl; try done; lia.
Qed.

Lemma spec_sweep_insert c visit now m id a :
  m !! id = None →
  spec_sweep c visit now (<[id := a]> m) =
    match (if visit id then (sweep_agent c now id a).1 else Some a) with
    | Some a' => <[id := a']> (spec_sweep c visit now m)
    | None => spec_sweep c visit now m
    end.
Proof.
  intros Hid. apply map_eq. intros id'. unfold spec_sweep.
  rewrite map_lookup_imap. destruct (decide (id = id')) as [<-|Hne].
  - rewrite lookup_insert_eq. simpl. destruct (if visit id then _ else _).
    + by rewrite lookup_insert_eq.
    + by rewrite map_lookup_imap, Hid.
  - rewrite lookup_insert_ne by done. destruct (if visit id then _ else _).
    + by rewrite lookup_insert_ne, map_lookup_imap by done.
    + by rewrite map_lookup_imap.
Qed.

Lemma spec_sweep_balance c visit now m :
  DisconnectThreshold c ≤ evictAfter c →
  (online (spec_sweep c visit now m) + count is_disconnect (spec_sweep_events c visit now m) =
   online m + count is_connect (spec_sweep_events c visit now m))%nat.
Proof.
  intros Hc. induction m as [|id a m Hid IH] using map_ind.
  - done.
  - unfold spec_sweep_events in *. rewrite (map_to_list_insert m id a Hid). csimpl.
    rewrite !count_app, spec_sweep_insert, online_insert_new by done.
    assert (spec_sweep c visit now m !! id = None) as Hn.
    { by rewrite spec_sweep_lookup, Hid. }
    destruct (visit id) eqn:?; [|rewrite online_insert_new by done; cbn; lia].
    pose proof (sweep_agent_balance c now id a Hc) as Hb. simpl in Hb.
    destruct (sweep_agent c now id a).1 as [a'|];
      [rewrite online_insert_new by done|]; simpl in *; lia.
Qed.

Lemma spec_act_balance c shard a m m' es :
  DisconnectThreshold c ≤ evictAfter c → spec_act c shard a m m' es →
  (online m' + count is_disconnect es = online m + count is_connect es)%nat.
Proof.
  intros Hc. destruct a as [now msg meta|id b|i now]; simpl.
  - destruct (uuid_FromBytes _) as [id|]; [|by intros [-> ->]]. intros [-> ->].
    pose proof (online_insert m id (report_agent c now id msg meta (m !! id)).1) as Ho.
    rewrite report_agent_Connected in Ho.
    destruct (report_agent_snd c now id msg meta (m !! id)) as (es & Hq & ->).
    destruct (quiet_count es Hq) as [Hq1 Hq2].
    rewrite !count_app, Hq1, Hq2. destruct (default _ _); simpl; lia.
  - destruct (m !! id) as [a|] eqn:Ha; [|by intros [-> ->]]. intros [-> ->].
    rewrite setConnected_agent_fst.
    pose proof (online_insert m id (a <| Connected := b |>)) as Ho.
    rewrite Ha in Ho. unfold setConnected_agent. rewrite snd_bind, app_nil_r.
    simpl in *. destruct (Connected a), b; simpl; rewrite ?count_cons, ?count_nil; simpl; lia.
  - intros [-> ->]. by apply spec_sweep_balance.
Qed.

Lemma spec_acts_balance c shard l m m' es :
  DisconnectThreshold c ≤ evictAfter c → spec_acts c shard l m m' es →
  (online m' + count is_disconnect es = online m + count is_connect es)%nat.
Proof.
  intros Hc. induction 1 as [|a l m m' m'' es es' Ha _ IH]; [done|].
  apply (spec_act_balance _ _ _ _ _ _ Hc) in Ha. rewrite !count_app. lia.
Qed.

(** With at least two missed heartbeats allowed, disconnection comes first. *)
Lemma threshold_le c :
  0 < HeartbeatInterval c → 2 ≤ StaleMissedHeartbeats c →
  HeartbeatInterval c * StaleMissedHeartbeats c ≤ int64_max →
  DisconnectThreshold c ≤ evictAfter c.
Proof.
  intros HH HS HM. unfold int64_max in HM.
  assert (HeartbeatInterval c * 2 ≤ HeartbeatInterval c * StaleMissedHeartbeats c) by nia.
  assert (StaleMissedHeartbeats c ≤ HeartbeatInterval c * StaleMissedHeartbeats c) by nia.
  pose proof (Z.quot_div_nonneg (HeartbeatInterval c) 2).
  pose proof (Z.div_mod (HeartbeatInterval c) 2). 
  pose proof (Z.mod_pos_bound (HeartbeatInterval c) 2).
  unfold DisconnectThreshold, evictAfter.
  rewrite !int64_id; rewrite ?int64_id;
    unfold is_int64, int64_min, int64_max; lia.
Qed.

(** ** Counting: [Aggregate] *)

Lemma Aggregate_entries r : Aggregate r = foldl aggregate_agent zero_FleetStats (List r).
Proof.
  unfold Aggregate, List.
  generalize zero_FleetStats as st. induction (shards r) as [|s ss IH]; intros st; [done|].
  csimpl. rewrite foldl_app, IH. f_equal. unfold snapshot. by rewrite list_fmap_id.
Qed.

(** One more agent moves each field by what that agent contributes. *)
Lemma aggregate_agent_step st a :
  let st' := aggregate_agent st a in
  Size st' = Size st + 1 ∧
  (∀ k, default 0 (StatsConnected st' !! k) = default 0 (StatsConnected st !! k) +
     (if Connected a && bool_decide (route_of a = k) then 1 else 0)) ∧
  Disconnected st' = Disconnected st + (if Connected a then 0 else 1) ∧
  Noncompliant st' = Noncompliant st +
    (if bool_decide (MissingAttributes a = []) then 0 else 1) ∧
  StatsSupervisorManaged st' = StatsSupervisorManaged st +
    (if SupervisorManaged a then 1 else 0) ∧
  AwaitingFullState st' = AwaitingFullState st + (if DescriptionReported a then 0 else 1).
Proof.
  unfold aggregate_agent.
  assert ((0 <? Z.of_nat (length (MissingAttributes a))) =
    negb (bool_decide (MissingAttributes a = []))) as ->.
  { by destruct (MissingAttributes a). }
  destruct (Connected a), (bool_decide (MissingAttributes a = [])),
    (SupervisorManaged a), (DescriptionReported a); simpl;
    (split_and!; [lia| |lia..]); intros k; try lia;
    (case_bool_decide as Hk; [subst k; rewrite lookup_insert_eq|
                              rewrite lookup_insert_ne by done]; simpl; lia).
Qed.

Lemma Aggregate_foldl l st :
  let st' := foldl aggregate_agent st l in
  Size st' = Size st + zlen l ∧
  (∀ k, default 0 (StatsConnected st' !! k) = default 0 (StatsConnected st !! k) +
     Z.of_nat (count (λ a, Connected a && bool_decide (route_of a = k)) l)) ∧
  Disconnected st' = Disconnected st + Z.of_nat (count (λ a, negb (Connected a)) l) ∧
  Noncompliant st' = Noncompliant st +
    Z.of_nat (count (λ a, negb (bool_decide (MissingAttributes a = []))) l) ∧
  StatsSupervisorManaged st' = StatsSupervisorManaged st +
    Z.of_nat (count SupervisorManaged l) ∧
  AwaitingFullState st' = AwaitingFullState st +
    Z.of_nat (count (λ a, negb (DescriptionReported a)) l).
Proof.
  revert st. induction l as [|a l IH]; intros st.
  - change (foldl aggregate_agent st []) with st. rewrite !count_nil. simpl.
    split_and!; try lia. intros k. rewrite count_nil. lia.
  - change (foldl aggregate_agent st (a :: l)) with
      (foldl aggregate_agent (aggregate_agent st a) l).
    destruct (IH (aggregate_agent st a)) as (H1 & H2 & H3 & H4 & H5 & H6).
    destruct (aggregate_agent_step st a) as (G1 & G2 & G3 & G4 & G5 & G6).
    cbv zeta. rewrite H1, H3, H4, H5, H6, G1, G3, G4, G5, G6, !count_cons. simpl.
    split_and!; try lia; [intros k; rewrite H2, G2, count_cons|..];
      repeat (case_match; simpl in *; try discriminate); lia.
Qed.

(** ** Compliance notifications *)

Lemma compliance_fmap {A} (f : A → Event) (l : list A) :
  (∀ x, is_compliance (f x) = true) → compliance (f <$> l) = f <$> l.
Proof.
  intros Hf. induction l as [|x l IH]; csimpl; [done|].
  by rewrite filter_cons, Hf, IH.
Qed.

Lemma checkRequiredAttributes_snd c a :
  let missing := MissingAttributes (checkRequiredAttributes c a).1 in
  (checkRequiredAttributes c a).2 =
    if bool_decide (MissingAttributes a = missing) then []
    else MissingAttribute (InstanceUID a) <$> missing.
Proof.
  rewrite checkRequiredAttributes_fst. unfold checkRequiredAttributes.
  rewrite snd_bind, app_nil_r. simpl. rewrite bool_decide_not.
  case_bool_decide; [by rewrite andb_false_r|]. by destruct (filter _ _).
Qed.

Lemma checkReservedAttributeConflicts_snd a :
  let conflicts := ReservedAttributeConflicts (checkReservedAttributeConflicts a).1 in
  (checkReservedAttributeConflicts a).2 =
    if bool_decide (ReservedAttributeConflicts a = conflicts) then []
    else ReservedAttributeConflict (InstanceUID a) <$> conflicts.
Proof.
  rewrite checkReservedAttributeConflicts_fst. unfold checkReservedAttributeConflicts.
  rewrite snd_bind, app_nil_r. simpl. rewrite bool_decide_not.
  case_bool_decide; [by rewrite andb_false_r|]. by destruct (filter _ _).
Qed.

Lemma report_description_compliance c id desc a :
  InstanceUID a = id →
  let new := described c desc a in
  compliance (report_description c id (Some desc) a).2 =
    (if bool_decide (MissingAttributes a = MissingAttributes new) then []
     else MissingAttribute id <$> MissingAttributes new) ++
    (if bool_decide (ReservedAttributeConflicts a = ReservedAttributeConflicts new) then []
     else ReservedAttributeConflict id <$> ReservedAttributeConflicts new).
Proof.
  intros <-. cbv zeta. unfold report_description. rewrite !snd_bind.
  rewrite checkRequiredAttributes_snd, checkReservedAttributeConflicts_snd.
  rewrite checkReservedAttributeConflicts_fst, checkRequiredAttributes_fst.
  rewrite !filter_app. simpl.
  f_equal; (destruct (bool_decide _); [done|by rewrite compliance_fmap]).
Qed.

Lemma report_agent_compliance c now id msg meta a :
  InstanceUID a = id →
  compliance (report_agent c now id msg meta (Some a)).2 =
    match m_AgentDescription msg with
    | None => []
    | Some desc =>
        let new := described c desc a in
        (if bool_decide (MissingAttributes a = MissingAttributes new) then []
         else MissingAttribute id <$> MissingAttributes new) ++
        (if bool_decide (ReservedAttributeConflicts a = ReservedAttributeConflicts new) then []
         else ReservedAttributeConflict id <$> ReservedAttributeConflicts new)
    end.
Proof.
  intros Hid. unfold report_agent. rewrite !snd_bind, !filter_app.
  assert (∀ h b, compliance (report_health id h b).2 = []) as ->.
  { intros [h|] b; [|done]. unfold report_health. by rewrite snd_bind. }
  assert (∀ m b, compliance (report_packages id m b).2 = []) as ->.
  { intros m b. unfold report_packages. by case_bool_decide. }
  assert (∀ m b, compliance (report_config id m b).2 = []) as ->.
  { intros m b. unfold report_config. by case_bool_decide. }
  destruct (m_AgentDescription msg) as [desc|].
  - rewrite report_description_compliance, !app_nil_r by (by case_bool_decide).
    destruct (Connected a), (bool_decide (m_Capabilities msg ≠ 0)); simpl; done.
  - by destruct (Connected a).
Qed.

(** ** Full sweeps on the flat map *)

Lemma Sweep_events_perm now r :
  wf r → (Sweep now r).2 ≡ₚ spec_sweep_events (cfg r) (λ _, true) now (flat r).
Proof.
  intros Hwf. rewrite Sweep_events, (entries_perm r Hwf). unfold spec_sweep_events.
  erewrite bind_ext; [done|]. by intros [id a] _.
Qed.

Lemma elem_of_Sweep_evicted now r id :
  wf r →
  id ∈ (Sweep now r).1.2 ↔ ∃ a, flat r !! id = Some a ∧ stale (cfg r) now a = true.
Proof.
  intros Hwf. rewrite Sweep_evicted, list_elem_of_bind. split.
  - intros ([id' a] & Hid & Ha%elem_of_entries); [|done]. simpl in Hid.
    destruct (stale (cfg r) now a) eqn:?; [|by apply not_elem_of_nil in Hid].
    apply list_elem_of_singleton in Hid as ->. eauto.
  - intros (a & Ha & Hst). exists (id, a). rewrite elem_of_entries by done.
    simpl. by rewrite Hst, list_elem_of_singleton.
Qed.

Lemma Sweep_evicted_NoDup now r : wf r → NoDup (Sweep now r).1.2.
Proof.
  intros Hwf. rewrite Sweep_evicted, (entries_perm r Hwf).
  assert (∀ l : list (string * Agent),
    l ≫= (λ p, if stale (cfg r) now p.2 then [p.1] else []) =
    (filter (λ p, stale (cfg r) now p.2 = true) l).*1) as ->.
  { induction l as [|p l IH]; csimpl; [done|]. rewrite filter_cons, IH.
    by destruct (stale _ _ _). }
  apply (sublist_NoDup _ (map_to_list (flat r)).*1); [apply NoDup_fst_map_to_list|].
  apply fmap_sublist, sublist_filter.
Qed.

Lemma elem_of_sweep_agent_events c now id a e :
  e ∈ (sweep_agent c now id a).2 ↔
    (e = AgentDisconnected id ∧ Connected a = true ∧ missed c now a = true) ∨
    (e = AgentEvicted id ∧ stale c now a = true).
Proof.
  rewrite sweep_agent_snd, elem_of_app.
  destruct (Connected a), (missed c now a), (stale c now a); simpl;
    rewrite ?list_elem_of_singleton, ?elem_of_nil; naive_solver.
Qed.

Lemma elem_of_Sweep_events now r e :
  wf r →
  e ∈ (Sweep now r).2 ↔ ∃ id a, flat r !! id = Some a ∧
    ((e = AgentDisconnected id ∧ Connected a = true ∧ missed (cfg r) now a = true) ∨
     (e = AgentEvicted id ∧ stale (cfg r) now a = true)).
Proof.
  intros Hwf. rewrite Sweep_events, list_elem_of_bind. split.
  - intros ([id a] & He & Ha%elem_of_entries); [|done].
    apply elem_of_sweep_agent_events in He. eauto.
  - intros (id & a & Ha & He%elem_of_sweep_agent_events).
    exists (id, a). by rewrite elem_of_entries.
Qed.

(** The single-map reading of [Get] and of a report. *)
Lemma Get_flat r id : wf r → Get r id = flat r !! id.
Proof. intros Hwf. unfold Get, snapshot. by rewrite option_fmap_id, flat_lookup. Qed.

Lemma Get_uid r id a : wf r → Get r id = Some a → InstanceUID a = id.
Proof. intros Hwf. rewrite Get_flat by done. intros Ha. by apply (flat_ok r id a). Qed.

Lemma Report_flat now msg meta r id :
  wf r → uuid_FromBytes (m_InstanceUid msg) = Some id →
  let w := report_agent (cfg r) now id msg meta (Get r id) in
  flat (Report now msg meta r).1 = <[id := w.1]> (flat r) ∧
  (Report now msg meta r).2 = w.2.
Proof.
  intros Hwf Hid. pose proof (act_refines r (ActReport now msg meta) Hwf) as Hr.
  simpl in Hr. rewrite Hid in Hr. by rewrite Get_flat.
Qed.

Lemma SetConnected_Get id0 b r :
  wf r →
  let w := SetConnected id0 b r in
  (∀ id, Get w.1 id = if decide (id = id0) then (λ a, a <| Connected := b |>) <$> Get r id
                      else Get r id) ∧
  (∀ e, e ∈ w.2 ↔ ∃ a, Get r id0 = Some a ∧ Connected a = negb b ∧
     e = if b then AgentConnected id0 else AgentDisconnected id0).
Proof.
  intros Hwf w. pose proof (act_wf (ActSetConnected id0 b) r Hwf) as Hwf'.
  pose proof (act_refines r (ActSetConnected id0 b) Hwf) as Hr. simpl in Hwf', Hr.
  rewrite (Get_flat r id0 Hwf).
  destruct (flat r !! id0) as [a0|] eqn:Ha0; destruct Hr as [Hr He]; unfold w; rewrite He.
  - split.
    + intros id. rewrite !Get_flat by done. rewrite Hr, setConnected_agent_fst.
      case_decide as Hid; [subst id; by rewrite lookup_insert_eq, Ha0|].
      by rewrite lookup_insert_ne.
    + intros e. unfold setConnected_agent. rewrite snd_bind, app_nil_r.
      destruct (Connected a0) eqn:Hc, b; simpl;
        rewrite ?list_elem_of_singleton, ?elem_of_nil;
        (split; [intros H; try done; exists a0; by rewrite Hc|
                 intros (a & [= <-] & Hc' & ->); congruence]).
  - split.
    + intros id. rewrite !Get_flat by done. rewrite Hr.
      case_decide; [subst id; by rewrite Ha0|done].
    + intros e. rewrite elem_of_nil. split; [done|by intros (a & ? & _)].
Qed.

(** The entries in the order [List] gives the agents. *)
Lemma entries_List r : wf r → entries r = (λ a, (InstanceUID a, a)) <$> List r.
Proof.
  intros Hwf.
  assert (entries r = (λ a, (InstanceUID a, a)) <$> (entries r).*2) as ->.
  { rewrite <-list_fmap_compose. symmetry. rewrite <-(list_fmap_id (entries r)) at 2.
    apply list_fmap_ext. intros i [id a] Hi%list_elem_of_lookup_2%elem_of_entries; [|done].
    simpl. by rewrite (ok_uid _ _ _ (flat_ok r id a Hwf Hi)). }
  f_equal. unfold List, entries. rewrite fmap_list_bind. apply bind_ext.
  intros s _. unfold snapshot. by rewrite list_fmap_id.
Qed.

(** A sweep, one listed agent at a time. *)
Lemma Sweep_listed now r :
  wf r →
  (Sweep now r).1.2 = InstanceUID <$> filter (λ a, stale (cfg r) now a = true) (List r) ∧
  (Sweep now r).2 = List r ≫= λ a,
    (if Connected a && missed (cfg r) now a then [AgentDisconnected (InstanceUID a)] else []) ++
    (if stale (cfg r) now a then [AgentEvicted (InstanceUID a)] else []).
Proof.
  intros Hwf. rewrite Sweep_evicted, Sweep_events, (entries_List r Hwf). split.
  - induction (List r) as [|a l IH]; [done|]. rewrite fmap_cons, filter_cons, bind_cons, IH. simpl.
    by destruct (stale _ _ _).
  - induction (List r) as [|a l IH]; [done|]. rewrite fmap_cons, !bind_cons, IH.
    by rewrite sweep_agent_snd.
Qed.

Lemma Sweep_cfg now r :
  cfg (Sweep now r).1.1 = cfg r ∧ length (shards (Sweep now r).1.1) = length (shards r).
Proof.
  unfold Sweep. rewrite fst_bind. simpl.
  destruct (sweep_shards_spec (cfg r) now (shards r) []) as [-> _].
  by rewrite length_fmap.
Qed.

Lemma do_ops_app l l' r :
  do_ops (l ++ l') r = (do_ops l r ≫= do_ops l').
Proof.
  revert r. induction l as [|o l IH]; intros r.
  - unfold mbind, writer_bind. simpl. by destruct (do_ops l' r).
  - cbn [do_ops app]. unfold mbind, writer_bind. destruct (do_op o r) as [r1 es].
    rewrite IH. unfold mbind, writer_bind. destruct (do_ops l r1) as [r2 es2].
    destruct (do_ops l' r2). by rewrite app_assoc.
Qed.

(** A map built from attributes holds, for each key, the value of the last
    attribute that carries it. *)
Lemma attrsToMap_lookup attrs key :
  attrsToMap attrs !! key =
    (λ kv, anyValueString (kv_Value kv)) <$> last (filter (λ kv, kv_Key kv = key) attrs).
Proof.
  unfold attrsToMap. induction attrs as [|kv attrs IH] using rev_ind; [done|].
  rewrite foldl_app, filter_app. simpl. rewrite filter_cons, filter_nil. case_decide as Hk.
  - rewrite last_snoc. subst key. by rewrite lookup_insert_eq.
  - by rewrite lookup_insert_ne, app_nil_r.
Qed.

End props.

(** The order each of two calls walks the shards in does not show. *)
Lemma List_any_order `{UU : UUID} (MR MR' : MapRange) r :
  wf r → List (MR := MR) r ≡ₚ List (MR := MR') r.
Proof. intros Hwf. rewrite (List_perm (MR := MR) r Hwf). by rewrite (List_perm (MR := MR') r Hwf). Qed.
