(* ===== verification/Demo.v ===== *)
(** * A concrete fleet

    Admissible choices of the functions the development takes as parameters
    (google/uuid's canonical rendering, a rendering of package states, one
    iteration order, one sort), and small messages, on which the witnesses
    evaluate the model. *)

From Stdlib Require Import Ascii ZArith Lia.
From S2P Require Import Prelude GoLang Fleet Registry.
Local Open Scope Z_scope.


Definition hex_digit (n : N) : ascii :=
  if (n <? 10)%N then ascii_of_N (48 + n) else ascii_of_N (87 + n).

Fixpoint hex (i : nat) (s : string) : string :=
  match s with
  | EmptyString => EmptyString
  | String c s =>
      let n := N_of_ascii c in
      let rest := String (hex_digit (n / 16)) (String (hex_digit (n mod 16)) (hex (S i) s)) in
      if bool_decide (i ∈ [4; 6; 8; 10]%nat) then String "-" rest else rest
  end.

(** google/uuid: 16 bytes, rendered in the canonical 8-4-4-4-12 form. *)
#[export] Instance uuid : UUID := λ raw,
  if bool_decide (String.length raw = 16%nat) then Some (hex 0 raw) else None.

#[export] Instance protobuf : Protobuf :=
  {| AnyValue_String raw := raw;
     PackageStatusEnum_String z := if z =? 0 then "PackageStatusEnum_Installed" else "?" |}.

#[export] Existing Instance range_by_key.
#[export] Existing Instance merge_GoSort.

Definition raw1 : string := "0123456789abcdef".
Definition id1 : string := "30313233-3435-3637-3839-616263646566".

Definition desc1 : AgentDescription :=
  mkAgentDescription [mkKeyValue "service.name" (StringValue "otel-gateway")]
    [mkKeyValue "healthy" (StringValue "yes")].

Definition health1 : ComponentHealth := mkComponentHealth true "" "ok" 5 0.

Definition msg1 : AgentToServer :=
  mkAgentToServer raw1 1 6 (Some desc1) (Some health1) ∅ ∅ None.

(** A heartbeat: nothing but the uid and the sequence number. *)
Definition beat1 : AgentToServer := mkAgentToServer raw1 2 0 None None ∅ ∅ None.

Definition meta1 : ConnMeta := mkConnMeta "10.0.0.1:4320" "" true "ws".

Definition cfg1 : Config := mkConfig (30 * Second) 3 ["service.name"; "team"] 4.

(** The same with a single missed heartbeat allowed. *)
Definition cfg_one : Config := mkConfig (30 * Second) 1 [] 4.


Example uuid_raw1 : uuid_FromBytes raw1 = Some id1.
Proof. reflexivity. Qed.


(** One relayed agent's gateway: the payload is its request uid. *)
Definition connect1 : AgentToServer :=
  mkAgentToServer raw1 3 0 None None ∅ ∅
    (Some (mkCustomMessage "com.bindplane.opamp-gateway" "connect" "req-1")).
