(* ===== verification/RegistryThms.v ===== *)
(** * What the registry guarantees

    The claims about package fleet's registry, with their witnesses on the
    concrete fleet of the file Demo. *)

From Stdlib Require Import Ascii ZArith Lia.
From S2P Require Import Prelude GoLang Fleet Registry RegistryProps Demo.
Local Open Scope Z_scope.

Section lemmas.
Context `{PB : Protobuf, UU : UUID, MR : MapRange}.

(** An operation on two registries that hold the same fleet, whatever the
    number of shards. *)
Lemma do_op_same_fleet o r1 r2 :
  wf r1 → wf r2 → flat r1 = flat r2 →
  HeartbeatInterval (cfg r1) = HeartbeatInterval (cfg r2) →
  StaleMissedHeartbeats (cfg r1) = StaleMissedHeartbeats (cfg r2) →
  RequiredAttributes (cfg r1) = RequiredAttributes (cfg r2) →
  let w1 := do_op o r1 in
  let w2 := do_op o r2 in
  wf w1.1 ∧ wf w2.1 ∧ flat w1.1 = flat w2.1 ∧ w1.2 ≡ₚ w2.2 ∧
  cfg w1.1 = cfg r1 ∧ cfg w2.1 = cfg r2.
Proof.
  intros Hwf1 Hwf2 Hf HH HS HR.
  assert (∀ now id msg meta e, report_agent (cfg r1) now id msg meta e =
    report_agent (cfg r2) now id msg meta e) as Hc.
  { intros. unfold report_agent, report_description, checkRequiredAttributes. by rewrite HR. }
  assert (∀ now id a, sweep_agent (cfg r1) now id a = sweep_agent (cfg r2) now id a) as Hsw.
  { intros. unfold sweep_agent, DisconnectThreshold, evictAfter. by rewrite HH, HS. }
  destruct o as [now msg meta|id b|now]; simpl.
  - pose proof (act_refines r1 (ActReport now msg meta) Hwf1) as G1.
    pose proof (act_refines r2 (ActReport now msg meta) Hwf2) as G2. simpl in G1, G2.
    rewrite Hf in G1.
    split_and!; try apply (act_wf (ActReport now msg meta)); try done;
      try apply (act_cfg (ActReport now msg meta));
      destruct (uuid_FromBytes _); destruct G1 as [Ga1 Gb1], G2 as [Ga2 Gb2];
      by rewrite ?Ga1, ?Ga2, ?Gb1, ?Gb2, ?Hc.
  - pose proof (act_refines r1 (ActSetConnected id b) Hwf1) as G1.
    pose proof (act_refines r2 (ActSetConnected id b) Hwf2) as G2. simpl in G1, G2.
    rewrite Hf in G1.
    split_and!; try apply (act_wf (ActSetConnected id b)); try done;
      try apply (act_cfg (ActSetConnected id b));
      destruct (flat r2 !! id); destruct G1 as [Ga1 Gb1], G2 as [Ga2 Gb2];
      by rewrite ?Ga1, ?Ga2, ?Gb1, ?Gb2.
  - rewrite !fst_bind, !snd_bind. simpl. rewrite !app_nil_r.
    destruct (Sweep_cfg now r1) as [? _], (Sweep_cfg now r2) as [? _].
    split_and!; try done; try (by apply Sweep_wf).
    + rewrite !flat_Sweep, Hf by done. unfold spec_sweep. apply map_eq. intros id.
      rewrite !map_lookup_imap. destruct (flat r2 !! id); simpl; by rewrite ?Hsw.
    + rewrite !Sweep_events_perm, Hf by done. unfold spec_sweep_events.
      erewrite bind_ext; [done|]. intros [id a] _. by rewrite Hsw.
Qed.

End lemmas.

(** ** The claims *)

Section claims.
Context `{PB : Protobuf, UU : UUID, MR : MapRange}.

(** C1: the sharded registry is one map.  Whatever the interleaving of
    critical sections (reports, connection changes, per-shard sweeps) from an
    empty registry, the shards hold disjoint agents, each in the shard its uid
    hashes to, and the union of the shards together with the notifications
    made is a run of the single-map specification. *)
Theorem registry_refines_map c l :
  ShardCount c < 2 ^ 32 →
  let w := acts l (New c) in
  wf w.1 ∧ spec_acts c (shardFor (New c)) l ∅ (flat w.1) w.2.
Proof.
  intros Hc w. pose proof (wf_New c Hc) as Hwf. split; [by apply acts_wf|].
  pose proof (acts_refine l _ Hwf) as Hl. by rewrite flat_New in Hl.
Qed.

(** C7: what [Report] does to the agent it is about, field by field, and to
    nobody else.  The entry is created with [FirstSeen] now, or kept; liveness
    fields are overwritten; a field absent from the message keeps its previous
    value; a health timestamp of zero keeps the previous one, others are the
    int64 reading of the wire value.  A description replaces both attribute
    maps, the last duplicate of a key winning, and the record of what is
    missing or reserved: the required attributes neither map carries and the
    reserved keys one of them does. *)
Theorem Report_functional now msg meta r id :
  wf r → uuid_FromBytes (m_InstanceUid msg) = Some id →
  let r' := (Report now msg meta r).1 in
  let old := default (zero_Agent <| InstanceUID := id |> <| FirstSeen := now |>) (Get r id) in
  let value attrs key :=
    (λ kv, anyValueString (kv_Value kv)) <$> last (filter (λ kv, kv_Key kv = key) attrs) in
  (∀ id', id' ≠ id → Get r' id' = Get r id') ∧
  ∃ a, Get r' id = Some a ∧
    InstanceUID a = id ∧ FirstSeen a = FirstSeen old ∧
    LastSeen a = now ∧ Connected a = true ∧ Conn a = meta ∧
    SequenceNum a = m_SequenceNum msg ∧
    AgentCapabilities a =
      (if bool_decide (m_Capabilities msg = 0) then AgentCapabilities old
       else m_Capabilities msg) ∧
    (match m_AgentDescription msg with
     | None => Identifying a = Identifying old ∧ NonIdentifying a = NonIdentifying old ∧
               DescriptionReported a = DescriptionReported old ∧
               MissingAttributes a = MissingAttributes old ∧
               ReservedAttributeConflicts a = ReservedAttributeConflicts old
     | Some d => (∀ key, Identifying a !! key = value (IdentifyingAttributes d) key) ∧
                 (∀ key, NonIdentifying a !! key = value (NonIdentifyingAttributes d) key) ∧
                 DescriptionReported a = true ∧
                 MissingAttributes a =
                   filter (λ key, Identifying a !! key = None ∧ NonIdentifying a !! key = None)
                     (RequiredAttributes (cfg r)) ∧
                 ReservedAttributeConflicts a =
                   filter (λ key, is_Some (Identifying a !! key) ∨ is_Some (NonIdentifying a !! key))
                     ["healthy"; "connected"; "via_gateway"; "supervisor_managed"]
     end) ∧
    (match m_Health msg with
     | None => Healthy a = Healthy old ∧ HealthError a = HealthError old ∧
               HealthStatus a = HealthStatus old ∧ HealthReported a = HealthReported old ∧
               HealthStartTime a = HealthStartTime old ∧
               HealthStatusTime a = HealthStatusTime old
     | Some h => Healthy a = h_Healthy h ∧ HealthError a = h_LastError h ∧
                 HealthStatus a = h_Status h ∧ HealthReported a = true ∧
                 HealthStartTime a =
                   (if bool_decide (h_StartTimeUnixNano h = 0) then HealthStartTime old
                    else int64 (h_StartTimeUnixNano h)) ∧
                 HealthStatusTime a =
                   (if bool_decide (h_StatusTimeUnixNano h = 0) then HealthStatusTime old
                    else int64 (h_StatusTimeUnixNano h))
     end) ∧
    Packages a = (if bool_decide (m_PackageStatuses msg = ∅) then Packages old
                  else package_of <$> m_PackageStatuses msg) ∧
    EffectiveConfig a = (if bool_decide (m_EffectiveConfig msg = ∅) then EffectiveConfig old
                         else m_EffectiveConfig msg) ∧
    EvictedAt a = EvictedAt old ∧ SessionUpdatedAt a = SessionUpdatedAt old.
Proof.
  intros Hwf Hid. pose proof (act_wf (ActReport now msg meta) r Hwf) as Hwf'. simpl in Hwf'.
  destruct (Report_flat now msg meta r id Hwf Hid) as [Hr _].
  intros r' old value. split.
  { intros id' Hne. unfold r'. rewrite !Get_flat by done. by rewrite Hr, lookup_insert_ne. }
  assert (InstanceUID old = id) as Huid.
  { unfold old. destruct (Get r id) as [a|] eqn:Ha; [|done]. by apply (Get_uid r). }
  unfold r'. rewrite Get_flat, Hr, lookup_insert_eq by done. eexists. split; [done|].
  rewrite report_agent_fst, report_description_fst, report_config_fst,
    report_packages_fst, report_health_fst, bool_decide_not.
  fold old. clearbody old.
  destruct (m_AgentDescription msg), (m_Health msg), (bool_decide (m_Capabilities msg = 0)),
    (bool_decide (m_PackageStatuses msg = ∅)), (bool_decide (m_EffectiveConfig msg = ∅));
    simpl; rewrite ?bool_decide_not; split_and!;
    try (intros key; apply attrsToMap_lookup); try done;
    by case_bool_decide.
Qed.

(** The reads agree.  [List] holds exactly the agents [Get] finds, each
    once, under its own uid; [AgentSeries] is their projection. *)
Theorem reads_agree r :
  wf r →
  NoDup (InstanceUID <$> List r) ∧
  (∀ a, a ∈ List r ↔ Get r (InstanceUID a) = Some a) ∧
  (∀ id a, Get r id = Some a → InstanceUID a = id) ∧
  AgentSeries_list r = series_of <$> List r.
Proof.
  intros Hwf. split_and!; [by apply List_NoDup_uid| | |].
  - intros a. by rewrite Get_flat, elem_of_List.
  - intros id a. by apply Get_uid.
  - unfold AgentSeries_list, List. rewrite fmap_list_bind. apply bind_ext.
    intros s _. unfold snapshot. by rewrite list_fmap_id.
Qed.

(** C8: one [Sweep] of the whole registry.  An agent whose last report is
    older than [HeartbeatInterval] times [StaleMissedHeartbeats] is gone and
    its uid returned; any other keeps every field, except that it is no longer
    connected when the report is older than one and a half intervals.  The uids
    returned and the notifications made are, up to order and each exactly once,
    those of the agents the registry listed: one [AgentDisconnected] per
    connected agent past the second threshold, one [AgentEvicted] per agent
    past the first. *)
Theorem Sweep_functional (MR' : MapRange) now r :
  wf r →
  let w := Sweep (MR := MR) now r in
  let interval := HeartbeatInterval (cfg r) in
  let age a := time_Sub now (LastSeen a) in
  let silent a := int64 (interval + interval `quot` 2) <? age a in
  let gone a := int64 (interval * int64 (StaleMissedHeartbeats (cfg r))) <? age a in
  let fleet := List (MR := MR') r in
  wf w.1.1 ∧
  (∀ id, Get w.1.1 id =
     a ← Get r id;
     if gone a then None
     else Some (a <| Connected := Connected a && negb (silent a) |>)) ∧
  w.1.2 ≡ₚ InstanceUID <$> filter (λ a, gone a = true) fleet ∧
  NoDup w.1.2 ∧
  w.2 ≡ₚ (fleet ≫= λ a,
    (if Connected a && silent a then [AgentDisconnected (InstanceUID a)] else []) ++
    (if gone a then [AgentEvicted (InstanceUID a)] else [])).
Proof.
  intros Hwf w interval age silent gone fleet.
  destruct (Sweep_listed (MR := MR) now r Hwf) as [Hev Hes]. fold w in Hev, Hes.
  assert (fleet ≡ₚ List (MR := MR) r) as Hf by (by apply List_any_order).
  split_and!.
  - by apply Sweep_wf.
  - intros id. rewrite !Get_flat by (try apply Sweep_wf; done). unfold w.
    rewrite flat_Sweep by done. apply spec_sweep_lookup.
  - rewrite Hev, Hf. done.
  - by apply Sweep_evicted_NoDup.
  - rewrite Hes, Hf. done.
Qed.

(** C9: when at least two heartbeats may be missed (and the threshold fits a
    [time.Duration]), the registry's notifications account for every
    connection: over any interleaving of steps, the agents connected at the
    end are those connected at the start, plus the [AgentConnected]
    notifications, minus the [AgentDisconnected] ones.  In particular no
    connected agent is evicted silently. *)
Theorem connection_balance r l :
  wf r →
  0 < HeartbeatInterval (cfg r) → 2 ≤ StaleMissedHeartbeats (cfg r) →
  HeartbeatInterval (cfg r) * StaleMissedHeartbeats (cfg r) ≤ int64_max →
  let w := acts l r in
  (online (flat w.1) + count is_disconnect w.2 =
   online (flat r) + count is_connect w.2)%nat.
Proof.
  intros Hwf HH HS HM. eapply spec_acts_balance.
  - by apply threshold_le.
  - by apply acts_refine.
Qed.

(** [Aggregate] counts what [List] lists, and its route counts and the
    disconnected count partition the fleet. *)
Theorem Aggregate_counts r :
  let s := Aggregate r in
  let n P := Z.of_nat (count P (List r)) in
  Size s = zlen (List r) ∧
  (∀ k, default 0 (StatsConnected s !! k) =
     n (λ a, Connected a && bool_decide (route_of a = k))) ∧
  Disconnected s = n (λ a, negb (Connected a)) ∧
  Noncompliant s = n (λ a, negb (bool_decide (MissingAttributes a = []))) ∧
  StatsSupervisorManaged s = n SupervisorManaged ∧
  AwaitingFullState s = n (λ a, negb (DescriptionReported a)).
Proof. cbv zeta. rewrite Aggregate_entries. apply (Aggregate_foldl (List r) zero_FleetStats). Qed.

(** Compliance is recorded on every description and announced only when
    it changes: reporting for a known agent notifies each missing required
    attribute when the missing list differs from the recorded one, each
    reserved-attribute conflict likewise, and nothing otherwise; a repeated
    description announces nothing. *)
Theorem compliance_notifications now msg meta r id a desc :
  wf r → uuid_FromBytes (m_InstanceUid msg) = Some id → Get r id = Some a →
  m_AgentDescription msg = Some desc →
  let w := Report now msg meta r in
  let ids := attrsToMap (IdentifyingAttributes desc) in
  let nids := attrsToMap (NonIdentifyingAttributes desc) in
  let missing := filter (λ key, ids !! key = None ∧ nids !! key = None)
                   (RequiredAttributes (cfg r)) in
  let conflicts := filter (λ key, is_Some (ids !! key) ∨ is_Some (nids !! key))
                     ReservedAttributeKeys in
  compliance w.2 =
    (if bool_decide (MissingAttributes a = missing) then []
     else MissingAttribute id <$> missing) ++
    (if bool_decide (ReservedAttributeConflicts a = conflicts) then []
     else ReservedAttributeConflict id <$> conflicts) ∧
  compliance (Report now msg meta w.1).2 = [].
Proof.
  intros Hwf Hid Ha Hd w ids nids missing conflicts.
  destruct (Report_flat now msg meta r id Hwf Hid) as [Hr Hes]. rewrite Ha in Hr, Hes.
  pose proof (Get_uid r id a Hwf Ha) as Huid. fold w in Hr, Hes.
  assert (wf w.1) as Hwf' by apply (act_wf (ActReport now msg meta) r Hwf).
  split.
  - by rewrite Hes, report_agent_compliance, Hd.
  - assert (Get w.1 id = Some (report_agent (cfg r) now id msg meta (Some a)).1) as Ha'.
    { by rewrite Get_flat, Hr, lookup_insert_eq. }
    destruct (Report_flat now msg meta w.1 id Hwf' Hid) as [_ ->].
    rewrite Ha', report_agent_compliance, Hd by (by eapply Get_uid).
    destruct (act_cfg (ActReport now msg meta) r) as [Hc _]. simpl in Hc. fold w in Hc.
    rewrite Hc, report_agent_fst, report_description_fst, Hd, report_config_fst,
      report_packages_fst, report_health_fst.
    destruct (m_Health msg), (bool_decide (m_PackageStatuses msg = ∅)),
      (bool_decide (m_EffectiveConfig msg = ∅)); simpl;
      by rewrite !bool_decide_eq_true_2.
Qed.

(** Sharding is an implementation detail.  Two registries that differ in
    [ShardCount] only, driven by the same reports, connection changes and
    sweeps, hold the same fleet and make the same notifications up to the
    order within a sweep. *)
Theorem shard_count_irrelevant c n l :
  ShardCount c < 2 ^ 32 → n < 2 ^ 32 →
  let c' := mkConfig (HeartbeatInterval c) (StaleMissedHeartbeats c) (RequiredAttributes c) n in
  let w := do_ops l (New c) in
  let w' := do_ops l (New c') in
  (∀ id, Get w.1 id = Get w'.1 id) ∧ List w.1 ≡ₚ List w'.1 ∧ w.2 ≡ₚ w'.2.
Proof.
  intros Hn Hn' c'.
  cut (∀ l r1 r2, wf r1 → wf r2 → flat r1 = flat r2 → cfg r1 = c → cfg r2 = c' →
    let w1 := do_ops l r1 in let w2 := do_ops l r2 in
    wf w1.1 ∧ wf w2.1 ∧ flat w1.1 = flat w2.1 ∧ w1.2 ≡ₚ w2.2).
  { intros Hgen w w'.
    destruct (Hgen l (New c) (New c')) as (H1 & H2 & Hf & He); try done.
    - by apply wf_New.
    - by apply wf_New.
    - by rewrite !flat_New.
    - fold w w' in H1, H2, Hf, He. split_and!; [|by rewrite !List_perm, Hf|done].
      intros id. by rewrite !Get_flat, Hf. }
  clear l. induction l as [|o l IH]; intros r1 r2 H1 H2 Hf Hc1 Hc2; [done|].
  destruct (do_op_same_fleet o r1 r2) as (G1 & G2 & Gf & Ge & Gc1 & Gc2);
    try done; rewrite ?Hc1, ?Hc2; try done.
  cbn [do_ops]. rewrite !fst_bind, !snd_bind.
  destruct (IH (do_op o r1).1 (do_op o r2).1) as (K1 & K2 & Kf & Ke);
    try done; try congruence.
  split_and!; try done. by rewrite Ge, Ke.
Qed.

End claims.

(** With a single missed heartbeat allowed, a value the configuration
    accepts, eviction comes before the disconnect threshold: an agent is
    evicted while connected and no [AgentDisconnected] is ever made. *)
Theorem single_heartbeat_evicts_connected :
  let r := (Report 0 beat1 meta1 (New cfg_one)).1 in
  let w := Sweep (40 * Second) r in
  w.1.2 = [id1] ∧ w.2 = [AgentEvicted id1] ∧
  Connected <$> Get r id1 = Some true ∧ Get w.1.1 id1 = None.
Proof. vm_compute. done. Qed.

(** ** Witnesses *)

Definition steps1 : list action :=
  [ActReport 0 msg1 meta1; ActReport 5 beat1 meta1; ActSweepShard 0 9; ActSetConnected id1 false].

Lemma registry_refines_map_witness :
  ShardCount cfg1 < 2 ^ 32 ∧ wf (acts steps1 (New cfg1)).1.
Proof. split; [done|]. apply (registry_refines_map cfg1 steps1). done. Defined.

Lemma Report_functional_witness :
  ∃ a, Get (Report 7 msg1 meta1 (New cfg1)).1 id1 = Some a ∧ HealthStartTime a = 5.
Proof.
  destruct (Report_functional 7 msg1 meta1 (New cfg1) id1) as [_ (a & Ha & H)];
    [by apply wf_New|reflexivity|].
  exists a. split; [exact Ha|].
  destruct H as (_ & _ & _ & _ & _ & _ & _ & _ & Hh & _).
  change (m_Health msg1) with (Some health1) in Hh. cbv iota beta in Hh.
  destruct Hh as (_ & _ & _ & _ & Hs & _). rewrite Hs. reflexivity.
Defined.

Lemma reads_agree_witness :
  let r := (acts steps1 (New cfg1)).1 in
  length (List r) = 1%nat ∧ NoDup (InstanceUID <$> List r).
Proof.
  intros r. split; [vm_compute; reflexivity|].
  apply (reads_agree r). apply acts_wf. by apply wf_New.
Defined.

Lemma Sweep_functional_witness :
  let r := (Report 0 msg1 meta1 (New cfg1)).1 in
  Connected <$> Get r id1 = Some true ∧
  Connected <$> Get (Sweep (46 * Second) r).1.1 id1 = Some false ∧
  Get (Sweep (91 * Second) r).1.1 id1 = None.
Proof.
  intros r. assert (wf r) as Hwf by (apply (act_wf (ActReport 0 msg1 meta1)); by apply wf_New).
  split; [vm_compute; reflexivity|].
  destruct (Sweep_functional range_by_key_down (46 * Second) r Hwf) as (_ & H46 & _).
  destruct (Sweep_functional range_by_key_down (91 * Second) r Hwf) as (_ & H91 & _).
  specialize (H46 id1). specialize (H91 id1).
  split; [rewrite H46|rewrite H91]; vm_compute; reflexivity.
Defined.

Lemma connection_balance_witness :
  let w := acts steps1 (New cfg1) in
  wf (New cfg1) ∧ (online (flat w.1) + count is_disconnect w.2 =
    online (flat (New cfg1)) + count is_connect w.2)%nat.
Proof.
  split; [by apply wf_New|]. apply (connection_balance (New cfg1) steps1).
  - by apply wf_New.
  - vm_compute. reflexivity.
  - vm_compute. discriminate.
  - vm_compute. discriminate.
Defined.

Lemma compliance_notifications_witness :
  let r := (Report 0 beat1 meta1 (New cfg1)).1 in
  compliance (Report 1 msg1 meta1 r).2 =
    [MissingAttribute id1 "team"; ReservedAttributeConflict id1 "healthy"] ∧
  compliance (Report 1 msg1 meta1 (Report 1 msg1 meta1 r).1).2 = [].
Proof.
  intros r. assert (wf r) as Hwf by (apply (act_wf (ActReport 0 beat1 meta1)); by apply wf_New).
  destruct (Get r id1) as [a|] eqn:Ha; [|vm_compute in Ha; discriminate].
  destruct (compliance_notifications 1 msg1 meta1 r id1 a desc1 Hwf) as [H1 H2];
    [reflexivity|exact Ha|reflexivity|].
  split; [|exact H2]. rewrite H1. vm_compute in Ha. injection Ha as <-. vm_compute. reflexivity.
Defined.

Lemma shard_count_irrelevant_witness :
  let l := [OpReport 0 msg1 meta1; OpSetConnected id1 false; OpSweep (Second * 100)] in
  let c' := mkConfig (HeartbeatInterval cfg1) (StaleMissedHeartbeats cfg1)
              (RequiredAttributes cfg1) 1 in
  (do_ops l (New cfg1)).2 ≡ₚ (do_ops l (New c')).2.
Proof. intros l c'. apply (shard_count_irrelevant cfg1 1 l); done. Defined.
