(* ===== verification/Auth.v ===== *)
(** * SPIFFE identities, roles and the mTLS gate

    internal/spiffe/spiffe.go ([FromCert], [ResolveRole]) and
    internal/server/mtls.go ([requireSPIFFERole]).  Of crypto/x509 and
    net/url the code reads only the fields below.  A wrapped error keeps the
    sentinel it wraps, which is all [errors.Is] asks for. *)

From Stdlib Require Import ZArith Lia.
From S2P Require Import Prelude GoLang.
Local Open Scope Z_scope.

(** ** Package spiffe *)

Record URL := mkURL { u_Scheme : string; u_Host : string; u_Path : string }.

Record Certificate := mkCertificate { URIs : list URL }.

Inductive spiffe_error :=
  | ErrNoURISAN
  | ErrMultipleURISANs
  | ErrWrongScheme
  | ErrMalformed.

Record ID := mkID { TrustDomain : string; id_Path : string }.

Definition ID_String (id : ID) : string :=
  String.app "spiffe://" (String.app (TrustDomain id) (id_Path id)).

Definition FromCert (cert : Certificate) : spiffe_error + ID :=
  match URIs cert with
  | [] => inl ErrNoURISAN
  | [u] =>
      if bool_decide (u_Scheme u ≠ "spiffe") then inl ErrWrongScheme
      else if bool_decide (u_Host u = "") || bool_decide (u_Path u = "")
      then inl ErrMalformed
      else inr (mkID (u_Host u) (u_Path u))
  | _ => inl ErrMultipleURISANs
  end.

Record RoleRule := mkRoleRule { r_Match : string; r_SpiffeID : string; r_Role : string }.

(** The first loop of [ResolveRole], over exact rules. *)
Fixpoint resolve_exact (full : string) (rules : list RoleRule) : option string :=
  match rules with
  | [] => None
  | r :: rules =>
      if bool_decide (r_Match r = "exact") && bool_decide (r_SpiffeID r = full)
      then Some (r_Role r) else resolve_exact full rules
  end.

(** [full[:len(p)] == p], guarded by [len(p) <= len(full)]. *)
Definition slice_prefix (p full : string) : bool :=
  (String.length p <=? String.length full)%nat &&
  bool_decide (String.substring 0 (String.length p) full = p).

(** The second loop, over prefix rules. *)
Fixpoint resolve_prefix (full : string) (rules : list RoleRule) : option string :=
  match rules with
  | [] => None
  | r :: rules =>
      if bool_decide (r_Match r = "prefix") && slice_prefix (r_SpiffeID r) full
      then Some (r_Role r) else resolve_prefix full rules
  end.

Definition ResolveRole (id : ID) (rules : list RoleRule) (defaultRole : string) : string :=
  let full := ID_String id in
  match resolve_exact full rules with
  | Some role => role
  | None =>
      match resolve_prefix full rules with
      | Some role => role
      | None => defaultRole
      end
  end.

(** ** The authorization gate *)

Inductive AuthMetric := AuthDenied (reason : string) | AuthAllowed (role : string).

Record RequestIdentity := mkRequestIdentity { ri_ID : ID; ri_Role : string }.

(** What the gate reads of a request: the TLS state, absent on a plain-text
    connection, with the peer's certificate chain. *)
Record Request := mkRequest { r_TLS : option (list Certificate) }.

(** Refused with 403, or handed to the next handler with an identity in its
    context. *)
Inductive Decision_ := Forbidden | Serve (id : RequestIdentity).

Definition spiffeDenyReason (err : spiffe_error) : string :=
  match err with
  | ErrNoURISAN => "no_uri_san"
  | ErrMultipleURISANs => "multiple_uri_sans"
  | ErrWrongScheme => "bad_scheme"
  | ErrMalformed => "malformed"
  end.

Definition deny (reason : string) : writer AuthMetric Decision_ :=
  _ ← emit (AuthDenied reason); mret Forbidden.

Definition requireSPIFFERole (rules : list RoleRule) (defaultRole : string)
    (r : Request) : writer AuthMetric Decision_ :=
  match r_TLS r with
  | None | Some [] => deny "no_cert"
  | Some (cert :: _) =>
      match FromCert cert with
      | inl err => deny (spiffeDenyReason err)
      | inr id =>
          let role := ResolveRole id rules defaultRole in
          if bool_decide (role = "") || bool_decide (role = "none") then deny "no_role"
          else _ ← emit (AuthAllowed role); mret (Serve (mkRequestIdentity id role))
      end
  end.

(** [Identity], on the context the gate built: [None] where no gate ran. *)
Definition Identity (ctx : option RequestIdentity) : option RequestIdentity := ctx.

(** ** The rule a caller's role comes from *)

Definition exact_match (full : string) (r : RoleRule) : Prop :=
  r_Match r = "exact" ∧ r_SpiffeID r = full.

Definition prefix_match (full : string) (r : RoleRule) : Prop :=
  r_Match r = "prefix" ∧ ∃ rest, full = String.app (r_SpiffeID r) rest.

(** The first element satisfying [P]. *)
Definition first {A} (P : A → Prop) (l : list A) (x : A) : Prop :=
  ∃ l1 l2, l = l1 ++ x :: l2 ∧ P x ∧ Forall (λ y, ¬ P y) l1.

(** The documented rule: exact matches beat prefix matches wherever they
    stand, the first of a kind wins, the default applies otherwise. *)
Inductive role_of (full : string) (rules : list RoleRule) (dflt : string) : string → Prop :=
  | role_exact r : first (exact_match full) rules r → role_of full rules dflt (r_Role r)
  | role_prefix r :
      Forall (λ r, ¬ exact_match full r) rules →
      first (prefix_match full) rules r → role_of full rules dflt (r_Role r)
  | role_default :
      Forall (λ r, ¬ exact_match full r) rules →
      Forall (λ r, ¬ prefix_match full r) rules → role_of full rules dflt dflt.

(** ** Lemmas *)

Lemma substring_app p rest : String.substring 0 (String.length p) (String.app p rest) = p.
Proof.
  induction p as [|c p IH]; simpl; [by destruct rest|]. by rewrite IH.
Qed.

Lemma substring_prefix n s : ∃ rest, s = String.app (String.substring 0 n s) rest.
Proof.
  revert s. induction n as [|n IH]; intros [|c s]; simpl; try by eexists.
  destruct (IH s) as [rest Hr]. exists rest. by rewrite Hr at 1.
Qed.

Lemma string_length_app a b :
  String.length (String.app a b) = (String.length a + String.length b)%nat.
Proof. induction a as [|c a IH]; simpl; [done|]. by rewrite IH. Qed.

Lemma slice_prefix_spec p full :
  slice_prefix p full = true ↔ ∃ rest, full = String.app p rest.
Proof.
  unfold slice_prefix. rewrite andb_true_iff, bool_decide_eq_true, Nat.leb_le. split.
  - intros [_ H]. destruct (substring_prefix (String.length p) full) as [rest Hr].
    exists rest. by rewrite H in Hr.
  - intros [rest ->]. rewrite substring_app, string_length_app. split; [lia|done].
Qed.

Lemma first_cons_here {A} (P : A → Prop) x l : P x → first P (x :: l) x.
Proof. intros Hx. by exists [], l. Qed.

Lemma first_cons_there {A} (P : A → Prop) x y l : ¬ P y → first P l x → first P (y :: l) x.
Proof.
  intros Hy (l1 & l2 & -> & Hx & Hl). exists (y :: l1), l2. split_and!; [done..|].
  by constructor.
Qed.

Lemma first_unique {A} (P : A → Prop) l x y : first P l x → first P l y → x = y.
Proof.
  intros (l1 & l2 & -> & Hx & H1) (k1 & k2 & Hl & Hy & H2).
  revert k1 Hl H1 H2. induction l1 as [|z l1 IH]; intros [|w k1] Hl H1 H2;
    simplify_list_eq; rewrite ?Forall_cons in *; [done|tauto|tauto|].
  apply (IH k1); tauto.
Qed.

Lemma first_not_none {A} (P : A → Prop) l x : first P l x → ¬ Forall (λ y, ¬ P y) l.
Proof.
  intros (l1 & l2 & -> & Hx & _) [_ Hf]%Forall_app. apply Forall_cons in Hf as [? _]. done.
Qed.

Lemma resolve_exact_spec full rules :
  match resolve_exact full rules with
  | Some role => ∃ r, first (exact_match full) rules r ∧ role = r_Role r
  | None => Forall (λ r, ¬ exact_match full r) rules
  end.
Proof.
  induction rules as [|r rules IH]; simpl; [constructor|].
  destruct (_ && _) eqn:Hm.
  - apply andb_true_iff in Hm as [?%bool_decide_eq_true ?%bool_decide_eq_true].
    exists r. split; [by apply first_cons_here|done].
  - assert (¬ exact_match full r) as Hr.
    { intros [Ha Hb]. by rewrite !bool_decide_eq_true_2 in Hm. }
    destruct (resolve_exact full rules) as [role|]; [|by constructor].
    destruct IH as (r' & Hf & ->). exists r'. split; [by apply first_cons_there|done].
Qed.

Lemma resolve_prefix_spec full rules :
  match resolve_prefix full rules with
  | Some role => ∃ r, first (prefix_match full) rules r ∧ role = r_Role r
  | None => Forall (λ r, ¬ prefix_match full r) rules
  end.
Proof.
  induction rules as [|r rules IH]; simpl; [constructor|].
  destruct (_ && _) eqn:Hm.
  - apply andb_true_iff in Hm as [?%bool_decide_eq_true ?%slice_prefix_spec].
    exists r. split; [by apply first_cons_here|done].
  - assert (¬ prefix_match full r) as Hr.
    { intros [Hp Hs%slice_prefix_spec]. by rewrite Hp, Hs in Hm. }
    destruct (resolve_prefix full rules) as [role|]; [|by constructor].
    destruct IH as (r' & Hf & ->). exists r'. split; [by apply first_cons_there|done].
Qed.

Lemma ResolveRole_role_of id rules dflt :
  role_of (ID_String id) rules dflt (ResolveRole id rules dflt).
Proof.
  unfold ResolveRole.
  pose proof (resolve_exact_spec (ID_String id) rules) as He.
  destruct (resolve_exact _ _) as [role|].
  - destruct He as (r & Hf & ->). by apply role_exact.
  - pose proof (resolve_prefix_spec (ID_String id) rules) as Hp.
    destruct (resolve_prefix _ _) as [role|].
    + destruct Hp as (r & Hf & ->). by apply role_prefix.
    + by apply role_default.
Qed.

Lemma role_of_unique full rules dflt x y :
  role_of full rules dflt x → role_of full rules dflt y → x = y.
Proof.
  intros [r Hr|r He Hr|He Hp] [r' Hr'|r' He' Hr'|He' Hp'];
    first [ done
          | f_equal; eapply first_unique; eassumption
          | match goal with
            | H1 : first ?P ?l _, H2 : Forall _ ?l |- _ =>
                by destruct (first_not_none P l _ H1 H2)
            end ].
Qed.

Lemma FromCert_Some cert id :
  FromCert cert = inr id ↔
    ∃ u, URIs cert = [u] ∧ u_Scheme u = "spiffe" ∧ u_Host u ≠ "" ∧ u_Path u ≠ "" ∧
         id = mkID (u_Host u) (u_Path u).
Proof.
  unfold FromCert. destruct (URIs cert) as [|u [|]]; [naive_solver| |naive_solver].
  destruct (bool_decide_reflect (u_Scheme u ≠ "spiffe")) as [?|?%dec_stable];
    [naive_solver|].
  destruct (bool_decide_reflect (u_Host u = "")); [naive_solver|].
  destruct (bool_decide_reflect (u_Path u = "")); naive_solver.
Qed.

Lemma first_elem_of {A} (P : A → Prop) l x : first P l x → x ∈ l.
Proof. intros (l1 & l2 & -> & _). set_solver. Qed.

Lemma ResolveRole_in id rules dflt :
  ResolveRole id rules dflt = dflt ∨ ∃ r, r ∈ rules ∧ ResolveRole id rules dflt = r_Role r.
Proof.
  destruct (ResolveRole_role_of id rules dflt); eauto using first_elem_of.
Qed.

Lemma requireSPIFFERole_Serve rules dflt r i :
  (requireSPIFFERole rules dflt r).1 = Serve i →
  ri_Role i = ResolveRole (ri_ID i) rules dflt ∧ ri_Role i ≠ "" ∧ ri_Role i ≠ "none".
Proof.
  unfold requireSPIFFERole. destruct (r_TLS r) as [[|cert rest]|]; [done| |done].
  destruct (FromCert cert) as [err|id]; [done|].
  destruct (_ || _) eqn:Hb; [done|]. intros [= <-]. simpl.
  apply orb_false_iff in Hb as [?%bool_decide_eq_false ?%bool_decide_eq_false]. done.
Qed.

(** ** The claims *)

(** C33: a caller's role is the documented one: the first exact rule for its
    id, wherever it stands; otherwise the first rule whose id is a prefix of
    it; otherwise the default. *)
Theorem ResolveRole_correct id rules dflt role :
  ResolveRole id rules dflt = role ↔ role_of (ID_String id) rules dflt role.
Proof.
  split.
  - intros <-. apply ResolveRole_role_of.
  - apply role_of_unique. apply ResolveRole_role_of.
Qed.

(** The gate serves a request exactly when its TLS peer presented a
    certificate with one URI SAN, a spiffe URI with a trust domain and a path,
    whose role is neither empty nor "none"; the next handler sees that
    identity and role.  It counts exactly one outcome, and everything else is
    refused. *)
Theorem requireSPIFFERole_correct rules dflt r :
  let w := requireSPIFFERole rules dflt r in
  (∀ i, w.1 = Serve i ↔
     ∃ cert rest u, r_TLS r = Some (cert :: rest) ∧ URIs cert = [u] ∧
       u_Scheme u = "spiffe" ∧ u_Host u ≠ "" ∧ u_Path u ≠ "" ∧
       ri_ID i = mkID (u_Host u) (u_Path u) ∧
       role_of (ID_String (ri_ID i)) rules dflt (ri_Role i) ∧
       ri_Role i ≠ "" ∧ ri_Role i ≠ "none") ∧
  match w.1 with
  | Serve i => w.2 = [AuthAllowed (ri_Role i)]
  | Forbidden => ∃ reason, w.2 = [AuthDenied reason]
  end.
Proof.
  unfold requireSPIFFERole. destruct (r_TLS r) as [[|cert rest]|]; simpl;
    [split; [naive_solver|eauto]| |split; [naive_solver|eauto]].
  destruct (FromCert cert) as [err|id] eqn:Hc; simpl.
  - split; [|eauto]. intros i. split; [done|].
    intros (cert' & rest' & u & [= <- <-] & Hu & Hs & Hh & Hp & _).
    assert (FromCert cert = inr (mkID (u_Host u) (u_Path u))) by (apply FromCert_Some; by exists u).
    congruence.
  - apply FromCert_Some in Hc as (u & Hu & Hs & Hh & Hp & ->).
    set (id := mkID (u_Host u) (u_Path u)).
    pose proof (ResolveRole_role_of id rules dflt) as Hr.
    destruct (bool_decide_reflect (ResolveRole id rules dflt = "")) as [He|He];
    [|destruct (bool_decide_reflect (ResolveRole id rules dflt = "none")) as [Hn|Hn]];
    simpl; (split; [|eauto]); intros i.
    3: { split; [intros [= <-]; simpl; by exists cert, rest, u|].
      destruct i as [id' role']. intros (? & ? & u' & [= <- <-] & Hu' & _ & _ & _ & Hid & Hr' & _).
      simpl in *. rewrite Hu in Hu'. injection Hu' as <-. fold id in Hid. subst id'.
      do 2 f_equal. by apply (role_of_unique _ _ _ _ _ Hr). }
    all: split; [done|]; intros (? & ? & u' & [= <- <-] & Hu' & _ & _ & _ & Hid & Hr' & ? & ?);
      rewrite Hu in Hu'; injection Hu' as <-; rewrite Hid in Hr'; fold id in Hr';
      pose proof (role_of_unique _ _ _ _ _ Hr' Hr); congruence.
Qed.
