(* ===== verification/Config.v ===== *)
(** * Package config: defaults, environment overrides, validation

    internal/config/config.go.  The YAML decoder is third-party code and is an
    argument of [Load]; the file system and the environment are a [World].
    An error keeps the field its message names. *)

From Stdlib Require Import Ascii ZArith Lia.
From S2P Require Import Prelude GoLang GoParse Auth.
Local Open Scope Z_scope.

(** ** The configuration record *)

Record Listeners := mkListeners { l_OpAMP : string; l_UI : string; l_Telemetry : string }.

Record TLS := mkTLS { CertFile : string; KeyFile : string; ClientCAFile : string }.

Record Fleet := mkFleet {
  f_HeartbeatInterval : Duration;
  f_StaleMissedHeartbeats : Z;
  f_RequiredAttributes : list string;
  f_ShardCount : Z;
  SoftDeleteDuration : Duration
}.

Record Metrics := mkMetrics { PerAgentSeriesLimit : Z }.
Record UI := mkUI { PollInterval : Duration }.
Record Debug_ := mkDebug { PprofEnabled : bool }.

Record Database := mkDatabase {
  db_Host : string;
  db_Port : Z;
  db_User : string;
  db_Password : string;
  db_DBName : string;
  db_SSLMode : string
}.

Record Auth_ := mkAuth { RoleMapping : list RoleRule; DefaultRole : string }.
Record Log := mkLog { Level : string; Format : string }.

Record Config := mkConfig {
  c_Listeners : Listeners;
  c_OpAMPTLS : TLS;
  c_UITLS : TLS;
  c_TelemetryTLS : TLS;
  c_Fleet : Fleet;
  c_Metrics : Metrics;
  c_UI : UI;
  c_Debug : Debug_;
  c_Database : Database;
  c_Auth : Auth_;
  c_Log : Log
}.

#[export] Instance eta_Listeners : Eta Listeners := λ l,
  mkListeners (l_OpAMP l) (l_UI l) (l_Telemetry l).
#[export] Instance eta_TLS : Eta TLS := λ t, mkTLS (CertFile t) (KeyFile t) (ClientCAFile t).
#[export] Instance eta_Fleet : Eta Fleet := λ f,
  mkFleet (f_HeartbeatInterval f) (f_StaleMissedHeartbeats f) (f_RequiredAttributes f)
    (f_ShardCount f) (SoftDeleteDuration f).
#[export] Instance eta_Database : Eta Database := λ d,
  mkDatabase (db_Host d) (db_Port d) (db_User d) (db_Password d) (db_DBName d) (db_SSLMode d).
#[export] Instance eta_Auth : Eta Auth_ := λ a, mkAuth (RoleMapping a) (DefaultRole a).
#[export] Instance eta_Log : Eta Log := λ l, mkLog (Level l) (Format l).
#[export] Instance eta_Config : Eta Config := λ c,
  mkConfig (c_Listeners c) (c_OpAMPTLS c) (c_UITLS c) (c_TelemetryTLS c) (c_Fleet c)
    (c_Metrics c) (c_UI c) (c_Debug c) (c_Database c) (c_Auth c) (c_Log c).

(** ** Environment overrides *)

(** A row of the table: the variable's name and its setter, which fails when
    the value does not parse. *)
Definition override : Type := string * (string → Config → option Config).

Definition setString (put : string → Config → Config) : string → Config → option Config :=
  λ v c, Some (put v c).

Definition setDuration (put : Duration → Config → Config) : string → Config → option Config :=
  λ v c, d ← ParseDuration v; Some (put d c).

Definition setInt (put : Z → Config → Config) : string → Config → option Config :=
  λ v c, n ← Atoi v; Some (put n c).

Definition setBool (put : bool → Config → Config) : string → Config → option Config :=
  λ v c, b ← ParseBool v; Some (put b c).

(** Comma-separated, trimmed, empty parts dropped. *)
Definition string_list (v : string) : list string :=
  filter (λ part, part ≠ "") (TrimSpace <$> split_byte ","%char v).

Definition setStringList (put : list string → Config → Config) :
    string → Config → option Config :=
  λ v c, Some (put (string_list v) c).

Definition envOverrides : list override :=
  [("GREX_LISTENERS_OPAMP", setString (λ v c,
      c <| c_Listeners := (c_Listeners c) <| l_OpAMP := v |> |>));
   ("GREX_LISTENERS_UI", setString (λ v c,
      c <| c_Listeners := (c_Listeners c) <| l_UI := v |> |>));
   ("GREX_LISTENERS_TELEMETRY", setString (λ v c,
      c <| c_Listeners := (c_Listeners c) <| l_Telemetry := v |> |>));
   ("GREX_OPAMP_TLS_CERT_FILE", setString (λ v c,
      c <| c_OpAMPTLS := (c_OpAMPTLS c) <| CertFile := v |> |>));
   ("GREX_OPAMP_TLS_KEY_FILE", setString (λ v c,
      c <| c_OpAMPTLS := (c_OpAMPTLS c) <| KeyFile := v |> |>));
   ("GREX_OPAMP_TLS_CLIENT_CA_FILE", setString (λ v c,
      c <| c_OpAMPTLS := (c_OpAMPTLS c) <| ClientCAFile := v |> |>));
   ("GREX_UI_TLS_CERT_FILE", setString (λ v c,
      c <| c_UITLS := (c_UITLS c) <| CertFile := v |> |>));
   ("GREX_UI_TLS_KEY_FILE", setString (λ v c,
      c <| c_UITLS := (c_UITLS c) <| KeyFile := v |> |>));
   ("GREX_UI_TLS_CLIENT_CA_FILE", setString (λ v c,
      c <| c_UITLS := (c_UITLS c) <| ClientCAFile := v |> |>));
   ("GREX_TELEMETRY_TLS_CERT_FILE", setString (λ v c,
      c <| c_TelemetryTLS := (c_TelemetryTLS c) <| CertFile := v |> |>));
   ("GREX_TELEMETRY_TLS_KEY_FILE", setString (λ v c,
      c <| c_TelemetryTLS := (c_TelemetryTLS c) <| KeyFile := v |> |>));
   ("GREX_TELEMETRY_TLS_CLIENT_CA_FILE", setString (λ v c,
      c <| c_TelemetryTLS := (c_TelemetryTLS c) <| ClientCAFile := v |> |>));
   ("GREX_AUTH_DEFAULT_ROLE", setString (λ v c,
      c <| c_Auth := (c_Auth c) <| DefaultRole := v |> |>));
   ("GREX_FLEET_HEARTBEAT_INTERVAL", setDuration (λ v c,
      c <| c_Fleet := (c_Fleet c) <| f_HeartbeatInterval := v |> |>));
   ("GREX_FLEET_STALE_MISSED_HEARTBEATS", setInt (λ v c,
      c <| c_Fleet := (c_Fleet c) <| f_StaleMissedHeartbeats := v |> |>));
   ("GREX_FLEET_REQUIRED_ATTRIBUTES", setStringList (λ v c,
      c <| c_Fleet := (c_Fleet c) <| f_RequiredAttributes := v |> |>));
   ("GREX_FLEET_SHARD_COUNT", setInt (λ v c,
      c <| c_Fleet := (c_Fleet c) <| f_ShardCount := v |> |>));
   ("GREX_FLEET_SOFT_DELETE_DURATION", setDuration (λ v c,
      c <| c_Fleet := (c_Fleet c) <| SoftDeleteDuration := v |> |>));
   ("GREX_METRICS_PER_AGENT_SERIES_LIMIT", setInt (λ v c,
      c <| c_Metrics := mkMetrics v |>));
   ("GREX_UI_POLL_INTERVAL", setDuration (λ v c, c <| c_UI := mkUI v |>));
   ("GREX_DEBUG_PPROF_ENABLED", setBool (λ v c, c <| c_Debug := mkDebug v |>));
   ("GREX_LOG_LEVEL", setString (λ v c, c <| c_Log := (c_Log c) <| Level := v |> |>));
   ("GREX_LOG_FORMAT", setString (λ v c, c <| c_Log := (c_Log c) <| Format := v |> |>));
   ("GREX_DATABASE_HOST", setString (λ v c,
      c <| c_Database := (c_Database c) <| db_Host := v |> |>));
   ("GREX_DATABASE_PORT", setInt (λ v c,
      c <| c_Database := (c_Database c) <| db_Port := v |> |>));
   ("GREX_DATABASE_USER", setString (λ v c,
      c <| c_Database := (c_Database c) <| db_User := v |> |>));
   ("GREX_DATABASE_PASSWORD", setString (λ v c,
      c <| c_Database := (c_Database c) <| db_Password := v |> |>));
   ("GREX_DATABASE_DBNAME", setString (λ v c,
      c <| c_Database := (c_Database c) <| db_DBName := v |> |>));
   ("GREX_DATABASE_SSLMODE", setString (λ v c,
      c <| c_Database := (c_Database c) <| db_SSLMode := v |> |>))].

Definition empty_TLS : TLS := mkTLS "" "" "".

Definition defaults : Config :=
  mkConfig
    (mkListeners ":4320" ":8080" ":9090")
    empty_TLS empty_TLS empty_TLS
    (mkFleet (30 * Second) 3 [] 0 (7 * 24 * Hour))
    (mkMetrics 1000)
    (mkUI (5 * Second))
    (mkDebug false)
    (mkDatabase "" 5432 "" "" "" "disable")
    (mkAuth [] "none")
    (mkLog "info" "text").

(** ** Validation *)

(** [os.ReadFile], [os.Stat] (does it succeed) and [os.LookupEnv]. *)
Record World := mkWorld {
  ReadFile : string → option string;
  Stat : string → bool;
  LookupEnv : string → option string
}.

(** The field an error is about. *)
Definition error := string.

(** The first failing check of a list, in order. *)
Fixpoint first_error (checks : list (bool * error)) : option error :=
  match checks with
  | [] => None
  | (ok, e) :: checks => if ok then first_error checks else Some e
  end.

Definition check_addr (field addr : string) : bool * error :=
  (bool_decide (is_Some (SplitHostPort addr)), field).

Definition validRoles (role : string) : bool :=
  bool_decide (role ∈ ["none"; "viewer"; "admin"]).

(** A role rule's three checks, in order. *)
Definition rule_checks (r : RoleRule) : list (bool * error) :=
  [(bool_decide (r_Match r = "exact") || bool_decide (r_Match r = "prefix"),
    "auth.role_mapping.match");
   (negb (bool_decide (r_SpiffeID r = "")), "auth.role_mapping.spiffe_id");
   (bool_decide (r_Role r = "viewer") || bool_decide (r_Role r = "admin"),
    "auth.role_mapping.role")].

Definition Auth_validate (a : Auth_) : option error :=
  first_error ((validRoles (DefaultRole a), "auth.default_role") ::
               (RoleMapping a ≫= rule_checks)).

Definition TLS_validate (w : World) (prefix : string) (t : TLS) : option error :=
  first_error
    ((bool_decide (CertFile t = "" ↔ KeyFile t = ""), prefix) ::
     (bool_decide (ClientCAFile t = "") || negb (bool_decide (CertFile t = "")), prefix) ::
     ((λ f, (bool_decide (f.2 = "") || Stat w f.2, String.app prefix f.1)) <$>
        [(".cert_file", CertFile t); (".key_file", KeyFile t);
         (".client_ca_file", ClientCAFile t)])).

Definition or_else (e : option error) (rest : option error) : option error :=
  match e with Some e => Some e | None => rest end.

Definition validate (w : World) (c : Config) : option error :=
  or_else (first_error
    [check_addr "listeners.opamp" (l_OpAMP (c_Listeners c));
     check_addr "listeners.ui" (l_UI (c_Listeners c));
     check_addr "listeners.telemetry" (l_Telemetry (c_Listeners c))])
  (or_else (TLS_validate w "opamp_tls" (c_OpAMPTLS c))
  (or_else (TLS_validate w "ui_tls" (c_UITLS c))
  (or_else (TLS_validate w "telemetry_tls" (c_TelemetryTLS c))
  (or_else (Auth_validate (c_Auth c))
  (first_error
    [(bool_decide (Level (c_Log c) ∈ ["debug"; "info"; "warn"; "error"]), "log.level");
     (bool_decide (Format (c_Log c) ∈ ["text"; "json"]), "log.format");
     (negb (f_HeartbeatInterval (c_Fleet c) <=? 0), "fleet.heartbeat_interval");
     (negb (f_StaleMissedHeartbeats (c_Fleet c) <=? 0), "fleet.stale_missed_heartbeats");
     (negb (SoftDeleteDuration (c_Fleet c) <=? 0), "fleet.soft_delete_duration");
     (negb (f_ShardCount (c_Fleet c) <? 0), "fleet.shard_count");
     (negb (PerAgentSeriesLimit (c_Metrics c) <? 0), "metrics.per_agent_series_limit");
     (negb (PollInterval (c_UI c) <=? 0), "ui.poll_interval");
     (negb ((db_Port (c_Database c) <? 1) || (65535 <? db_Port (c_Database c))),
      "database.port")]))))).

(** ** Loading *)

(** The loop over the table: unset variables are skipped, the first value that
    does not parse is an error naming its variable. *)
Fixpoint apply_overrides (w : World) (ovs : list override) (c : Config) : error + Config :=
  match ovs with
  | [] => inr c
  | (name, set) :: ovs =>
      match LookupEnv w name with
      | None => apply_overrides w ovs c
      | Some v =>
          match set v c with
          | None => inl name
          | Some c => apply_overrides w ovs c
          end
      end
  end.

(** [decode raw c]: the strict YAML decoding of [raw] over [c], by
    gopkg.in/yaml.v3. *)
Definition Load (decode : string → Config → option Config) (w : World) (path : string) :
    error + Config :=
  match ReadFile w path with
  | None => inl "read config"
  | Some raw =>
      match decode raw defaults with
      | None => inl "parse config"
      | Some c =>
          match apply_overrides w envOverrides c with
          | inl e => inl e
          | inr c => match validate w c with Some e => inl e | None => inr c end
          end
      end
  end.

(** ** What a valid configuration is *)

Record TLS_valid (w : World) (t : TLS) : Prop := {
  tls_pair : CertFile t = "" ↔ KeyFile t = "";
  tls_ca : ClientCAFile t ≠ "" → CertFile t ≠ "";
  tls_files : Forall (λ f, f = "" ∨ Stat w f = true) [CertFile t; KeyFile t; ClientCAFile t]
}.

Record rule_valid (r : RoleRule) : Prop := {
  rule_Match : r_Match r = "exact" ∨ r_Match r = "prefix";
  rule_SpiffeID : r_SpiffeID r ≠ "";
  rule_Role : r_Role r = "viewer" ∨ r_Role r = "admin"
}.

Record Auth_valid (a : Auth_) : Prop := {
  auth_default : DefaultRole a ∈ ["none"; "viewer"; "admin"];
  auth_rules : Forall rule_valid (RoleMapping a)
}.

Record valid (w : World) (c : Config) : Prop := {
  v_addrs : Forall (λ a, is_Some (SplitHostPort a))
    [l_OpAMP (c_Listeners c); l_UI (c_Listeners c); l_Telemetry (c_Listeners c)];
  v_tls : Forall (TLS_valid w) [c_OpAMPTLS c; c_UITLS c; c_TelemetryTLS c];
  v_auth : Auth_valid (c_Auth c);
  v_level : Level (c_Log c) ∈ ["debug"; "info"; "warn"; "error"];
  v_format : Format (c_Log c) ∈ ["text"; "json"];
  v_heartbeat : 0 < f_HeartbeatInterval (c_Fleet c);
  v_stale : 0 < f_StaleMissedHeartbeats (c_Fleet c);
  v_soft : 0 < SoftDeleteDuration (c_Fleet c);
  v_shards : 0 ≤ f_ShardCount (c_Fleet c);
  v_series : 0 ≤ PerAgentSeriesLimit (c_Metrics c);
  v_poll : 0 < PollInterval (c_UI c);
  v_port : 1 ≤ db_Port (c_Database c) ≤ 65535
}.

(** ** What each variable sets *)

Inductive value :=
  | VString (s : string)
  | VInt (z : Z)
  | VBool (b : bool)
  | VList (l : list string).

(** A variable, how its text is read, and the field it stands for. *)
Definition row : Type := string * (string → option value) * (Config → value).

Definition as_string (v : string) : option value := Some (VString v).
Definition as_duration (v : string) : option value := VInt <$> ParseDuration v.
Definition as_int (v : string) : option value := VInt <$> Atoi v.
Definition as_bool (v : string) : option value := VBool <$> ParseBool v.
Definition as_list (v : string) : option value := Some (VList (string_list v)).

Definition rows : list row :=
  [("GREX_LISTENERS_OPAMP", as_string, λ c, VString (l_OpAMP (c_Listeners c)));
   ("GREX_LISTENERS_UI", as_string, λ c, VString (l_UI (c_Listeners c)));
   ("GREX_LISTENERS_TELEMETRY", as_string, λ c, VString (l_Telemetry (c_Listeners c)));
   ("GREX_OPAMP_TLS_CERT_FILE", as_string, λ c, VString (CertFile (c_OpAMPTLS c)));
   ("GREX_OPAMP_TLS_KEY_FILE", as_string, λ c, VString (KeyFile (c_OpAMPTLS c)));
   ("GREX_OPAMP_TLS_CLIENT_CA_FILE", as_string, λ c, VString (ClientCAFile (c_OpAMPTLS c)));
   ("GREX_UI_TLS_CERT_FILE", as_string, λ c, VString (CertFile (c_UITLS c)));
   ("GREX_UI_TLS_KEY_FILE", as_string, λ c, VString (KeyFile (c_UITLS c)));
   ("GREX_UI_TLS_CLIENT_CA_FILE", as_string, λ c, VString (ClientCAFile (c_UITLS c)));
   ("GREX_TELEMETRY_TLS_CERT_FILE", as_string, λ c, VString (CertFile (c_TelemetryTLS c)));
   ("GREX_TELEMETRY_TLS_KEY_FILE", as_string, λ c, VString (KeyFile (c_TelemetryTLS c)));
   ("GREX_TELEMETRY_TLS_CLIENT_CA_FILE", as_string,
      λ c, VString (ClientCAFile (c_TelemetryTLS c)));
   ("GREX_AUTH_DEFAULT_ROLE", as_string, λ c, VString (DefaultRole (c_Auth c)));
   ("GREX_FLEET_HEARTBEAT_INTERVAL", as_duration, λ c, VInt (f_HeartbeatInterval (c_Fleet c)));
   ("GREX_FLEET_STALE_MISSED_HEARTBEATS", as_int,
      λ c, VInt (f_StaleMissedHeartbeats (c_Fleet c)));
   ("GREX_FLEET_REQUIRED_ATTRIBUTES", as_list, λ c, VList (f_RequiredAttributes (c_Fleet c)));
   ("GREX_FLEET_SHARD_COUNT", as_int, λ c, VInt (f_ShardCount (c_Fleet c)));
   ("GREX_FLEET_SOFT_DELETE_DURATION", as_duration, λ c, VInt (SoftDeleteDuration (c_Fleet c)));
   ("GREX_METRICS_PER_AGENT_SERIES_LIMIT", as_int, λ c, VInt (PerAgentSeriesLimit (c_Metrics c)));
   ("GREX_UI_POLL_INTERVAL", as_duration, λ c, VInt (PollInterval (c_UI c)));
   ("GREX_DEBUG_PPROF_ENABLED", as_bool, λ c, VBool (PprofEnabled (c_Debug c)));
   ("GREX_LOG_LEVEL", as_string, λ c, VString (Level (c_Log c)));
   ("GREX_LOG_FORMAT", as_string, λ c, VString (Format (c_Log c)));
   ("GREX_DATABASE_HOST", as_string, λ c, VString (db_Host (c_Database c)));
   ("GREX_DATABASE_PORT", as_int, λ c, VInt (db_Port (c_Database c)));
   ("GREX_DATABASE_USER", as_string, λ c, VString (db_User (c_Database c)));
   ("GREX_DATABASE_PASSWORD", as_string, λ c, VString (db_Password (c_Database c)));
   ("GREX_DATABASE_DBNAME", as_string, λ c, VString (db_DBName (c_Database c)));
   ("GREX_DATABASE_SSLMODE", as_string, λ c, VString (db_SSLMode (c_Database c)))].

(** ** Lemmas: validation *)

Lemma first_error_None checks : first_error checks = None ↔ Forall (λ p, p.1 = true) checks.
Proof.
  induction checks as [|[ok e] checks IH]; simpl; [split; [constructor|done]|].
  rewrite Forall_cons, <-IH. destruct ok; naive_solver.
Qed.

Lemma or_else_None a b : or_else a b = None ↔ a = None ∧ b = None.
Proof. destruct a; naive_solver. Qed.

Lemma check_empty_or s b : (bool_decide (s = "") || b = true) ↔ (s = "" ∨ b = true).
Proof. by rewrite orb_true_iff, bool_decide_eq_true. Qed.

Lemma TLS_validate_None w prefix t : TLS_validate w prefix t = None ↔ TLS_valid w t.
Proof.
  unfold TLS_validate. rewrite first_error_None, !Forall_cons, Forall_fmap, !Forall_cons.
  simpl. rewrite bool_decide_eq_true, !check_empty_or, negb_true_iff, bool_decide_eq_false.
  split.
  - intros (H1 & H2 & H3 & H4 & H5 & _). split; [done|naive_solver|].
    by rewrite !Forall_cons.
  - intros [H1 H2 H3]. rewrite !Forall_cons in H3.
    split; [done|]. split; [|naive_solver].
    destruct (decide (ClientCAFile t = "")); naive_solver.
Qed.

Lemma rule_checks_ok r : Forall (λ p, p.1 = true) (rule_checks r) ↔ rule_valid r.
Proof.
  unfold rule_checks. rewrite !Forall_cons, Forall_nil. simpl.
  rewrite !orb_true_iff, negb_true_iff, !bool_decide_eq_true, bool_decide_eq_false.
  split; [intros (? & ? & ? & _); by split|by intros []].
Qed.

Lemma Auth_validate_None a : Auth_validate a = None ↔ Auth_valid a.
Proof.
  unfold Auth_validate. rewrite first_error_None, Forall_cons, Forall_bind. simpl.
  unfold validRoles. rewrite bool_decide_eq_true.
  rewrite (Forall_iff _ (RoleMapping a) rule_valid) by apply rule_checks_ok.
  split; [intros [? ?]; by split|by intros []].
Qed.

Lemma validate_None w c : validate w c = None ↔ valid w c.
Proof.
  unfold validate. rewrite !or_else_None, !TLS_validate_None, Auth_validate_None.
  rewrite !first_error_None, !Forall_cons, !Forall_nil. unfold check_addr. simpl.
  rewrite !bool_decide_eq_true, !negb_true_iff, orb_false_iff, !Z.ltb_ge, !Z.leb_gt.
  split.
  - intros H. destruct_and! H. split; rewrite ?Forall_cons, ?Forall_nil; auto.
  - intros []. rewrite !Forall_cons in *. naive_solver.
Qed.

(** ** Lemmas: overrides *)

(** Every setter writes its own row's field and leaves the others. *)
Lemma overrides_rows :
  Forall2 (λ ov (r : row), ov.1 = r.1.1 ∧
    ∀ v c c', ov.2 v c = Some c' → r.1.2 v = Some (r.2 c') ∧
      RoleMapping (c_Auth c') = RoleMapping (c_Auth c) ∧
      Forall (λ r' : row, r'.1.1 = r.1.1 ∨ r'.2 c' = r'.2 c) rows) envOverrides rows.
Proof.
  unfold envOverrides, rows at 2.
  repeat (constructor; [split; [reflexivity|]; simpl;
    unfold setString, setDuration, setInt, setBool, setStringList,
      as_string, as_duration, as_int, as_bool, as_list; intros v c c' Hc|]);
    [..|constructor].
  all: try (apply bind_Some in Hc as (x & Hx & Hc); rewrite Hx); injection Hc as <-.
  all: split; [reflexivity|split; [reflexivity|]].
  all: unfold rows; repeat (constructor; [first [by right|by left]|]); constructor.
Qed.

Lemma rows_NoDup : NoDup ((λ r : row, r.1.1) <$> rows).
Proof. apply (bool_decide_unpack _). vm_compute. done. Qed.

Lemma apply_overrides_spec w ovs rs c c' :
  Forall2 (λ ov (r : row), ov.1 = r.1.1 ∧
    ∀ v c c', ov.2 v c = Some c' → r.1.2 v = Some (r.2 c') ∧
      RoleMapping (c_Auth c') = RoleMapping (c_Auth c) ∧
      Forall (λ r' : row, r'.1.1 = r.1.1 ∨ r'.2 c' = r'.2 c) rows) ovs rs →
  NoDup ((λ r : row, r.1.1) <$> rs) → rs ⊆ rows →
  apply_overrides w ovs c = inr c' →
  RoleMapping (c_Auth c') = RoleMapping (c_Auth c) ∧
  (∀ r, r ∈ rs → match LookupEnv w r.1.1 with
                 | Some v => r.1.2 v = Some (r.2 c')
                 | None => r.2 c' = r.2 c
                 end) ∧
  (∀ r, r ∈ rows → r.1.1 ∉ (λ r : row, r.1.1) <$> rs → r.2 c' = r.2 c).
Proof.
  intros Hall. revert c. induction Hall as [|[name set] r ovs rs [Hn Hset] Hall IH];
    intros c Hnd Hsub Hap; simpl in *.
  - simplify_eq. split_and!; [done| |done]. intros r []%not_elem_of_nil.
  - apply NoDup_cons in Hnd as [Hr Hnd].
    assert (rs ⊆ rows) as Hsub' by (intros x Hx; apply Hsub; by right).
    assert (r ∈ rows) as Hrow by (apply Hsub; by left). subst name.
    destruct (LookupEnv w r.1.1) as [v|] eqn:Hv.
    + destruct (set v c) as [c1|] eqn:Hc1; [|done].
      destruct (Hset v c c1 Hc1) as (Hval & Hrm & Hfr). rewrite Forall_forall in Hfr.
      destruct (IH c1 Hnd Hsub' Hap) as (IH1 & IH2 & IH3). split_and!; [congruence| |].
      * intros r' [->|Hr']%elem_of_cons.
        { by rewrite Hv, IH3. }
        specialize (IH2 r' Hr'). destruct (LookupEnv w r'.1.1); [done|]. rewrite IH2.
        destruct (Hfr r') as [Heq|]; [by apply Hsub'| |done].
        destruct Hr. rewrite <-Heq. by apply (list_elem_of_fmap_2 (λ r : row, r.1.1)).
      * intros r' Hr' Hnot%not_elem_of_cons. rewrite IH3 by tauto.
        destruct (Hfr r'); tauto.
    + destruct (IH c Hnd Hsub' Hap) as (IH1 & IH2 & IH3). split_and!; [done| |].
      * intros r' [->|Hr']%elem_of_cons; [|by apply IH2].
        rewrite Hv. by apply IH3.
      * intros r' Hr' Hnot%not_elem_of_cons. apply IH3; tauto.
Qed.

Lemma Load_inr decode w path c :
  Load decode w path = inr c →
  ∃ raw c0, ReadFile w path = Some raw ∧ decode raw defaults = Some c0 ∧
    apply_overrides w envOverrides c0 = inr c ∧ valid w c.
Proof.
  unfold Load. destruct (ReadFile w path) as [raw|]; [|done].
  destruct (decode raw defaults) as [c0|] eqn:Hd; [|done].
  destruct (apply_overrides w envOverrides c0) as [|c1] eqn:Ho; [done|].
  destruct (validate w c1) eqn:Hv; [done|]. intros [= <-].
  apply validate_None in Hv. exists raw, c0. by repeat (split; [first [reflexivity|assumption]|]).
Qed.

(** ** The claims *)

(** Validation accepts exactly the configurations whose listener
    addresses parse, whose TLS blocks pair certificate and key, have a client
    CA only with a certificate and name readable files, whose roles and role
    rules are known, and whose intervals, counts and port are in range. *)
Theorem validate_correct w c : validate w c = None ↔ valid w c.
Proof. apply validate_None. Qed.

(** C39: loading obeys its precedence.  A configuration that loads is valid,
    and each of the 29 documented variables, when set, determines its own
    field and, when unset, leaves the value decoded from the file over the
    defaults; nothing else in the environment has an effect. *)
Theorem Load_precedence decode w path c :
  Load decode w path = inr c →
  valid w c ∧
  ∃ raw c0, ReadFile w path = Some raw ∧ decode raw defaults = Some c0 ∧
    RoleMapping (c_Auth c) = RoleMapping (c_Auth c0) ∧
    ∀ name parse get, (name, parse, get) ∈ rows →
      match LookupEnv w name with
      | Some v => parse v = Some (get c)
      | None => get c = get c0
      end.
Proof.
  intros (raw & c0 & Hraw & Hc0 & Ho & Hv)%Load_inr. split; [done|].
  exists raw, c0. split_and!; [done..| |];
    destruct (apply_overrides_spec w _ _ _ _ overrides_rows rows_NoDup ltac:(done) Ho)
      as (H1 & H2 & _); [done|].
  intros name parse get Hr. apply (H2 _ Hr).
Qed.

(** Under a configuration that loads, the gate grants no role but viewer
    and admin, whatever the certificate. *)
Theorem served_role decode w path c r i :
  Load decode w path = inr c →
  (requireSPIFFERole (RoleMapping (c_Auth c)) (DefaultRole (c_Auth c)) r).1 = Serve i →
  ri_Role i = "viewer" ∨ ri_Role i = "admin".
Proof.
  intros (raw & c0 & _ & _ & _ & Hv)%Load_inr Hs.
  destruct (v_auth _ _ Hv) as [Hd Hr]. rewrite Forall_forall in Hr.
  apply requireSPIFFERole_Serve in Hs as (Hrole & _ & Hnone).
  destruct (ResolveRole_in (ri_ID i) (RoleMapping (c_Auth c)) (DefaultRole (c_Auth c)))
    as [Heq|(rule & Hin & Heq)].
  - rewrite Heq in Hrole. rewrite Hrole in *. set_solver.
  - rewrite Heq in Hrole. rewrite Hrole. by apply Hr.
Qed.

(** ** Witnesses *)

(** A file that names one rule, and two variables set. *)
Definition world1 : World :=
  mkWorld (λ _, Some "auth: ...") (λ _, true)
    (λ name, if bool_decide (name = "GREX_FLEET_HEARTBEAT_INTERVAL") then Some "1m30s"
             else if bool_decide (name = "GREX_FLEET_REQUIRED_ATTRIBUTES")
             then Some " service.name ,, team" else None).

Definition rule1 : RoleRule := mkRoleRule "prefix" "spiffe://corp/user/" "viewer".

Definition decode1 (raw : string) (c : Config) : option Config :=
  Some (c <| c_Auth := mkAuth [rule1] "none" |>).

Definition loaded1 : Config :=
  match Load decode1 world1 "grex.yaml" with inr c => c | inl _ => defaults end.

Definition request1 : Request :=
  mkRequest (Some [mkCertificate [mkURL "spiffe" "corp" "/user/alice"]]).

Lemma Load_precedence_witness :
  f_HeartbeatInterval (c_Fleet loaded1) = 90 * Second ∧
  f_RequiredAttributes (c_Fleet loaded1) = ["service.name"; "team"] ∧ valid world1 loaded1.
Proof.
  split; [vm_compute; reflexivity|]. split; [vm_compute; reflexivity|].
  apply (Load_precedence decode1 world1 "grex.yaml" loaded1). vm_compute. reflexivity.
Defined.

Lemma served_role_witness :
  let w := requireSPIFFERole (RoleMapping (c_Auth loaded1)) (DefaultRole (c_Auth loaded1))
             request1 in
  w.1 = Serve (mkRequestIdentity (mkID "corp" "/user/alice") "viewer") ∧
  ("viewer" = "viewer" ∨ "viewer" = "admin").
Proof.
  intros w. split; [vm_compute; reflexivity|].
  apply (served_role decode1 world1 "grex.yaml" loaded1 request1
           (mkRequestIdentity (mkID "corp" "/user/alice") "viewer")); vm_compute; reflexivity.
Defined.
