(* ===== verification/Server.v ===== *)
(** * Package server: the three listeners, their routes and lifecycle

    internal/server/server.go.  [New] builds the handlers of the OpAMP, UI and
    telemetry listeners, [Start] binds them, [BeginDraining] and [Shutdown]
    take them down.  The network, the certificate loader and the handlers
    mounted by the caller are arguments.  A request's path is taken as
    net/http's mux sees it after cleaning. *)

From Stdlib Require Import ZArith Lia.
From S2P Require Import Prelude GoLang Auth Config.
Local Open Scope Z_scope.

(** ** Responses *)

Inductive response :=
  | Ok                                          (* 200 "ok" *)
  | Draining                                    (* 503 "draining" *)
  | NotImplemented                              (* 501 *)
  | NotFound                                    (* 404 *)
  | TrailingSlash                               (* the mux redirects to the subtree *)
  | ForbiddenResponse                           (* 403 *)
  | ServerMetrics (id : option RequestIdentity) (* /metrics *)
  | FleetMetrics (id : option RequestIdentity)  (* /metrics/fleet *)
  | Pprof (id : option RequestIdentity)
  | OpAMPHandler
  | UIHandler (id : option RequestIdentity).

Record HTTPRequest := mkHTTPRequest { req_Path : string; req_TLS : option (list Certificate) }.

(** A handler, once the identity its context carries is known. *)
Definition handler : Type := HTTPRequest → writer AuthMetric response.

(** ** http.ServeMux: exact patterns, and subtree patterns ending in a slash *)

Definition mux : Type := list (string * handler).

Definition pattern_matches (pattern path : string) : bool :=
  bool_decide (pattern = path) || (HasSuffix pattern "/" && HasPrefix path pattern).

(** The longest matching pattern wins. *)
Fixpoint mux_lookup (m : mux) (path : string) : option (string * handler) :=
  match m with
  | [] => None
  | (p, h) :: m =>
      let rest := mux_lookup m path in
      if pattern_matches p path then
        match rest with
        | Some (p', h') =>
            if (String.length p <? String.length p')%nat then Some (p', h') else Some (p, h)
        | None => Some (p, h)
        end
      else rest
  end.

Definition ServeMux (m : mux) : handler := λ r,
  match mux_lookup m (req_Path r) with
  | Some (_, h) => h r
  | None =>
      if bool_decide (String.app (req_Path r) "/" ∈ m.*1)
      then mret TrailingSlash else mret NotFound
  end.

(** ** New *)

Record Mounts := mkMounts { opamp_mounted : bool; ui_mounted : bool }.

(** [wrap]: the gate, when the listener has a client CA. *)
Definition wrap (cfg : Config) (next : option RequestIdentity → response)
    (clientCAFile : string) : handler := λ r,
  if bool_decide (clientCAFile = "") then mret (next None)
  else
    d ← requireSPIFFERole (RoleMapping (c_Auth cfg)) (DefaultRole (c_Auth cfg))
          (mkRequest (req_TLS r));
    match d with
    | Forbidden => mret ForbiddenResponse
    | Serve id => mret (next (Some id))
    end.

Definition healthz : handler := λ _, mret Ok.

Definition readyz (ready : bool) : handler := λ _,
  if negb ready then mret Draining else mret Ok.

Definition telemetryMux (cfg : Config) (ready : bool) : mux :=
  let ca := ClientCAFile (c_TelemetryTLS cfg) in
  [("/healthz", healthz);
   ("/readyz", readyz ready);
   ("/metrics", wrap cfg ServerMetrics ca);
   ("/metrics/fleet", wrap cfg FleetMetrics ca)] ++
  (if PprofEnabled (c_Debug cfg) then
     [("/debug/pprof/", wrap cfg Pprof ca);
      ("/debug/pprof/cmdline", wrap cfg Pprof ca);
      ("/debug/pprof/profile", wrap cfg Pprof ca);
      ("/debug/pprof/symbol", wrap cfg Pprof ca);
      ("/debug/pprof/trace", wrap cfg Pprof ca)]
   else []).

Definition notImplemented : handler := λ _, mret NotImplemented.

Definition opampHandler (m : Mounts) : handler :=
  if opamp_mounted m
  then ServeMux [("/v1/opamp", λ _, mret OpAMPHandler); ("/", notImplemented)]
  else notImplemented.

Definition uiHandler (cfg : Config) (m : Mounts) : handler :=
  wrap cfg (λ id, if ui_mounted m then UIHandler id else NotImplemented)
    (ClientCAFile (c_UITLS cfg)).

(** ** State *)

Inductive ClientAuth := NoClientCert | VerifyClientCertIfGiven | RequireAndVerifyClientCert.

(** A listener's TLS configuration: whether it trusts a client CA, and what it
    asks of the peer. *)
Record tlsConfig := mkTlsConfig { ClientCAs : bool; tls_ClientAuth : ClientAuth }.

(** A listener once bound: [Some None] is plain text. *)
Record listener := mkListener { addr : string; lis : option (option tlsConfig) }.

#[export] Instance eta_listener : Eta listener := λ l, mkListener (addr l) (lis l).

Record Server := mkServer {
  s_cfg : Config;
  s_mounts : Mounts;
  ready : bool;
  listeners : gmap string listener
}.

#[export] Instance eta_Server : Eta Server := λ s,
  mkServer (s_cfg s) (s_mounts s) (ready s) (listeners s).

Definition New (cfg : Config) (m : Mounts) : Server :=
  mkServer cfg m false
    (<["opamp" := mkListener (l_OpAMP (c_Listeners cfg)) None]>
     (<["ui" := mkListener (l_UI (c_Listeners cfg)) None]>
      {["telemetry" := mkListener (l_Telemetry (c_Listeners cfg)) None]})).

(** What each listener's server answers. *)
Definition serve_opamp (s : Server) : handler := opampHandler (s_mounts s).
Definition serve_ui (s : Server) : handler := uiHandler (s_cfg s) (s_mounts s).
Definition serve_telemetry (s : Server) : handler :=
  ServeMux (telemetryMux (s_cfg s) (ready s)).

(** ** Start *)

(** What the operating system and crypto/tls answer. *)
Record Net := mkNet {
  Listen : string → bool;                   (* net.Listen succeeds *)
  LoadX509KeyPair : string → string → bool;
  ReadClientCA : string → bool;             (* os.ReadFile succeeds *)
  AppendCertsFromPEM : string → bool;       (* the bundle holds a certificate *)
  ShutdownOk : string → bool                (* http.Server.Shutdown, by listener *)
}.

Definition listenerTLSConfig (n : Net) (c : TLS) (clientAuth : ClientAuth) :
    error + option tlsConfig :=
  if bool_decide (CertFile c = "") then inr None
  else if negb (LoadX509KeyPair n (CertFile c) (KeyFile c)) then inl "load TLS keypair"
  else if bool_decide (ClientCAFile c = "")
  then inr (Some (mkTlsConfig false NoClientCert))
  else if negb (ReadClientCA n (ClientCAFile c)) then inl "read client CA bundle"
  else if negb (AppendCertsFromPEM n (ClientCAFile c)) then inl "client CA bundle"
  else inr (Some (mkTlsConfig true clientAuth)).

(** The map literal [Start] ranges over, with each listener's enforcement. *)
Definition tls_blocks (cfg : Config) : gmap string (TLS * ClientAuth) :=
  <["opamp" := (c_OpAMPTLS cfg, RequireAndVerifyClientCert)]>
  (<["ui" := (c_UITLS cfg, VerifyClientCertIfGiven)]>
   {["telemetry" := (c_TelemetryTLS cfg, VerifyClientCertIfGiven)]}).

Fixpoint tls_loop (n : Net) (l : list (string * (TLS * ClientAuth)))
    (acc : gmap string (option tlsConfig)) : error + gmap string (option tlsConfig) :=
  match l with
  | [] => inr acc
  | (name, (c, auth)) :: l =>
      match listenerTLSConfig n c auth with
      | inl e => inl e
      | inr t => tls_loop n l (<[name := t]> acc)
      end
  end.

Definition closeListeners (ls : gmap string listener) : gmap string listener :=
  (λ l, l <| lis := None |>) <$> ls.

(** The bind loop: the listener's name on failure. *)
Fixpoint bind_loop (n : Net) (tls : gmap string (option tlsConfig))
    (l : list (string * listener)) (ls : gmap string listener) :
    option error * gmap string listener :=
  match l with
  | [] => (None, ls)
  | (name, x) :: l =>
      if negb (Listen n (addr x)) then (Some name, closeListeners ls)
      else bind_loop n tls l (<[name := x <| lis := Some (default None (tls !! name)) |>]> ls)
  end.

Section server.
Context `{MR : MapRange}.

Definition Start (n : Net) (s : Server) : option error * Server :=
  match tls_loop n (range (tls_blocks (s_cfg s))) ∅ with
  | inl e => (Some e, s)
  | inr tls =>
      match bind_loop n tls (range (listeners s)) (listeners s) with
      | (Some e, ls) => (Some e, s <| listeners := ls |>)
      | (None, ls) => (None, s <| listeners := ls |> <| ready := true |>)
      end
  end.

Definition BeginDraining (s : Server) : Server := s <| ready := false |>.

(** [Shutdown]: the listeners that failed to stop in time. *)
Definition Shutdown (n : Net) (s : Server) : list error * Server :=
  let s := BeginDraining s in
  (filter (λ name, ShutdownOk n name = false)
     ((filter (λ p : string * listener, is_Some (lis p.2)) (range (listeners s))).*1), s).

End server.

(** ** Lemmas: routing *)

Definition protected (x : response) : option (option RequestIdentity) :=
  match x with
  | ServerMetrics id | FleetMetrics id | Pprof id | UIHandler id => Some id
  | _ => None
  end.

Lemma wrap_correct cfg next ca r :
  ca ≠ "" →
  (wrap cfg next ca r).1 = ForbiddenResponse ∨
  ∃ id, (wrap cfg next ca r).1 = next (Some id) ∧
    (requireSPIFFERole (RoleMapping (c_Auth cfg)) (DefaultRole (c_Auth cfg))
       (mkRequest (req_TLS r))).1 = Serve id.
Proof.
  intros Hca. unfold wrap. rewrite bool_decide_eq_false_2 by done. rewrite fst_bind.
  destruct (requireSPIFFERole _ _ _) as [[|id] es]; simpl; eauto.
Qed.

Lemma wrap_serves cfg next ca r :
  (wrap cfg next ca r).1 = ForbiddenResponse ∨ ∃ o, (wrap cfg next ca r).1 = next o.
Proof.
  unfold wrap. case_bool_decide; [right; by exists None|]. rewrite fst_bind.
  destruct (requireSPIFFERole _ _ _) as [[|id] es]; [by left|right; by exists (Some id)].
Qed.

Lemma serve_opamp_routes s r :
  HasPrefix (req_Path r) "/" = true →
  serve_opamp s r = mret (if opamp_mounted (s_mounts s) && bool_decide (req_Path r = "/v1/opamp")
                          then OpAMPHandler else NotImplemented).
Proof.
  intros Hp. unfold serve_opamp, opampHandler. destruct (opamp_mounted _); [|done].
  unfold ServeMux. cbn [mux_lookup andb]. unfold pattern_matches.
  change (HasSuffix "/v1/opamp" "/") with false. change (HasSuffix "/" "/") with true.
  rewrite Hp, orb_true_r, orb_false_r.
  rewrite (bool_decide_ext (req_Path r = "/v1/opamp") ("/v1/opamp" = req_Path r)) by done.
  by case_bool_decide.
Qed.

Lemma mux_lookup_elem m path p h :
  mux_lookup m path = Some (p, h) → (p, h) ∈ m.
Proof.
  induction m as [|[p0 h0] m IH]; simpl; [done|].
  destruct (pattern_matches p0 path).
  - destruct (mux_lookup m path) as [[p' h']|].
    + destruct (_ <? _)%nat; intros [= <- <-]; [right; auto|left].
    + intros [= <- <-]. left.
  - intros H. right. auto.
Qed.

(** Every telemetry handler but the two probes is behind the gate. *)
Lemma telemetryMux_elem cfg ready p h :
  (p, h) ∈ telemetryMux cfg ready →
  (p = "/healthz" ∧ h = healthz) ∨ (p = "/readyz" ∧ h = readyz ready) ∨
  ∃ next, next ∈ [ServerMetrics; FleetMetrics; Pprof] ∧
    h = wrap cfg next (ClientCAFile (c_TelemetryTLS cfg)).
Proof.
  unfold telemetryMux. intros [H|H]%elem_of_app.
  - set_unfold. naive_solver.
  - destruct (PprofEnabled (c_Debug cfg)); [|by apply not_elem_of_nil in H].
    set_unfold. naive_solver.
Qed.

(** ** Lemmas: binding *)

Lemma tls_loop_spec n l acc :
  NoDup l.*1 →
  match tls_loop n l acc with
  | inl _ => ∃ name c auth e, (name, (c, auth)) ∈ l ∧ listenerTLSConfig n c auth = inl e
  | inr m =>
      (∀ name c auth, (name, (c, auth)) ∈ l →
         ∃ t, listenerTLSConfig n c auth = inr t ∧ m !! name = Some t) ∧
      (∀ name, name ∉ l.*1 → m !! name = acc !! name)
  end.
Proof.
  revert acc. induction l as [|[name [c auth]] l IH]; intros acc Hnd; simpl.
  - split; [|done]. by intros name c auth ?%not_elem_of_nil.
  - rewrite fmap_cons in Hnd. apply NoDup_cons in Hnd as [Hn Hnd].
    destruct (listenerTLSConfig n c auth) as [e|t] eqn:Ht.
    { exists name, c, auth, e. split; [left|done]. }
    specialize (IH (<[name:=t]> acc) Hnd). destruct (tls_loop n l _) as [e|m].
    + destruct IH as (name' & c' & auth' & e' & Hin & He).
      exists name', c', auth', e'. split; [by right|done].
    + destruct IH as [H1 H2]. split.
      * intros name' c' auth' [[= -> -> ->]|Hin]%elem_of_cons; [|by apply H1].
        exists t. split; [done|]. simpl in Hn. by rewrite H2, lookup_insert_eq.
      * intros name' [Hne Hname]%not_elem_of_cons.
        rewrite H2 by done. by rewrite lookup_insert_ne.
Qed.

Lemma bind_loop_spec n tls l ls :
  NoDup l.*1 →
  match bind_loop n tls l ls with
  | (Some _, ls') => (∃ name x, (name, x) ∈ l ∧ Listen n (addr x) = false) ∧
                     (∀ name x, ls' !! name = Some x → lis x = None)
  | (None, ls') =>
      (∀ name x, (name, x) ∈ l → Listen n (addr x) = true ∧
         ls' !! name = Some (x <| lis := Some (default None (tls !! name)) |>)) ∧
      (∀ name, name ∉ l.*1 → ls' !! name = ls !! name)
  end.
Proof.
  revert ls. induction l as [|[name x] l IH]; intros ls Hnd; simpl.
  - split; [|done]. by intros name x ?%not_elem_of_nil.
  - rewrite fmap_cons in Hnd. apply NoDup_cons in Hnd as [Hn Hnd]. simpl in Hn.
    destruct (Listen n (addr x)) eqn:Hl; simpl.
    + specialize (IH (<[name:=x <| lis := Some (default None (tls !! name)) |>]> ls) Hnd).
      destruct (bind_loop n tls l _) as [[e|] ls'].
      * destruct IH as [(name' & x' & Hin & Hx) H2]. split; [|done].
        exists name', x'. split; [by right|done].
      * destruct IH as [H1 H2]. split.
        { intros name' x' [[= -> ->]|Hin]%elem_of_cons; [|by apply H1].
          split; [done|]. by rewrite H2, lookup_insert_eq. }
        { intros name' [Hne Hname]%not_elem_of_cons.
          rewrite H2 by done. by rewrite lookup_insert_ne. }
    + split; [exists name, x; split; [left|done]|].
      intros name' x'. unfold closeListeners. rewrite lookup_fmap.
      intros (x0 & _ & ->)%fmap_Some. done.
Qed.

Lemma bind_loop_dom n tls l ls name :
  is_Some (ls !! name) → is_Some ((bind_loop n tls l ls).2 !! name).
Proof.
  revert ls. induction l as [|[name' x] l IH]; intros ls Hs; simpl; [done|].
  destruct (negb _); simpl.
  - unfold closeListeners. rewrite lookup_fmap. by apply fmap_is_Some.
  - apply IH. apply lookup_insert_is_Some. by destruct (decide (name' = name)); [left|right].
Qed.

(** ** The lifecycle as a step relation

    [main] calls [Start] once, on a server nothing of which is bound. *)

Inductive step `{MR : MapRange} (n : Net) : Server → Server → Prop :=
  | step_start s :
      (∀ name x, listeners s !! name = Some x → lis x = None) → step n s (Start n s).2
  | step_drain s : step n s (BeginDraining s)
  | step_shutdown s : step n s (Shutdown n s).2.

Section claims.
Context `{MR : MapRange}.

Lemma range_elem {A} (m : gmap string A) k x : (k, x) ∈ range m ↔ m !! k = Some x.
Proof. rewrite range_perm. apply elem_of_map_to_list. Qed.

Lemma range_keys_NoDup {A} (m : gmap string A) : NoDup (range m).*1.
Proof. rewrite range_perm. apply NoDup_fst_map_to_list. Qed.

(** The outcome of [Start], whatever order the maps are walked in. *)
Lemma Start_spec n s :
  match Start n s with
  | (None, s') =>
      ready s' = true ∧
      (∀ name c auth, tls_blocks (s_cfg s) !! name = Some (c, auth) →
         ∃ t, listenerTLSConfig n c auth = inr t ∧
           ∀ x, listeners s !! name = Some x →
             listeners s' !! name = Some (x <| lis := Some t |>)) ∧
      (∀ name x, listeners s !! name = Some x → Listen n (addr x) = true) ∧
      (∀ name, listeners s !! name = None → listeners s' !! name = None)
  | (Some _, s') =>
      ready s' = ready s ∧
      ((∃ name c auth e, tls_blocks (s_cfg s) !! name = Some (c, auth) ∧
          listenerTLSConfig n c auth = inl e ∧ s' = s) ∨
       (∃ name x, listeners s !! name = Some x ∧ Listen n (addr x) = false ∧
          ∀ name x, listeners s' !! name = Some x → lis x = None))
  end.
Proof.
  unfold Start.
  pose proof (tls_loop_spec n (range (tls_blocks (s_cfg s))) ∅ (range_keys_NoDup _)) as Ht.
  destruct (tls_loop _ _ _) as [e|tls].
  { destruct Ht as (name & c & auth & e' & Hin%range_elem & He). split; [done|].
    left. by exists name, c, auth, e'. }
  destruct Ht as [Ht _].
  pose proof (bind_loop_spec n tls (range (listeners s)) (listeners s) (range_keys_NoDup _)) as Hb.
  destruct (bind_loop _ _ _ _) as [[e|] ls].
  { destruct Hb as [(name & x & Hin%range_elem & Hx) Hn]. split; [done|].
    right. by exists name, x. }
  destruct Hb as [Hb Ho]. split_and!; [done| | |].
  - intros name c auth Hblk. apply range_elem, Ht in Hblk as (t & Hlt & Hm).
    exists t. split; [done|]. intros x Hx%range_elem.
    destruct (Hb name x Hx) as [_ Hls]. by rewrite Hm in Hls.
  - intros name x Hx%range_elem. by destruct (Hb name x Hx).
  - intros name Hx. simpl. rewrite Ho; [done|].
    intros ([name' x] & -> & Hin%range_elem)%list_elem_of_fmap. simpl in Hx. congruence.
Qed.

(** What holds of every reachable server. *)
Definition lifecycle_ok (cfg : Config) (s : Server) : Prop :=
  s_cfg s = cfg ∧
  (∀ name, name ∈ ["opamp"; "ui"; "telemetry"] → is_Some (listeners s !! name)) ∧
  (ready s = true → ∀ name, name ∈ ["opamp"; "ui"; "telemetry"] →
     ∃ x t, listeners s !! name = Some x ∧ lis x = Some t).

Lemma Start_lifecycle n cfg s :
  (∀ name x, listeners s !! name = Some x → lis x = None) →
  lifecycle_ok cfg s → lifecycle_ok cfg (Start n s).2.
Proof.
  intros Hunbound (Hcfg & Hdom & Hready).
  assert (s_cfg (Start n s).2 = cfg ∧
    ∀ name, is_Some (listeners s !! name) → is_Some (listeners (Start n s).2 !! name)) as [H1 H2].
  { unfold Start. destruct (tls_loop _ _ _) as [e|tls]; [done|].
    pose proof (bind_loop_dom n tls (range (listeners s)) (listeners s)) as Hd.
    destruct (bind_loop _ _ _ _) as [[e|] ls]; simpl in *; split; eauto. }
  split_and!; [done|eauto|].
  pose proof (Start_spec n s) as Hs. destruct (Start n s) as [[e|] s']; simpl in *.
  - destruct Hs as [-> _]. intros Hr name Hname. exfalso.
    destruct (Hready Hr name Hname) as (x & t & Hx & Hl). apply Hunbound in Hx. congruence.
  - intros _ name Hname. destruct Hs as (_ & Ht & _).
    destruct (Hdom name Hname) as [x Hx].
    assert (∃ c auth, tls_blocks (s_cfg s) !! name = Some (c, auth)) as (c & auth & Hblk).
    { set_unfold. destruct_or! Hname; subst name; eexists _, _; reflexivity. }
    destruct (Ht name c auth Hblk) as (t & _ & Hb). rewrite (Hb x Hx). eauto.
Qed.

(** C34: on the telemetry listener the probes answer without a certificate
    and nothing else escapes the gate: with a client CA configured, any
    request served metrics, fleet metrics or a profile carries an identity
    the gate accepted, and the whole UI listener likewise.  [/healthz] is 200
    in every state, [/readyz] exactly when the server is ready; each metrics
    path serves its own registry or 403.  The OpAMP listener, which has no
    such gate, hands [/v1/opamp] and no other path to the mounted protocol
    handler, and answers 501 to everything else or when none is mounted. *)
Theorem gate_covers_listeners s r :
  (req_Path r = "/healthz" → serve_telemetry s r = mret Ok) ∧
  (req_Path r = "/readyz" →
     serve_telemetry s r = mret (if ready s then Ok else Draining)) ∧
  (req_Path r = "/metrics" →
     (serve_telemetry s r).1 = ForbiddenResponse ∨ ∃ o, (serve_telemetry s r).1 = ServerMetrics o) ∧
  (req_Path r = "/metrics/fleet" →
     (serve_telemetry s r).1 = ForbiddenResponse ∨ ∃ o, (serve_telemetry s r).1 = FleetMetrics o) ∧
  (ClientCAFile (c_TelemetryTLS (s_cfg s)) ≠ "" →
   ∀ o, protected (serve_telemetry s r).1 = Some o → ∃ id, o = Some id ∧
     (requireSPIFFERole (RoleMapping (c_Auth (s_cfg s))) (DefaultRole (c_Auth (s_cfg s)))
        (mkRequest (req_TLS r))).1 = Serve id) ∧
  (ClientCAFile (c_UITLS (s_cfg s)) ≠ "" →
   (serve_ui s r).1 = ForbiddenResponse ∨ ∃ id,
     (requireSPIFFERole (RoleMapping (c_Auth (s_cfg s))) (DefaultRole (c_Auth (s_cfg s)))
        (mkRequest (req_TLS r))).1 = Serve id ∧
     (serve_ui s r).1 = if ui_mounted (s_mounts s) then UIHandler (Some id) else NotImplemented) ∧
  (HasPrefix (req_Path r) "/" = true →
   serve_opamp s r = mret (if opamp_mounted (s_mounts s) && bool_decide (req_Path r = "/v1/opamp")
                           then OpAMPHandler else NotImplemented)).
Proof.
  split_and!; [..|apply serve_opamp_routes]; unfold serve_telemetry, ServeMux.
  - intros ->. unfold telemetryMux. by destruct (PprofEnabled _).
  - intros ->. unfold telemetryMux. by destruct (PprofEnabled _), (ready s).
  - intros ->. unfold telemetryMux. destruct (PprofEnabled _); apply wrap_serves; eauto.
  - intros ->. unfold telemetryMux. destruct (PprofEnabled _); apply wrap_serves; eauto.
  - intros Hca o. destruct (mux_lookup _ _) as [[p h]|] eqn:Hm.
    + apply mux_lookup_elem, telemetryMux_elem in Hm as [[-> ->]|[[-> ->]|(next & Hnext & ->)]];
        [done|by destruct (ready s)|].
      destruct (wrap_correct (s_cfg s) next _ r Hca) as [->|(id & -> & Hid)]; [done|].
      intros Ho. exists id. split; [|done].
      set_unfold. destruct_or? Hnext; subst next; by injection Ho.
    + by case_bool_decide.
  - intros Hca. unfold serve_ui, uiHandler.
    match goal with |- context [wrap _ ?next _ _] =>
      destruct (wrap_correct (s_cfg s) next _ r Hca) as [->|(id & -> & Hid)] end;
      [by left|right; by exists id].
Qed.

(** [Start] succeeds exactly when every TLS block loads and every address
    binds; the server is then ready, each listener is bound with its own
    block's configuration, and OpAMP clients without a verified certificate
    are refused whenever its block names a CA.  On failure the server is not
    ready and no listener is left bound, whatever the order the listeners
    were tried in. *)
Theorem Start_correct n cfg m :
  let s := New cfg m in
  let w := Start n s in
  (w.1 = None ↔
     (∀ name c auth, tls_blocks cfg !! name = Some (c, auth) →
        ∃ t, listenerTLSConfig n c auth = inr t) ∧
     (∀ name x, listeners s !! name = Some x → Listen n (addr x) = true)) ∧
  (w.1 = None → ready w.2 = true ∧
     (∀ name c auth x t, tls_blocks cfg !! name = Some (c, auth) →
        listeners s !! name = Some x → listenerTLSConfig n c auth = inr t →
        listeners w.2 !! name = Some (x <| lis := Some t |>)) ∧
     (CertFile (c_OpAMPTLS cfg) ≠ "" → ClientCAFile (c_OpAMPTLS cfg) ≠ "" →
        lis <$> listeners w.2 !! "opamp" =
          Some (Some (Some (mkTlsConfig true RequireAndVerifyClientCert))))) ∧
  (w.1 ≠ None → ready w.2 = false ∧
     ∀ name x, listeners w.2 !! name = Some x → lis x = None).
Proof.
  intros s w. pose proof (Start_spec n s) as Hs. fold w in Hs.
  assert (∀ name x, listeners s !! name = Some x → lis x = None) as Hnew.
  { intros name x. unfold s, New. simpl. intros Hx.
    apply lookup_insert_Some in Hx as [[_ <-]|[_ Hx]]; [done|].
    apply lookup_insert_Some in Hx as [[_ <-]|[_ Hx]]; [done|].
    by apply lookup_singleton_Some in Hx as [_ <-]. }
  destruct w as [[e|] s'].
  - destruct Hs as [Hr Hs]. split_and!; [split; [done|]|done|].
    + intros [Ht Hl]. exfalso.
      destruct Hs as [(name & c & auth & e' & Hblk & He & _)|(name & x & Hx & Hf & _)].
      * apply Ht in Hblk as [t Ht']. congruence.
      * apply Hl in Hx. congruence.
    + intros _. split; [done|]. simpl.
      destruct Hs as [(_ & _ & _ & _ & _ & _ & ->)|(_ & _ & _ & _ & Hn)]; eauto.
  - destruct Hs as (Hr & Ht & Hl & _).
    assert (∀ name c auth x t, tls_blocks cfg !! name = Some (c, auth) →
        listeners s !! name = Some x → listenerTLSConfig n c auth = inr t →
        listeners s' !! name = Some (x <| lis := Some t |>)) as Hbound.
    { intros name c auth x t Hblk Hx Ht'. apply Ht in Hblk as (t0 & Ht0 & Hb).
      assert (t0 = t) as -> by congruence. by apply Hb. }
    split_and!; [split; [|done]| |done].
    + intros _. split; [|done]. intros name c auth Hblk.
      apply Ht in Hblk as (t & Ht' & _). eauto.
    + intros _. split_and!; [done|done|]. intros Hcert Hca.
      destruct (Ht "opamp" (c_OpAMPTLS cfg) RequireAndVerifyClientCert eq_refl)
        as (t & Hopamp & _).
      simpl. erewrite Hbound; [|reflexivity|reflexivity|exact Hopamp]. simpl. do 2 f_equal.
      unfold listenerTLSConfig in Hopamp.
      rewrite !bool_decide_eq_false_2 in Hopamp by done.
      by repeat (destruct (negb _); [done|]); simplify_eq.
Qed.

(** Readiness over the server's life.  In every state reached from a new
    server by starting, draining and shutting down, a ready server has all
    three listeners bound; draining and shutting down always leave it not
    ready, before any listener stops, so [/readyz] answers 503. *)
Theorem ready_lifecycle n cfg m s :
  rtc (step n) (New cfg m) s →
  (ready s = true → ∀ name, name ∈ ["opamp"; "ui"; "telemetry"] →
     ∃ x t, listeners s !! name = Some x ∧ lis x = Some t) ∧
  ready (BeginDraining s) = false ∧ listeners (BeginDraining s) = listeners s ∧
  ready (Shutdown n s).2 = false ∧
  ∀ r, req_Path r = "/readyz" → serve_telemetry (Shutdown n s).2 r = mret Draining.
Proof.
  intros Hsteps.
  assert (lifecycle_ok cfg s) as (_ & _ & Hok).
  { remember (New cfg m) as s0 eqn:Hs0.
    assert (lifecycle_ok cfg s0) as H0.
    { subst s0. split_and!; [done| |done].
      intros name Hname. set_unfold. destruct_or! Hname; subst name; by eexists. }
    clear Hs0. induction Hsteps as [|s0 s1 s2 Hstep _ IH]; [done|]. apply IH.
    destruct Hstep as [s0 Hu|s0|s0]; [by apply Start_lifecycle| |];
      destruct H0 as (? & ? & _); by split_and!. }
  split_and!; [done..|]. intros r Hr. unfold serve_telemetry, ServeMux. rewrite Hr.
  unfold telemetryMux. simpl. by destruct (PprofEnabled _).
Qed.

End claims.

(** ** Witness *)

Definition net1 : Net := mkNet (λ _, true) (λ _ _, true) (λ _, true) (λ _, true) (λ _, true).

Lemma ready_lifecycle_witness :
  let MR := range_by_key in
  let s := BeginDraining (Start net1 (New defaults (mkMounts true true))).2 in
  rtc (step net1) (New defaults (mkMounts true true)) s ∧ ready (Shutdown net1 s).2 = false.
Proof.
  intros MR s.
  assert (rtc (step net1) (New defaults (mkMounts true true)) s) as Hs.
  { eapply rtc_l; [apply step_start|].
    - intros name x Hx. unfold New in Hx. simpl in Hx.
      apply lookup_insert_Some in Hx as [[_ <-]|[_ Hx]]; [done|].
      apply lookup_insert_Some in Hx as [[_ <-]|[_ Hx]]; [done|].
      by apply lookup_singleton_Some in Hx as [_ <-].
    - eapply rtc_l; [apply step_drain|]. apply rtc_refl. }
  split; [exact Hs|]. apply (ready_lifecycle net1 defaults (mkMounts true true) s Hs).
Defined.
