(* ===== verification/Serving.v ===== *)
(** * The goroutines of the server

    What [Server.Start] of internal/server/server.go leaves running: a
    goroutine per listener in [http.Server.Serve], whose error, unless it is
    ErrServerClosed, is sent on the [fatal] channel that cmd/grex receives from
    once; and the accessors of the bound addresses.  Serve returns ErrServerClosed
    only once Shutdown is called (net/http).  The theorem: no goroutine can be
    stuck on the channel, whoever receives, so a shutdown ends them all. *)

From Stdlib Require Import ZArith Lia.
From S2P Require Import Prelude GoLang Config Server.
Local Open Scope Z_scope.

(** ** Bound addresses *)

(** What the operating system bound an address to ([lis.Addr()]). *)
Class Bound := Addr : string → string.

(** [boundAddr]; [None] is the nil dereference for a name that is no listener. *)
Definition boundAddr `{Bound} (s : Server) (name : string) : option string :=
  l ← listeners s !! name;
  Some (match lis l with None => "" | Some _ => Addr (addr l) end).

Definition OpAMPAddr `{Bound} (s : Server) : option string := boundAddr s "opamp".
Definition UIAddr `{Bound} (s : Server) : option string := boundAddr s "ui".
Definition TelemetryAddr `{Bound} (s : Server) : option string := boundAddr s "telemetry".

(** ** The goroutines *)

(** In Serve; about to send its error; returned. *)
Inductive routine := InServe | Sending (e : error) | Done.

#[export] Instance routine_eq_dec : EqDecision routine.
Proof. solve_decision. Defined.

Record serving := mkServing {
  sv_routines : gmap string routine;
  sv_fatal : list error;           (* the channel's buffer, oldest first *)
  sv_received : list error;
  sv_shut : bool                   (* Shutdown was called *)
}.

#[export] Instance eta_serving : Eta serving := λ s,
  mkServing (sv_routines s) (sv_fatal s) (sv_received s) (sv_shut s).

(** [make(chan error, 3)]. *)
Definition fatal_cap : nat := 3.

Inductive sinput :=
  | ServeFails (name : string) (e : error)
  | ServeClosed (name : string)
  | Send (name : string)
  | Receive                        (* <-srv.Fatal() *)
  | Shut.

Definition listener_error (name : string) (e : error) : error :=
  String.app name (String.app " listener: " e).

Definition sv_step (i : sinput) (s : serving) : option serving :=
  match i with
  | ServeFails name e =>
      match sv_routines s !! name with
      | Some InServe => Some (s <| sv_routines := <[name := Sending (listener_error name e)]> (sv_routines s) |>)
      | _ => None
      end
  | ServeClosed name =>
      match sv_routines s !! name with
      | Some InServe => if sv_shut s then Some (s <| sv_routines := <[name := Done]> (sv_routines s) |>) else None
      | _ => None
      end
  | Send name =>
      match sv_routines s !! name with
      | Some (Sending e) =>
          if (length (sv_fatal s) <? fatal_cap)%nat
          then Some (s <| sv_routines := <[name := Done]> (sv_routines s) |>
                       <| sv_fatal := sv_fatal s ++ [e] |>)
          else None
      | _ => None
      end
  | Receive =>
      match sv_fatal s with
      | [] => None
      | e :: rest => Some (s <| sv_fatal := rest |> <| sv_received := sv_received s ++ [e] |>)
      end
  | Shut => Some (s <| sv_shut := true |>)
  end.

Fixpoint sv_run (l : list sinput) (s : serving) : option serving :=
  match l with [] => Some s | i :: l => s ← sv_step i s; sv_run l s end.

(** After a [Start] that succeeded. *)
Definition serve_all (s : Server) : serving :=
  mkServing ((λ _, InServe) <$> listeners s) [] [] false.

(** ** Lemmas *)

(** Goroutines that may still send. *)
Definition may_send (r : routine) : bool := match r with Done => false | _ => true end.

Definition pending (m : gmap string routine) : nat := size (filter (λ p : string * routine, may_send p.2 = true) m).

(** Every error in the channel or received came from one goroutine that is
    done. *)
Definition serving_ok (n : nat) (s : serving) : Prop :=
  (length (sv_fatal s) + length (sv_received s) + pending (sv_routines s) ≤ n)%nat.

Lemma pending_done m name r :
  m !! name = Some r → may_send r = true → S (pending (<[name := Done]> m)) = pending m.
Proof.
  intros Hm Hr. unfold pending. rewrite map_filter_insert_False by done.
  rewrite <-(insert_delete_id m name r Hm) at 2. rewrite map_filter_insert_True by done.
  rewrite map_filter_delete. rewrite map_size_insert_None; [done|]. by rewrite lookup_delete_eq.
Qed.

Lemma pending_stays m name r r' :
  m !! name = Some r → may_send r = true → may_send r' = true → pending (<[name := r']> m) = pending m.
Proof.
  intros Hm Hr Hr'. unfold pending. rewrite map_filter_insert_True by done.
  rewrite map_size_insert_Some; [done|]. exists r. by apply map_lookup_filter_Some.
Qed.

Lemma sv_step_ok n i s s' : serving_ok n s → sv_step i s = Some s' → serving_ok n s'.
Proof.
  unfold serving_ok. intros Hok Hs. destruct i as [name e|name|name| |]; cbn [sv_step] in Hs.
  - destruct (sv_routines s !! name) as [[]|] eqn:E; try done. injection Hs as <-. cbn.
    by rewrite (pending_stays _ _ InServe).
  - destruct (sv_routines s !! name) as [[]|] eqn:E; try done. destruct (sv_shut s); [|done].
    injection Hs as <-. cbn. pose proof (pending_done _ _ _ E eq_refl). lia.
  - destruct (sv_routines s !! name) as [[]|] eqn:E; try done.
    destruct (_ <? _)%nat; [|done]. injection Hs as <-. cbn.
    pose proof (pending_done _ _ _ E eq_refl). rewrite length_app. cbn [length]. lia.
  - destruct (sv_fatal s) as [|e rest]; [done|]. injection Hs as <-. cbn in *. rewrite length_app.
    cbn [length]. lia.
  - by injection Hs as <-.
Qed.

Lemma sv_run_ok n l s s' : serving_ok n s → sv_run l s = Some s' → serving_ok n s'.
Proof.
  revert s. induction l as [|i l IH]; intros s Hok; [by intros [= <-]|].
  cbn [sv_run]. intros (s1 & Hs & Hr)%bind_Some. exact (IH _ (sv_step_ok _ _ _ _ Hok Hs) Hr).
Qed.

(** Where the errors come from. *)
Definition errors_from (P : error → Prop) (s : serving) : Prop :=
  (∀ name e, sv_routines s !! name = Some (Sending e) → P e) ∧
  Forall P (sv_fatal s ++ sv_received s).

Lemma sv_step_from P i s s' :
  errors_from P s → (∀ name e, i = ServeFails name e → P (listener_error name e)) →
  sv_step i s = Some s' → errors_from P s'.
Proof.
  intros [Hr Hf] Hi Hs. destruct i as [name e|name|name| |]; cbn [sv_step] in Hs.
  - destruct (sv_routines s !! name) as [[]|] eqn:E; try done. injection Hs as <-. split; [|done].
    intros name' e'. cbn. rewrite lookup_insert_Some. intros [[_ [= <-]]|[_ H]]; eauto.
  - destruct (sv_routines s !! name) as [[]|] eqn:E; try done. destruct (sv_shut s); [|done].
    injection Hs as <-. split; [|done].
    intros name' e'. cbn. rewrite lookup_insert_Some. intros [[_ [=]]|[_ H]]; eauto.
  - destruct (sv_routines s !! name) as [[|e|]|] eqn:E; try done.
    destruct (_ <? _)%nat; [|done]. injection Hs as <-. split; cbn.
    + intros name' e'. rewrite lookup_insert_Some. intros [[_ [=]]|[_ H]]; eauto.
    + apply Forall_app in Hf as [Hf Hg]. rewrite !Forall_app. split_and!; [done| |done].
      apply Forall_singleton. eauto.
  - destruct (sv_fatal s) as [|e rest] eqn:E; [done|]. injection Hs as <-. split; [done|]. cbn.
    rewrite Forall_app, Forall_cons in Hf. rewrite !Forall_app, Forall_singleton. tauto.
  - by injection Hs as <-.
Qed.

Lemma sv_run_from P l s s' :
  errors_from P s → (∀ name e, ServeFails name e ∈ l → P (listener_error name e)) →
  sv_run l s = Some s' → errors_from P s'.
Proof.
  revert s. induction l as [|i l IH]; intros s Hs Hi; [by intros [= <-]|].
  cbn [sv_run]. intros (s1 & H1 & Hr)%bind_Some. apply (IH s1); [|intros; apply Hi; by right|done].
  apply (sv_step_from P i s); [done| |done]. intros name e ->. apply Hi. by left.
Qed.

Lemma pending_zero m : pending m = 0%nat → ∀ name r, m !! name = Some r → r = Done.
Proof.
  intros H name r Hr. apply map_size_empty_inv in H.
  destruct (may_send r) eqn:E; [|by destruct r]. exfalso.
  assert (filter (λ p : string * routine, may_send p.2 = true) m !! name = Some r) as Hf
    by by apply map_lookup_filter_Some.
  by rewrite H in Hf.
Qed.

(** The goroutines' own steps. *)
Definition own_step (i : sinput) : bool :=
  match i with ServeClosed _ | Send _ => true | _ => false end.

(** Once Shutdown is called every goroutine can end, one step each. *)
Lemma sv_winds_down s :
  serving_ok fatal_cap s → sv_shut s = true →
  ∃ l s', sv_run l s = Some s' ∧ forallb own_step l = true ∧ length l = pending (sv_routines s) ∧
    pending (sv_routines s') = 0%nat.
Proof.
  remember (pending (sv_routines s)) as k eqn:Hk. revert s Hk.
  induction k as [|k IH]; intros s Hk Hok Hshut; [by exists [], s|].
  assert (∃ name r, sv_routines s !! name = Some r ∧ may_send r = true) as (name & r & Hr & Hm).
  { unfold pending in Hk. destruct (map_choose (filter (λ p : string * routine, may_send p.2 = true)
      (sv_routines s))) as (name & r & Hf); [|exists name, r; by apply map_lookup_filter_Some in Hf].
    intros He. by rewrite He, map_size_empty in Hk. }
  pose proof (pending_done _ _ _ Hr Hm) as Hd.
  assert (∃ i s1, sv_step i s = Some s1 ∧ own_step i = true ∧ sv_shut s1 = true ∧
    sv_routines s1 = <[name := Done]> (sv_routines s)) as (i & s1 & Hs & Hi & Hsh & Hr1).
  { destruct r as [|e|]; [exists (ServeClosed name)|exists (Send name)|done].
    - cbn [sv_step]. rewrite Hr, Hshut. by eexists.
    - cbn [sv_step]. rewrite Hr. unfold serving_ok in Hok.
      rewrite (proj2 (Nat.ltb_lt _ _)) by lia. by eexists. }
  destruct (IH s1) as (l & s' & Hl & Ho & Hlen & Hp); [rewrite Hr1; lia|by eapply sv_step_ok|done|].
  exists (i :: l), s'. cbn [sv_run forallb length]. rewrite Hs. cbn [mbind option_bind].
  split_and!; [done|by rewrite Hi|by rewrite Hlen|done].
Qed.

Section claims.
Context `{MR : MapRange, BD : Bound}.

(** The listeners of a server that started. *)
Lemma started_listeners n cfg m s name :
  Start n (New cfg m) = (None, s) →
  match listeners (New cfg m) !! name with
  | Some x => ∃ t, listeners s !! name = Some (x <| lis := Some t |>)
  | None => listeners s !! name = None
  end.
Proof.
  intros Hs. pose proof (Start_spec n (New cfg m)) as Hspec. rewrite Hs in Hspec.
  destruct Hspec as (_ & Ht & _ & Hn). destruct (listeners (New cfg m) !! name) as [x|] eqn:E; [|by apply Hn].
  assert (∃ c auth, tls_blocks (s_cfg (New cfg m)) !! name = Some (c, auth)) as (c & auth & Hb).
  { cbn [New listeners] in E. unfold tls_blocks.
    destruct (decide (name = "opamp")) as [->|H1]; [eexists _, _; reflexivity|].
    destruct (decide (name = "ui")) as [->|H2]; [eexists _, _; reflexivity|].
    destruct (decide (name = "telemetry")) as [->|H3]; [eexists _, _; reflexivity|].
    by rewrite !lookup_insert_ne, lookup_singleton_ne in E by done. }
  destruct (Ht name c auth Hb) as (t & _ & Hl). exists t. by apply Hl.
Qed.

Lemma started_size n cfg m s : Start n (New cfg m) = (None, s) → size (listeners s) = 3%nat.
Proof.
  intros Hs. rewrite <-(size_dom (D := gset string)).
  assert (dom (listeners s) = dom (listeners (New cfg m)) :> gset string) as ->; [|reflexivity].
  apply set_eq. intros name. rewrite !elem_of_dom.
  pose proof (started_listeners n cfg m s name Hs) as Hl.
  destruct (listeners (New cfg m) !! name) as [x|]; [destruct Hl as [t ->]; by split|by rewrite Hl].
Qed.

(** C35: no listener goroutine is stuck.  From a [Start] that succeeded, however
    the listeners fail, whether or not anything receives, and whenever Shutdown
    is called: a goroutine with an error can send it at once, so the channel's
    three places are enough; what is sent or received is the error of a
    listener that failed, under its name; and once Shutdown is called every
    goroutine can return, with at most three steps in all.  Meanwhile the three
    addresses are the bound ones of the configuration, and before [Start] they
    are empty. *)
Theorem serving_never_stuck n cfg m srv l s :
  Start n (New cfg m) = (None, srv) → sv_run l (serve_all srv) = Some s →
  (∀ name e, sv_routines s !! name = Some (Sending e) → is_Some (sv_step (Send name) s)) ∧
  Forall (λ e, ∃ name e', ServeFails name e' ∈ l ∧ e = listener_error name e')
    (sv_fatal s ++ sv_received s) ∧
  (∃ l' s', sv_run (Shut :: l') s = Some s' ∧ forallb own_step l' = true ∧ (length l' ≤ 3)%nat ∧
     ∀ name r, sv_routines s' !! name = Some r → r = Done) ∧
  (OpAMPAddr srv, UIAddr srv, TelemetryAddr srv) =
    (Some (Addr (l_OpAMP (c_Listeners cfg))), Some (Addr (l_UI (c_Listeners cfg))),
     Some (Addr (l_Telemetry (c_Listeners cfg)))) ∧
  (OpAMPAddr (New cfg m), UIAddr (New cfg m), TelemetryAddr (New cfg m)) = (Some "", Some "", Some "").
Proof.
  intros Hstart Hrun.
  assert (serving_ok fatal_cap (serve_all srv)) as Hok0.
  { unfold serving_ok, serve_all, pending. cbn [sv_fatal sv_received sv_routines length].
    pose proof (map_size_filter (λ p : string * routine, may_send p.2 = true)
                  ((λ _, InServe) <$> listeners srv)) as Hle.
    rewrite map_size_fmap, (started_size n cfg m srv Hstart) in Hle. unfold fatal_cap. lia. }
  pose proof (sv_run_ok _ _ _ _ Hok0 Hrun) as Hok. split_and!.
  - intros name e He. cbn [sv_step]. rewrite He.
    pose proof (pending_done _ _ _ He eq_refl). unfold serving_ok in Hok.
    rewrite (proj2 (Nat.ltb_lt _ _)) by lia. by eexists.
  - refine (proj2 (sv_run_from (λ e, ∃ name e', ServeFails name e' ∈ l ∧ e = listener_error name e')
      l (serve_all srv) s _ _ Hrun)); [|by eauto].
    split; [|by constructor]. intros name e. cbn. rewrite lookup_fmap.
    by destruct (listeners srv !! name).
  - destruct (sv_winds_down (s <| sv_shut := true |>)) as (l' & s' & Hl & Ho & Hlen & Hp); [exact Hok|done|].
    exists l', s'. cbn [sv_run sv_step mbind option_bind]. split_and!; [done|done| |by apply pending_zero].
    rewrite Hlen. unfold serving_ok, fatal_cap in Hok. cbn. lia.
  - unfold OpAMPAddr, UIAddr, TelemetryAddr, boundAddr.
    destruct (started_listeners n cfg m srv "opamp" Hstart) as [t1 H1].
    destruct (started_listeners n cfg m srv "ui" Hstart) as [t2 H2].
    destruct (started_listeners n cfg m srv "telemetry" Hstart) as [t3 H3].
    by rewrite H1, H2, H3.
  - reflexivity.
Qed.

End claims.

(** ** Witness *)

#[export] Instance bound1 : Bound := λ a, a.

Example serving_never_stuck_witness :
  let MR := range_by_key in
  ∃ srv s, Start net1 (New defaults (mkMounts true true)) = (None, srv) ∧
    sv_run [ServeFails "ui" "eof"; Send "ui"; ServeFails "opamp" "reset"] (serve_all srv) = Some s ∧
    sv_fatal s = ["ui listener: eof"] ∧ is_Some (sv_step (Send "opamp") s).
Proof.
  intros MR. set (srv := (Start net1 (New defaults (mkMounts true true))).2).
  assert (Start net1 (New defaults (mkMounts true true)) = (None, srv)) as Hs by (vm_compute; reflexivity).
  set (l := [ServeFails "ui" "eof"; Send "ui"; ServeFails "opamp" "reset"]).
  assert ((λ s, (sv_fatal s, sv_routines s !! "opamp")) <$> sv_run l (serve_all srv) =
    Some (["ui listener: eof"], Some (Sending "opamp listener: reset"))) as H by (vm_compute; reflexivity).
  apply fmap_Some in H as (s & Hr & H). injection H as Hf Ho.
  exists srv, s. split_and!; [exact Hs|exact Hr|done|].
  refine (proj1 (serving_never_stuck net1 defaults (mkMounts true true) srv l s Hs Hr)
    "opamp" "opamp listener: reset" _). done.
Defined.
