(* ===== verification/OpAMP.v ===== *)
(** * Package opamp: the protocol handler

    internal/opamp/handler.go.  opamp-go calls [onConnecting] for a new
    connection and runs that connection's callbacks one at a time; callbacks
    of different connections interleave.  [System] is the handler with its
    live connections, and [sys_step] one callback, a drain, or a sweep of the
    registry.  A connection's callbacks share the [connState] they captured,
    so it lives in the system's store under the connection's number.  What the
    callbacks are to do to the registry is specified from the inputs alone:
    [asked] says which operations a list of inputs calls for.

    The wire enums and encoding/json's view of the two gateway payloads are
    parameters ([Wire], [GatewayJSON]). *)

From Stdlib Require Import ZArith Lia.
From stdpp Require Import gmap.
From S2P Require Import Prelude GoLang Fleet Registry RegistryProps Demo.
Local Open Scope Z_scope.

(** ** Data *)

Definition GatewayCapability : string := "com.bindplane.opamp-gateway".
Definition gatewayConnectType : string := "connect".
Definition gatewayConnectResultType : string := "connectResult".

Record gatewayConnect := mkGatewayConnect { gc_RequestUID : string; gc_RemoteAddress : string }.

Record gatewayConnectResult := mkGatewayConnectResult {
  gr_RequestUID : string;
  gr_Accept : bool;
  gr_HTTPStatusCode : Z
}.

(** [json.Unmarshal] into a [gatewayConnect] and [json.Marshal] of a result;
    [None] is an error. *)
Class GatewayJSON := {
  Unmarshal_connect : string → option gatewayConnect;
  Marshal_result : gatewayConnectResult → option string
}.

(** The generated enum constants the reply carries. *)
Class Wire := {
  ServerCapabilities_AcceptsStatus : Z;
  ServerToAgentFlags_ReportFullState : Z
}.

Record ServerToAgent := mkServerToAgent {
  sta_InstanceUid : string;
  sta_Capabilities : Z;
  sta_Flags : Z;
  sta_CustomMessage : option CustomMessage
}.

#[export] Instance eta_ServerToAgent : Eta ServerToAgent := λ s,
  mkServerToAgent (sta_InstanceUid s) (sta_Capabilities s) (sta_Flags s) (sta_CustomMessage s).

(** Notifications: the handler's [Metrics] and the registry's [Events]. *)
Inductive Metric :=
  | Message
  | MessageError
  | GatewayConnect (accepted : bool)
  | GatewayConnectionOpened
  | GatewayConnectionClosed
  | Fleet_ (e : Event).

#[export] Instance Metric_eq_dec : EqDecision Metric.
Proof. solve_decision. Defined.

(** The registry's notifications among the handler's. *)
Definition lift {A} (w : writer Event A) : writer Metric A := (w.1, Fleet_ <$> w.2).

(** [net.Conn] as [connMeta] reads it: its remote address, and its peers'
    subjects when it is a [*tls.Conn]. *)
Record NetConn := mkNetConn {
  nc_RemoteAddr : option string;
  nc_Peers : option (list string)
}.

Record connState := mkConnState {
  transport : string;
  viaGateway : bool;
  agents : gmap string unit
}.

#[export] Instance eta_connState : Eta connState := λ c,
  mkConnState (transport c) (viaGateway c) (agents c).

(** [servertypes.ConnectionResponse]. *)
Record ConnectionResponse := mkConnectionResponse {
  cr_Accept : bool;
  cr_HTTPStatusCode : Z;
  cr_Callbacks : option connState
}.

Section handler.
Context `{PB : Protobuf, UU : UUID, MR : MapRange, GJ : GatewayJSON, WI : Wire}.

(** ** Callbacks *)

(** From the request's Upgrade header. *)
Definition transportFor (upgrade : string) : string :=
  if EqualFold upgrade "websocket" then "ws" else "http".

Definition onConnecting (draining : bool) (upgrade : string) : ConnectionResponse :=
  if draining then mkConnectionResponse false 503 None
  else mkConnectionResponse true 0 (Some (mkConnState (transportFor upgrade) false ∅)).

Definition connMeta (cs : connState) (conn : option NetConn) : ConnMeta :=
  let meta := mkConnMeta "" "" (viaGateway cs) (transport cs) in
  match conn with
  | None => meta
  | Some netConn =>
      mkConnMeta (default "" (nc_RemoteAddr netConn))
        (default "" (nc_Peers netConn ≫= head)) (viaGateway cs) (transport cs)
  end.

Definition trackAgent (msg : AgentToServer) (cs : connState) : connState :=
  match uuid_FromBytes (m_InstanceUid msg) with
  | None => cs
  | Some id => cs <| agents := <[id := tt]> (agents cs) |>
  end.

Definition needsFullState (msg : AgentToServer) (r : Registry) : bool :=
  match uuid_FromBytes (m_InstanceUid msg) with
  | None => false
  | Some id =>
      match Get r id with
      | None => false
      | Some agent => negb (DescriptionReported agent)
      end
  end.

Definition onGatewayConnect (msg : AgentToServer) (custom : CustomMessage) (cs : connState) :
    writer Metric (connState * option ServerToAgent) :=
  cs ← (if viaGateway cs then mret cs
        else _ ← emit GatewayConnectionOpened; mret (cs <| viaGateway := true |>));
  let result := match Unmarshal_connect (cm_Data custom) with
    | None => mkGatewayConnectResult "" false 400
    | Some connect => mkGatewayConnectResult (gc_RequestUID connect) true 200
    end in
  _ ← emit (GatewayConnect (gr_Accept result));
  match Marshal_result result with
  | None => mret (cs, None)
  | Some data =>
      mret (cs, Some (mkServerToAgent (m_InstanceUid msg) 0 0
                  (Some (mkCustomMessage GatewayCapability gatewayConnectResultType data))))
  end.

(** A gateway connect message; an absent custom message reads as empty. *)
Definition gateway_connect_of (msg : AgentToServer) : option CustomMessage :=
  match m_CustomMessage msg with
  | Some custom =>
      if bool_decide (cm_Capability custom = GatewayCapability) &&
         bool_decide (cm_Type custom = gatewayConnectType)
      then Some custom else None
  | None => None
  end.

Definition onMessage (now : Time) (conn : option NetConn) (msg : AgentToServer)
    (cs : connState) (r : Registry) :
    writer Metric (connState * Registry * option ServerToAgent) :=
  _ ← emit Message;
  match gateway_connect_of msg with
  | Some custom =>
      res ← onGatewayConnect msg custom cs;
      mret (res.1, r, res.2)
  | None =>
      let cs := trackAgent msg cs in
      r ← lift (Report now msg (connMeta cs conn) r);
      let reply := mkServerToAgent (m_InstanceUid msg) ServerCapabilities_AcceptsStatus 0 None in
      let reply := if needsFullState msg r
        then reply <| sta_Flags := ServerToAgentFlags_ReportFullState |> else reply in
      mret (cs, r, Some reply)
  end.

(** The loop of [onConnectionClose] over the tracked agents. *)
Fixpoint disconnect_all (ids : list string) (r : Registry) : writer Event Registry :=
  match ids with
  | [] => mret r
  | id :: ids => r ← SetConnected id false r; disconnect_all ids r
  end.

Definition onConnectionClose (cs : connState) (r : Registry) : writer Metric Registry :=
  _ ← (if viaGateway cs then emit GatewayConnectionClosed else mret tt);
  if bool_decide (transport cs ≠ "ws") then mret r
  else lift (disconnect_all (range (agents cs)).*1 r).

Definition onReadMessageError : writer Metric unit := emit MessageError.

(** ** The system *)

Record System := mkSystem {
  registry : Registry;
  draining : bool;
  conns : gmap nat connState
}.

Inductive input :=
  | Connect (i : nat) (upgrade : string)
  | Receive (i : nat) (now : Time) (conn : option NetConn) (msg : AgentToServer)
  | ReadError (i : nat)
  | Close (i : nat)
  | Drain
  | SweepTick (now : Time).

(** A new connection gets a fresh number; callbacks run on live ones. *)
Definition enabled (s : System) (x : input) : Prop :=
  match x with
  | Connect i _ => conns s !! i = None
  | Receive i _ _ _ | ReadError i | Close i => is_Some (conns s !! i)
  | Drain | SweepTick _ => True
  end.

#[export] Instance enabled_dec s x : Decision (enabled s x).
Proof. destruct x; simpl; apply _. Defined.

Definition sys_step (x : input) (s : System) : writer Metric System :=
  match x with
  | Connect i upgrade =>
      match cr_Callbacks (onConnecting (draining s) upgrade) with
      | None => mret s
      | Some cs => mret (mkSystem (registry s) (draining s) (<[i := cs]> (conns s)))
      end
  | Receive i now conn msg =>
      match conns s !! i with
      | None => mret s
      | Some cs =>
          res ← onMessage now conn msg cs (registry s);
          mret (mkSystem res.1.2 (draining s) (<[i := res.1.1]> (conns s)))
      end
  | ReadError i => _ ← onReadMessageError; mret s
  | Close i =>
      match conns s !! i with
      | None => mret s
      | Some cs =>
          r ← onConnectionClose cs (registry s);
          mret (mkSystem r (draining s) (delete i (conns s)))
      end
  | Drain => mret (mkSystem (registry s) true (conns s))
  | SweepTick now =>
      re ← lift (Sweep now (registry s));
      mret (mkSystem re.1 (draining s) (conns s))
  end.

Fixpoint sys_run (l : list input) (s : System) : writer Metric System :=
  match l with
  | [] => mret s
  | x :: l => s ← sys_step x s; sys_run l s
  end.

(** Every input of the run is enabled where it happens. *)
Fixpoint sys_valid (l : list input) (s : System) : Prop :=
  match l with
  | [] => True
  | x :: l => enabled s x ∧ sys_valid l (sys_step x s).1
  end.

Definition sys_init (c : Config) : System := mkSystem (New c) false ∅.

(** ** What a run's inputs ask of the registry

    The specification reads the inputs only, newest first: it says nothing of
    the handler's state or code. *)

(** A gateway's connect message. *)
Definition relays (msg : AgentToServer) : bool :=
  match m_CustomMessage msg with
  | Some custom =>
      bool_decide (cm_Capability custom = "com.bindplane.opamp-gateway" ∧ cm_Type custom = "connect")
  | None => false
  end.

Definition is_drain (x : input) : bool := match x with Drain => true | _ => false end.

(** The live connection [i]: its Upgrade header and the messages received over
    it since it was accepted, newest first. *)
Fixpoint session (i : nat) (past : list input) : option (string * list AgentToServer) :=
  match past with
  | [] => None
  | Connect j upgrade :: past =>
      if decide (i = j) then if existsb is_drain past then None else Some (upgrade, [])
      else session i past
  | Receive j _ _ msg :: past =>
      if decide (i = j) then (λ um, (um.1, msg :: um.2)) <$> session i past else session i past
  | Close j :: past => if decide (i = j) then None else session i past
  | _ :: past => session i past
  end.

(** An agent that reported over the connection itself. *)
Definition reported (ms : list AgentToServer) (id : string) : Prop :=
  ∃ msg, msg ∈ ms ∧ relays msg = false ∧ uuid_FromBytes (m_InstanceUid msg) = Some id.

(** The registry operations one input stands for. *)
Inductive asks (past : list input) : input → list op → Prop :=
  | asks_report i now conn msg upgrade ms :
      session i past = Some (upgrade, ms) → relays msg = false →
      asks past (Receive i now conn msg) [OpReport now msg
        (mkConnMeta (default "" (conn ≫= nc_RemoteAddr)) (default "" ((conn ≫= nc_Peers) ≫= head))
           (existsb relays ms) (if EqualFold upgrade "websocket" then "ws" else "http"))]
  | asks_relay i now conn msg um :
      session i past = Some um → relays msg = true → asks past (Receive i now conn msg) []
  | asks_close i upgrade ms ids :
      session i past = Some (upgrade, ms) → EqualFold upgrade "websocket" = true →
      NoDup ids → (∀ id, id ∈ ids ↔ reported ms id) →
      asks past (Close i) ((λ id, OpSetConnected id false) <$> ids)
  | asks_request_end i upgrade ms :
      session i past = Some (upgrade, ms) → EqualFold upgrade "websocket" = false →
      asks past (Close i) []
  | asks_sweep now : asks past (SweepTick now) [OpSweep now]
  | asks_connect i upgrade : asks past (Connect i upgrade) []
  | asks_read_error i : asks past (ReadError i) []
  | asks_drain : asks past Drain [].

Inductive asked (past : list input) : list input → list op → Prop :=
  | asked_nil : asked past [] []
  | asked_cons x l ops ops' :
      asks past x ops → asked (x :: past) l ops' → asked past (x :: l) (ops ++ ops').

(** A connection's state, as its session tells it. *)
Definition told (um : string * list AgentToServer) (cs : connState) : Prop :=
  transport cs = (if EqualFold um.1 "websocket" then "ws" else "http") ∧
  viaGateway cs = existsb relays um.2 ∧
  ∀ id, is_Some (agents cs !! id) ↔ reported um.2 id.

Definition follows (past : list input) (s : System) : Prop :=
  draining s = existsb is_drain past ∧
  ∀ i, match conns s !! i, session i past with
       | Some cs, Some um => told um cs
       | None, None => True
       | _, _ => False
       end.

(** ** Observations *)

Definition is_opened (m : Metric) : bool :=
  match m with GatewayConnectionOpened => true | _ => false end.
Definition is_closed (m : Metric) : bool :=
  match m with GatewayConnectionClosed => true | _ => false end.

(** The live gateway connections. *)
Definition gateways (m : gmap nat connState) : nat := mcount viaGateway m.

(** The registry's notifications among the handler's. *)
Definition fleet_events (es : list Metric) : list Event :=
  omap (λ m, match m with Fleet_ e => Some e | _ => None end) es.

(** ** Lemmas *)

Lemma lift_fst {A} (w : writer Event A) : (lift w).1 = w.1.
Proof. done. Qed.

Lemma fleet_quiet es :
  count is_opened (Fleet_ <$> es) = 0%nat ∧ count is_closed (Fleet_ <$> es) = 0%nat.
Proof.
  induction es as [|e es IH]; [done|].
  rewrite fmap_cons, !count_cons. simpl. by destruct IH as [-> ->].
Qed.

Lemma onGatewayConnect_spec msg custom cs :
  let w := onGatewayConnect msg custom cs in
  w.1.1 = cs <| viaGateway := true |> ∧
  w.2 = (if viaGateway cs then [] else [GatewayConnectionOpened]) ++
        [GatewayConnect (bool_decide (is_Some (Unmarshal_connect (cm_Data custom))))].
Proof.
  unfold onGatewayConnect. cbv zeta. rewrite !fst_bind, !snd_bind.
  destruct cs as [tr [] ag], (Unmarshal_connect (cm_Data custom)) as [c|];
    simpl; destruct (Marshal_result _); done.
Qed.

Lemma trackAgent_same msg cs :
  viaGateway (trackAgent msg cs) = viaGateway cs ∧ transport (trackAgent msg cs) = transport cs.
Proof. unfold trackAgent. by destruct (uuid_FromBytes _). Qed.

Lemma disconnect_all_acts ids r :
  disconnect_all ids r = acts ((λ id, ActSetConnected id false) <$> ids) r.
Proof.
  revert r. induction ids as [|id ids IH]; intros r; [done|].
  cbn [disconnect_all acts fmap list_fmap act]. unfold mbind, writer_bind.
  destruct (SetConnected id false r) as [r' es]. by rewrite IH.
Qed.

Lemma onConnectionClose_spec cs r :
  let w := disconnect_all (range (agents cs)).*1 r in
  onConnectionClose cs r =
    (if bool_decide (transport cs = "ws") then w.1 else r,
     (if viaGateway cs then [GatewayConnectionClosed] else []) ++
     (if bool_decide (transport cs = "ws") then Fleet_ <$> w.2 else [])).
Proof.
  unfold onConnectionClose. rewrite bool_decide_not.
  by destruct (viaGateway cs), (bool_decide (transport cs = "ws")).
Qed.

(** What the gauge of open gateway connections counts. *)
Lemma sys_step_gateways x s :
  enabled s x →
  let w := sys_step x s in
  (gateways (conns w.1) + count is_closed w.2 = gateways (conns s) + count is_opened w.2)%nat.
Proof.
  intros Hen. destruct x as [i up|i now conn msg|i|i| |now]; simpl in *.
  - unfold onConnecting. destruct (draining s); simpl; [count_lia|].
    unfold gateways. rewrite mcount_insert_new by done. simpl. count_lia.
  - destruct Hen as [cs Hcs]. rewrite Hcs. rewrite fst_bind, snd_bind, app_nil_r. simpl.
    pose proof (mcount_insert viaGateway (conns s) i (onMessage now conn msg cs (registry s)).1.1.1)
      as Hm. rewrite Hcs in Hm. simpl in Hm. unfold gateways. revert Hm.
    unfold onMessage. destruct (gateway_connect_of msg) as [custom|].
    + rewrite !fst_bind, !snd_bind. simpl.
      destruct (onGatewayConnect_spec msg custom cs) as [-> ->].
      rewrite !count_cons, !count_app. destruct (viaGateway cs); simpl;
        count_lia.
    + rewrite !fst_bind, !snd_bind. simpl. rewrite !count_cons, !count_app.
      destruct (fleet_quiet (Report now msg (connMeta (trackAgent msg cs) conn) (registry s)).2)
        as [Ho Hc]. unfold lift. simpl. rewrite Ho, Hc.
      destruct (trackAgent_same msg cs) as [-> _].
      destruct (viaGateway cs); count_lia.
  - count_lia.
  - destruct Hen as [cs Hcs]. rewrite Hcs. rewrite fst_bind, snd_bind, app_nil_r. simpl.
    pose proof (mcount_delete viaGateway (conns s) i cs Hcs) as Hm. unfold gateways.
    rewrite onConnectionClose_spec. simpl. rewrite !count_app.
    destruct (fleet_quiet (disconnect_all (range (agents cs)).*1 (registry s)).2) as [Ho Hc].
    destruct (viaGateway cs), (bool_decide (transport cs = "ws")); simpl in *;
      rewrite ?Ho, ?Hc; count_lia.
  - count_lia.
  - rewrite app_nil_r.
    destruct (fleet_quiet (Sweep now (registry s)).2) as [Ho Hc]. simpl in *.
    rewrite Ho, Hc. lia.
Qed.

(** Closing disconnects the tracked agents, whatever the order. *)
Lemma disconnect_all_spec ids r :
  wf r →
  let w := disconnect_all ids r in
  wf w.1 ∧ cfg w.1 = cfg r ∧
  (∀ id, Get w.1 id = (λ a, if decide (id ∈ ids) then a <| Connected := false |> else a)
                        <$> Get r id) ∧
  (∀ e, e ∈ w.2 ↔ ∃ id a, e = AgentDisconnected id ∧ id ∈ ids ∧ Get r id = Some a ∧
                           Connected a = true).
Proof.
  revert r. induction ids as [|id0 ids IH]; intros r Hwf w.
  - split_and!; [done|done| |].
    + intros id. change (Get r id = (λ a, a) <$> Get r id). by rewrite option_fmap_id.
    + intros e. split; [by intros ?%not_elem_of_nil|].
      intros (id & a & _ & []%not_elem_of_nil & _).
  - pose proof (act_wf (ActSetConnected id0 false) r Hwf) as Hwf'.
    destruct (act_cfg (ActSetConnected id0 false) r) as [Hcfg _]. simpl in Hwf', Hcfg.
    destruct (IH _ Hwf') as (H1 & H2 & H3 & H4).
    destruct (SetConnected_Get id0 false r Hwf) as [Hget Hev].
    unfold w. cbn [disconnect_all]. rewrite fst_bind, snd_bind.
    split_and!; [done|congruence| |].
    + intros id. rewrite H3, Hget. destruct (Get r id) as [a|]; [|by destruct (decide (id = id0))].
      destruct (decide (id = id0)) as [->|Hne]; simpl.
      * rewrite (decide_True (P := id0 ∈ id0 :: ids)) by left. by destruct (decide (id0 ∈ ids)).
      * f_equal. apply decide_ext. set_solver.
    + intros e. rewrite elem_of_app, H4, Hev. split.
      * intros [(a & Ha & Hc & ->)|(id & a & -> & Hin & Ha & Hc)]; [set_solver|].
        rewrite Hget in Ha. destruct (Get r id) as [a0|] eqn:Hg; [|by destruct (decide (id = id0))].
        destruct (decide (id = id0)) as [->|Hne]; simpl in Ha; simplify_eq.
        exists id, a. split_and!; [done|by right|done..].
      * intros (id & a & -> & [->|Hin]%elem_of_cons & Ha & Hc); [left; eauto|].
        destruct (decide (id = id0)) as [->|Hne]; [left; eauto|].
        right. exists id, a. rewrite Hget, decide_False by done. eauto.
Qed.

Lemma sys_step_wf x s : wf (registry s) → wf (registry (sys_step x s).1).
Proof.
  intros Hwf. destruct x as [i up|i now conn msg|i|i| |now]; simpl.
  - unfold onConnecting. by destruct (draining s).
  - destruct (conns s !! i) as [cs|]; [|done]. rewrite fst_bind. simpl.
    unfold onMessage. rewrite fst_bind. destruct (gateway_connect_of msg).
    + by rewrite fst_bind.
    + rewrite !fst_bind. simpl. by apply (act_wf (ActReport _ _ _)).
  - done.
  - destruct (conns s !! i) as [cs|]; [|done].
    rewrite fst_bind, onConnectionClose_spec. simpl.
    case_bool_decide; [|done]. by apply disconnect_all_spec.
  - done.
  - by apply Sweep_wf.
Qed.

Lemma fleet_events_app es es' : fleet_events (es ++ es') = fleet_events es ++ fleet_events es'.
Proof. apply omap_app. Qed.

Lemma fleet_events_lift es : fleet_events (Fleet_ <$> es) = es.
Proof. induction es as [|e es IH]; [done|]. change (e :: fleet_events (Fleet_ <$> es) = e :: es). by rewrite IH. Qed.

Lemma disconnect_all_ops ids r :
  do_ops ((λ id, OpSetConnected id false) <$> ids) r = disconnect_all ids r.
Proof.
  revert r. induction ids as [|id ids IH]; intros r; [done|].
  cbn [fmap list_fmap do_ops do_op disconnect_all]. unfold mbind, writer_bind.
  destruct (SetConnected id false r) as [r1 es]. by rewrite IH.
Qed.

(** One callback is a list of registry operations. *)
Lemma sys_step_ops x s :
  ∃ ops, do_ops ops (registry s) = (registry (sys_step x s).1, fleet_events (sys_step x s).2).
Proof.
  destruct x as [i up|i now conn msg|i|i| |now]; simpl.
  - exists []. unfold onConnecting. by destruct (draining s).
  - destruct (conns s !! i) as [cs|]; [|by exists []].
    rewrite fst_bind, snd_bind, app_nil_r. simpl.
    unfold onMessage. destruct (gateway_connect_of msg) as [custom|].
    + exists []. rewrite !fst_bind, !snd_bind. simpl.
      destruct (onGatewayConnect_spec msg custom cs) as [_ ->].
      by destruct (viaGateway cs).
    + exists [OpReport now msg (connMeta (trackAgent msg cs) conn)].
      rewrite !fst_bind, !snd_bind. simpl.
      unfold mbind, writer_bind, lift. simpl.
      destruct (Report now msg _ (registry s)) as [r es]. simpl.
      change (fleet_events (Message :: ?l)) with (fleet_events l).
      by rewrite !app_nil_r, fleet_events_lift.
  - by exists [].
  - destruct (conns s !! i) as [cs|]; [|by exists []].
    rewrite fst_bind, snd_bind, app_nil_r, onConnectionClose_spec. simpl.
    rewrite fleet_events_app.
    assert (fleet_events (if viaGateway cs then [GatewayConnectionClosed] else []) = []) as ->
      by (by destruct (viaGateway cs)).
    case_bool_decide; [|by exists []].
    exists ((λ id, OpSetConnected id false) <$> (range (agents cs)).*1).
    rewrite disconnect_all_ops. simpl. rewrite fleet_events_lift. apply surjective_pairing.
  - by exists [].
  - exists [OpSweep now]. simpl. rewrite app_nil_r, fleet_events_lift.
    unfold mbind, writer_bind. destruct (Sweep now (registry s)) as [[r ev] es]. simpl.
    by rewrite !app_nil_r.
Qed.

Lemma sys_run_wf l s : wf (registry s) → wf (registry (sys_run l s).1).
Proof.
  revert s. induction l as [|x l IH]; intros s Hwf; [done|].
  cbn [sys_run]. rewrite fst_bind. by apply IH, sys_step_wf.
Qed.

Lemma sys_run_ops l s :
  ∃ ops, do_ops ops (registry s) = (registry (sys_run l s).1, fleet_events (sys_run l s).2).
Proof.
  revert s. induction l as [|x l IH]; intros s; [by exists []|].
  destruct (sys_step_ops x s) as [ops Hops].
  destruct (IH (sys_step x s).1) as [ops' Hops'].
  exists (ops ++ ops'). rewrite do_ops_app, Hops. cbn [sys_run].
  rewrite fst_bind, snd_bind, fleet_events_app. unfold mbind, writer_bind. by rewrite Hops'.
Qed.

Lemma gateway_connect_relays msg : is_Some (gateway_connect_of msg) ↔ relays msg = true.
Proof.
  unfold gateway_connect_of, relays, GatewayCapability, gatewayConnectType.
  destruct (m_CustomMessage msg) as [custom|]; [|by split; [intros [? ?]|]].
  rewrite bool_decide_and. destruct (_ && _); split; eauto; [by intros [? ?]|done].
Qed.

Lemma follows_init c : follows [] (sys_init c).
Proof. split; [done|]. intros i. simpl. by rewrite lookup_empty. Qed.

(** A live connection has a session that tells its state. *)
Lemma follows_live past s i :
  follows past s → is_Some (conns s !! i) →
  ∃ cs um, conns s !! i = Some cs ∧ session i past = Some um ∧ told um cs.
Proof.
  intros [_ Hf] [cs Hcs]. specialize (Hf i). rewrite Hcs in Hf.
  destruct (session i past) as [um|]; [|done]. eauto.
Qed.

Lemma reported_cons msg ms id :
  reported (msg :: ms) id ↔
    (relays msg = false ∧ uuid_FromBytes (m_InstanceUid msg) = Some id) ∨ reported ms id.
Proof.
  unfold reported. split.
  - intros (msg' & [->|Hin]%elem_of_cons & H); [by left|right; eauto].
  - intros [H|(msg' & Hin & H)]; [exists msg; by split; [left|]|exists msg'; by split; [right|]].
Qed.

(** What a message leaves on its connection. *)
Lemma onMessage_told um cs now conn msg r :
  told um cs → told (um.1, msg :: um.2) (onMessage now conn msg cs r).1.1.1.
Proof.
  intros (Ht & Hv & Ha). unfold onMessage. rewrite fst_bind.
  pose proof (gateway_connect_relays msg) as Hg.
  destruct (gateway_connect_of msg) as [custom|].
  - assert (relays msg = true) as Hr by (apply Hg; eauto).
    rewrite fst_bind. simpl. destruct (onGatewayConnect_spec msg custom cs) as [-> _].
    split_and!; simpl; [done|by rewrite Hr|]. intros id. rewrite Ha, reported_cons, Hr.
    split; [by right|by intros [[? _]|?]].
  - assert (relays msg = false) as Hr.
    { destruct (relays msg); [|done]. by destruct (proj2 Hg eq_refl) as [? ?]. }
    rewrite !fst_bind. simpl. destruct (trackAgent_same msg cs) as [Hv' Ht'].
    split_and!; [by rewrite Ht'|simpl; by rewrite Hr, Hv'|]. intros id.
    simpl. rewrite reported_cons, Hr, <-Ha. unfold trackAgent.
    destruct (uuid_FromBytes (m_InstanceUid msg)) as [id'|]; simpl.
    + rewrite lookup_insert_is_Some'. naive_solver.
    + naive_solver.
Qed.

Lemma sys_step_follows past x s :
  follows past s → enabled s x → follows (x :: past) (sys_step x s).1.
Proof.
  intros Hf Hen. pose proof Hf as [Hd Hc].
  destruct x as [j up|j now conn msg|j|j| |now]; simpl in Hen |- *.
  - unfold onConnecting. rewrite Hd. split; [by destruct (existsb _ _)|]. intros i. simpl.
    specialize (Hc i). destruct (existsb is_drain past) eqn:Hdr; simpl.
    + destruct (decide (i = j)) as [->|]; [by rewrite Hen|done].
    + destruct (decide (i = j)) as [->|Hne]; [|by rewrite lookup_insert_ne].
      rewrite lookup_insert_eq. split_and!; [done|done|]. intros id. simpl.
      rewrite lookup_empty. unfold reported. split; [by intros []|].
      by intros (msg & []%not_elem_of_nil & _).
  - destruct (follows_live past s j Hf Hen) as (cs & um & Hcs & Hum & Ht).
    rewrite Hcs, fst_bind. split; [done|]. intros i. simpl.
    destruct (decide (i = j)) as [->|Hne].
    + rewrite lookup_insert_eq, Hum. by apply onMessage_told.
    + rewrite lookup_insert_ne by done. apply Hc.
  - done.
  - destruct Hen as [cs Hcs]. rewrite Hcs, fst_bind. split; [done|]. intros i. simpl.
    destruct (decide (i = j)) as [->|Hne]; [by rewrite lookup_delete_eq|].
    rewrite lookup_delete_ne by done. apply Hc.
  - split; [done|]. intros i. apply Hc.
  - split; [done|]. intros i. apply Hc.
Qed.

(** The operations a callback performs are those its input asks for. *)
Lemma sys_step_asks past x s :
  follows past s → enabled s x →
  ∃ ops, asks past x ops ∧
    do_ops ops (registry s) = (registry (sys_step x s).1, fleet_events (sys_step x s).2).
Proof.
  intros Hf Hen. pose proof Hf as [Hd Hc].
  destruct x as [j up|j now conn msg|j|j| |now]; simpl in Hen |- *.
  - exists []. split; [constructor|]. unfold onConnecting. by destruct (draining s).
  - destruct (follows_live past s j Hf Hen) as (cs & [up ms] & Hcs & Hum & Ht & Hv & Ha).
    rewrite Hcs, fst_bind, snd_bind, app_nil_r. simpl.
    pose proof (gateway_connect_relays msg) as Hg.
    unfold onMessage. destruct (gateway_connect_of msg) as [custom|].
    + exists []. split; [eapply asks_relay; [done|]; apply Hg; eauto|].
      rewrite !fst_bind, !snd_bind. simpl.
      destruct (onGatewayConnect_spec msg custom cs) as [_ ->]. by destruct (viaGateway cs).
    + eexists. split.
      { eapply asks_report; [done|]. destruct (relays msg); [|done]. by destruct (proj2 Hg eq_refl) as [? ?]. }
      destruct (trackAgent_same msg cs) as [Hv' Ht'].
      assert (connMeta (trackAgent msg cs) conn =
        mkConnMeta (default "" (conn ≫= nc_RemoteAddr)) (default "" ((conn ≫= nc_Peers) ≫= head))
          (existsb relays ms) (if EqualFold up "websocket" then "ws" else "http")) as <-.
      { unfold connMeta. rewrite Hv', Ht', Hv, Ht. by destruct conn as [[[|] [|]]|]. }
      rewrite !fst_bind, !snd_bind. simpl. unfold mbind, writer_bind, lift. simpl.
      destruct (Report now msg _ (registry s)) as [r es]. simpl.
      change (fleet_events (Message :: ?l)) with (fleet_events l).
      by rewrite !app_nil_r, fleet_events_lift.
  - exists []. split; [constructor|done].
  - destruct (follows_live past s j Hf Hen) as (cs & [up ms] & Hcs & Hum & Ht & Hv & Ha).
    rewrite Hcs, fst_bind, snd_bind, app_nil_r, onConnectionClose_spec. simpl.
    rewrite fleet_events_app.
    assert (fleet_events (if viaGateway cs then [GatewayConnectionClosed] else []) = []) as ->
      by (by destruct (viaGateway cs)).
    simpl in Ht. destruct (EqualFold up "websocket") eqn:Hup; rewrite Ht.
    + exists ((λ id, OpSetConnected id false) <$> (range (agents cs)).*1). split.
      * apply (asks_close _ _ up ms); [done..| |].
        { rewrite range_perm. apply NoDup_fst_map_to_list. }
        intros id. rewrite <-Ha, range_perm. rewrite list_elem_of_fmap. split.
        -- intros ([id' []] & -> & Hin%elem_of_map_to_list). by exists tt.
        -- intros [u Hu]. exists (id, u). by rewrite elem_of_map_to_list.
      * rewrite disconnect_all_ops. simpl. rewrite fleet_events_lift. apply surjective_pairing.
    + exists []. split; [by eapply asks_request_end|done].
  - exists []. split; [constructor|done].
  - exists [OpSweep now]. split; [constructor|]. simpl. rewrite app_nil_r, fleet_events_lift.
    unfold mbind, writer_bind. destruct (Sweep now (registry s)) as [[r ev] es]. simpl.
    by rewrite !app_nil_r.
Qed.

Lemma sys_run_asked past l s :
  follows past s → sys_valid l s →
  ∃ ops, asked past l ops ∧
    do_ops ops (registry s) = (registry (sys_run l s).1, fleet_events (sys_run l s).2).
Proof.
  revert past s. induction l as [|x l IH]; intros past s Hf Hv.
  - exists []. split; [constructor|done].
  - destruct Hv as [Hen Hv]. destruct (sys_step_asks past x s Hf Hen) as (ops & Hx & Hops).
    destruct (IH _ _ (sys_step_follows past x s Hf Hen) Hv) as (ops' & Hl & Hops').
    exists (ops ++ ops'). split; [by constructor|].
    rewrite do_ops_app, Hops. cbn [sys_run].
    rewrite fst_bind, snd_bind, fleet_events_app. unfold mbind, writer_bind. by rewrite Hops'.
Qed.

Lemma sys_run_gateways l s :
  sys_valid l s →
  (gateways (conns (sys_run l s).1) + count is_closed (sys_run l s).2 =
   gateways (conns s) + count is_opened (sys_run l s).2)%nat.
Proof.
  revert s. induction l as [|x l IH]; intros s Hv; [done|].
  destruct Hv as [Hen Hv]. apply IH in Hv.
  pose proof (sys_step_gateways x s Hen) as Hs. cbn [sys_run].
  rewrite fst_bind, snd_bind. rewrite !count_app. simpl in *. lia.
Qed.

End handler.

(** ** The claims *)

Section claims.
Context `{PB : Protobuf, UU : UUID, MR : MapRange, GJ : GatewayJSON, WI : Wire}.

(** C6: the registry hears exactly what the connections say.  Over any run
    from the start, the registry and its notifications, in order, are those of
    the operations the inputs ask for: each ordinary message is one report,
    under the peer of its connection, the transport of the connection's upgrade
    and whether a gateway connect came before it over the same connection; a
    gateway connect asks for nothing; the close of a WebSocket disconnects each
    agent that reported over it once, in some order, and no other; the end of a
    plain HTTP request, a refused or accepted connection, a read error and a
    drain ask for nothing; a tick is one sweep. *)
Theorem system_refines_registry c l :
  ShardCount c < 2 ^ 32 → sys_valid l (sys_init c) →
  let w := sys_run l (sys_init c) in
  wf (registry w.1) ∧
  ∃ ops, asked [] l ops ∧ do_ops ops (New c) = (registry w.1, fleet_events w.2).
Proof.
  intros Hc Hv w. split; [by apply sys_run_wf, wf_New|].
  apply (sys_run_asked [] l (sys_init c)); [apply follows_init|done].
Qed.

(** C15: an ordinary message is reported once, under its connection's
    metadata, its agent is tracked on the connection, and it is answered; the
    answer asks for the full state exactly when the uid is valid, this message
    has no description and the registry had none for the agent. *)
Theorem onMessage_functional now conn msg cs r :
  wf r → gateway_connect_of msg = None →
  let w := onMessage now conn msg cs r in
  let meta := connMeta cs conn in
  w.1.1.2 = (Report now msg meta r).1 ∧
  w.2 = Message :: (Fleet_ <$> (Report now msg meta r).2) ∧
  (∀ id, is_Some (agents w.1.1.1 !! id) ↔
     is_Some (agents cs !! id) ∨ uuid_FromBytes (m_InstanceUid msg) = Some id) ∧
  w.1.2 = Some (mkServerToAgent (m_InstanceUid msg) ServerCapabilities_AcceptsStatus
    (match uuid_FromBytes (m_InstanceUid msg), m_AgentDescription msg with
     | Some id, None =>
         if default false (DescriptionReported <$> Get r id) then 0
         else ServerToAgentFlags_ReportFullState
     | _, _ => 0
     end) None).
Proof.
  intros Hwf Hg w meta.
  assert (connMeta (trackAgent msg cs) conn = meta) as Hmeta.
  { destruct (trackAgent_same msg cs) as [H1 H2]. unfold meta, connMeta. by rewrite H1, H2. }
  unfold w, onMessage. rewrite Hg, !fst_bind, !snd_bind. simpl.
  rewrite Hmeta, app_nil_r. split_and!; [done|done| |].
  - intros id. unfold trackAgent. destruct (uuid_FromBytes _) as [id'|]; simpl; [|naive_solver].
    rewrite lookup_insert_is_Some'. naive_solver.
  - assert (needsFullState msg (Report now msg meta r).1 =
      match uuid_FromBytes (m_InstanceUid msg), m_AgentDescription msg with
      | Some id, None => negb (default false (DescriptionReported <$> Get r id))
      | _, _ => false
      end) as ->.
    { unfold needsFullState. destruct (uuid_FromBytes _) as [id|] eqn:Hid; [|done].
      destruct (Report_flat now msg meta r id Hwf Hid) as [Hr _].
      pose proof (act_wf (ActReport now msg meta) r Hwf) as Hwf'. simpl in Hwf'.
      rewrite (Get_flat (Report now msg meta r).1), Hr, lookup_insert_eq by done.
      rewrite report_agent_described. by destruct (m_AgentDescription msg). }
    destruct (uuid_FromBytes _), (m_AgentDescription msg); try done.
    by destruct (default false _).
Qed.

(** A closed WebSocket disconnects exactly the agents reported over it
    and notifies each that was connected; it removes none and touches no other
    agent.  The end of a plain HTTP request changes nothing. *)
Theorem onConnectionClose_functional cs r :
  wf r →
  let w := onConnectionClose cs r in
  (∀ id, Get w.1 id =
     (λ a, if bool_decide (transport cs = "ws" ∧ is_Some (agents cs !! id))
           then a <| Connected := false |> else a) <$> Get r id) ∧
  (∀ e, Fleet_ e ∈ w.2 ↔ ∃ id a, e = AgentDisconnected id ∧ transport cs = "ws" ∧
     is_Some (agents cs !! id) ∧ Get r id = Some a ∧ Connected a = true).
Proof.
  intros Hwf w. unfold w. rewrite onConnectionClose_spec. simpl.
  destruct (disconnect_all_spec (range (agents cs)).*1 r Hwf) as (_ & _ & Hget & Hev).
  assert (∀ id, id ∈ (range (agents cs)).*1 ↔ is_Some (agents cs !! id)) as Hin.
  { intros id. rewrite list_elem_of_fmap. split.
    - intros ([id' u] & -> & Hu%elem_of_range). by exists u.
    - intros [u Hu%elem_of_range]. by exists (id, u). }
  assert (∀ e es, Fleet_ e ∈ (if viaGateway cs then [GatewayConnectionClosed] else []) ++ es ↔
    Fleet_ e ∈ es) as Hskip.
  { intros e es. destruct (viaGateway cs); set_solver. }
  destruct (decide (transport cs = "ws")) as [Hws|Hws].
  - rewrite bool_decide_eq_true_2 by done. split.
    + intros id. rewrite Hget. destruct (Get r id) as [a|]; [|done]. simpl. f_equal.
      destruct (decide (id ∈ _)) as [Hid|Hid]; rewrite Hin in Hid;
        [rewrite bool_decide_eq_true_2|rewrite bool_decide_eq_false_2]; naive_solver.
    + intros e. rewrite Hskip. rewrite list_elem_of_fmap. split.
      * intros (e' & [= <-] & (id & a & He & Hi & Ha)%Hev). apply Hin in Hi.
        exists id, a. naive_solver.
      * intros (id & a & He & _ & Hi & Ha). exists e. split; [done|].
        apply Hev. exists id, a. by rewrite Hin.
  - rewrite bool_decide_eq_false_2 by done. split.
    + intros id. rewrite bool_decide_eq_false_2 by naive_solver.
      change (Get r id = (λ a, a) <$> Get r id). by rewrite option_fmap_id.
    + intros e. rewrite Hskip. split; [by intros ?%not_elem_of_nil|naive_solver].
Qed.

(** The gauge of open gateway connections is exact.  Over any run, the
    connections opened as gateways minus those closed are the live ones that
    sent a gateway connect. *)
Theorem gateway_gauge c l :
  sys_valid l (sys_init c) →
  let w := sys_run l (sys_init c) in
  (gateways (conns w.1) + count is_closed w.2 = count is_opened w.2)%nat.
Proof.
  intros Hv. exact (sys_run_gateways l (sys_init c) Hv).
Qed.

(** Draining is final.  From a draining state every new connection is
    refused with 503, no connection is ever added, and the handler stays
    draining. *)
Theorem drain_refuses l s :
  draining s = true →
  (∀ upgrade, onConnecting (draining s) upgrade = mkConnectionResponse false 503 None) ∧
  draining (sys_run l s).1 = true ∧
  dom (conns (sys_run l s).1) ⊆ dom (conns s).
Proof.
  intros Hd. split; [by rewrite Hd|]. revert s Hd.
  induction l as [|x l IH]; intros s Hd; [done|].
  cbn [sys_run]. rewrite fst_bind.
  assert (draining (sys_step x s).1 = true ∧ dom (conns (sys_step x s).1) ⊆ dom (conns s))
    as [Hd' Hdom].
  { destruct x as [i up|i now conn msg|i|i| |now]; simpl; try done.
    - unfold onConnecting. by rewrite Hd.
    - destruct (conns s !! i) as [cs|] eqn:Hcs; [|done]. rewrite fst_bind. simpl.
      split; [done|]. rewrite dom_insert. apply elem_of_dom_2 in Hcs. set_solver.
    - destruct (conns s !! i) as [cs|]; [|done]. rewrite fst_bind. simpl.
      split; [done|]. rewrite dom_delete. set_solver. }
  destruct (IH _ Hd') as [H1 H2]. split; [done|]. set_solver.
Qed.

End claims.

(** ** A stale close *)

#[export] Instance json1 : GatewayJSON :=
  {| Unmarshal_connect data := if bool_decide (data = "") then None
       else Some (mkGatewayConnect data "");
     Marshal_result r := Some (gr_RequestUID r) |}.

#[export] Instance wire1 : Wire :=
  {| ServerCapabilities_AcceptsStatus := 1; ServerToAgentFlags_ReportFullState := 1 |}.

Definition peer1 : option NetConn := Some (mkNetConn (Some "10.0.0.7:51000") None).

(** An agent reconnects before its first connection is seen to close. *)
Definition reconnect : list input :=
  [Connect 0 "WebSocket"; Receive 0 0 peer1 msg1;
   Connect 1 "websocket"; Receive 1 5 peer1 beat1].

(** Closing an old connection disconnects an agent that already reports
    over a newer one: the agent is live on connection 1 and is marked
    disconnected, with an [AgentDisconnected], until its next message. *)
Theorem stale_close_disconnects :
  let s := (sys_run reconnect (sys_init cfg1)).1 in
  let w := sys_step (Close 0) s in
  sys_valid reconnect (sys_init cfg1) ∧
  Connected <$> Get (registry s) id1 = Some true ∧
  is_Some (conns w.1 !! 1%nat ≫= λ cs, agents cs !! id1) ∧
  Connected <$> Get (registry w.1) id1 = Some false ∧
  fleet_events w.2 = [AgentDisconnected id1].
Proof. vm_compute. split_and!; try done; by eexists. Qed.

(** ** Witnesses *)

(** The run that reconnects, then closes its first connection: two reports and
    one disconnect. *)
Lemma system_refines_registry_witness :
  let l := reconnect ++ [Close 0] in
  sys_valid l (sys_init cfg1) ∧
  ∃ ops, asked [] l ops ∧ (do_ops ops (New cfg1)).2 = fleet_events (sys_run l (sys_init cfg1)).2.
Proof.
  intros l. assert (sys_valid l (sys_init cfg1)) as Hv.
  { vm_compute. split_and!; try done; by eexists. }
  split; [exact Hv|].
  destruct (system_refines_registry cfg1 l eq_refl Hv) as (_ & ops & Hops & Hdo).
  exists ops. split; [exact Hops|]. by rewrite Hdo.
Defined.

Lemma onMessage_functional_witness :
  gateway_connect_of beat1 = None ∧
  sta_Flags <$> (onMessage 0 peer1 beat1 (mkConnState "ws" false ∅) (New cfg1)).1.2 = Some 1.
Proof.
  split; [reflexivity|].
  destruct (onMessage_functional 0 peer1 beat1 (mkConnState "ws" false ∅) (New cfg1))
    as (_ & _ & _ & H); [by apply wf_New|reflexivity|].
  rewrite H. vm_compute. reflexivity.
Defined.

Lemma onConnectionClose_functional_witness :
  let s := (sys_run reconnect (sys_init cfg1)).1 in
  let cs := mkConnState "ws" false {[id1 := tt]} in
  Connected <$> Get (onConnectionClose cs (registry s)).1 id1 = Some false.
Proof.
  intros s cs. destruct (onConnectionClose_functional cs (registry s)) as [H _].
  - apply (sys_run_wf reconnect). by apply wf_New.
  - rewrite (H id1). vm_compute. reflexivity.
Defined.

(** A gateway connects, relays, and closes. *)
Definition gateway_run : list input :=
  [Connect 0 "websocket"; Receive 0 0 peer1 connect1; Receive 0 1 peer1 connect1;
   Receive 0 2 peer1 msg1; Connect 1 ""; Receive 1 3 None connect1; Close 0].

Lemma gateway_gauge_witness :
  let w := sys_run gateway_run (sys_init cfg1) in
  count is_opened w.2 = 2%nat ∧ count is_closed w.2 = 1%nat ∧ gateways (conns w.1) = 1%nat.
Proof.
  intros w. assert (sys_valid gateway_run (sys_init cfg1)) as Hv.
  { vm_compute. split_and!; try done; by eexists. }
  pose proof (gateway_gauge cfg1 gateway_run Hv) as H. cbv zeta in H. fold w in H.
  assert (count is_opened w.2 = 2%nat) as Ho by (vm_compute; reflexivity).
  assert (count is_closed w.2 = 1%nat) as Hc by (vm_compute; reflexivity).
  rewrite Ho, Hc in H. split; [exact Ho|]. split; [exact Hc|]. lia.
Defined.

Lemma drain_refuses_witness :
  let s := (sys_step Drain (sys_init cfg1)).1 in
  dom (conns (sys_run reconnect s).1) ⊆ ∅.
Proof.
  intros s. destruct (drain_refuses reconnect s eq_refl) as (_ & _ & H). exact H.
Defined.
