(* ===== verification/Filter.v ===== *)
(** * Package api: attribute matchers and filters (internal/api/filter.go)

    A query is a [gmap] from parameter to its values ([url.Values]);
    [ParseFilters] ranges over it in Go's unspecified order.  Package regexp is
    a parameter ([Regexp]): a pattern compiles to a predicate on texts or
    fails with the text of an error.  An error carries the inputs it names, and
    [filter_error_message] is the message the caller sends.  The one pattern
    the source fixes itself, [matcherRE], is modelled directly: [find_matcher]
    is its leftmost-first match, with [.] refusing a newline and [\s] the five
    ASCII spaces. *)

From Stdlib Require Import Ascii ZArith Lia.
From S2P Require Import Prelude GoLang GoParse GoUrl Fleet.
Local Open Scope Z_scope.

(** ** Data *)

Definition reservedParams : list string :=
  ["limit"; "offset"; "sort"; "order"; "match"; "attr_key"; "attr_value"].

Definition boolField (key : string) : option (Agent → bool) :=
  if bool_decide (key = "healthy") then Some Healthy
  else if bool_decide (key = "connected") then Some Connected
  else if bool_decide (key = "via_gateway") then Some (λ a, ViaGateway (Conn a))
  else if bool_decide (key = "supervisor_managed") then Some SupervisorManaged
  else None.

Inductive Op := OpEqual | OpNotEqual | OpRegex | OpNotRegex.

#[export] Instance Op_eq_dec : EqDecision Op.
Proof. solve_decision. Defined.

Definition op_string (o : Op) : string :=
  match o with OpEqual => "=" | OpNotEqual => "!=" | OpRegex => "=~" | OpNotRegex => "!~" end.

(** Package regexp: [Compile] fails with the text of its error, or gives
    [MatchString]. *)
Class Regexp := Compile : string → string + (string → bool).

Record AttrMatcher := mkAttrMatcher {
  Key : string;
  MOp : Op;
  MValue : string;
  re : option (string → bool)
}.

Definition AttrMatcher_String (m : AttrMatcher) : string :=
  String.app (Key m) (String.app (op_string (MOp m)) (MValue m)).

Record Filters := mkFilters { matchers : list AttrMatcher; bools : gmap string bool }.

Definition Filters_Empty (f : Filters) : bool :=
  bool_decide (length (matchers f) = 0%nat) && bool_decide (bools f = ∅).

(** ** Parsing a matcher *)

(** RE2's [\s]. *)
Definition re_space (c : ascii) : bool :=
  let n := N_of_ascii c in
  bool_decide (n = 32)%N || bool_decide (n = 9)%N || bool_decide (n = 10)%N ||
  bool_decide (n = 12)%N || bool_decide (n = 13)%N.

Definition newline : ascii := ascii_of_N 10.

Definition no_newline (s : string) : bool := string_forallb (λ c, negb (bool_decide (c = newline))) s.

Fixpoint skip_space (s : string) : string :=
  match s with
  | String c s' => if re_space c then skip_space s' else s
  | EmptyString => s
  end.

(** The alternatives [!~], [=~], [!=], [=], in order. *)
Definition take_op (s : string) : option (Op * string) :=
  match s with
  | String "!" (String "~" rest) => Some (OpNotRegex, rest)
  | String "=" (String "~" rest) => Some (OpRegex, rest)
  | String "!" (String "=" rest) => Some (OpNotEqual, rest)
  | String "=" rest => Some (OpEqual, rest)
  | _ => None
  end.

(** Spaces, an operator, spaces, and the rest of the text on one line. *)
Definition match_tail (s : string) : option (Op * string) :=
  '(op, rest) ← take_op (skip_space s);
  let value := skip_space rest in
  if no_newline value then Some (op, value) else None.

(** [FindStringSubmatch]: the lazy [.+?] grows until the tail matches. *)
Fixpoint find_matcher (s : string) : option (string * Op * string) :=
  match s with
  | EmptyString => None
  | String c s' =>
      if bool_decide (c = newline) then None else
      match match_tail s' with
      | Some (op, value) => Some (String c EmptyString, op, value)
      | None =>
          '(key, op, value) ← find_matcher s';
          Some (String c key, op, value)
      end
  end.

Definition dquote : ascii := ascii_of_N 34.
Definition squote : ascii := ascii_of_N 39.

Fixpoint string_last (s : string) : option ascii :=
  match s with
  | EmptyString => None
  | String c EmptyString => Some c
  | String _ s' => string_last s'
  end.

Definition quoted_by (q : ascii) (s : string) : bool :=
  bool_decide (String.get 0 s = Some q) && bool_decide (string_last s = Some q).

Definition unquoteMatcherValue (s : string) : string :=
  let s := TrimSpace s in
  if (String.length s <? 2)%nat then s
  else if quoted_by dquote s || quoted_by squote s
  then String.substring 1 (String.length s - 2) s
  else s.

(** The pattern [compileMatcherRE] hands to [regexp.Compile]. *)
Definition anchored (pattern : string) : string :=
  if bool_decide (pattern = "") then "^$" else
  let hasStart := HasPrefix pattern "^" || HasPrefix pattern "\A" in
  let hasEnd := HasSuffix pattern "$" || HasSuffix pattern "\z" in
  if hasStart && hasEnd then pattern
  else if negb hasStart && negb hasEnd then String.app "^(?:" (String.app pattern ")$")
  else if negb hasStart then String.app "^(?:" (String.app pattern ")")
  else String.app "(?:" (String.app pattern ")$").

(** The errors of [ParseMatcher] with the operands of their texts: the trimmed
    matcher, and the error of [regexp.Compile]. *)
Inductive matcher_error :=
  | EmptyMatcher
  | InvalidMatcher (s : string)
  | MissingKey
  | InvalidRegex (s : string) (err : string).

Section filter.
Context `{RE : Regexp, MR : MapRange}.

Definition compileMatcherRE (pattern : string) : string + (string → bool) :=
  Compile (anchored pattern).

Definition ParseMatcher (s : string) : matcher_error + AttrMatcher :=
  let s := TrimSpace s in
  if bool_decide (s = "") then inl EmptyMatcher else
  match find_matcher s with
  | None => inl (InvalidMatcher s)
  | Some (part1, op, part3) =>
      let key := TrimSpace part1 in
      let value := unquoteMatcherValue part3 in
      if bool_decide (key = "") then inl MissingKey
      else if bool_decide (op = OpRegex) || bool_decide (op = OpNotRegex) then
        match compileMatcherRE value with
        | inl err => inl (InvalidRegex s err)
        | inr r => inr (mkAttrMatcher key op value (Some r))
        end
      else inr (mkAttrMatcher key op value None)
  end.

(** ** Parsing a query *)

Inductive filter_error := NotBoolean (key : string) | BadMatcher (e : matcher_error).

(** The texts of the errors; %q is [strconv.Quote]. *)
Definition matcher_error_Error `{Unicode} (e : matcher_error) : string :=
  match e with
  | EmptyMatcher => "empty matcher"
  | InvalidMatcher s =>
      String.app "invalid matcher " (String.app (Quote s)
        ": want key=value, key!=value, key=~regex, or key!~regex")
  | MissingKey => "matcher missing attribute key"
  | InvalidRegex s err =>
      String.app "invalid regex in matcher " (String.app (Quote s) (String.app ": " err))
  end.

Definition filter_error_message `{Unicode} (e : filter_error) : string :=
  match e with
  | NotBoolean key => String.app key " must be a boolean (true or false)"
  | BadMatcher e => matcher_error_Error e
  end.

(** The loop over the parameters. *)
Fixpoint parse_params (entries : list (string * list string)) (f : Filters) :
    filter_error + Filters :=
  match entries with
  | [] => inr f
  | (key, values) :: entries =>
      match values with
      | [] => parse_params entries f
      | v :: _ =>
          if bool_decide (key ∈ reservedParams) then parse_params entries f else
          let val := TrimSpace v in
          if bool_decide (val = "") then parse_params entries f else
          match boolField key with
          | Some _ =>
              match ParseBool val with
              | None => inl (NotBoolean key)
              | Some b => parse_params entries (mkFilters (matchers f) (<[key := b]> (bools f)))
              end
          | None =>
              match ParseMatcher (String.app key (String.app "=" val)) with
              | inl e => inl (BadMatcher e)
              | inr m => parse_params entries (mkFilters (matchers f ++ [m]) (bools f))
              end
          end
      end
  end.

(** The loop over the values of [match]. *)
Fixpoint parse_match (raws : list string) (f : Filters) : filter_error + Filters :=
  match raws with
  | [] => inr f
  | raw :: raws =>
      let raw := TrimSpace raw in
      if bool_decide (raw = "") then parse_match raws f else
      match ParseMatcher raw with
      | inl e => inl (BadMatcher e)
      | inr m => parse_match raws (mkFilters (matchers f ++ [m]) (bools f))
      end
  end.

(** The legacy pair [attr_key], [attr_value]. *)
Definition parse_legacy (q : url_Values) (f : Filters) : filter_error + Filters :=
  let key := TrimSpace (query_Get q "attr_key") in
  if bool_decide (key = "") then inr f else
  match ParseMatcher (String.app key (String.app "=" (query_Get q "attr_value"))) with
  | inl e => inl (BadMatcher e)
  | inr m => inr (mkFilters (matchers f ++ [m]) (bools f))
  end.

Definition ParseFilters (q : url_Values) : filter_error + Filters :=
  match parse_params (range q) (mkFilters [] ∅) with
  | inl e => inl e
  | inr f =>
      match parse_match (default [] (q !! "match")) f with
      | inl e => inl e
      | inr f => parse_legacy q f
      end
  end.

(** ** Matching *)

Definition attrValue (agent : Agent) (key : string) : option string :=
  match Identifying agent !! key with
  | Some v => Some v
  | None => NonIdentifying agent !! key
  end.

Definition matchAttr (agent : Agent) (m : AttrMatcher) : bool :=
  let got := attrValue agent (Key m) in
  match MOp m with
  | OpEqual => match got with Some v => bool_decide (v = MValue m) | None => false end
  | OpNotEqual => match got with Some v => bool_decide (v ≠ MValue m) | None => true end
  | OpRegex => match got, re m with Some v, Some r => r v | _, _ => false end
  | OpNotRegex => match got, re m with Some v, Some r => negb (r v) | _, _ => true end
  end.

(** Early returns over the matchers, then over the booleans. *)
Definition AgentMatches (agent : Agent) (f : Filters) : bool :=
  forallb (matchAttr agent) (matchers f) &&
  forallb (λ p, match boolField p.1 with
                | Some field => Bool.eqb (field agent) p.2
                | None => false
                end) (range (bools f)).

Definition MatchingAgents (agents : list Agent) (f : Filters) : list Agent :=
  if Filters_Empty f then agents
  else filter (λ a, AgentMatches a f = true) agents.

(** ** Merging with the database *)

Definition StaleConnected (a : Agent) (now : Time) (disconnectAfter : Duration) : bool :=
  Connected a && (disconnectAfter <? time_Sub now (SessionUpdatedAt a)).

(** A database row as the merge presents it; [None] when it is left out. *)
Definition merge_db (seen : list string) (now : Time) (disconnectAfter : Duration)
    (a : Agent) : option Agent :=
  if bool_decide (InstanceUID a ∈ seen) || bool_decide (is_Some (EvictedAt a)) then None
  else if StaleConnected a now disconnectAfter then Some (a <| Connected := false |>)
  else Some a.

Definition MergeAgents (local db : list Agent) (now : Time) (disconnectAfter : Duration) :
    list Agent :=
  local ++ omap (merge_db (InstanceUID <$> local) now disconnectAfter) db.

(** ** Plain keys and values, which print and parse back *)

(** A printable ASCII byte that no trimming removes. *)
Definition solid_byte (c : ascii) : bool := is_ascii c && negb (is_ascii_space c).

Definition solid (s : string) : bool :=
  match s with
  | EmptyString => false
  | String c _ =>
      solid_byte c && match string_last s with Some d => solid_byte d | None => false end
  end.

Definition plain_key (k : string) : bool :=
  solid k && string_forallb (λ c, negb (bool_decide (c = "="%char)) &&
    negb (bool_decide (c = "!"%char)) && negb (bool_decide (c = newline))) k.

Definition plain_value (o : Op) (v : string) : bool :=
  (bool_decide (v = "") || solid v) && no_newline v &&
  negb (quoted_by dquote v || quoted_by squote v) &&
  (negb (bool_decide (o = OpEqual)) || negb (HasPrefix v "~")).

(** ** What a query asks for *)

Inductive constraint :=
  | WantAttr (m : AttrMatcher)
  | WantBool (key : string) (b : bool).

Definition matcher_of (s : string) : filter_error + constraint :=
  match ParseMatcher s with inl e => inl (BadMatcher e) | inr m => inr (WantAttr m) end.

Definition bool_of (key val : string) : filter_error + constraint :=
  match ParseBool val with None => inl (NotBoolean key) | Some b => inr (WantBool key b) end.

(** The constraints of a query, or the errors it contains, in no order. *)
Inductive wants (q : url_Values) : filter_error + constraint → Prop :=
  | wants_bool key v vs field :
      q !! key = Some (v :: vs) → key ∉ reservedParams → TrimSpace v ≠ "" →
      boolField key = Some field → wants q (bool_of key (TrimSpace v))
  | wants_attr key v vs :
      q !! key = Some (v :: vs) → key ∉ reservedParams → TrimSpace v ≠ "" →
      boolField key = None →
      wants q (matcher_of (String.app key (String.app "=" (TrimSpace v))))
  | wants_match raws raw :
      q !! "match" = Some raws → raw ∈ raws → TrimSpace raw ≠ "" →
      wants q (matcher_of (TrimSpace raw))
  | wants_legacy :
      TrimSpace (query_Get q "attr_key") ≠ "" →
      wants q (matcher_of (String.app (TrimSpace (query_Get q "attr_key"))
                             (String.app "=" (query_Get q "attr_value")))).

Definition satisfies (a : Agent) (c : constraint) : Prop :=
  match c with
  | WantAttr m => matchAttr a m = true
  | WantBool key b => ∃ field, boolField key = Some field ∧ field a = b
  end.

(** The same, one parameter or one [match] value at a time. *)
Definition param_wants (p : string * list string) : option (filter_error + constraint) :=
  match p.2 with
  | [] => None
  | v :: _ =>
      if bool_decide (p.1 ∈ reservedParams) then None
      else if bool_decide (TrimSpace v = "") then None
      else match boolField p.1 with
           | Some _ => Some (bool_of p.1 (TrimSpace v))
           | None => Some (matcher_of (String.app p.1 (String.app "=" (TrimSpace v))))
           end
  end.

Definition match_wants (raw : string) : option (filter_error + constraint) :=
  if bool_decide (TrimSpace raw = "") then None else Some (matcher_of (TrimSpace raw)).

Definition legacy_wants (q : url_Values) : option (filter_error + constraint) :=
  let key := TrimSpace (query_Get q "attr_key") in
  if bool_decide (key = "") then None
  else Some (matcher_of (String.app key (String.app "=" (query_Get q "attr_value")))).

(** A filter as a conjunction. *)
Definition sat (a : Agent) (f : Filters) : Prop :=
  Forall (λ m, matchAttr a m = true) (matchers f) ∧
  ∀ key b, bools f !! key = Some b → satisfies a (WantBool key b).

(** [f'] is [f] with the constraints [cs] added, or one of [cs] is the error. *)
Definition extends (f : Filters) (cs : list (option (filter_error + constraint)))
    (res : filter_error + Filters) : Prop :=
  match res with
  | inl e => Some (inl e) ∈ cs
  | inr f' => (∀ e, Some (inl e) ∉ cs) ∧
              ∀ a, sat a f' ↔ sat a f ∧ ∀ c, Some (inr c) ∈ cs → satisfies a c
  end.

(** ** Lemmas: trimming and splitting plain text *)

#[local] Arguments String.append !_ _ /.

Lemma string_rev_app_app s c acc :
  string_rev_app (String.app s (String c EmptyString)) acc = String c (string_rev_app s acc).
Proof. revert acc. induction s as [|d s IH]; intros acc; simpl; [done|]. apply IH. Qed.

Lemma string_rev_app_rev s acc :
  string_rev_app (string_rev_app s acc) EmptyString = string_rev_app acc s.
Proof.
  revert acc. induction s as [|c s IH]; intros acc; simpl; [done|]. by rewrite IH.
Qed.

Lemma string_rev_involutive s : string_rev (string_rev s) = s.
Proof. unfold string_rev. by rewrite string_rev_app_rev. Qed.

Lemma string_last_Some c s : is_Some (string_last (String c s)).
Proof. revert c. induction s as [|d s IH]; intros c; [by eexists|]. apply IH. Qed.

Lemma string_last_app s t :
  string_last (String.app s t) = match string_last t with Some d => Some d | None => string_last s end.
Proof.
  induction s as [|c s IH]; simpl; [by destruct (string_last t)|].
  destruct s as [|c' s]; simpl in *; [|done].
  destruct t as [|d t]; [done|]. by destruct (string_last_Some d t) as [e ->].
Qed.

Lemma string_last_snoc s d :
  string_last s = Some d → ∃ s', s = String.app s' (String d EmptyString).
Proof.
  induction s as [|c s IH]; [done|]. destruct s as [|c' s].
  - intros [= <-]. by exists EmptyString.
  - intros Hd. destruct (IH Hd) as [s' Hs]. exists (String c s'). simpl. by rewrite <-Hs.
Qed.

Lemma solid_byte_heads c :
  solid_byte c = true →
  is_ascii_space c = false ∧ re_space c = false ∧ (∀ d, is_space2 c d = false) ∧
  (∀ d, is_space2 d c = false) ∧ (∀ d e, is_space3 c d e = false) ∧
  (∀ d e, is_space3 e d c = false).
Proof.
  unfold solid_byte, is_ascii. rewrite andb_true_iff, negb_true_iff, N.ltb_lt. intros [Hc Hs].
  split_and!; [done| | | | |].
  - unfold is_ascii_space, re_space in *.
    apply orb_false_iff in Hs as [H32%bool_decide_eq_false Hr].
    rewrite andb_false_iff, !N.leb_gt in Hr. cbv zeta.
    by rewrite !bool_decide_eq_false_2 by lia.
  - intros d. unfold is_space2. by rewrite bool_decide_eq_false_2 by lia.
  - intros d. unfold is_space2. rewrite (bool_decide_eq_false_2 (_ = 133%N)) by lia.
    rewrite (bool_decide_eq_false_2 (_ = 160%N)) by lia. by rewrite andb_false_r.
  - intros d e. unfold is_space3. by rewrite !(bool_decide_eq_false_2 (N_of_ascii c = _)) by lia.
  - intros d e. unfold is_space3. rewrite !(bool_decide_eq_false_2 (N_of_ascii c = _)) by lia.
    assert ((128 <=? N_of_ascii c)%N = false) as -> by (by apply N.leb_gt).
    by rewrite !andb_false_r.
Qed.

Lemma trim_left_solid c s : solid_byte c = true → trim_left (String c s) = String c s.
Proof.
  intros (H1 & _ & H2 & _ & H3 & _)%solid_byte_heads. simpl. rewrite H1.
  destruct s as [|d s]; [done|]. rewrite H2. destruct s as [|e s]; [done|]. by rewrite H3.
Qed.

Lemma trim_left_rev_solid c s : solid_byte c = true → trim_left_rev (String c s) = String c s.
Proof.
  intros (H1 & _ & _ & H2 & _ & H3)%solid_byte_heads. simpl. rewrite H1.
  destruct s as [|d s]; [done|]. rewrite H2. destruct s as [|e s]; [done|]. by rewrite H3.
Qed.

Lemma TrimSpace_solid s : solid s = true → TrimSpace s = s.
Proof.
  destruct s as [|c s]; [done|]. unfold solid. rewrite andb_true_iff. intros [Hc Hd].
  unfold TrimSpace. rewrite trim_left_solid by done. unfold trim_right.
  destruct (string_last (String c s)) as [d|] eqn:Hl; [|done].
  apply string_last_snoc in Hl as [s' Hs]. rewrite Hs. unfold string_rev at 2.
  rewrite string_rev_app_app, trim_left_rev_solid by done.
  rewrite <-(string_rev_app_app s' d EmptyString). apply string_rev_involutive.
Qed.

Lemma plain_value_trim o v : plain_value o v = true → TrimSpace v = v.
Proof.
  unfold plain_value. rewrite !andb_true_iff, orb_true_iff. intros [[[[Hv|Hv] _] _] _].
  - by apply bool_decide_eq_true in Hv as ->.
  - by apply TrimSpace_solid.
Qed.

Lemma plain_value_unquote o v : plain_value o v = true → unquoteMatcherValue v = v.
Proof.
  intros Hv. unfold unquoteMatcherValue. rewrite (plain_value_trim o) by done.
  unfold plain_value in Hv. rewrite !andb_true_iff, negb_true_iff in Hv.
  destruct Hv as [[_ ->] _]. by destruct (_ <? _)%nat.
Qed.

Lemma skip_space_solid s : solid s = true → skip_space s = s.
Proof.
  destruct s as [|c s]; [done|]. unfold solid. rewrite andb_true_iff.
  intros [(_ & Hc & _)%solid_byte_heads _]. simpl. by rewrite Hc.
Qed.

Lemma match_tail_op o v :
  plain_value o v = true → match_tail (String.app (op_string o) v) = Some (o, v).
Proof.
  unfold plain_value. rewrite !andb_true_iff. intros [[[Hv Hn] _] Ho].
  assert (skip_space v = v) as Hsk.
  { apply orb_true_iff in Hv as [->%bool_decide_eq_true|Hv]; [done|by apply skip_space_solid]. }
  unfold match_tail.
  assert (take_op (skip_space (String.app (op_string o) v)) = Some (o, v)) as ->.
  { destruct o; try done. simpl in *. destruct v as [|c v]; [done|].
    destruct (decide (c = "~"%char)) as [->|Hc]; [by destruct v|].
    destruct c as [[] [] [] [] [] [] [] []]; try done. }
  simpl. by rewrite Hsk, Hn.
Qed.

(** Inside a plain key no operator starts. *)
Lemma match_tail_key k rest :
  k ≠ "" → string_forallb (λ c, negb (bool_decide (c = "="%char)) &&
    negb (bool_decide (c = "!"%char)) && negb (bool_decide (c = newline))) k = true →
  (∀ d, string_last k = Some d → solid_byte d = true) →
  match_tail (String.app k rest) = None.
Proof.
  intros Hk Hall Hlast. unfold match_tail.
  assert (take_op (skip_space (String.app k rest)) = None) as ->; [|done].
  induction k as [|c k IH]; [done|]. simpl in Hall |- *.
  apply andb_true_iff in Hall as [Hc Hall].
  destruct (re_space c) eqn:Hsp.
  - destruct k as [|c' k].
    + specialize (Hlast c eq_refl). apply solid_byte_heads in Hlast as (_ & Hs & _). congruence.
    + apply IH; [done|done|]. intros d Hd. by apply Hlast.
  - rewrite !andb_true_iff, !negb_true_iff, !bool_decide_eq_false in Hc.
    destruct Hc as [[H1 H2] _].
    destruct c as [[] [] [] [] [] [] [] []]; try done.
Qed.

Lemma find_matcher_plain k o v :
  plain_key k = true → plain_value o v = true →
  find_matcher (String.app k (String.app (op_string o) v)) = Some (k, o, v).
Proof.
  unfold plain_key. rewrite andb_true_iff. intros [Hk Hall] Hv.
  assert (k ≠ "") as Hne by (by destruct k).
  assert (∀ d, string_last k = Some d → solid_byte d = true) as Hlast.
  { intros d Hd. destruct k as [|c k]; [done|]. unfold solid in Hk. rewrite Hd in Hk.
    by apply andb_true_iff in Hk as [_ ?]. }
  clear Hk. induction k as [|c k IH]; [done|]. simpl in Hall |- *.
  apply andb_true_iff in Hall as [Hc Hall].
  rewrite !andb_true_iff, !negb_true_iff in Hc. destruct Hc as [_ ->].
  destruct (decide (k = "")) as [->|Hk0].
  - cbn [String.app]. by rewrite match_tail_op.
  - assert (∀ d, string_last k = Some d → solid_byte d = true) as Hlast'.
    { intros d Hd. apply Hlast. destruct k; done. }
    rewrite match_tail_key by done. by rewrite IH.
Qed.

Lemma op_string_last o : ∃ d, string_last (op_string o) = Some d ∧ solid_byte d = true.
Proof. destruct o; by eexists. Qed.

Lemma solid_app k t :
  solid k = true → (∀ d, string_last t = Some d → solid_byte d = true) →
  solid (String.app k t) = true.
Proof.
  destruct k as [|c k]; [done|]. intros Hk Ht. unfold solid in Hk.
  apply andb_true_iff in Hk as [Hc Hl].
  change (String.app (String c k) t) with (String c (String.app k t)).
  unfold solid. rewrite Hc, andb_true_l.
  change (String c (String.app k t)) with (String.app (String c k) t).
  rewrite string_last_app. destruct (string_last t); [by apply Ht|exact Hl].
Qed.

Lemma plain_value_last o v d :
  plain_value o v = true → string_last v = Some d → solid_byte d = true.
Proof.
  unfold plain_value. rewrite !andb_true_iff, orb_true_iff. intros [[[[Hv|Hv] _] _] _] Hl.
  - by apply bool_decide_eq_true in Hv as ->.
  - destruct v as [|c v]; [done|]. unfold solid in Hv. rewrite Hl in Hv.
    by apply andb_true_iff in Hv as [_ ?].
Qed.

Lemma ParseMatcher_plain k o v r :
  plain_key k = true → plain_value o v = true →
  (match o with OpRegex | OpNotRegex => ∃ f, Compile (anchored v) = inr f ∧ r = Some f | _ => r = None end) →
  ParseMatcher (AttrMatcher_String (mkAttrMatcher k o v r)) = inr (mkAttrMatcher k o v r).
Proof.
  intros Hk Hv Hr. unfold AttrMatcher_String. simpl.
  assert (solid k = true) as Hks by (unfold plain_key in Hk; by apply andb_true_iff in Hk as [? _]).
  assert (solid (String.app k (String.app (op_string o) v)) = true) as Hsolid.
  { apply solid_app; [done|]. intros d. rewrite string_last_app.
    destruct (op_string_last o) as (d' & -> & Hd'). destruct (string_last v) as [e|] eqn:Hl.
    - intros [= <-]. by eapply plain_value_last.
    - by intros [= <-]. }
  unfold ParseMatcher. rewrite TrimSpace_solid by done.
  rewrite bool_decide_eq_false_2 by (intros He; by rewrite He in Hsolid).
  rewrite find_matcher_plain by done. rewrite (TrimSpace_solid k), (plain_value_unquote o) by done.
  rewrite bool_decide_eq_false_2 by (intros He; by rewrite He in Hks).
  unfold compileMatcherRE.
  destruct o; simpl; [by rewrite Hr|by rewrite Hr| |];
    destruct Hr as (x & -> & ->); done.
Qed.

(** ** Lemmas: parsing a query *)

Lemma AgentMatches_sat a f : AgentMatches a f = true ↔ sat a f.
Proof.
  unfold AgentMatches, sat. rewrite andb_true_iff, !forallb_forall, Forall_forall.
  split; intros [H1 H2]; (split; [intros m Hm; apply H1; by apply list_elem_of_In|]).
  - intros key b Hb.
    assert ((key, b) ∈ range (bools f)) as Hin by (rewrite range_perm; by apply elem_of_map_to_list).
    specialize (H2 (key, b) (proj1 (list_elem_of_In _ _) Hin)). simpl in *.
    destruct (boolField key) as [field|]; [|done]. exists field.
    by apply Bool.eqb_prop in H2.
  - intros [key b] Hin%list_elem_of_In. rewrite range_perm in Hin.
    apply elem_of_map_to_list in Hin. destruct (H2 key b Hin) as (field & Hf & <-).
    simpl. rewrite Hf. apply Bool.eqb_reflx.
Qed.

Lemma sat_matcher a f m :
  sat a (mkFilters (matchers f ++ [m]) (bools f)) ↔ sat a f ∧ satisfies a (WantAttr m).
Proof.
  unfold sat. simpl. rewrite Forall_app, Forall_cons, Forall_nil. tauto.
Qed.

Lemma sat_bool a f key b :
  bools f !! key = None →
  sat a (mkFilters (matchers f) (<[key := b]> (bools f))) ↔ sat a f ∧ satisfies a (WantBool key b).
Proof.
  intros Hk. unfold sat. cbn [matchers bools]. split.
  - intros [H1 H2]. split; [split; [done|]|].
    + intros key' b' Hb. apply H2. rewrite lookup_insert_ne; [done|congruence].
    + apply H2. apply lookup_insert_eq.
  - intros [[H1 H2] H3]. split; [done|]. intros key' b' Hb.
    apply lookup_insert_Some in Hb as [[<- <-]|[_ Hb]]; [done|by apply H2].
Qed.

Lemma extends_nil f : extends f [] (inr f).
Proof.
  split; [intros e; apply not_elem_of_nil|]. intros a. split; [|tauto].
  intros Hf. split; [done|]. by intros c ?%not_elem_of_nil.
Qed.

Lemma extends_skip f cs res : extends f cs res → extends f (None :: cs) res.
Proof.
  destruct res as [e|f']; simpl; [by right|]. intros [H1 H2]. split.
  - intros e [?|?]%elem_of_cons; [done|by eapply H1].
  - intros a. rewrite H2. split; intros [? Hall]; (split; [done|]).
    + intros c [?|?]%elem_of_cons; [done|auto].
    + intros c ?. apply Hall. by right.
Qed.

Lemma extends_error f e cs : extends f (Some (inl e) :: cs) (inl e).
Proof. left. Qed.

Lemma extends_add f f1 c cs res :
  (∀ a, sat a f1 ↔ sat a f ∧ satisfies a c) →
  extends f1 cs res → extends f (Some (inr c) :: cs) res.
Proof.
  intros Hf1. destruct res as [e|f']; simpl; [by right|]. intros [H1 H2]. split.
  - intros e [?|?]%elem_of_cons; [done|by eapply H1].
  - intros a. rewrite H2, Hf1. split.
    + intros [[? ?] Hall]. split; [done|]. intros c' [?|?]%elem_of_cons; [by simplify_eq|auto].
    + intros [? Hall]. split; [split; [done|apply Hall; left]|]. intros c' ?. apply Hall. by right.
Qed.

Lemma extends_matcher_of f s cs (k : Filters → filter_error + Filters) :
  (∀ f1, extends f1 cs (k f1)) →
  extends f (Some (matcher_of s) :: cs)
    (match ParseMatcher s with
     | inl e => inl (BadMatcher e)
     | inr m => k (mkFilters (matchers f ++ [m]) (bools f))
     end).
Proof.
  intros Hk. unfold matcher_of. destruct (ParseMatcher s) as [e|m]; [apply extends_error|].
  eapply extends_add; [|apply Hk]. intros a. apply sat_matcher.
Qed.

Lemma parse_params_extends entries f :
  NoDup entries.*1 → (∀ key, key ∈ entries.*1 → bools f !! key = None) →
  extends f (param_wants <$> entries) (parse_params entries f).
Proof.
  revert f. induction entries as [|[key values] entries IH]; intros f Hnd Hfresh.
  - apply extends_nil.
  - rewrite fmap_cons in Hnd. apply NoDup_cons in Hnd as [Hkey Hnd].
    assert (∀ key', key' ∈ entries.*1 → bools f !! key' = None) as Hfresh'.
    { intros key' ?. apply Hfresh. by right. }
    rewrite fmap_cons. unfold param_wants at 1. cbn [parse_params fst snd].
    destruct values as [|v vs]; [by apply extends_skip, IH|].
    case_bool_decide; [by apply extends_skip, IH|].
    case_bool_decide; [by apply extends_skip, IH|].
    destruct (boolField key) as [field|].
    + unfold bool_of. destruct (ParseBool (TrimSpace v)) as [b|]; [|apply extends_error].
      eapply extends_add; [intros a; apply sat_bool; apply Hfresh; left|].
      apply IH; [done|]. intros key' Hk'. simpl. rewrite lookup_insert_ne; [auto|].
      intros ->. by apply Hkey.
    + unfold matcher_of. destruct (ParseMatcher _) as [e|m]; [apply extends_error|].
      eapply extends_add; [intros a; apply sat_matcher|]. by apply IH.
Qed.

Lemma parse_match_extends raws f : extends f (match_wants <$> raws) (parse_match raws f).
Proof.
  revert f. induction raws as [|raw raws IH]; intros f; [apply extends_nil|].
  rewrite fmap_cons. unfold match_wants at 1. cbn [parse_match].
  case_bool_decide; [by apply extends_skip, IH|].
  apply (extends_matcher_of f _ _ (parse_match raws)). done.
Qed.

Lemma parse_legacy_extends q f : extends f [legacy_wants q] (parse_legacy q f).
Proof.
  unfold legacy_wants, parse_legacy. case_bool_decide; [apply extends_skip, extends_nil|].
  apply (extends_matcher_of f _ _ inr). apply extends_nil.
Qed.

Lemma extends_app f cs cs' res (k : Filters → filter_error + Filters) :
  extends f cs res → (∀ f1, extends f1 cs' (k f1)) →
  extends f (cs ++ cs') (match res with inl e => inl e | inr f1 => k f1 end).
Proof.
  intros Hres Hk. destruct res as [e|f1]; simpl in *; [set_solver|].
  destruct Hres as [H1 H2]. specialize (Hk f1). unfold extends in *.
  destruct (k f1) as [e|f2]; [set_solver|]. destruct Hk as [K1 K2]. split.
  - intros e. rewrite not_elem_of_app. auto.
  - intros a. rewrite K2, H2. setoid_rewrite elem_of_app. naive_solver.
Qed.

(** The constraints of the whole query, in the order they are read. *)
Definition query_wants (q : url_Values) : list (option (filter_error + constraint)) :=
  (param_wants <$> range q) ++ (match_wants <$> default [] (q !! "match")) ++ [legacy_wants q].

Lemma ParseFilters_extends q :
  extends (mkFilters [] ∅) (query_wants q) (ParseFilters q).
Proof.
  unfold ParseFilters, query_wants.
  apply (extends_app _ _ _ _ (λ f, match parse_match (default [] (q !! "match")) f with
                                   | inl e => inl e | inr f => parse_legacy q f end)).
  - apply parse_params_extends.
    + rewrite range_perm. apply NoDup_fst_map_to_list.
    + intros key _. apply lookup_empty.
  - intros f1. apply (extends_app _ _ _ _ (parse_legacy q)).
    + apply parse_match_extends.
    + intros f2. apply parse_legacy_extends.
Qed.

Lemma query_wants_spec q c : Some c ∈ query_wants q ↔ wants q c.
Proof.
  unfold query_wants. rewrite !elem_of_app, list_elem_of_singleton, !list_elem_of_fmap. split.
  - intros [([key values] & Hc & Hin)|[(raw & Hc & Hin)|Hc]].
    + rewrite range_perm in Hin. apply elem_of_map_to_list in Hin.
      unfold param_wants in Hc. simpl in Hc. destruct values as [|v vs]; [done|].
      case_bool_decide; [done|]. case_bool_decide; [done|].
      destruct (boolField key) eqn:Hb; injection Hc as ->;
        [by eapply wants_bool|by eapply wants_attr].
    + unfold match_wants in Hc. case_bool_decide; [done|]. injection Hc as ->.
      destruct (q !! "match") as [raws|] eqn:Hq; [|by apply not_elem_of_nil in Hin].
      by eapply wants_match.
    + unfold legacy_wants in Hc. case_bool_decide; [done|]. injection Hc as ->.
      by apply wants_legacy.
  - intros [key v vs field Hq Hr Hv Hb|key v vs Hq Hr Hv Hb|raws raw Hq Hin Hv|Hv].
    + left. exists (key, v :: vs). split.
      * unfold param_wants. simpl. by rewrite !bool_decide_eq_false_2, Hb.
      * rewrite range_perm. by apply elem_of_map_to_list.
    + left. exists (key, v :: vs). split.
      * unfold param_wants. simpl. by rewrite !bool_decide_eq_false_2, Hb.
      * rewrite range_perm. by apply elem_of_map_to_list.
    + right. left. exists raw. unfold match_wants. rewrite bool_decide_eq_false_2 by done.
      by rewrite Hq.
    + right. right. unfold legacy_wants. by rewrite bool_decide_eq_false_2.
Qed.

End filter.

(** ** Lemmas: merging *)

Lemma merge_db_Some seen now disconnectAfter d a :
  merge_db seen now disconnectAfter d = Some a ↔
    InstanceUID d ∉ seen ∧ EvictedAt d = None ∧
    a = (if StaleConnected d now disconnectAfter then (d <| Connected := false |>) else d).
Proof.
  unfold merge_db.
  destruct (bool_decide_reflect (InstanceUID d ∈ seen)); simpl; [naive_solver|].
  destruct (EvictedAt d) as [t|]; simpl; [naive_solver|].
  destruct (StaleConnected _ _ _); naive_solver.
Qed.

Lemma merge_db_uid seen now disconnectAfter d a :
  merge_db seen now disconnectAfter d = Some a → InstanceUID a = InstanceUID d.
Proof. intros (_ & _ & ->)%merge_db_Some. by destruct (StaleConnected _ _ _). Qed.

Lemma MergeAgents_NoDup local db now disconnectAfter :
  NoDup (InstanceUID <$> local) → NoDup (InstanceUID <$> db) →
  NoDup (InstanceUID <$> MergeAgents local db now disconnectAfter).
Proof.
  intros Hl Hd. unfold MergeAgents. rewrite fmap_app, NoDup_app. split_and!; [done| |].
  - intros u Hu (a & -> & (d & _ & Ha)%list_elem_of_omap)%list_elem_of_fmap.
    rewrite (merge_db_uid _ _ _ d a Ha) in Hu. by apply merge_db_Some in Ha as (Hnot & _).
  - generalize (InstanceUID <$> local) as seen. intros seen.
    induction db as [|d db IH]; [constructor|].
    rewrite fmap_cons in Hd. apply NoDup_cons in Hd as [Hn Hd]. simpl.
    destruct (merge_db seen now disconnectAfter d) as [a|] eqn:Ha; [|by apply IH].
    rewrite fmap_cons. apply NoDup_cons. split; [|by apply IH].
    rewrite (merge_db_uid _ _ _ d a Ha).
    intros (a' & Heq & (d' & Hd' & Ha')%list_elem_of_omap)%list_elem_of_fmap.
    rewrite Heq, (merge_db_uid _ _ _ d' a' Ha') in Hn. apply Hn. by apply list_elem_of_fmap_2.
Qed.

(** ** The claims *)

Section claims.
Context `{RE : Regexp}.

(** C40: a query filters by its conjunction, in whatever order its parameters
    are walked.  [ParseFilters] fails exactly when one of the constraints the
    query spells fails to parse, and reports one that does; otherwise an agent
    passes the filters exactly when it satisfies every constraint: each
    unreserved parameter with a non-blank value (a boolean for the top-level
    fields, an attribute matcher otherwise), each non-blank [match], and the
    legacy [attr_key] pair.  Hence two walks of the same query agree. *)
Theorem ParseFilters_correct (MR : MapRange) q :
  match ParseFilters (MR := MR) q with
  | inl e => wants q (inl e)
  | inr f => (∀ e, ¬ wants q (inl e)) ∧
             ∀ a, AgentMatches a f = true ↔ ∀ c, wants q (inr c) → satisfies a c
  end.
Proof.
  pose proof (ParseFilters_extends q) as H. unfold extends in H.
  destruct (ParseFilters q) as [e|f].
  - by apply query_wants_spec.
  - destruct H as [H1 H2]. split.
    + intros e He. by apply query_wants_spec, H1 in He.
    + intros a. rewrite AgentMatches_sat, H2. setoid_rewrite query_wants_spec. split.
      * by intros [_ H].
      * intros H. split; [|done]. split; [constructor|]. by intros key b Hb.
Qed.

(** Printing a matcher and parsing it gives it back, for the keys and
    values that survive trimming and unquoting: a key without operator
    characters, a value on one line that is not wrapped in quotes and, after
    "=", does not start with a tilde. *)
Theorem ParseMatcher_roundtrip m :
  plain_key (Key m) = true → plain_value (MOp m) (MValue m) = true →
  (match MOp m with
   | OpRegex | OpNotRegex => ∃ f, compileMatcherRE (MValue m) = inr f ∧ re m = Some f
   | _ => re m = None
   end) →
  ParseMatcher (AttrMatcher_String m) = inr m.
Proof. destruct m as [k o v r]. apply ParseMatcher_plain. Qed.

(** The negated operators are the complements of the positive ones on
    every agent, absent attributes included, for every matcher that parsing
    produces. *)
Theorem negated_matchers s m a :
  ParseMatcher s = inr m →
  (∀ v, matchAttr a (mkAttrMatcher (Key m) OpNotEqual v None) =
        negb (matchAttr a (mkAttrMatcher (Key m) OpEqual v None))) ∧
  (MOp m = OpRegex ∨ MOp m = OpNotRegex →
   matchAttr a (mkAttrMatcher (Key m) OpNotRegex (MValue m) (re m)) =
   negb (matchAttr a (mkAttrMatcher (Key m) OpRegex (MValue m) (re m)))) ∧
  (attrValue a (Key m) = None →
   matchAttr a m = bool_decide (MOp m = OpNotEqual ∨ MOp m = OpNotRegex)).
Proof.
  intros Hp. split_and!.
  - intros v. unfold matchAttr. simpl. destruct (attrValue a (Key m)); [|done].
    by rewrite bool_decide_not.
  - intros Hop. assert (is_Some (re m)) as [r Hr].
    { unfold ParseMatcher in Hp. case_bool_decide; [done|].
      destruct (find_matcher _) as [[[part1 op] part3]|]; [|done].
      case_bool_decide; [done|]. destruct (_ || _) eqn:Hre.
      - destruct (compileMatcherRE _); simplify_eq. by eexists.
      - simplify_eq. simpl in Hop. apply orb_false_iff in Hre.
        rewrite !bool_decide_eq_false in Hre. tauto. }
    unfold matchAttr. simpl. rewrite Hr. by destruct (attrValue a (Key m)).
  - intros Hn. unfold matchAttr. rewrite Hn. by destruct (MOp m).
Qed.

(** The merge of a replica's fleet with the database.  Local agents come
    first, untouched; a database row is added when its uid is not held locally
    and it is not soft-deleted, disconnected if its session is older than the
    threshold; so no evicted agent is presented, no database-only agent is
    shown connected on a stale session, and uids stay unique. *)
Theorem MergeAgents_correct local db now disconnectAfter :
  let merged := MergeAgents local db now disconnectAfter in
  let added := drop (length local) merged in
  take (length local) merged = local ∧
  (∀ a, a ∈ added ↔ ∃ d, d ∈ db ∧ InstanceUID d ∉ (InstanceUID <$> local) ∧
     EvictedAt d = None ∧
     a = (if StaleConnected d now disconnectAfter then (d <| Connected := false |>) else d)) ∧
  (∀ a, a ∈ added → EvictedAt a = None ∧
     (Connected a = true → time_Sub now (SessionUpdatedAt a) ≤ disconnectAfter)) ∧
  (NoDup (InstanceUID <$> local) → NoDup (InstanceUID <$> db) → NoDup (InstanceUID <$> merged)).
Proof.
  intros merged added. unfold added, merged. split_and!.
  - unfold MergeAgents. by rewrite take_app_length.
  - intros a. unfold MergeAgents. rewrite drop_app_length, list_elem_of_omap.
    setoid_rewrite merge_db_Some. done.
  - intros a. unfold MergeAgents. rewrite drop_app_length.
    intros (d & _ & (_ & He & ->)%merge_db_Some)%list_elem_of_omap. unfold StaleConnected.
    destruct (Connected d) eqn:Hc; simpl; [|by rewrite Hc].
    destruct (Z.ltb_spec disconnectAfter (time_Sub now (SessionUpdatedAt d))); simpl; [done|].
    split; [done|]. lia.
  - apply MergeAgents_NoDup.
Qed.

(** A bare parameter is not always an exact match.  [?service.name=~x]
    in its decoded form, key [service.name] and value [~x], becomes a regex
    matcher, and quotes around a value are dropped. *)
Theorem bare_parameter_not_exact (r : string → bool) :
  Compile "^(?:x)$" = inr r →
  ParseMatcher "service.name=~x" = inr (mkAttrMatcher "service.name" OpRegex "x" (Some r)) ∧
  ParseMatcher "service.name='x'" = inr (mkAttrMatcher "service.name" OpEqual "x" None).
Proof.
  intros Hr. split; [|by vm_compute].
  apply (ParseMatcher_plain "service.name" OpRegex "x" (Some r));
    [by vm_compute|by vm_compute|]. by exists r.
Qed.

End claims.

(** Whether a pattern is anchored is decided by its spelling.  A pattern
    that ends in an escaped dollar, or whose anchors belong to the branches of
    an alternation, is compiled without the missing anchors, so it does not
    match against the full value. *)
Theorem anchors_by_spelling :
  anchored "9.+" = "^(?:9.+)$" ∧
  anchored "cost\$" = "^(?:cost\$)" ∧
  anchored "^a|b$" = "^a|b$" ∧ anchored "^9|8" = "(?:^9|8)$".
Proof. by vm_compute. Qed.

(** ** Witnesses *)

(** An engine that knows literal patterns. *)
#[export] Instance literal_regexp : Regexp := λ p,
  if bool_decide (p = "^(?:x)$") then inr (λ s, bool_decide (s = "x"))
  else inl "error parsing regexp: not a literal".

Lemma ParseMatcher_roundtrip_witness :
  ParseMatcher "service.name!=otel gateway" =
    inr (mkAttrMatcher "service.name" OpNotEqual "otel gateway" None).
Proof.
  apply (ParseMatcher_roundtrip (mkAttrMatcher "service.name" OpNotEqual "otel gateway" None));
    vm_compute; reflexivity.
Defined.

Lemma negated_matchers_witness :
  ∃ m, ParseMatcher " team !~ 'x' " = inr m ∧ matchAttr zero_Agent m = true.
Proof.
  destruct (ParseMatcher " team !~ 'x' ") as [e|m] eqn:Hm; [vm_compute in Hm; discriminate|].
  exists m. split; [reflexivity|].
  destruct (negated_matchers " team !~ 'x' " m zero_Agent Hm) as (_ & _ & H).
  vm_compute in Hm. injection Hm as <-. rewrite H; reflexivity.
Defined.

Lemma bare_parameter_not_exact_witness :
  ParseMatcher "service.name='x'" = inr (mkAttrMatcher "service.name" OpEqual "x" None).
Proof. apply (bare_parameter_not_exact (λ s, bool_decide (s = "x"))). reflexivity. Defined.
