(* ===== verification/Paginate.v ===== *)
(** * Package api: paging by instance uid (internal/api/paginate.go)

    [Module Heap] is container/heap of the Go standard library on a slice of
    any element type; [pageByInstanceUID] uses it with the order reversed, to
    keep the smallest [end] agents.  The theorem says the page is the slice of
    the fully sorted list. *)

From Stdlib Require Import ZArith Lia.
From S2P Require Import Prelude GoLang Fleet.

(** ** container/heap *)

Module Heap.
Section heap.
Context {A : Type} (less : A → A → bool).

Definition Less (h : list A) (i j : nat) : bool :=
  match h !! i, h !! j with Some x, Some y => less x y | _, _ => false end.

Definition Swap (h : list A) (i j : nat) : list A :=
  match h !! i, h !! j with
  | Some x, Some y => <[i := y]> (<[j := x]> h)
  | _, _ => h
  end.

Definition parent (j : nat) : nat := (j - 1) / 2.

(** The index decreases at every step, so [S j] is fuel enough. *)
Fixpoint up_loop (fuel : nat) (h : list A) (j : nat) : list A :=
  match fuel with
  | O => h
  | S fuel =>
      let i := parent j in
      if bool_decide (i = j) || negb (Less h j i) then h
      else up_loop fuel (Swap h i j) i
  end.

Definition up (h : list A) (j : nat) : list A := up_loop (S j) h j.

(** The slice and the index where it stopped; the index grows towards [n]. *)
Fixpoint down_loop (fuel : nat) (h : list A) (i n : nat) : list A * nat :=
  match fuel with
  | O => (h, i)
  | S fuel =>
      let j1 := 2 * i + 1 in
      if bool_decide (n ≤ j1) then (h, i) else
      let j2 := j1 + 1 in
      let j := if bool_decide (j2 < n) && Less h j2 j1 then j2 else j1 in
      if negb (Less h j i) then (h, i)
      else down_loop fuel (Swap h i j) j n
  end.

Definition down (h : list A) (i0 n : nat) : list A * bool :=
  let '(h, i) := down_loop (S n) h i0 n in (h, bool_decide (i0 < i)).

Definition Push (h : list A) (x : A) : list A := up (h ++ [x]) (length h).

Definition Fix (h : list A) (i : nat) : list A :=
  let '(h, moved) := down h i (length h) in
  if moved then h else up h i.

(** *** The heap property *)

Definition ok_at (h : list A) (j : nat) : Prop :=
  ∀ x y, 0 < j → h !! parent j = Some x → h !! j = Some y → less y x = false.

Definition heap_ok (h : list A) : Prop := ∀ j, ok_at h j.

(** [j] may be above its parent; its children are below both. *)
Definition up_ok (h : list A) (j : nat) : Prop :=
  (∀ k, k ≠ j → ok_at h k) ∧
  ∀ k x y, 0 < k → parent k = j → 0 < j → h !! parent j = Some x → h !! k = Some y →
    less y x = false.

(** [i] may be below its children; they are below its parent. *)
Definition down_ok (h : list A) (i : nat) : Prop :=
  (∀ k, 0 < k → parent k ≠ i → ok_at h k) ∧
  ∀ k x y, 0 < k → parent k = i → 0 < i → h !! parent i = Some x → h !! k = Some y →
    less y x = false.

(** [less] is a strict weak order: "not less" is total and transitive. *)
Context (less_asym : ∀ x y, less x y = true → less y x = false)
        (nless_trans : ∀ x y z, less y x = false → less z y = false → less z x = false).

Lemma parent_lt j : 0 < j → parent j < j.
Proof. intros. unfold parent. apply Nat.Div0.div_lt_upper_bound. lia. Qed.

Lemma parent_child j i : 0 < j → parent j = i → j = 2 * i + 1 ∨ j = 2 * i + 2.
Proof.
  unfold parent. intros Hj <-. pose proof (Nat.div_mod (j - 1) 2 ltac:(lia)).
  pose proof (Nat.mod_upper_bound (j - 1) 2 ltac:(lia)). lia.
Qed.

Lemma child_parent i : parent (2 * i + 1) = i ∧ parent (2 * i + 2) = i.
Proof.
  unfold parent. split.
  - replace (2 * i + 1 - 1) with (i * 2) by lia. by rewrite Nat.div_mul.
  - replace (2 * i + 2 - 1) with (1 + i * 2) by lia. by rewrite Nat.div_add.
Qed.

Lemma Swap_Permutation h i j : Swap h i j ≡ₚ h.
Proof.
  unfold Swap. destruct (h !! i) as [x|] eqn:Hi; [|done].
  destruct (h !! j) as [y|] eqn:Hj; [|done].
  destruct (decide (i = j)) as [->|Hne].
  - simplify_eq. by rewrite (list_insert_id _ j) by (rewrite list_insert_id by done; done);
      rewrite list_insert_id.
  - by apply Permutation_insert_swap.
Qed.
Lemma Swap_lookup h i j x y k :
  h !! i = Some x → h !! j = Some y → i ≠ j →
  Swap h i j !! k = if decide (k = i) then Some y else if decide (k = j) then Some x else h !! k.
Proof.
  intros Hi Hj Hne. unfold Swap. rewrite Hi, Hj.
  pose proof (lookup_lt_Some _ _ _ Hi). pose proof (lookup_lt_Some _ _ _ Hj).
  repeat case_decide; subst.
  - by rewrite list_lookup_insert_eq by (by rewrite length_insert).
  - by rewrite list_lookup_insert_ne, list_lookup_insert_eq.
  - by rewrite !list_lookup_insert_ne.
Qed.

Lemma up_step h i j x y :
  0 < j → parent j = i → h !! i = Some x → h !! j = Some y → less y x = true →
  up_ok h j → up_ok (Swap h i j) i.
Proof.
  intros Hj Hp Hi Hy Hl [H1 H2]. pose proof (parent_lt j Hj). assert (i ≠ j) by lia.
  pose proof (less_asym _ _ Hl) as Hxy. split.
  - intros k Hk u v Hk0. rewrite !(Swap_lookup h i j x y) by done.
    pose proof (parent_lt k Hk0).
    destruct (decide (parent k = i)) as [Hpi|Hpi].
    + intros [= <-]. rewrite decide_False by done. case_decide; [by intros [= <-]|].
      intros Hv. eapply nless_trans; [exact Hxy|].
      apply (H1 k); [done|done|by rewrite Hpi|done].
    + destruct (decide (parent k = j)) as [Hpj|Hpj].
      * intros [= <-]. rewrite !decide_False by lia. intros Hv.
        apply (H2 k); [done|done|done|by rewrite Hp|done].
      * rewrite decide_False by done. case_decide; [congruence|]. by apply H1.
  - intros k u v Hk0 Hpk Hi0. pose proof (parent_lt i Hi0). pose proof (parent_lt k Hk0).
    rewrite !(Swap_lookup h i j x y) by done. rewrite !(decide_False (P := parent i = _)) by lia.
    intros Hu. rewrite decide_False by lia.
    assert (less x u = false) as Hxu by (by apply (H1 i)).
    case_decide; [by intros [= <-]|]. intros Hv. eapply nless_trans; [exact Hxu|].
    apply (H1 k); [done|done|by rewrite Hpk|done].
Qed.

Lemma up_loop_ok fuel h j :
  j < fuel → j < length h → up_ok h j → heap_ok (up_loop fuel h j).
Proof.
  revert h j. induction fuel as [|fuel IH]; intros h j Hf Hj Hok; [lia|]. simpl.
  destruct (decide (j = 0)) as [->|Hj0].
  { rewrite bool_decide_eq_true_2 by done. simpl. intros k x y Hk. apply Hok; lia. }
  pose proof (parent_lt j ltac:(lia)). rewrite bool_decide_eq_false_2 by lia. simpl.
  destruct (lookup_lt_is_Some_2 h j Hj) as [y Hy].
  destruct (lookup_lt_is_Some_2 h (parent j) ltac:(lia)) as [x Hx].
  unfold Less. rewrite Hx, Hy. destruct (less y x) eqn:Hl; simpl.
  - apply IH; [lia| |by eapply up_step; eauto with lia].
    rewrite (Permutation_length (Swap_Permutation h (parent j) j)). lia.
  - intros k u v Hk Hu Hv. destruct (decide (k = j)) as [->|Hkj]; [congruence|].
    by apply (proj1 Hok k).
Qed.

Lemma up_loop_Permutation fuel h j : up_loop fuel h j ≡ₚ h.
Proof.
  revert h j. induction fuel as [|fuel IH]; intros h j; simpl; [done|].
  destruct (_ || _); [done|]. by rewrite IH, Swap_Permutation.
Qed.

Lemma Push_spec h x : heap_ok h → heap_ok (Push h x) ∧ Push h x ≡ₚ x :: h.
Proof.
  intros Hok. unfold Push, up. split.
  - apply up_loop_ok; [lia|rewrite length_app; simpl; lia|]. split.
    + intros k Hk u v Hk0 Hu Hv. pose proof (parent_lt k Hk0).
      pose proof (lookup_lt_Some _ _ _ Hv) as Hlt. rewrite length_app in Hlt. simpl in Hlt.
      rewrite lookup_app_l in Hu, Hv by lia. by apply (Hok k).
    + intros k u v Hk0 Hp _ _ Hv. pose proof (parent_lt k Hk0).
      apply lookup_lt_Some in Hv. rewrite length_app in Hv. simpl in Hv. lia.
  - rewrite up_loop_Permutation. by rewrite Permutation_app_comm.
Qed.

(** The child [down] compares with: no other child is before it. *)
Lemma down_child h i n :
  n = length h → 2 * i + 1 < n →
  let j := if bool_decide (2 * i + 1 + 1 < n) && Less h (2 * i + 1 + 1) (2 * i + 1)
           then 2 * i + 1 + 1 else 2 * i + 1 in
  ∃ y, h !! j = Some y ∧ parent j = i ∧ i < j ∧
    ∀ k v, 0 < k → parent k = i → h !! k = Some v → less v y = false.
Proof.
  intros -> Hn j. destruct (child_parent i) as [P1 P2].
  destruct (lookup_lt_is_Some_2 h (2 * i + 1) Hn) as [y1 Hy1].
  assert (∀ v, less v v = false) as Hirr.
  { intros v. destruct (less v v) eqn:E; [|done]. by rewrite (less_asym _ _ E) in E. }
  destruct (decide (2 * i + 1 + 1 < length h)) as [Hlt|Hge].
  - destruct (lookup_lt_is_Some_2 h (2 * i + 1 + 1) Hlt) as [y2 Hy2].
    subst j. rewrite bool_decide_eq_true_2 by done. unfold Less. rewrite Hy1, Hy2, andb_true_l.
    replace (2 * i + 1 + 1) with (2 * i + 2) in * by lia.
    destruct (less y2 y1) eqn:Hl; [exists y2|exists y1]; cbv iota; split_and!; try done; try lia;
      intros k v Hk Hp Hv; destruct (parent_child k i Hk Hp) as [->| ->]; simplify_eq; auto.
  - subst j. rewrite bool_decide_eq_false_2 by done. simpl.
    exists y1. split_and!; try done; [lia|].
    intros k v Hk Hp Hv. destruct (parent_child k i Hk Hp) as [->| ->]; [by simplify_eq|].
    apply lookup_lt_Some in Hv. lia.
Qed.

Lemma down_step h i j x y :
  parent j = i → i < j → h !! i = Some x → h !! j = Some y → less y x = true →
  (∀ k v, 0 < k → parent k = i → h !! k = Some v → less v y = false) →
  down_ok h i → down_ok (Swap h i j) j.
Proof.
  intros Hp Hij Hi Hj Hl Hch [H1 H2]. pose proof (less_asym _ _ Hl) as Hxy.
  assert (i ≠ j) by lia. split.
  - intros k Hk0 Hpk u v _. pose proof (parent_lt k Hk0).
    rewrite !(Swap_lookup h i j x y) by done.
    destruct (decide (parent k = i)) as [Hpi|Hpi].
    + intros [= <-]. rewrite decide_False by lia. case_decide; [by intros [= <-]|].
      by apply Hch.
    + rewrite decide_False by done. intros Hu.
      case_decide as Hki; [|case_decide; [congruence|by apply (H1 k)]].
      intros [= <-]. subst k. by apply (H2 j); [lia|..].
  - intros k u v Hk0 Hpk _. pose proof (parent_lt k Hk0). rewrite Hp.
    rewrite !(Swap_lookup h i j x y) by done. rewrite decide_True by done.
    intros [= <-]. rewrite !decide_False by lia. intros Hv.
    apply (H1 k); [done|lia|done|by rewrite Hpk|done].
Qed.

Lemma down_loop_ok fuel h i n :
  n = length h → n < fuel + i → i < n → down_ok h i → heap_ok (down_loop fuel h i n).1.
Proof.
  revert h i. induction fuel as [|fuel IH]; intros h i Hn Hf Hi Hok; [lia|]. cbn [down_loop].
  destruct (decide (n ≤ 2 * i + 1)) as [Hle|Hgt].
  { rewrite bool_decide_eq_true_2 by done. simpl. intros k u v Hk Hu Hv.
    apply (proj1 Hok k); try done. intros Hp.
    destruct (parent_child k i Hk Hp); apply lookup_lt_Some in Hv; lia. }
  rewrite bool_decide_eq_false_2 by done.
  destruct (down_child h i n Hn ltac:(lia)) as (y & Hy & Hp & Hij & Hch).
  set (j := if bool_decide (2 * i + 1 + 1 < n) && _ then _ else _) in *.
  destruct (lookup_lt_is_Some_2 h i ltac:(lia)) as [x Hx].
  unfold Less at 1. rewrite Hx, Hy. destruct (less y x) eqn:Hl; simpl.
  - pose proof (lookup_lt_Some _ _ _ Hy). apply IH.
    + by rewrite (Permutation_length (Swap_Permutation h i j)).
    + lia.
    + lia.
    + by eapply down_step.
  - intros k u v Hk Hu Hv. destruct (decide (parent k = i)) as [Hpk|Hpk].
    + rewrite Hpk in Hu. simplify_eq. eapply nless_trans; [exact Hl|]. by apply (Hch k).
    + by apply (proj1 Hok k).
Qed.

Lemma down_loop_Permutation fuel h i n : (down_loop fuel h i n).1 ≡ₚ h.
Proof.
  revert h i. induction fuel as [|fuel IH]; intros h i; [done|]. cbn [down_loop].
  destruct (bool_decide _); [done|]. destruct (negb _); [done|].
  by rewrite IH, Swap_Permutation.
Qed.

(** Replacing the root and fixing it restores the heap. *)
Lemma Fix_root_spec h x r :
  heap_ok (r :: h) → heap_ok (Fix (x :: h) 0) ∧ Fix (x :: h) 0 ≡ₚ x :: h.
Proof.
  intros Hok. unfold Fix, down.
  pose proof (down_loop_Permutation (S (length (x :: h))) (x :: h) 0 (length (x :: h))) as Hperm.
  assert (heap_ok (down_loop (S (length (x :: h))) (x :: h) 0 (length (x :: h))).1) as Hdown.
  { apply down_loop_ok; [done|lia|simpl; lia|]. split; [|lia].
    intros k Hk Hp u v _ Hu Hv. apply (Hok k u v Hk).
    - destruct (parent k) as [|p]; [done|]. exact Hu.
    - by destruct k. }
  destruct (down_loop _ _ _ _) as [h' i]. simpl in *.
  case_bool_decide; [done|]. unfold up. simpl. by split.
Qed.

(** The root comes before everything. *)
Lemma heap_root h r k v : heap_ok h → h !! 0 = Some r → h !! k = Some v → less v r = false.
Proof.
  intros Hok Hr. revert v. induction k as [k IH] using lt_wf_ind. intros v Hv.
  destruct (decide (k = 0)) as [->|Hk].
  - assert (r = v) as <- by congruence.
    destruct (less r r) eqn:E; [|done]. by rewrite (less_asym _ _ E) in E.
  - pose proof (parent_lt k ltac:(lia)) as Hlt.
    destruct (lookup_lt_is_Some_2 h (parent k)) as [u Hu].
    { apply lookup_lt_Some in Hv. lia. }
    eapply nless_trans; [by eapply (IH (parent k))|]. by apply (Hok k u v); [lia|..].
Qed.

End heap.
End Heap.

(** ** pageByInstanceUID *)

Section page.
Context `{GoSort}.

Definition uid_lt (a b : Agent) : bool := bool_decide (string_Compare (InstanceUID a) (InstanceUID b) < 0)%Z.

(** [agentMaxHeapByInstanceUID.Less]: the greater uid first. *)
Definition heap_less (a b : Agent) : bool := uid_lt b a.

Definition cmp_uid (a b : Agent) : Z :=
  if uid_lt a b then -1 else if uid_lt b a then 1 else 0.

Definition sortByInstanceUID (agents : list Agent) : list Agent := SortFunc cmp_uid agents.

(** One candidate of the loop. *)
Definition offer (e : nat) (h : list Agent) (a : Agent) : list Agent :=
  if bool_decide (length h < e) then Heap.Push heap_less h a
  else match h with
       | r :: rest => if uid_lt a r then Heap.Fix heap_less (a :: rest) 0 else h
       | [] => h
       end.

(** Callers keep [0 <= start <= end <= len(agents)]. *)
Definition pageByInstanceUID (agents : list Agent) (s e : Z) : list Agent :=
  if bool_decide (e = 0)%Z then []
  else if bool_decide (zlen agents ≤ e)%Z then slice (sortByInstanceUID agents) s e
  else
    let h := foldl (offer (Z.to_nat e)) [] agents in
    slice (sortByInstanceUID h) s e.

(** *** Lemmas *)

Lemma uid_lt_irrefl_le a b : uid_lt a b = false ↔ (0 ≤ string_Compare (InstanceUID a) (InstanceUID b))%Z.
Proof. unfold uid_lt. rewrite bool_decide_eq_false. lia. Qed.

Lemma uid_lt_asym a b : uid_lt a b = true → uid_lt b a = false.
Proof.
  rewrite uid_lt_irrefl_le. unfold uid_lt. rewrite bool_decide_eq_true.
  rewrite (string_Compare_antisym (InstanceUID a) (InstanceUID b)). lia.
Qed.

Lemma uid_nlt_trans x y z : uid_lt y x = false → uid_lt z y = false → uid_lt z x = false.
Proof.
  rewrite !uid_lt_irrefl_le. intros H1 H2.
  destruct string_Compare_order as [_ Htr].
  pose proof (Htr (InstanceUID x) (InstanceUID y) (InstanceUID z)) as H3.
  unfold cmp_le in H3.
  rewrite (string_Compare_antisym (InstanceUID x) (InstanceUID y)) in H1.
  rewrite (string_Compare_antisym (InstanceUID y) (InstanceUID z)) in H2.
  rewrite (string_Compare_antisym (InstanceUID x) (InstanceUID z)). lia.
Qed.

Lemma heap_less_asym a b : heap_less a b = true → heap_less b a = false.
Proof. apply uid_lt_asym. Qed.

Lemma heap_nless_trans x y z :
  heap_less y x = false → heap_less z y = false → heap_less z x = false.
Proof. unfold heap_less. intros. by eapply uid_nlt_trans. Qed.

Lemma cmp_uid_le a b : cmp_le cmp_uid a b ↔ uid_lt b a = false.
Proof.
  unfold cmp_le, cmp_uid. destruct (uid_lt a b) eqn:E.
  - rewrite (uid_lt_asym a b E). split; [done|lia].
  - destruct (uid_lt b a); split; done.
Qed.

Lemma cmp_uid_order : cmp_order cmp_uid.
Proof.
  split.
  - intros a b. rewrite !cmp_uid_le. destruct (uid_lt b a) eqn:E; [right|by left].
    by apply uid_lt_asym.
  - intros a b c. rewrite !cmp_uid_le. intros ? ?. by eapply uid_nlt_trans.
Qed.

Lemma cmp_uid_antisym (l : list Agent) a b :
  NoDup (InstanceUID <$> l) → a ∈ l → b ∈ l →
  cmp_le cmp_uid a b → cmp_le cmp_uid b a → a = b.
Proof.
  intros Hnd Ha Hb. rewrite !cmp_uid_le, !uid_lt_irrefl_le. intros H1 H2.
  apply list_elem_of_lookup in Ha as [i Hi]. apply list_elem_of_lookup in Hb as [j Hj].
  assert (InstanceUID a = InstanceUID b) as Heq.
  { apply string_Compare_0. rewrite string_Compare_antisym in H1. lia. }
  assert (i = j) as ->; [|congruence].
  eapply NoDup_lookup; [exact Hnd| |]; rewrite list_lookup_fmap; [by rewrite Hi|by rewrite Hj, Heq].
Qed.

(** What the loop has kept: a heap of the smallest seen so far. *)
Definition kept (e : nat) (seen h : list Agent) : Prop :=
  Heap.heap_ok heap_less h ∧ ∃ rest, h ++ rest ≡ₚ seen ∧
    length h = Nat.min e (length seen) ∧
    ∀ x y, x ∈ h → y ∈ rest → uid_lt y x = false.

Lemma offer_kept e seen h a :
  0 < e → kept e seen h → kept e (seen ++ [a]) (offer e h a).
Proof.
  intros He (Hok & rest & Hperm & Hlen & Hle).
  assert (seen ++ [a] ≡ₚ a :: seen) as Hsnoc by (by rewrite Permutation_app_comm).
  unfold offer. case_bool_decide as Hlt.
  - destruct (Heap.Push_spec heap_less heap_less_asym heap_nless_trans h a Hok) as [Hok' Hp].
    assert (rest = []) as ->.
    { apply Permutation_length in Hperm. rewrite length_app in Hperm.
      destruct rest; [done|]. simpl in Hperm. lia. }
    split; [done|]. exists []. split_and!.
    + rewrite Hp, app_nil_r, Hsnoc. rewrite <-Hperm. by rewrite app_nil_r.
    + rewrite (Permutation_length Hp), length_app. simpl. lia.
    + by intros x y _ ?%not_elem_of_nil.
  - destruct h as [|r h]; [simpl in *; lia|].
    assert (∀ x, x ∈ r :: h → uid_lt r x = false) as Hroot.
    { intros x [k Hk]%list_elem_of_lookup.
      apply (Heap.heap_root heap_less heap_less_asym heap_nless_trans (r :: h) r k x Hok eq_refl Hk). }
    destruct (uid_lt a r) eqn:Har.
    + destruct (Heap.Fix_root_spec heap_less heap_less_asym heap_nless_trans h a r Hok) as [Hok' Hp].
      split; [done|]. exists (r :: rest). split_and!.
      * rewrite Hp, Hsnoc, <-Hperm. simpl. by rewrite <-Permutation_middle.
      * rewrite (Permutation_length Hp), length_app. simpl in *. lia.
      * intros x y. rewrite Hp. intros [->|Hx]%elem_of_cons [->|Hy]%elem_of_cons.
        -- by apply uid_lt_asym.
        -- apply (uid_nlt_trans a r y); [by apply uid_lt_asym|]. apply Hle; [left|done].
        -- apply Hroot. by right.
        -- apply Hle; [by right|done].
    + split; [done|]. exists (a :: rest). split_and!.
      * rewrite Hsnoc, <-Hperm. simpl. by rewrite <-Permutation_middle, Permutation_swap.
      * rewrite length_app. simpl in *. lia.
      * intros x y Hx [->|Hy]%elem_of_cons; [|by apply Hle].
        apply (uid_nlt_trans x r a); [|done]. by apply Hroot.
Qed.

Lemma foldl_kept e agents seen h :
  0 < e → kept e seen h → kept e (seen ++ agents) (foldl (offer e) h agents).
Proof.
  intros He. revert seen h. induction agents as [|a agents IH]; intros seen h Hk; simpl.
  - by rewrite app_nil_r.
  - replace (seen ++ a :: agents) with ((seen ++ [a]) ++ agents) by (by rewrite <-app_assoc).
    apply IH. by apply offer_kept.
Qed.

(** Sorting the kept part is the front of sorting everything. *)
Lemma sort_kept e agents h :
  NoDup (InstanceUID <$> agents) → kept e agents h → e ≤ length agents →
  take e (sortByInstanceUID agents) = sortByInstanceUID h.
Proof.
  intros Hnd (_ & rest & Hperm & Hlen & Hle) He.
  assert (sortByInstanceUID agents = sortByInstanceUID h ++ sortByInstanceUID rest) as ->.
  { apply SortFunc_unique; [apply cmp_uid_order|by intros; eapply cmp_uid_antisym| |].
    - unfold sortByInstanceUID. by rewrite !SortFunc_perm.
    - apply StronglySorted_app_2; [|apply SortFunc_sorted, cmp_uid_order..].
      intros x y Hx Hy. unfold sortByInstanceUID in *. rewrite SortFunc_perm in Hx, Hy.
      apply cmp_uid_le. by apply Hle. }
  rewrite take_app_length'; [done|]. unfold sortByInstanceUID. rewrite SortFunc_length. lia.
Qed.

Lemma pageByInstanceUID_slice agents s e :
  NoDup (InstanceUID <$> agents) → (0 ≤ s ≤ e)%Z → (e ≤ zlen agents)%Z →
  pageByInstanceUID agents s e = slice (sortByInstanceUID agents) s e.
Proof.
  intros Hnd Hs He. unfold pageByInstanceUID.
  case_bool_decide as H0.
  { subst e. assert (s = 0)%Z as -> by lia. done. }
  case_bool_decide as Hfull; [done|].
  set (n := Z.to_nat e).
  assert (kept n ([] ++ agents) (foldl (offer n) [] agents)) as Hk.
  { apply foldl_kept; [lia|]. split; [intros j x y _ Hx; by rewrite lookup_nil in Hx|].
    exists []. split_and!; [done|simpl; lia|]. by intros x y ?%not_elem_of_nil. }
  rewrite <-(sort_kept n agents _ Hnd Hk) by lia.
  unfold slice. fold n. rewrite skipn_firstn_comm. rewrite firstn_firstn.
  f_equal. lia.
Qed.

End page.

(** ** The claim *)

(** A page is a slice of the sorted list.  For agents with distinct uids
    and bounds within the list, the bounded-heap routine returns what fully
    sorting by uid and slicing returns, whatever the unstable sort does. *)
Theorem pageByInstanceUID_correct `{GoSort} agents s e :
  NoDup (InstanceUID <$> agents) → (0 ≤ s ≤ e)%Z → (e ≤ zlen agents)%Z →
  pageByInstanceUID agents s e = slice (sortByInstanceUID agents) s e.
Proof. intros. by apply pageByInstanceUID_slice. Qed.

Definition agent_uid (u : string) : Agent := zero_Agent <| InstanceUID := u |>.

Lemma pageByInstanceUID_correct_witness :
  let GS := merge_GoSort in
  let agents := agent_uid <$> ["d"; "a"; "e"; "c"; "b"] in
  InstanceUID <$> pageByInstanceUID agents 1 3 = ["b"; "c"] ∧
  pageByInstanceUID agents 1 3 = slice (sortByInstanceUID agents) 1 3.
Proof.
  intros GS agents. split; [vm_compute; reflexivity|].
  apply (pageByInstanceUID_correct agents 1 3).
  - apply (bool_decide_unpack _). vm_compute. exact I.
  - lia.
  - vm_compute. discriminate.
Defined.
