(* ===== verification/Api.v ===== *)
(** * Package api: the read API and job creation

    internal/api/handler.go, attributes.go, job_targets.go and jobs.go.  A
    response is its status and the value encoded as its body.  The database is
    an argument: [None] when none is configured, an error or a result per
    call.  The clock's reading, the JSON decoding of a request body and the
    build information are arguments too. *)

From Stdlib Require Import Ascii ZArith Lia.
From Stdlib Require Import SpecFloat.
From S2P Require Import Prelude GoLang GoParse GoUrl Fleet Registry RegistryProps Filter Paginate Demo.
Local Open Scope Z_scope.

(** ** Responses

    An error keeps its status and its message. *)

Record listResponse := mkListResponse {
  lr_Agents : list AgentView;
  lr_Total : Z;
  lr_Limit : Z;
  lr_Offset : Z;
  lr_Partial : bool
}.

Record fleetStats := mkFleetStats_ {
  fs_Total : Z;
  fs_Connected : Z;
  fs_Disconnected : Z;
  fs_Healthy : Z;
  fs_Unhealthy : Z;
  fs_HealthUnknown : Z;
  fs_AwaitingFullState : Z
}.

#[export] Instance eta_fleetStats : Eta fleetStats := λ s,
  mkFleetStats_ (fs_Total s) (fs_Connected s) (fs_Disconnected s) (fs_Healthy s)
    (fs_Unhealthy s) (fs_HealthUnknown s) (fs_AwaitingFullState s).

Record statusResponse := mkStatusResponse {
  sr_StartedAt : Time;
  sr_UptimeSeconds : Z;
  sr_Fleet : fleetStats
}.

(** A job as the database returns it; [ActionConfig] is raw JSON. *)
Record Job := mkJob {
  job_ID : string;
  job_Filter : string;
  job_Action : string;
  job_ActionConfig : string;
  job_Status : string;
  job_TargetMode : option string;
  job_SubmittedBy : string;
  job_CreatedAt : Time;
  job_ArmedAt : option Time;
  job_DispatchAt : option Time;
  job_CancelledAt : option Time
}.

Record createJobRequest := mkCreateJobRequest {
  req_Filter : string;
  req_Action : string;
  req_ActionConfig : string;
  req_SubmittedBy : string
}.

Inductive response :=
  | Error (status : Z) (message : string)
  | ListOk (body : listResponse)
  | DetailOk (body : AgentView)
  | StatusOk (body : statusResponse)
  | KeysOk (keys : list string)
  | ValuesOk (key : string) (values : list string)
  | JobCreated (job : Job).

(** The counter [ListStoreFallbackFailed]. *)
Inductive ApiMetric := ListStoreFallbackFailed (surface : string).

(** ** Pagination *)

Definition defaultLimit : Z := 100.
Definition maxLimit : Z := 1000.

Definition parsePagination (q : url_Values) : string + Z * Z :=
  let v := query_Get q "limit" in
  match (if bool_decide (v = "") then Some defaultLimit else
         match Atoi v with
         | Some n => if n <=? 0 then None else Some (Z.min n maxLimit)
         | None => None
         end) with
  | None => inl "limit must be a positive integer"
  | Some limit =>
      let v := query_Get q "offset" in
      match (if bool_decide (v = "") then Some 0 else
             match Atoi v with
             | Some n => if n <? 0 then None else Some n
             | None => None
             end) with
      | None => inl "offset must be a non-negative integer"
      | Some offset => inr (limit, offset)
      end
  end.

(** ** Attributes *)

(** The set a loop builds, and its keys sorted. *)
Definition sorted_set `{MapRange, GoSort} (seen : gmap string unit) : list string :=
  slices_Sort (range seen).*1.

Definition add_all (seen : gmap string unit) (l : list string) : gmap string unit :=
  foldl (λ m k, <[k := tt]> m) seen l.

Definition AttributeKeys `{MapRange, GoSort} (agents : list Agent) : list string :=
  sorted_set (foldl (λ seen a,
    add_all (add_all seen (range (Identifying a)).*1) (range (NonIdentifying a)).*1) ∅ agents).

Definition AttributeValues `{MapRange, GoSort} (agents : list Agent) (key : string) :
    list string :=
  if bool_decide (key = "") then [] else
  sorted_set (foldl (λ seen a,
    add_all (add_all seen (option_list (Identifying a !! key)))
      (option_list (NonIdentifying a !! key))) ∅ agents).

(** ** Job targets *)

Definition RejectionReasonNotSupervisorManaged : string := "not supervisor_managed".

Record RejectedTarget := mkRejectedTarget { rt_InstanceUID : string; rt_Reason : string }.

Fixpoint PartitionJobTargets (agents : list Agent) : list string * list RejectedTarget :=
  match agents with
  | [] => ([], [])
  | a :: agents =>
      let '(accepted, rejected) := PartitionJobTargets agents in
      if negb (SupervisorManaged a)
      then (accepted, mkRejectedTarget (InstanceUID a) RejectionReasonNotSupervisorManaged
                      :: rejected)
      else (InstanceUID a :: accepted, rejected)
  end.

Section handler.
Context `{PB : Protobuf, UU : UUID, MR : MapRange, GS : GoSort, RE : Regexp, UN : Unicode}
        (bits : CapabilityBits).

(** ** GET /api/agents *)

(** [db]: absent without a store, otherwise [ListAgents]'s result or error. *)
Definition fleet_view (now : Time) (db : option (option (list Agent))) (r : Registry) :
    writer ApiMetric (list Agent * bool) :=
  let localAgents := List r in
  match db with
  | None => mret (localAgents, false)
  | Some None => _ ← emit (ListStoreFallbackFailed "api"); mret (localAgents, true)
  | Some (Some dbAgents) =>
      mret (MergeAgents localAgents dbAgents now (DisconnectThreshold (cfg r)), false)
  end.

Definition list_page (agents : list Agent) (limit offset : Z) : list Agent :=
  let total := zlen agents in
  let start := Z.min offset total in
  let e := Z.min (start + limit) total in
  pageByInstanceUID agents start e.

Definition listAgents (now : Time) (db : option (option (list Agent))) (query : url_Values)
    (r : Registry) : writer ApiMetric response :=
  match parsePagination query with
  | inl e => mret (Error 400 e)
  | inr (limit, offset) =>
      match ParseFilters query with
      | inl e => mret (Error 400 (filter_error_message e))
      | inr filters =>
          m ← fleet_view now db r;
          let agents := MatchingAgents m.1 filters in
          let page := list_page agents limit offset in
          mret (ListOk (mkListResponse (SummaryView bits <$> page) (zlen agents)
                          limit offset m.2))
      end
  end.

(** ** GET /api/agents/{id} *)

(** [db id]: [GetAgent]'s error, or the row if there is one. *)
Definition getAgent (now : Time) (db : option (string → option (option Agent))) (id : string)
    (r : Registry) : response :=
  if bool_decide (id = "") then Error 400 "missing agent id" else
  match Get r id with
  | Some agent => DetailOk (DetailView bits agent)
  | None =>
      match db with
      | None => Error 404 "agent not found"
      | Some store =>
          match store id with
          | None => Error 500 "lookup failed"
          | Some None => Error 404 "agent not found"
          | Some (Some agent) =>
              if bool_decide (is_Some (EvictedAt agent)) then Error 404 "agent not found"
              else
                let agent := if StaleConnected agent now (DisconnectThreshold (cfg r))
                             then agent <| Connected := false |> else agent in
                DetailOk (DetailView bits agent)
          end
      end
  end.

(** ** GET /api/status *)

Definition status_agent (stats : fleetStats) (a : Agent) : fleetStats :=
  let stats := if Connected a then stats <| fs_Connected := fs_Connected stats + 1 |>
               else stats <| fs_Disconnected := fs_Disconnected stats + 1 |> in
  let stats := if negb (DescriptionReported a)
               then stats <| fs_AwaitingFullState := fs_AwaitingFullState stats + 1 |>
               else stats in
  if negb (HealthReported a) then stats <| fs_HealthUnknown := fs_HealthUnknown stats + 1 |>
  else if Healthy a then stats <| fs_Healthy := fs_Healthy stats + 1 |>
  else stats <| fs_Unhealthy := fs_Unhealthy stats + 1 |>.

(** [int64(d.Seconds())]: whole seconds plus the fraction, in float64. *)
Definition uptime_seconds (d : Duration) : Z :=
  float64_trunc (SFadd 53 1024 (float64 (Z.quot d Second))
    (SFdiv 53 1024 (float64 (Z.rem d Second)) (float64 (10 ^ 9)))).

Definition status (now startedAt : Time) (r : Registry) : response :=
  let agents := List r in
  let stats := foldl status_agent (mkFleetStats_ (zlen agents) 0 0 0 0 0 0) agents in
  StatusOk (mkStatusResponse startedAt (uptime_seconds (time_Sub now startedAt)) stats).

(** ** GET /api/attributes and /api/attributes/values *)

Definition prefix_filter (query : url_Values) (l : list string) : list string :=
  let p := TrimSpace (query_Get query "prefix") in
  if bool_decide (p = "") then l
  else filter (λ k, Contains (ToLower k) (ToLower p) = true) l.

Definition listAttributeKeys (query : url_Values) (r : Registry) : response :=
  KeysOk (prefix_filter query (AttributeKeys (List r))).

Definition listAttributeValues (query : url_Values) (r : Registry) : response :=
  let key := TrimSpace (query_Get query "key") in
  if bool_decide (key = "") then Error 400 "key query param is required"
  else ValuesOk key (prefix_filter query (AttributeValues (List r) key)).

End handler.

(** ** Lookup by uid in a list of rows *)

Definition find_uid (id : string) (l : list Agent) : option Agent :=
  head (filter (λ a, InstanceUID a = id) l).

(** ** POST /api/jobs *)

(** The fields [createJob] fills in; the database sets the others. *)
Definition new_job (req : createJobRequest) : Job :=
  mkJob "" (req_Filter req) (req_Action req) (req_ActionConfig req) "" None
    (req_SubmittedBy req) time_zero None None None.

(** [jobs] is absent without a database; [CreateJob] may fail. *)
Definition createJob (decode : string → option createJobRequest)
    (jobs : option (Job → option Job)) (body : string) : response :=
  match jobs with
  | None => Error 503 "jobs require a configured database"
  | Some CreateJob =>
      match decode body with
      | None => Error 400 "malformed request body"
      | Some req =>
          if bool_decide (req_Filter req = "") then Error 400 "filter is required"
          else if bool_decide (req_Action req = "") then Error 400 "action is required"
          else if bool_decide (req_SubmittedBy req = "") then Error 400 "submitted_by is required"
          else match CreateJob (new_job req) with
               | None => Error 500 "create job failed"
               | Some created => JobCreated created
               end
      end
  end.

(** ** Lemmas: pages *)

Lemma parsePagination_bounds q limit offset :
  parsePagination q = inr (limit, offset) → 1 ≤ limit ≤ maxLimit ∧ 0 ≤ offset.
Proof.
  unfold parsePagination, defaultLimit, maxLimit.
  destruct (if bool_decide (query_Get q "limit" = "") then _ else _) as [l|] eqn:Hl; [|done].
  destruct (if bool_decide (query_Get q "offset" = "") then _ else _) as [o|] eqn:Ho; [|done].
  intros [= <- <-]. split.
  - clear Ho. case_bool_decide; [simplify_eq; lia|]. destruct (Atoi _) as [n|]; [|done].
    destruct (Z.leb_spec n 0); simplify_eq; lia.
  - clear Hl. case_bool_decide; [simplify_eq; lia|]. destruct (Atoi _) as [n|]; [|done].
    destruct (Z.ltb_spec n 0); simplify_eq; lia.
Qed.

Lemma NoDup_uid_filter (P : Agent → Prop) `{∀ a, Decision (P a)} (l : list Agent) :
  NoDup (InstanceUID <$> l) → NoDup (InstanceUID <$> filter P l).
Proof. intros Hnd. eapply sublist_NoDup; [exact Hnd|]. apply fmap_sublist, sublist_filter. Qed.

Lemma MatchingAgents_filter `{RE : Regexp, MR : MapRange} l f :
  MatchingAgents l f = filter (λ a, AgentMatches a f = true) l.
Proof.
  unfold MatchingAgents, Filters_Empty. destruct (_ && _) eqn:He; [|done].
  apply andb_true_iff in He as [Hm%bool_decide_eq_true Hb%bool_decide_eq_true].
  symmetry. induction l as [|a l IH]; [done|]. rewrite filter_cons, IH, decide_True; [done|].
  apply AgentMatches_sat. split.
  - apply nil_length_inv in Hm. rewrite Hm. constructor.
  - intros key b. by rewrite Hb, lookup_empty.
Qed.

Section proofs.
Context `{PB : Protobuf, UU : UUID, MR : MapRange, GS : GoSort, RE : Regexp, UN : Unicode}.

Lemma list_page_spec agents limit offset :
  NoDup (InstanceUID <$> agents) → 1 ≤ limit → 0 ≤ offset →
  list_page agents limit offset =
    take (Z.to_nat limit) (drop (Z.to_nat offset) (sortByInstanceUID agents)).
Proof.
  intros Hnd Hl Ho. unfold list_page. rewrite pageByInstanceUID_slice by (done || lia).
  assert (length (sortByInstanceUID agents) = length agents) as Hlen by apply SortFunc_length.
  unfold slice. destruct (Z.le_gt_cases offset (zlen agents)).
  - rewrite (Z.min_l offset) by lia. destruct (Z.le_gt_cases (offset + limit) (zlen agents)).
    + f_equal. lia.
    + rewrite !take_ge by (rewrite length_drop; lia). done.
  - rewrite (Z.min_r offset) by lia. rewrite !drop_ge by lia. by rewrite !take_nil.
Qed.

(** The rows a store reads have distinct uids: they are its primary key. *)
Definition rows_distinct (db : option (option (list Agent))) : Prop :=
  ∀ rows, db = Some (Some rows) → NoDup (InstanceUID <$> rows).

Lemma fleet_view_NoDup now db r :
  wf r → rows_distinct db → NoDup (InstanceUID <$> (fleet_view now db r).1.1).
Proof.
  intros Hwf Hdb. unfold fleet_view. destruct db as [[rows|]|]; simpl.
  - apply MergeAgents_NoDup; [by apply List_NoDup_uid|by apply Hdb].
  - by apply List_NoDup_uid.
  - by apply List_NoDup_uid.
Qed.

Lemma find_uid_app id l l' :
  find_uid id (l ++ l') = match find_uid id l with Some a => Some a | None => find_uid id l' end.
Proof.
  unfold find_uid. rewrite filter_app. by destruct (filter _ l).
Qed.

Lemma find_uid_None id l : find_uid id l = None ↔ id ∉ (InstanceUID <$> l).
Proof.
  unfold find_uid. induction l as [|a l IH]; [by split; [intros _; apply not_elem_of_nil|]|].
  rewrite filter_cons, fmap_cons, not_elem_of_cons. case_decide as Ha; simpl.
  - split; [done|]. intros [? _]. congruence.
  - rewrite IH. split; [by split|by intros [_ ?]].
Qed.

(** The local agents hold what [Get] finds. *)
Lemma find_uid_List id r : wf r → find_uid id (List r) = Get r id.
Proof.
  intros Hwf. destruct (find_uid id (List r)) as [a|] eqn:Hf.
  - unfold find_uid in Hf. apply head_Some_elem_of, list_elem_of_filter in Hf as [Hid Ha].
    apply elem_of_List in Ha; [|done]. by rewrite Get_flat, <-Hid.
  - apply find_uid_None in Hf. symmetry. destruct (Get r id) as [a|] eqn:Hg; [|done].
    destruct Hf. pose proof (Get_uid r id a Hwf Hg) as <-.
    apply list_elem_of_fmap_2. rewrite elem_of_List, <-Get_flat by done. done.
Qed.

(** A row the merge adds, looked up by uid. *)
Lemma find_uid_merge seen now d id rows :
  NoDup (InstanceUID <$> rows) →
  find_uid id (omap (merge_db seen now d) rows) = find_uid id rows ≫= merge_db seen now d.
Proof.
  induction rows as [|a rows IH]; intros Hnd; [done|].
  rewrite fmap_cons in Hnd. apply NoDup_cons in Hnd as [Hn Hnd]. csimpl.
  unfold find_uid at 2. rewrite filter_cons. fold (find_uid id rows).
  case_decide as Hid; cbn [head mbind option_bind].
  - destruct (merge_db seen now d a) as [a'|] eqn:Ha.
    + pose proof (merge_db_uid _ _ _ _ _ Ha). unfold find_uid. rewrite filter_cons.
      by rewrite decide_True by congruence.
    + rewrite (IH Hnd).
      assert (find_uid id rows = None) as -> by (apply find_uid_None; by rewrite <-Hid). done.
  - destruct (merge_db seen now d a) as [a'|] eqn:Ha; [|by apply IH].
    pose proof (merge_db_uid _ _ _ _ _ Ha). unfold find_uid at 1. rewrite filter_cons.
    rewrite decide_False by congruence. by apply IH.
Qed.

Lemma status_foldl l st :
  let st' := foldl status_agent st l in
  fs_Total st' = fs_Total st ∧
  fs_Connected st' = fs_Connected st + Z.of_nat (count Connected l) ∧
  fs_Disconnected st' = fs_Disconnected st + Z.of_nat (count (λ a, negb (Connected a)) l) ∧
  fs_HealthUnknown st' = fs_HealthUnknown st + Z.of_nat (count (λ a, negb (HealthReported a)) l) ∧
  fs_Healthy st' = fs_Healthy st + Z.of_nat (count (λ a, HealthReported a && Healthy a) l) ∧
  fs_Unhealthy st' = fs_Unhealthy st +
    Z.of_nat (count (λ a, HealthReported a && negb (Healthy a)) l) ∧
  fs_AwaitingFullState st' = fs_AwaitingFullState st +
    Z.of_nat (count (λ a, negb (DescriptionReported a)) l).
Proof.
  revert st. induction l as [|a l IH]; intros st.
  - rewrite !count_nil. simpl. split_and!; lia.
  - cbv zeta. cbn [foldl].
    destruct (IH (status_agent st a)) as (-> & -> & -> & -> & -> & -> & ->).
    rewrite !count_cons. unfold status_agent.
    destruct (Connected a), (DescriptionReported a), (HealthReported a), (Healthy a);
      simpl; split_and!; lia.
Qed.

End proofs.

(** ** The claims *)

Section claims.
Context `{PB : Protobuf, UU : UUID, MR : MapRange, GS : GoSort, RE : Regexp, UN : Unicode}
        (bits : CapabilityBits).

(** C30: [GET /api/agents].  A request is answered 400 exactly when its
    pagination or a filter does not parse; otherwise the page is the window
    [offset, offset+limit) of the matching agents sorted by uid, the total is
    their number, the limit is between 1 and 1000, and the answer is partial,
    and counted so, exactly when a configured store failed. *)
Theorem listAgents_correct now db query r :
  wf r → rows_distinct db →
  let w := listAgents bits now db query r in
  match parsePagination query, ParseFilters query with
  | inr (limit, offset), inr f =>
      let m := (fleet_view now db r).1 in
      let sorted := sortByInstanceUID (filter (λ a, AgentMatches a f = true) m.1) in
      1 ≤ limit ≤ maxLimit ∧ 0 ≤ offset ∧
      w.1 = ListOk (mkListResponse
        (SummaryView bits <$> take (Z.to_nat limit) (drop (Z.to_nat offset) sorted))
        (zlen sorted) limit offset (bool_decide (db = Some None))) ∧
      w.2 = (if bool_decide (db = Some None) then [ListStoreFallbackFailed "api"] else [])
  | _, _ => ∃ message, w = mret (Error 400 message)
  end.
Proof.
  intros Hwf Hdb w. unfold w, listAgents.
  destruct (parsePagination query) as [e|[limit offset]] eqn:Hp; [by eexists|].
  destruct (ParseFilters query) as [e|f]; [by eexists|].
  destruct (parsePagination_bounds _ _ _ Hp) as [Hl Ho].
  pose proof (fleet_view_NoDup now db r Hwf Hdb) as Hnd.
  assert ((fleet_view now db r).1.2 = bool_decide (db = Some None) ∧
    (fleet_view now db r).2 =
      if bool_decide (db = Some None) then [ListStoreFallbackFailed "api"] else []) as [Hpart Hev].
  { unfold fleet_view. by destruct db as [[rows|]|]. }
  cbv zeta. rewrite fst_bind, snd_bind, MatchingAgents_filter, Hpart, Hev.
  rewrite list_page_spec by (try apply NoDup_uid_filter; done || lia).
  split_and!; [lia|lia|lia| |by rewrite app_nil_r].
  unfold sortByInstanceUID. by rewrite SortFunc_length.
Qed.

(** The detail endpoint agrees with the list.  Over a store that reads
    the same rows, [GET /api/agents/{id}] answers with the agent of that uid
    in the merged fleet, and 404 exactly when the merged fleet has none. *)
Theorem getAgent_agrees now rows id r :
  wf r → NoDup (InstanceUID <$> rows) → id ≠ "" →
  getAgent bits now (Some (λ id, Some (find_uid id rows))) id r =
    match find_uid id (fleet_view now (Some (Some rows)) r).1.1 with
    | Some a => DetailOk (DetailView bits a)
    | None => Error 404 "agent not found"
    end.
Proof.
  intros Hwf Hnd Hid. unfold getAgent, fleet_view.
  rewrite bool_decide_eq_false_2 by done. cbn [fst mret writer_ret].
  unfold MergeAgents. rewrite find_uid_app, find_uid_List by done.
  destruct (Get r id) as [a|] eqn:Hg; [done|].
  rewrite find_uid_merge by done.
  destruct (find_uid id rows) as [a|] eqn:Hf; [|done]. cbn [mbind option_bind].
  assert (InstanceUID a = id) as Ha.
  { unfold find_uid in Hf. by apply head_Some_elem_of, list_elem_of_filter in Hf as [? _]. }
  unfold merge_db.
  rewrite (bool_decide_eq_false_2 (InstanceUID a ∈ _)).
  - destruct (EvictedAt a); [done|]. simpl. by destruct (StaleConnected _ _ _).
  - rewrite Ha. apply find_uid_None. by rewrite find_uid_List.
Qed.

(** The status figures add up and agree with the metrics: connected and
    disconnected partition the fleet, so do healthy, unhealthy and unknown,
    and total, disconnected and awaiting-full-state are [Aggregate]'s. *)
Theorem status_consistent now startedAt r :
  match status now startedAt r with
  | StatusOk body =>
      let s := sr_Fleet body in
      let g := Aggregate r in
      fs_Total s = fs_Connected s + fs_Disconnected s ∧
      fs_Total s = fs_Healthy s + fs_Unhealthy s + fs_HealthUnknown s ∧
      fs_Total s = Size g ∧ fs_Disconnected s = Disconnected g ∧
      fs_AwaitingFullState s = AwaitingFullState g
  | _ => False
  end.
Proof.
  unfold status. cbn [sr_Fleet].
  destruct (status_foldl (List r) (mkFleetStats_ (zlen (List r)) 0 0 0 0 0 0))
    as (-> & -> & -> & -> & -> & -> & ->).
  rewrite Aggregate_entries.
  destruct (Aggregate_foldl (List r) zero_FleetStats) as (-> & _ & -> & _ & _ & ->).
  pose proof (count_negb Connected (List r)). pose proof (count_negb HealthReported (List r)).
  pose proof (count_split HealthReported Healthy (List r)).
  simpl. split_and!; lia.
Qed.

(** A job's targets are partitioned by supervision, in order, nothing
    dropped: accepted are the supervisor-managed agents, rejected the others,
    each with the reason. *)
Theorem PartitionJobTargets_correct agents :
  PartitionJobTargets agents =
    (InstanceUID <$> filter (λ a, SupervisorManaged a = true) agents,
     (λ a, mkRejectedTarget (InstanceUID a) RejectionReasonNotSupervisorManaged) <$>
       filter (λ a, SupervisorManaged a = false) agents).
Proof.
  induction agents as [|a agents IH]; [done|]. cbn [PartitionJobTargets]. rewrite IH.
  rewrite !filter_cons. by destruct (SupervisorManaged a).
Qed.

End claims.

(** ** Witnesses *)

#[export] Instance lower1 : Unicode := {| map_lower s := s; IsPrint _ := false |}.

Definition bits1 : CapabilityBits :=
  Build_CapabilityBits 1 2 4 8 16 32 64 128 256 512 1024 2048 4096 8192 16384 32768.

Definition row1 : Agent := (agent_uid "row") <| Connected := true |>.

Lemma listAgents_correct_witness :
  let q : url_Values := {["limit" := ["1"]]} in
  let r := (Report 0 msg1 meta1 (New cfg1)).1 in
  match (listAgents bits1 0 (Some (Some [row1])) q r).1 with
  | ListOk b => lr_Total b = 2 ∧ length (lr_Agents b) = 1%nat ∧ lr_Partial b = false
  | _ => False
  end.
Proof.
  intros q r.
  assert (wf r) as Hwf by (apply (act_wf (ActReport 0 msg1 meta1)); by apply wf_New).
  assert (rows_distinct (Some (Some [row1]))) as Hdb.
  { intros rows [= <-]. apply NoDup_singleton. }
  pose proof (listAgents_correct bits1 0 (Some (Some [row1])) q r Hwf Hdb) as H.
  assert (parsePagination q = inr (1, 0)) as Hp by (vm_compute; reflexivity).
  assert (ParseFilters q = inr (mkFilters [] ∅)) as Hf by (vm_compute; reflexivity).
  rewrite Hp, Hf in H. destruct H as (_ & _ & H & _). rewrite H.
  vm_compute. repeat split.
Defined.

Lemma getAgent_agrees_witness :
  let r := (Report 0 msg1 meta1 (New cfg1)).1 in
  getAgent bits1 (10 ^ 20) (Some (λ id, Some (find_uid id [row1]))) "row" r =
    DetailOk (DetailView bits1 (row1 <| Connected := false |>)).
Proof.
  intros r.
  assert (wf r) as Hwf by (apply (act_wf (ActReport 0 msg1 meta1)); by apply wf_New).
  rewrite (getAgent_agrees bits1 (10 ^ 20) [row1] "row" r Hwf);
    [vm_compute; reflexivity|apply NoDup_singleton|discriminate].
Defined.
