(* ===== verification/Store.v ===== *)
(** * Package persistence: the Postgres store

    internal/persistence/postgres.go, purge.go and the upsert of
    agent_connections.go; the other operations on agent_connections, and those
    of jobs.go and permissions.go, are in Jobs.v.  [DB] holds the tables of the
    migrations; a statement is its effect on them, [None] when Postgres refuses
    it (a foreign key).
    Text and JSON columns keep what they are given; a timestamptz column keeps
    [pg_time t], the instant at the column's precision ([PgTime], monotone).
    Losing the connection leaves the tables as they were, as a rolled back
    transaction does. *)

From Stdlib Require Import ZArith Lia.
From S2P Require Import Prelude GoLang Fleet Registry Api.
Local Open Scope Z_scope.

(** ** Columns *)

(** What reading a timestamptz column gives back for what was written. *)
Class PgTime := {
  pg_time : Time → Time;
  pg_time_mono t u : t ≤ u → pg_time t ≤ pg_time u
}.

Record agents_row := mkAgentsRow {
  ar_first_seen : Time;
  ar_last_seen : Time;
  ar_healthy : bool;
  ar_health_error : string;
  ar_health_status : string;
  ar_health_start_time : option Time;
  ar_health_status_time : option Time;
  ar_health_reported : bool;
  ar_capabilities : Z;
  ar_identifying : gmap string string;
  ar_non_identifying : gmap string string;
  ar_missing_attributes : list string;
  ar_reserved_attribute_conflicts : list string;
  ar_packages : gmap string Package;
  ar_updated_at : Time;
  ar_evicted_at : option Time
}.

#[export] Instance eta_agents_row : Eta agents_row := λ r,
  mkAgentsRow (ar_first_seen r) (ar_last_seen r) (ar_healthy r) (ar_health_error r)
    (ar_health_status r) (ar_health_start_time r) (ar_health_status_time r)
    (ar_health_reported r) (ar_capabilities r) (ar_identifying r) (ar_non_identifying r)
    (ar_missing_attributes r) (ar_reserved_attribute_conflicts r) (ar_packages r)
    (ar_updated_at r) (ar_evicted_at r).

Record session_row := mkSessionRow {
  sr_connected : bool;
  sr_remote_addr : string;
  sr_tls_subject : string;
  sr_via_gateway : bool;
  sr_transport : string;
  sr_description_reported : bool;
  sr_sequence_num : Z;
  sr_updated_at : Time
}.

Record AgentConnection := mkAgentConnection {
  ac_InstanceUID : string;
  ac_ReplicaID : string;
  ac_ReplicaLabel : string;
  ac_ConnectedAt : Time;
  ac_LastSeen : Time
}.

Record RoleMapping := mkRoleMapping {
  rm_ID : Z;
  rm_IdentityKind : string;
  rm_IdentityValue : string;
  rm_Match : string;
  rm_Role : string;
  rm_TenantID : string;
  rm_CreatedAt : Time;
  rm_UpdatedAt : Time
}.

(** A role_mapping row: the tenant is nullable. *)
Record role_row := mkRoleRow {
  rr_id : Z;
  rr_identity_kind : string;
  rr_identity_value : string;
  rr_match : string;
  rr_role : string;
  rr_tenant_id : option string;
  rr_created_at : Time;
  rr_updated_at : Time
}.

Record JobTarget := mkJobTarget {
  jt_ID : Z;
  jt_JobID : string;
  jt_InstanceUID : string;
  jt_Status : string;
  jt_Reason : option string;
  jt_DispatchedAt : option Time;
  jt_CompletedAt : option Time
}.

Record NewJobTarget := mkNewJobTarget {
  nt_InstanceUID : string;
  nt_Status : string;
  nt_Reason : option string
}.

Record DB := mkDB {
  t_agents : gmap string agents_row;
  t_session : gmap string session_row;
  (* agent_effective_config, by uid and then filename *)
  t_config : gmap string (gmap string string);
  t_connections : gmap string AgentConnection;
  t_jobs : list Job;
  t_job_targets : list JobTarget;
  t_role_mapping : list role_row
}.

#[export] Instance eta_DB : Eta DB := λ d,
  mkDB (t_agents d) (t_session d) (t_config d) (t_connections d) (t_jobs d)
    (t_job_targets d) (t_role_mapping d).

Definition empty_DB : DB := mkDB ∅ ∅ ∅ ∅ [] [] [].

Section store.
Context `{PgTime}.

(** ** Writing an agent *)

(** [nullTime]: the zero instant is NULL. *)
Definition nullTime (t : Time) : option Time := if IsZero t then None else Some (pg_time t).

(** The VALUES of the agents statement; a new row has no [evicted_at]. *)
Definition agents_values (agent : Agent) : agents_row :=
  mkAgentsRow (pg_time (FirstSeen agent)) (pg_time (LastSeen agent)) (Healthy agent)
    (HealthError agent) (HealthStatus agent) (nullTime (HealthStartTime agent))
    (nullTime (HealthStatusTime agent)) (HealthReported agent)
    (int64 (AgentCapabilities agent)) (Identifying agent) (NonIdentifying agent)
    (MissingAttributes agent) (ReservedAttributeConflicts agent) (Packages agent)
    (pg_time (LastSeen agent)) None.

(** ON CONFLICT DO UPDATE SET: every column of the list, so not [first_seen]
    and not [evicted_at]. *)
Definition agents_update (row excluded : agents_row) : agents_row :=
  excluded <| ar_first_seen := ar_first_seen row |>
    <| ar_evicted_at := ar_evicted_at row |>.

(** The guarded upsert, with the number of rows affected. *)
Definition upsert_agents (agent : Agent) (d : DB) : DB * bool :=
  let excluded := agents_values agent in
  match t_agents d !! InstanceUID agent with
  | None => (d <| t_agents := <[InstanceUID agent := excluded]> (t_agents d) |>, true)
  | Some row =>
      if ar_updated_at row <? ar_updated_at excluded
      then (d <| t_agents := <[InstanceUID agent := agents_update row excluded]> (t_agents d) |>,
            true)
      else (d, false)
  end.

Definition session_values (agent : Agent) : session_row :=
  mkSessionRow (Connected agent) (RemoteAddr (Conn agent)) (TLSSubject (Conn agent))
    (ViaGateway (Conn agent)) (Transport (Conn agent)) (DescriptionReported agent)
    (int64 (SequenceNum agent)) (pg_time (LastSeen agent)).

(** [saveSessionUpsert]: ties land; the foreign key needs the agents row. *)
Definition saveSessionUpsert (agent : Agent) (d : DB) : option DB :=
  let excluded := session_values agent in
  match t_session d !! InstanceUID agent with
  | None =>
      match t_agents d !! InstanceUID agent with
      | None => None
      | Some _ => Some (d <| t_session := <[InstanceUID agent := excluded]> (t_session d) |>)
      end
  | Some row =>
      if sr_updated_at row <=? sr_updated_at excluded
      then Some (d <| t_session := <[InstanceUID agent := excluded]> (t_session d) |>)
      else Some d
  end.

(** DELETE then one INSERT per file. *)
Definition replace_config (agent : Agent) (d : DB) : DB :=
  d <| t_config := <[InstanceUID agent := EffectiveConfig agent]> (t_config d) |>.

(** One transaction. *)
Definition SaveAgent (agent : Agent) (d : DB) : option DB :=
  let '(d, agentsUpdated) := upsert_agents agent d in
  d ← saveSessionUpsert agent d;
  Some (if agentsUpdated then replace_config agent d else d).

Definition SaveSession (agent : Agent) (d : DB) : option DB := saveSessionUpsert agent d.

(** ** Deleting *)

Definition DeleteAgent (uid : string) (d : DB) : DB :=
  d <| t_agents := delete uid (t_agents d) |>
    <| t_session := delete uid (t_session d) |>
    <| t_config := delete uid (t_config d) |>.

Definition SoftDeleteAgent (uid : string) (evictedAt : Time) (d : DB) : DB :=
  match t_agents d !! uid with
  | Some row =>
      match ar_evicted_at row with
      | None => d <| t_agents :=
          <[uid := row <| ar_evicted_at := Some (pg_time evictedAt) |>]> (t_agents d) |>
      | Some _ => d
      end
  | None => d
  end.

(** [PurgeWorker.Work]: the row survives unless it was evicted before the
    cutoff; the other tables cascade.  The count goes to [AgentsPurged]. *)
Definition survives (before : Time) (row : agents_row) : bool :=
  match ar_evicted_at row with
  | Some t => negb (t <? pg_time before)
  | None => true
  end.

Definition purge (before : Time) (d : DB) : DB * Z :=
  let keep := filter (λ p : string * agents_row, survives before p.2 = true) (t_agents d) in
  let kept {A} (m : gmap string A) := filter (λ p : string * A, is_Some (keep !! p.1)) m in
  (d <| t_agents := keep |> <| t_session := kept (t_session d) |>
     <| t_config := kept (t_config d) |>,
   Z.of_nat (size (t_agents d)) - Z.of_nat (size keep)).

(** ** Reading *)

(** A row of the LEFT JOIN, scanned: a missing session leaves
    [description_reported] and [sequence_num] NULL, which do not scan. *)
Definition scanAgent (uid : string) (row : agents_row) (s : option session_row)
    (cfg : option (gmap string string)) : option Agent :=
  match s with
  | None => None
  | Some s =>
      Some (mkAgent uid (uint64 (sr_sequence_num s)) (ar_identifying row)
        (ar_non_identifying row) (uint64 (ar_capabilities row)) (ar_healthy row)
        (ar_health_error row) (ar_health_status row)
        (default time_zero (ar_health_start_time row))
        (default time_zero (ar_health_status_time row))
        (ar_health_reported row) (sr_description_reported s) (default ∅ cfg)
        (ar_packages row)
        (mkConnMeta (sr_remote_addr s) (sr_tls_subject s) (sr_via_gateway s) (sr_transport s))
        (sr_connected s) (ar_first_seen row) (ar_last_seen row)
        (ar_missing_attributes row) (ar_reserved_attribute_conflicts row)
        (ar_evicted_at row) (sr_updated_at s))
  end.

Definition scan_uid (d : DB) (uid : string) (row : agents_row) : option Agent :=
  scanAgent uid row (t_session d !! uid) (t_config d !! uid).

(** [GetAgent]: an error, no row, or the agent. *)
Definition GetAgent (uid : string) (d : DB) : option (option Agent) :=
  match t_agents d !! uid with
  | None => Some None
  | Some row => a ← scan_uid d uid row; Some (Some a)
  end.

(** [ListAgents], ordered by uid: one row that does not scan is an error. *)
Fixpoint scan_all (d : DB) (rows : list (string * agents_row)) : option (list Agent) :=
  match rows with
  | [] => Some []
  | (uid, row) :: rows => a ← scan_uid d uid row; l ← scan_all d rows; Some (a :: l)
  end.

Definition uid_order {A} (p q : string * A) : Prop := cmp_le string_Compare p.1 q.1.

#[export] Instance uid_order_dec {A} (p q : string * A) : Decision (uid_order p q).
Proof. unfold uid_order. apply _. Defined.

Definition ListAgents (d : DB) : option (list Agent) :=
  scan_all d (merge_sort uid_order (map_to_list (t_agents d))).

(** ** agent_connections *)

Definition UpsertAgentConnection (c : AgentConnection) (d : DB) : DB :=
  let connected_at := match t_connections d !! ac_InstanceUID c with
    | Some row => if bool_decide (ac_ReplicaID row = ac_ReplicaID c)
                  then ac_ConnectedAt row else pg_time (ac_ConnectedAt c)
    | None => pg_time (ac_ConnectedAt c)
    end in
  d <| t_connections := <[ac_InstanceUID c :=
         mkAgentConnection (ac_InstanceUID c) (ac_ReplicaID c) (ac_ReplicaLabel c)
           connected_at (pg_time (ac_LastSeen c))]> (t_connections d) |>.

(** ** Batches *)

(** [SendBatch]: pgx runs a batch in one implicit transaction.  Each statement
    before the first refused one reports success, it and all later ones an
    error, and then nothing is kept. *)
Fixpoint run_batch (stmts : list (DB → option DB)) (d : DB) : list bool * option DB :=
  match stmts with
  | [] => ([], Some d)
  | s :: stmts =>
      match s d with
      | Some d => let '(oks, d) := run_batch stmts d in (true :: oks, d)
      | None => (replicate (S (length stmts)) false, None)
      end
  end.

Definition SendBatch (stmts : list (DB → option DB)) (d : DB) : list bool * DB :=
  let '(oks, d') := run_batch stmts d in (oks, default d d').

(** ** Invariant: every agents row has its session, and no other row dangles *)

Record db_ok (d : DB) : Prop := {
  db_session : dom (t_session d) = dom (t_agents d);
  db_config : dom (t_config d) ⊆ dom (t_agents d)
}.

(** The writers of the agent tables. *)
Inductive write :=
  | WSaveAgent (a : Agent)
  | WSaveSession (a : Agent)
  | WSoftDelete (uid : string) (at_ : Time)
  | WDelete (uid : string)
  | WPurge (before : Time).

(** A refused statement changes nothing. *)
Definition do_write (w : write) (d : DB) : DB :=
  match w with
  | WSaveAgent a => default d (SaveAgent a d)
  | WSaveSession a => default d (SaveSession a d)
  | WSoftDelete uid t => SoftDeleteAgent uid t d
  | WDelete uid => DeleteAgent uid d
  | WPurge before => (purge before d).1
  end.

Definition do_writes (l : list write) (d : DB) : DB := foldl (λ d w, do_write w d) d l.

(** *** Observations *)

(** What [GetAgent] gives back for [a], over what the row held before. *)
Definition stored (a : Agent) (before : option agents_row) : Agent :=
  a <| FirstSeen := default (pg_time (FirstSeen a)) (ar_first_seen <$> before) |>
    <| LastSeen := pg_time (LastSeen a) |>
    <| HealthStartTime := default time_zero (nullTime (HealthStartTime a)) |>
    <| HealthStatusTime := default time_zero (nullTime (HealthStatusTime a)) |>
    <| EvictedAt := before ≫= ar_evicted_at |>
    <| SessionUpdatedAt := pg_time (LastSeen a) |>.

Definition event_time (a : Agent) : Time := pg_time (LastSeen a).

(** An agents row up to the column the upsert never moves. *)
Definition forget_first_seen (r : agents_row) : agents_row := r <| ar_first_seen := 0 |>.

Definition save_all (l : list Agent) (d : DB) : DB := do_writes (WSaveAgent <$> l) d.

(** [a] is the newest write for [u] in [l]. *)
Definition newest (u : string) (l : list Agent) (a : Agent) : Prop :=
  a ∈ l ∧ InstanceUID a = u ∧
  ∀ b, b ∈ l → InstanceUID b = u → event_time b ≤ event_time a.

(** The rows of [u] are those of the newest of its writes. *)
Definition reflects (u : string) (l : list Agent) (d : DB) : Prop :=
  (Forall (λ a, InstanceUID a ≠ u) l ∧ t_agents d !! u = None ∧ t_session d !! u = None ∧
   t_config d !! u = None) ∨
  ∃ a, newest u l a ∧
    forget_first_seen <$> t_agents d !! u = Some (forget_first_seen (agents_values a)) ∧
    t_session d !! u = Some (session_values a) ∧
    t_config d !! u = Some (EffectiveConfig a).

(** Writes that do not remove the row of [u]. *)
Definition keeps_row (u : string) (w : write) : Prop :=
  match w with
  | WSaveAgent _ | WSaveSession _ | WSoftDelete _ _ => True
  | WDelete u' => u' ≠ u
  | WPurge _ => False
  end.

(** ** Lemmas *)

(** What a save leaves in each table. *)
Lemma SaveAgent_spec a d :
  db_ok d →
  ∃ d', SaveAgent a d = Some d' ∧
  let u := InstanceUID a in
  let newer := match t_agents d !! u with
               | None => true | Some row => ar_updated_at row <? event_time a end in
  t_agents d' = (if newer then <[u := match t_agents d !! u with
      | None => agents_values a | Some row => agents_update row (agents_values a) end]> (t_agents d)
    else t_agents d) ∧
  t_session d' = (if match t_session d !! u with
      | None => true | Some row => sr_updated_at row <=? event_time a end
    then <[u := session_values a]> (t_session d) else t_session d) ∧
  t_config d' = (if newer then <[u := EffectiveConfig a]> (t_config d) else t_config d).
Proof.
  intros Hok. unfold SaveAgent, upsert_agents, saveSessionUpsert.
  assert (t_session d !! InstanceUID a = None ↔ t_agents d !! InstanceUID a = None) as Hdom.
  { rewrite <-!not_elem_of_dom. by rewrite (db_session d Hok). }
  destruct (t_agents d !! InstanceUID a) as [row|] eqn:Ha.
  - destruct (t_session d !! InstanceUID a) as [s|] eqn:Hs; [|by destruct Hdom as [Hd _]; specialize (Hd eq_refl)].
    unfold event_time. simpl.
    destruct (ar_updated_at row <? pg_time (LastSeen a)); simpl; rewrite Hs; simpl;
      destruct (sr_updated_at s <=? pg_time (LastSeen a)); simpl; by eexists.
  - destruct (t_session d !! InstanceUID a) as [s|] eqn:Hs; [by destruct Hdom as [_ Hd]; specialize (Hd eq_refl)|].
    simpl. rewrite Hs, lookup_insert_eq. simpl. by eexists.
Qed.

Lemma SaveAgent_ok a d d' : db_ok d → SaveAgent a d = Some d' → db_ok d'.
Proof.
  intros Hok Hs. destruct (SaveAgent_spec a d Hok) as (d1 & Hs' & Ha & Hse & Hc).
  rewrite Hs in Hs'. injection Hs' as <-. destruct Hok as [H1 H2].
  assert (InstanceUID a ∈ dom (t_agents d) ∨ t_agents d !! InstanceUID a = None) as Hin.
  { destruct (t_agents d !! InstanceUID a) eqn:E; [left; by apply elem_of_dom_2 in E|by right]. }
  assert (t_agents d !! InstanceUID a = None → t_session d !! InstanceUID a = None) as Hnone.
  { rewrite <-!not_elem_of_dom. by rewrite H1. }
  split; rewrite ?Ha, ?Hse, ?Hc.
  - destruct (t_agents d !! InstanceUID a) as [row|].
    + destruct Hin as [Hin|]; [|done].
      destruct (ar_updated_at row <? _), (t_session d !! InstanceUID a) as [s|];
        try destruct (sr_updated_at s <=? _); rewrite ?dom_insert_L; set_solver.
    + rewrite Hnone by done. rewrite !dom_insert_L. set_solver.
  - destruct (t_agents d !! InstanceUID a) as [row|];
      [destruct (ar_updated_at row <? _)|]; rewrite ?dom_insert_L; set_solver.
Qed.

Lemma SaveSession_ok a d d' : db_ok d → SaveSession a d = Some d' → db_ok d'.
Proof.
  intros [H1 H2]. unfold SaveSession, saveSessionUpsert.
  destruct (t_session d !! InstanceUID a) as [s|] eqn:Hs.
  - apply elem_of_dom_2 in Hs. destruct (_ <=? _); intros [= <-]; split; simpl; try done.
    rewrite dom_insert_L. set_solver.
  - destruct (t_agents d !! InstanceUID a) as [row|] eqn:Ha; [|done].
    apply elem_of_dom_2 in Ha. intros [= <-]. split; simpl; [|done].
    rewrite dom_insert_L. set_solver.
Qed.

Lemma dom_filter_rows {A B} (m : gmap string A) (keep : gmap string B) :
  dom (filter (λ p : string * A, is_Some (keep !! p.1)) m) = dom m ∩ dom keep.
Proof.
  apply set_eq. intros u. rewrite elem_of_intersection, !elem_of_dom. split.
  - intros [x [Hx Hk]%map_lookup_filter_Some]. split; [by eexists|done].
  - intros [[x Hx] Hk]. exists x. by apply map_lookup_filter_Some.
Qed.

Lemma do_write_ok w d : db_ok d → db_ok (do_write w d).
Proof.
  intros Hok. destruct w as [a|a|uid t|uid|before]; simpl.
  - destruct (SaveAgent a d) as [d'|] eqn:E; [by eapply SaveAgent_ok|done].
  - destruct (SaveSession a d) as [d'|] eqn:E; [by eapply SaveSession_ok|done].
  - unfold SoftDeleteAgent. destruct (t_agents d !! uid) as [row|] eqn:Ha; [|done].
    destruct (ar_evicted_at row); [done|]. destruct Hok as [H1 H2]. apply elem_of_dom_2 in Ha.
    split; simpl; rewrite dom_insert_L; set_solver.
  - destruct Hok as [H1 H2]. split; simpl; rewrite !dom_delete_L; set_solver.
  - destruct Hok as [H1 H2]. split; simpl; rewrite !dom_filter_rows.
    + rewrite H1. set (keep := filter _ (t_agents d)).
      assert (dom keep ⊆ dom (t_agents d)) by apply dom_filter_subseteq. set_solver.
    + set_solver.
Qed.

Lemma do_writes_ok l d : db_ok d → db_ok (do_writes l d).
Proof. revert d. induction l as [|w l IH]; intros d Hok; [done|]. by apply IH, do_write_ok. Qed.

Lemma empty_DB_ok : db_ok empty_DB.
Proof. split; set_solver. Qed.

(** Under the invariant every row scans. *)
Lemma scan_uid_ok d uid row :
  db_ok d → t_agents d !! uid = Some row → is_Some (scan_uid d uid row).
Proof.
  intros Hok Ha. apply elem_of_dom_2 in Ha. rewrite <-(db_session d Hok) in Ha.
  apply elem_of_dom in Ha as [s Hs]. unfold scan_uid. rewrite Hs. by eexists.
Qed.

Lemma scan_uid_uid d uid row a : scan_uid d uid row = Some a → InstanceUID a = uid.
Proof. unfold scan_uid, scanAgent. destruct (t_session d !! uid); [|done]. by intros [= <-]. Qed.

Lemma scan_all_ok d rows :
  db_ok d → Forall (λ p, t_agents d !! p.1 = Some p.2) rows →
  ∃ l, scan_all d rows = Some l ∧ InstanceUID <$> l = rows.*1 ∧
    ∀ a, a ∈ l → GetAgent (InstanceUID a) d = Some (Some a).
Proof.
  intros Hok. induction 1 as [|[uid row] rows Hp _ (l & Hl & Hu & Hg)].
  - exists []. split_and!; [done..|]. by intros a ?%not_elem_of_nil.
  - simpl in Hp. destruct (scan_uid_ok d uid row Hok Hp) as [a Ha].
    pose proof (scan_uid_uid _ _ _ _ Ha) as Huid.
    exists (a :: l). simpl. rewrite Ha. simpl. rewrite Hl. simpl. split_and!; [done| |].
    + change (InstanceUID a :: (InstanceUID <$> l) = uid :: rows.*1). congruence.
    + intros b [->|Hb]%elem_of_cons; [|by apply Hg].
      unfold GetAgent. rewrite Huid, Hp, Ha. done.
Qed.


Lemma ListAgents_spec d :
  db_ok d →
  ∃ l, ListAgents d = Some l ∧ (∀ u, u ∈ InstanceUID <$> l ↔ is_Some (t_agents d !! u)) ∧
    NoDup (InstanceUID <$> l) ∧ ∀ a, a ∈ l → GetAgent (InstanceUID a) d = Some (Some a).
Proof.
  intros Hok. unfold ListAgents.
  pose proof (merge_sort_Permutation uid_order (map_to_list (t_agents d))) as Hperm.
  destruct (scan_all_ok d (merge_sort uid_order (map_to_list (t_agents d))) Hok)
    as (l & Hl & Hu & Hg).
  { apply Forall_forall. intros [u row]. rewrite Hperm. by intros ?%elem_of_map_to_list. }
  exists l. split_and!; [done| |  |done].
  - intros u. rewrite Hu, Hperm, list_elem_of_fmap. split.
    + intros ([u' row] & -> & Hin%elem_of_map_to_list). by eexists.
    + intros [row Hrow]. exists (u, row). split; [done|]. by apply elem_of_map_to_list.
  - rewrite Hu, Hperm. apply NoDup_fst_map_to_list.
Qed.

Lemma forget_update row a :
  ar_evicted_at row = None →
  forget_first_seen (agents_update row (agents_values a)) = forget_first_seen (agents_values a).
Proof. intros He. unfold forget_first_seen, agents_update, agents_values. simpl. by rewrite He. Qed.

(** Another agent's save leaves the rows of [u] alone. *)
Lemma SaveAgent_other u a d :
  db_ok d → InstanceUID a ≠ u →
  let d' := do_write (WSaveAgent a) d in
  t_agents d' !! u = t_agents d !! u ∧ t_session d' !! u = t_session d !! u ∧
  t_config d' !! u = t_config d !! u.
Proof.
  intros Hok Hne. simpl. destruct (SaveAgent_spec a d Hok) as (d' & -> & Ha & Hs & Hc). simpl.
  rewrite Ha, Hs, Hc. clear Ha Hs Hc.
  repeat split; repeat case_match; by rewrite ?lookup_insert_ne.
Qed.

(** The rows a save leaves when it is newer than what is stored, and what an
    older one does. *)
Lemma SaveAgent_newer a d :
  db_ok d →
  (∀ row, t_agents d !! InstanceUID a = Some row → ar_updated_at row < event_time a) →
  (∀ s, t_session d !! InstanceUID a = Some s → sr_updated_at s ≤ event_time a) →
  let d' := do_write (WSaveAgent a) d in
  t_agents d' !! InstanceUID a = Some (match t_agents d !! InstanceUID a with
    | None => agents_values a | Some row => agents_update row (agents_values a) end) ∧
  t_session d' !! InstanceUID a = Some (session_values a) ∧
  t_config d' !! InstanceUID a = Some (EffectiveConfig a).
Proof.
  intros Hok Hrow Hses. simpl.
  destruct (SaveAgent_spec a d Hok) as (d' & -> & Ha & Hs & Hc). simpl. rewrite Ha, Hs, Hc.
  assert (match t_agents d !! InstanceUID a with
    | None => true | Some row => ar_updated_at row <? event_time a end = true) as ->.
  { destruct (t_agents d !! InstanceUID a); [|done]. apply Z.ltb_lt, Hrow. done. }
  assert (match t_session d !! InstanceUID a with
    | None => true | Some row => sr_updated_at row <=? event_time a end = true) as ->.
  { destruct (t_session d !! InstanceUID a); [|done]. apply Z.leb_le, Hses. done. }
  by rewrite !lookup_insert_eq.
Qed.

Lemma SaveAgent_older a d row s :
  db_ok d →
  t_agents d !! InstanceUID a = Some row → t_session d !! InstanceUID a = Some s →
  event_time a ≤ ar_updated_at row → event_time a < sr_updated_at s →
  do_write (WSaveAgent a) d = d.
Proof.
  intros Hok Ha Hs Hle Hlt. simpl. unfold SaveAgent, upsert_agents, saveSessionUpsert. rewrite Ha.
  unfold event_time in *. simpl. rewrite (proj2 (Z.ltb_ge _ _)) by done. simpl. rewrite Hs. simpl.
  by rewrite (proj2 (Z.leb_gt _ _)) by done.
Qed.

Lemma reflects_snoc u l a d :
  db_ok d → reflects u l d →
  (InstanceUID a = u → ∀ b, b ∈ l → InstanceUID b = u → event_time b ≠ event_time a) →
  reflects u (l ++ [a]) (do_write (WSaveAgent a) d).
Proof.
  intros Hok Hr Hne. destruct (decide (InstanceUID a = u)) as [Hu|Hu].
  - specialize (Hne Hu). subst u. destruct Hr as [(Hl & Ha & Hs & Hc)|(b & (Hin & Hbu & Hmax) & Ha & Hs & Hc)].
    + right. exists a. destruct (SaveAgent_newer a d Hok) as (Ha' & Hs' & Hc').
      { by rewrite Ha. } { by rewrite Hs. }
      rewrite Ha', Hs', Hc', Ha. split; [|done].
      split_and!; [apply elem_of_app; right; by left|done|].
      intros b [Hb| ->%list_elem_of_singleton]%elem_of_app; [|done].
      by rewrite Forall_forall in Hl; intros ?; destruct (Hl b Hb).
    + right. apply fmap_Some in Ha as (row & Ha & Heq).
      assert (ar_updated_at row = event_time b) as Hup by (by injection Heq).
      assert (ar_evicted_at row = None) as Hev by (by injection Heq).
      assert (sr_updated_at (session_values b) = event_time b) as Hsu by done.
      specialize (Hne b Hin Hbu). destruct (decide (event_time b < event_time a)) as [Hlt|Hge].
      * exists a. destruct (SaveAgent_newer a d Hok) as (Ha' & Hs' & Hc').
        { rewrite Ha. intros ? [= <-]. lia. } { rewrite Hs. intros ? [= <-]. lia. }
        rewrite Ha', Hs', Hc', Ha. simpl. rewrite forget_update by done.
        split; [|done]. { split_and!; [apply elem_of_app; right; by left|done|].
          intros c [Hc2| ->%list_elem_of_singleton]%elem_of_app; [intros Hcu|done].
          specialize (Hmax c Hc2 Hcu). lia. }
      * exists b. rewrite (SaveAgent_older a d row (session_values b)) by (done || rewrite ?Hup, ?Hsu; lia).
        rewrite Ha, Hs, Hc. simpl. rewrite Heq. split; [|done].
        split_and!; [by apply elem_of_app; left|done|].
        intros c [Hc2| ->%list_elem_of_singleton]%elem_of_app; [by apply Hmax|lia].
  - destruct (SaveAgent_other u a d Hok Hu) as (Ha' & Hs' & Hc').
    unfold reflects. rewrite Ha', Hs', Hc'.
    destruct Hr as [(Hl & Hr)|(b & (Hin & Hbu & Hmax) & Hr)].
    + left. split; [|done]. apply Forall_app. split; [done|]. by repeat constructor.
    + right. exists b. split; [|done]. split_and!; [by apply elem_of_app; left|done|].
      intros c [Hc2| ->%list_elem_of_singleton]%elem_of_app; [by apply Hmax|done].
Qed.

(** Distinct writes for [u] carry distinct event times. *)
Definition distinct_times (u : string) (l : list Agent) : Prop :=
  NoDup (event_time <$> filter (λ a, InstanceUID a = u) l).

Lemma distinct_times_snoc u l a :
  distinct_times u (l ++ [a]) →
  distinct_times u l ∧
  (InstanceUID a = u → ∀ b, b ∈ l → InstanceUID b = u → event_time b ≠ event_time a).
Proof.
  unfold distinct_times. rewrite filter_app, fmap_app, NoDup_app. intros (Hl & Hd & _).
  split; [done|]. intros Hu b Hb Hbu Heq. apply (Hd (event_time b)).
  - apply list_elem_of_fmap. exists b. split; [done|]. by apply list_elem_of_filter.
  - rewrite filter_cons_True by done. simpl. rewrite Heq. by left.
Qed.

Lemma save_all_reflects u l :
  distinct_times u l → reflects u l (save_all l empty_DB).
Proof.
  induction l as [|a l IH] using rev_ind; intros Hd.
  - left. split_and!; [constructor|done..].
  - apply distinct_times_snoc in Hd as [Hd Hne]. unfold save_all, do_writes.
    rewrite fmap_app, foldl_app. simpl.
    apply (reflects_snoc u l a (save_all l empty_DB)); [|by apply IH|done].
    apply do_writes_ok, empty_DB_ok.
Qed.


(** The session columns of [b], overwritten by those of [a]. *)
Definition with_session (a b : Agent) : Agent :=
  b <| SequenceNum := SequenceNum a |> <| DescriptionReported := DescriptionReported a |>
    <| Conn := Conn a |> <| Connected := Connected a |> <| SessionUpdatedAt := event_time a |>.

Definition without_FirstSeen (a : Agent) : Agent := a <| FirstSeen := 0 |>.

Lemma ConnMeta_eta c :
  mkConnMeta (RemoteAddr c) (TLSSubject c) (ViaGateway c) (Transport c) = c.
Proof. by destruct c. Qed.

(** What the rows a save leaves read back as. *)
Lemma scan_stored a before d :
  is_uint64 (AgentCapabilities a) → is_uint64 (SequenceNum a) →
  t_agents d !! InstanceUID a = Some (match before with
    | None => agents_values a | Some row => agents_update row (agents_values a) end) →
  t_session d !! InstanceUID a = Some (session_values a) →
  t_config d !! InstanceUID a = Some (EffectiveConfig a) →
  GetAgent (InstanceUID a) d = Some (Some (stored a before)).
Proof.
  intros Hcap Hseq Ha Hs Hc. unfold GetAgent, scan_uid. rewrite Ha, Hs, Hc.
  destruct a, before; simpl in *; unfold stored; simpl;
    by rewrite !uint64_int64, ConnMeta_eta by done.
Qed.

Lemma scan_session a d row s b :
  is_uint64 (SequenceNum a) →
  t_agents d !! InstanceUID a = Some row → t_session d !! InstanceUID a = Some s →
  GetAgent (InstanceUID a) d = Some (Some b) →
  GetAgent (InstanceUID a) (d <| t_session := <[InstanceUID a := session_values a]> (t_session d) |>)
    = Some (Some (with_session a b)).
Proof.
  intros Hseq Ha Hs. unfold GetAgent, scan_uid. simpl. rewrite Ha, Hs, lookup_insert_eq.
  simpl. intros [= <-]. unfold with_session. simpl. by rewrite uint64_int64, ConnMeta_eta by done.
Qed.

Lemma SaveAgent_tie a d row s :
  t_agents d !! InstanceUID a = Some row → t_session d !! InstanceUID a = Some s →
  event_time a ≤ ar_updated_at row → sr_updated_at s ≤ event_time a →
  do_write (WSaveAgent a) d =
    d <| t_session := <[InstanceUID a := session_values a]> (t_session d) |>.
Proof.
  intros Ha Hs Hle Hle'. simpl. unfold SaveAgent, upsert_agents, saveSessionUpsert. rewrite Ha.
  unfold event_time in *. simpl. rewrite (proj2 (Z.ltb_ge _ _)) by done. simpl. rewrite Hs. simpl.
  by rewrite (proj2 (Z.leb_le _ _)) by done.
Qed.

Lemma GetAgent_ext u d d' :
  t_agents d !! u = t_agents d' !! u → t_session d !! u = t_session d' !! u →
  t_config d !! u = t_config d' !! u → GetAgent u d = GetAgent u d'.
Proof. intros Ha Hs Hc. unfold GetAgent, scan_uid. by rewrite Ha, Hs, Hc. Qed.

Lemma GetAgent_row u d b :
  GetAgent u d = Some (Some b) →
  ∃ row s, t_agents d !! u = Some row ∧ t_session d !! u = Some s ∧
    EvictedAt b = ar_evicted_at row ∧ FirstSeen b = ar_first_seen row ∧
    SessionUpdatedAt b = sr_updated_at s ∧ LastSeen b = ar_last_seen row.
Proof.
  unfold GetAgent, scan_uid, scanAgent. destruct (t_agents d !! u) as [row|]; [|done].
  destruct (t_session d !! u) as [s|]; [|done]. simpl. intros [= <-]. by exists row, s.
Qed.

(** Under [reflects] the agent reads back as its newest write. *)
Lemma reflects_GetAgent u l d :
  Forall (λ a, is_uint64 (AgentCapabilities a) ∧ is_uint64 (SequenceNum a)) l →
  reflects u l d →
  ((∀ a, a ∈ l → InstanceUID a ≠ u) ∧ GetAgent u d = Some None) ∨
  ∃ a, newest u l a ∧
    option_map (option_map without_FirstSeen) (GetAgent u d) = Some (Some (without_FirstSeen (stored a None))).
Proof.
  intros Hbits [(Hl & Ha & _)|(a & Hn & Ha & Hs & Hc)].
  - left. rewrite Forall_forall in Hl. split; [done|]. unfold GetAgent. by rewrite Ha.
  - right. exists a. split; [done|]. destruct Hn as (Hin & Hu & _).
    rewrite Forall_forall in Hbits. destruct (Hbits a Hin) as [Hcap Hseq]. clear Hbits Hin.
    apply fmap_Some in Ha as (row & Ha & Heq). unfold GetAgent, scan_uid. rewrite Ha, Hs, Hc.
    destruct a, row; simpl in *. unfold stored, without_FirstSeen, forget_first_seen in *.
    simpl in *. injection Heq as <- <- <- <- <- <- <- <- <- <- <- <- <- <- <-.
    subst u. by rewrite !uint64_int64, ConnMeta_eta by done.
Qed.


(** The row of [u] was evicted at [t] and first seen at [f]. *)
Definition evicted_row (u : string) (t f : Time) (d : DB) : Prop :=
  ∃ row, t_agents d !! u = Some row ∧ ar_evicted_at row = Some t ∧ ar_first_seen row = f.

Lemma do_write_evicted u t f w d :
  db_ok d → keeps_row u w → evicted_row u t f d → evicted_row u t f (do_write w d).
Proof.
  intros Hok Hw (row & Ha & Hev & Hf). destruct w as [a|a|uid t'|uid|before]; simpl in *.
  - destruct (decide (InstanceUID a = u)) as [<-|Hne].
    + destruct (SaveAgent_spec a d Hok) as (d' & -> & Ha' & _). simpl. unfold evicted_row.
      rewrite Ha', Ha. destruct (ar_updated_at row <? event_time a); [|by eexists].
      rewrite lookup_insert_eq. by eexists.
    + destruct (SaveAgent_other u a d Hok Hne) as (Ha' & _). simpl in Ha'.
      exists row. by rewrite Ha'.
  - unfold SaveSession, saveSessionUpsert. exists row.
    destruct (t_session d !! _); [by destruct (_ <=? _)|].
    by destruct (t_agents d !! InstanceUID a).
  - unfold SoftDeleteAgent. exists row. destruct (t_agents d !! uid) as [row'|] eqn:Hu; [|done].
    destruct (ar_evicted_at row') eqn:Hev'; [done|]. simpl.
    rewrite lookup_insert_ne; [done|]. intros ->. congruence.
  - exists row. unfold DeleteAgent. simpl. by rewrite lookup_delete_ne.
  - done.
Qed.

Lemma do_writes_evicted u t f l d :
  db_ok d → Forall (keeps_row u) l → evicted_row u t f d → evicted_row u t f (do_writes l d).
Proof.
  intros Hok Hl. revert d Hok. induction Hl as [|w l Hw _ IH]; intros d Hok He; [done|].
  apply IH; [by apply do_write_ok|by apply do_write_evicted].
Qed.

Lemma purge_lookup before d u row :
  t_agents d !! u = Some row →
  t_agents (purge before d).1 !! u = if survives before row then Some row else None.
Proof.
  intros Ha. simpl. destruct (survives before row) eqn:E.
  - by apply map_lookup_filter_Some.
  - apply map_lookup_filter_None. right. intros row' Ha'. simpl. rewrite Ha in Ha'.
    injection Ha' as <-. by rewrite E.
Qed.

(** ** Properties *)

(** After any sequence of saves, keepalives, soft deletes, deletes and
    purges the store reads back: ListAgents succeeds, lists every row of the
    agents table once, and GetAgent returns what it lists, or nothing. *)
Theorem store_reads_total l :
  let d := do_writes l empty_DB in
  db_ok d ∧
  ∃ agents, ListAgents d = Some agents ∧ NoDup (InstanceUID <$> agents) ∧
    (∀ u, u ∈ InstanceUID <$> agents ↔ is_Some (t_agents d !! u)) ∧
    ∀ u, GetAgent u d = Some (head (filter (λ a, InstanceUID a = u) agents)).
Proof.
  pose proof (do_writes_ok l _ empty_DB_ok) as Hok. simpl.
  set (d := do_writes l empty_DB) in *. split; [done|].
  destruct (ListAgents_spec d Hok) as (agents & Hl & Hu & Hnd & Hg).
  exists agents. split_and!; [done..|]. intros u.
  destruct (head (filter (λ a, InstanceUID a = u) agents)) as [a|] eqn:E.
  - apply head_Some_elem_of, list_elem_of_filter in E as [<- Hin]. by apply Hg.
  - unfold GetAgent. destruct (t_agents d !! u) as [row|] eqn:Ha; [|done]. exfalso.
    assert (u ∈ InstanceUID <$> agents) as Hin by (apply Hu; by eexists).
    apply list_elem_of_fmap in Hin as (a & -> & Hin).
    destruct (filter _ agents) eqn:E'; [|done].
    assert (a ∈ filter (λ b, InstanceUID b = InstanceUID a) agents) as Hf
      by (by apply list_elem_of_filter).
    rewrite E' in Hf. by apply not_elem_of_nil in Hf.
Qed.

(** What a save does, by the event time it carries.  Newer than what is
    stored, the agent reads back as written, except that a known row keeps its
    first_seen and evicted_at.  At the stored event time (a missed heartbeat
    marks an agent disconnected without moving LastSeen) it changes the session
    columns only, and does change them.  Older than both rows it does nothing.
    Other agents never change. *)
Theorem SaveAgent_functional a d :
  db_ok d → is_uint64 (AgentCapabilities a) → is_uint64 (SequenceNum a) →
  let u := InstanceUID a in
  let d' := do_write (WSaveAgent a) d in
  ((∀ row, t_agents d !! u = Some row → ar_updated_at row < event_time a) →
   (∀ s, t_session d !! u = Some s → sr_updated_at s ≤ event_time a) →
   GetAgent u d' = Some (Some (stored a (t_agents d !! u)))) ∧
  (∀ row s b, t_agents d !! u = Some row → t_session d !! u = Some s →
     GetAgent u d = Some (Some b) →
     event_time a ≤ ar_updated_at row → sr_updated_at s ≤ event_time a →
     GetAgent u d' = Some (Some (with_session a b))) ∧
  (∀ row s, t_agents d !! u = Some row → t_session d !! u = Some s →
     event_time a ≤ ar_updated_at row → event_time a < sr_updated_at s → d' = d) ∧
  ∀ u', u' ≠ u → GetAgent u' d' = GetAgent u' d.
Proof.
  intros Hok Hcap Hseq u d'. split_and!.
  - intros Hrow Hses. destruct (SaveAgent_newer a d Hok Hrow Hses) as (Ha & Hs & Hc).
    by apply scan_stored.
  - intros row s b Ha Hs Hg Hle Hle'. unfold d', u. rewrite (SaveAgent_tie a d row s) by done.
    by apply (scan_session a d row s).
  - intros row s Ha Hs Hle Hlt. by apply (SaveAgent_older a d row s).
  - intros u' Hne. destruct (SaveAgent_other u' a d Hok) as (Ha & Hs & Hc); [by intros <-|].
    by apply GetAgent_ext.
Qed.

(** C17: replicas converge.  The saves of an agent that carry distinct event
    times leave the same data in whatever order they reach the database: the
    agent reads back, up to first_seen, as the newest of them. *)
Theorem saves_converge u l l' :
  l ≡ₚ l' → distinct_times u l →
  Forall (λ a, is_uint64 (AgentCapabilities a) ∧ is_uint64 (SequenceNum a)) l →
  let read l := option_map (option_map without_FirstSeen) (GetAgent u (save_all l empty_DB)) in
  read l' = read l ∧
  (∀ a, newest u l a → read l = Some (Some (without_FirstSeen (stored a None)))) ∧
  ((∀ a, a ∈ l → InstanceUID a ≠ u) → read l = Some None).
Proof.
  intros Hperm Hd Hbits read.
  assert (∀ a b, newest u l a → newest u l b → a = b) as Huniq.
  { intros a b (Ha & Hau & Hamax) (Hb & Hbu & Hbmax).
    apply (NoDup_fmap_inj event_time (filter (λ a, InstanceUID a = u) l)); [done|..].
    - by apply list_elem_of_filter.
    - by apply list_elem_of_filter.
    - specialize (Hamax b Hb Hbu). specialize (Hbmax a Ha Hau). lia. }
  assert (∀ k, k ≡ₚ l → (∀ a, newest u l a → read k = Some (Some (without_FirstSeen (stored a None)))) ∧
    ((∀ a, a ∈ l → InstanceUID a ≠ u) → read k = Some None)) as Hread.
  { intros k Hk.
    assert (distinct_times u k) as Hdk by (unfold distinct_times; by rewrite Hk).
    assert (Forall (λ a, is_uint64 (AgentCapabilities a) ∧ is_uint64 (SequenceNum a)) k) as Hbk
      by (by rewrite Hk).
    assert (∀ a, newest u k a ↔ newest u l a) as Hnew.
    { intros a. unfold newest. by setoid_rewrite Hk. }
    destruct (reflects_GetAgent u k _ Hbk (save_all_reflects u k Hdk)) as [[Hno Hg]|(a & Ha & Hg)].
    - split.
      + intros a (Ha & Hau & _). destruct (Hno a); [by rewrite Hk|done].
      + intros _. unfold read. by rewrite Hg.
    - split.
      + intros b Hb. rewrite (Huniq b a); [done..|by apply Hnew].
      + intros Hno. destruct Ha as (Ha & Hau & _). destruct (Hno a); [by rewrite <-Hk|done]. }
  destruct (Hread l' (symmetry Hperm)) as [Hl1 Hl2]. destruct (Hread l (reflexivity l)) as [Hr1 Hr2].
  split; [|done].
  destruct (reflects_GetAgent u l _ Hbits (save_all_reflects u l Hd)) as [[Hno _]|(a & Ha & _)].
  - by rewrite Hl2, Hr2.
  - by rewrite (Hl1 a), (Hr1 a).
Qed.

(** An eviction is for good.  Once a soft delete has landed, no later save,
    keepalive or soft delete clears evicted_at or moves first_seen, not even the
    save of the agent after it reconnected: it keeps reading back as evicted,
    and a purge whose cutoff is past the eviction removes its rows. *)
Theorem evicted_stays_evicted u t f l d before :
  db_ok d → evicted_row u t f d → Forall (keeps_row u) l →
  let d' := do_writes l d in
  (∃ b, GetAgent u d' = Some (Some b) ∧ EvictedAt b = Some t ∧ FirstSeen b = f) ∧
  (t < pg_time before →
   t_agents (do_write (WPurge before) d') !! u = None ∧
   GetAgent u (do_write (WPurge before) d') = Some None).
Proof.
  intros Hok He Hl d'.
  assert (db_ok d') as Hok' by (by apply do_writes_ok).
  destruct (do_writes_evicted u t f l d Hok Hl He) as (row & Ha & Hev & Hf). fold d' in Ha.
  split.
  - destruct (scan_uid_ok d' u row Hok' Ha) as [b Hb]. exists b.
    assert (GetAgent u d' = Some (Some b)) as Hg by (unfold GetAgent; by rewrite Ha, Hb).
    destruct (GetAgent_row u d' b Hg) as (row' & s & Ha' & _ & Hev' & Hf' & _). simplify_eq.
    by rewrite Hev'.
  - intros Hlt. pose proof (purge_lookup before d' u row Ha) as Hp.
    unfold survives in Hp. rewrite Hev, (proj2 (Z.ltb_lt _ _)) in Hp by done.
    split; [done|]. unfold GetAgent. cbn [do_write]. by rewrite Hp.
Qed.

End store.

(** The precision of the columns: microseconds, as pgx sends them. *)
#[export] Instance micro : PgTime.
Proof.
  refine {| pg_time t := t / 1000 * 1000 |}.
  intros t u Htu. apply Z.mul_le_mono_nonneg_r; [lia|]. by apply Z.div_le_mono.
Defined.

Definition agent_at (t : Time) (connected : bool) : Agent :=
  zero_Agent <| InstanceUID := "a" |> <| LastSeen := t |> <| Connected := connected |>.

Definition one_agent : DB := do_write (WSaveAgent (agent_at 5000 true)) empty_DB.

Lemma one_agent_ok : db_ok one_agent.
Proof. apply do_write_ok, empty_DB_ok. Qed.

Example SaveAgent_functional_witness :
  GetAgent "a" (do_write (WSaveAgent (agent_at 5000 false)) one_agent)
    = Some (Some (with_session (agent_at 5000 false) (stored (agent_at 5000 true) None))) ∧
  GetAgent "a" (do_write (WSaveAgent (agent_at 9000 false)) one_agent)
    = Some (Some (stored (agent_at 9000 false) (t_agents one_agent !! "a"))) ∧
  do_write (WSaveAgent (agent_at 4000 false)) one_agent = one_agent.
Proof.
  split; [|split].
  - eapply (SaveAgent_functional (agent_at 5000 false) one_agent one_agent_ok);
      [split; by vm_compute..|vm_compute; reflexivity|vm_compute; reflexivity|
       vm_compute; reflexivity|by vm_compute|by vm_compute].
  - apply (SaveAgent_functional (agent_at 9000 false) one_agent one_agent_ok);
      [split; by vm_compute..| |].
    + vm_compute. intros row [= <-]. reflexivity.
    + vm_compute. intros s [= <-]. discriminate.
  - eapply (SaveAgent_functional (agent_at 4000 false) one_agent one_agent_ok);
      [split; by vm_compute..|vm_compute; reflexivity|vm_compute; reflexivity|
       by vm_compute|by vm_compute].
Defined.

Example saves_converge_witness :
  let l := [agent_at 5000 true; agent_at 9000 false] in
  let l' := [agent_at 9000 false; agent_at 5000 true] in
  option_map (option_map without_FirstSeen) (GetAgent "a" (save_all l' empty_DB)) =
  option_map (option_map without_FirstSeen) (GetAgent "a" (save_all l empty_DB)).
Proof.
  intros l l'.
  assert (distinct_times "a" l) as Hd.
  { unfold distinct_times. vm_compute. repeat (constructor; [set_solver|]). constructor. }
  assert (Forall (λ a, is_uint64 (AgentCapabilities a) ∧ is_uint64 (SequenceNum a)) l) as Hb
    by (repeat constructor; vm_compute; congruence).
  exact (proj1 (saves_converge "a" l l' (perm_swap _ _ []) Hd Hb)).
Defined.

(** The agent comes back, connected, after its row was evicted. *)
Example evicted_stays_evicted_witness :
  let d := do_writes [WSaveAgent (agent_at 9000 true)] (SoftDeleteAgent "a" 7000 one_agent) in
  (Connected <$> (GetAgent "a" d ≫= id)) = Some true ∧
  (EvictedAt <$> (GetAgent "a" d ≫= id)) = Some (Some 7000) ∧
  GetAgent "a" (do_write (WPurge 8000) d) = Some None.
Proof.
  intros d.
  assert (evicted_row "a" 7000 (pg_time time_zero) (SoftDeleteAgent "a" 7000 one_agent)) as He
    by (eexists; split; [vm_compute; reflexivity|by vm_compute]).
  assert (db_ok (SoftDeleteAgent "a" 7000 one_agent)) as Hok
    by apply (do_write_ok (WSoftDelete "a" 7000)), one_agent_ok.
  destruct (evicted_stays_evicted "a" 7000 (pg_time time_zero) [WSaveAgent (agent_at 9000 true)] _ 8000 Hok He)
    as [(b & Hb & Hev & _) Hp]; [by repeat constructor|].
  split; [vm_compute; reflexivity|]. split.
  - unfold d. rewrite Hb. simpl. by rewrite Hev.
  - exact (proj2 (Hp (eq_refl Lt))).
Defined.
