(* ===== verification/Jobs.v ===== *)
(** * Package persistence: connections, jobs and role mappings

    internal/persistence/jobs.go and permissions.go, and the reads and the
    delete of agent_connections.go, over the tables of Store.v.  A primary key,
    a UNIQUE or a foreign key that does not hold refuses the statement
    ([None]).  What the database draws is an argument: a job's uuid and
    creation time, the ids of a BIGSERIAL.  ORDER BY is [SortFunc]: equal keys
    come in any order.  [PgUUID] is Postgres's uuid input: what it accepts,
    and the text the value reads back as. *)

From Stdlib Require Import ZArith Lia.
From S2P Require Import Prelude GoLang Fleet Registry Api Store.
Local Open Scope Z_scope.

Class PgUUID := {
  uuid_in : string → option string;
  uuid_in_canonical s u : uuid_in s = Some u → uuid_in u = Some u
}.

(** ** persistence.go: the statuses this package writes *)

Definition JobStatusPlanned : string := "planned".
Definition JobTargetStatusPending : string := "pending".
Definition JobTargetStatusRejected : string := "rejected".

Section jobs.
Context `{PgTime} `{GoSort} `{PgUUID}.

(** ** agent_connections *)

(** A WHERE clause, [cond], selects rows; they come ordered by uid. *)
Definition by_InstanceUID (a b : AgentConnection) : Z :=
  string_Compare (ac_InstanceUID a) (ac_InstanceUID b).

Definition queryAgentConnections (cond : AgentConnection → bool) (d : DB) :
    list AgentConnection :=
  SortFunc by_InstanceUID (filter (λ c, cond c = true) (map_to_list (t_connections d)).*2).

Definition GetAgentConnection (uid : string) (d : DB) : option AgentConnection :=
  head (queryAgentConnections (λ c, bool_decide (ac_InstanceUID c = uid)) d).

Definition ListAgentConnections (d : DB) : list AgentConnection :=
  queryAgentConnections (λ _, true) d.

Definition DeleteAgentConnection (uid : string) (d : DB) : DB :=
  d <| t_connections := delete uid (t_connections d) |>.

(** ** jobs *)

(** [CreateJob]: status, target mode and the times are the columns'
    defaults, whatever the given job says. *)
Definition CreateJob (id : string) (now : Time) (job : Job) (d : DB) : option (Job * DB) :=
  let actionConfig :=
    if bool_decide (job_ActionConfig job = "") then "{}" else job_ActionConfig job in
  let created := mkJob id (job_Filter job) (job_Action job) actionConfig
    JobStatusPlanned None (job_SubmittedBy job) (pg_time now) None None None in
  if bool_decide (id ∈ job_ID <$> t_jobs d) then None
  else Some (created, d <| t_jobs := t_jobs d ++ [created] |>).

Definition by_CreatedAt (a b : Job) : Z := job_CreatedAt a - job_CreatedAt b.

Definition queryJobs (cond : Job → bool) (d : DB) : list Job :=
  SortFunc by_CreatedAt (filter (λ j, cond j = true) (t_jobs d)).

(** An id that is no uuid is an error. *)
Definition GetJob (id : string) (d : DB) : option (option Job) :=
  u ← uuid_in id;
  Some (head (queryJobs (λ j, bool_decide (job_ID j = u)) d)).

Definition ListJobs (d : DB) : list Job := queryJobs (λ _, true) d.

(** ** job_targets *)

Definition target_row (jobID : string) (id : Z) (t : NewJobTarget) : JobTarget :=
  mkJobTarget id jobID (nt_InstanceUID t) (nt_Status t) (nt_Reason t) None None.

Definition target_key (t : JobTarget) : string * string := (jt_JobID t, jt_InstanceUID t).

(** [CreateJobTargets]: one INSERT of all the rows; [draw] is the sequence of
    the ids. *)
Definition CreateJobTargets (jobID : string) (draw : nat → Z) (targets : list NewJobTarget)
    (d : DB) : option (list JobTarget * DB) :=
  if bool_decide (targets = []) then Some ([], d)
  else
    u ← uuid_in jobID;
    let created := imap (λ i t, target_row u (draw i) t) targets in
    let rows := t_job_targets d ++ created in
    if bool_decide (u ∈ job_ID <$> t_jobs d ∧ NoDup (jt_ID <$> rows) ∧ NoDup (target_key <$> rows))
    then Some (created, d <| t_job_targets := rows |>) else None.

Definition by_ID (a b : JobTarget) : Z := jt_ID a - jt_ID b.

Definition ListJobTargets (jobID : string) (d : DB) : option (list JobTarget) :=
  u ← uuid_in jobID;
  Some (SortFunc by_ID (filter (λ t, jt_JobID t = u) (t_job_targets d))).

(** ** role_mapping *)

(** COALESCE on the way out, NULLIF on the way in. *)
Definition scanRoleMapping (r : role_row) : RoleMapping :=
  mkRoleMapping (rr_id r) (rr_identity_kind r) (rr_identity_value r) (rr_match r) (rr_role r)
    (default "" (rr_tenant_id r)) (rr_created_at r) (rr_updated_at r).

Definition CreateRoleMapping (id : Z) (now : Time) (m : RoleMapping) (d : DB) :
    option (RoleMapping * DB) :=
  let tenant := if bool_decide (rm_TenantID m = "") then None else Some (rm_TenantID m) in
  let row := mkRoleRow id (rm_IdentityKind m) (rm_IdentityValue m) (rm_Match m) (rm_Role m)
    tenant (pg_time now) (pg_time now) in
  if bool_decide (id ∈ rr_id <$> t_role_mapping d) then None
  else Some (scanRoleMapping row, d <| t_role_mapping := t_role_mapping d ++ [row] |>).

Definition by_rr_id (a b : role_row) : Z := rr_id a - rr_id b.

Definition queryRoleMappings (cond : role_row → bool) (d : DB) : list RoleMapping :=
  scanRoleMapping <$> SortFunc by_rr_id (filter (λ r, cond r = true) (t_role_mapping d)).

Definition GetRoleMapping (id : Z) (d : DB) : option RoleMapping :=
  head (queryRoleMappings (λ r, bool_decide (rr_id r = id)) d).

Definition ListRoleMappings (d : DB) : list RoleMapping := queryRoleMappings (λ _, true) d.

(** ** Every statement of the package *)

Inductive statement :=
  | SWrite (w : write)
  | SUpsertConnection (c : AgentConnection)
  | SDeleteConnection (uid : string)
  | SCreateJob (id : string) (now : Time) (job : Job)
  | SCreateJobTargets (jobID : string) (draw : nat → Z) (targets : list NewJobTarget)
  | SCreateRoleMapping (id : Z) (now : Time) (m : RoleMapping).

(** A refused statement changes nothing. *)
Definition do_statement (s : statement) (d : DB) : DB :=
  match s with
  | SWrite w => do_write w d
  | SUpsertConnection c => UpsertAgentConnection c d
  | SDeleteConnection uid => DeleteAgentConnection uid d
  | SCreateJob id now job => default d (snd <$> CreateJob id now job d)
  | SCreateJobTargets jobID draw targets =>
      default d (snd <$> CreateJobTargets jobID draw targets d)
  | SCreateRoleMapping id now m => default d (snd <$> CreateRoleMapping id now m d)
  end.

Definition do_statements (l : list statement) (d : DB) : DB :=
  foldl (λ d s, do_statement s d) d l.

(** gen_random_uuid draws a uuid. *)
Definition drawn_uuid (s : statement) : Prop :=
  match s with SCreateJob id _ _ => uuid_in id = Some id | _ => True end.

(** ** The schema *)

(** What the columns' types, defaults and NOT NULLs leave of a job. *)
Definition job_typed (j : Job) : Prop :=
  uuid_in (job_ID j) = Some (job_ID j) ∧ job_ActionConfig j ≠ "" ∧
  job_Status j = JobStatusPlanned ∧ job_TargetMode j = None ∧
  job_ArmedAt j = None ∧ job_DispatchAt j = None ∧ job_CancelledAt j = None.

(** The primary keys, UNIQUE and foreign keys of the migrations. *)
Record schema (d : DB) : Prop := {
  schema_agents : db_ok d;
  schema_connections uid c : t_connections d !! uid = Some c → ac_InstanceUID c = uid;
  schema_jobs_pk : NoDup (job_ID <$> t_jobs d);
  schema_jobs : Forall job_typed (t_jobs d);
  schema_targets_pk : NoDup (jt_ID <$> t_job_targets d);
  schema_targets_unique : NoDup (target_key <$> t_job_targets d);
  schema_targets_fk : Forall (λ t, jt_JobID t ∈ job_ID <$> t_jobs d) (t_job_targets d);
  schema_roles_pk : NoDup (rr_id <$> t_role_mapping d);
  schema_roles : Forall (λ r, rr_tenant_id r ≠ Some "") (t_role_mapping d)
}.

(** The statements that leave the targets of job [u] alone. *)
Definition keeps_targets (u : string) (s : statement) : Prop :=
  match s with SCreateJobTargets jobID _ _ => uuid_in jobID ≠ Some u | _ => True end.

(** ** Lemmas: one row by its key *)

Lemma by_key_order {A} (f : A → Z) : cmp_order (λ a b, f a - f b).
Proof. unfold cmp_order, cmp_le. split; lia. Qed.

Lemma by_InstanceUID_order : cmp_order by_InstanceUID.
Proof. apply (cmp_order_on ac_InstanceUID string_Compare), string_Compare_order. Qed.

(** The first row of a query that selects by a key is the row with that key. *)
Lemma head_query {A K} (key : A → K) (P : A → bool) cmp (l : list A) x k :
  NoDup (key <$> l) → (∀ y, P y = true ↔ key y = k) →
  head (SortFunc cmp (filter (λ y, P y = true) l)) = Some x ↔ x ∈ l ∧ key x = k.
Proof.
  intros Hnd HP.
  assert (∀ y, y ∈ SortFunc cmp (filter (λ y, P y = true) l) ↔ y ∈ l ∧ key y = k) as Hin.
  { intros y. rewrite SortFunc_perm, list_elem_of_filter, HP. tauto. }
  rewrite <-Hin. split; [apply head_Some_elem_of|]. intros Hx.
  destruct (SortFunc cmp _) as [|y rest] eqn:E; [by apply not_elem_of_nil in Hx|].
  simpl. f_equal. destruct (proj1 (Hin y)) as [Hy Hky]; [left|].
  apply Hin in Hx as [Hx Hkx]. apply (NoDup_fmap_inj key l); congruence.
Qed.

Lemma head_fmap {A B} (f : A → B) (l : list A) : head (f <$> l) = f <$> head l.
Proof. by destruct l. Qed.

Lemma query_all {A} cmp (l : list A) x :
  x ∈ SortFunc cmp (filter (λ _, true = true) l) ↔ x ∈ l.
Proof. rewrite SortFunc_perm, list_elem_of_filter. tauto. Qed.

Lemma connections_NoDup d :
  schema d → NoDup (ac_InstanceUID <$> (map_to_list (t_connections d)).*2).
Proof.
  intros Hd. rewrite <-list_fmap_compose.
  assert ((ac_InstanceUID ∘ snd) <$> map_to_list (t_connections d)
          = (map_to_list (t_connections d)).*1) as ->; [|apply NoDup_fst_map_to_list].
  apply list_fmap_ext. intros i [uid c] Hi. apply list_elem_of_lookup_2 in Hi.
  simpl. apply elem_of_map_to_list in Hi. by apply (schema_connections d Hd).
Qed.

(** ** Lemmas: the statements keep the schema *)

(** The other tables of a database. *)
Definition other_tables (d : DB) :=
  (t_connections d, t_jobs d, t_job_targets d, t_role_mapping d).

Lemma saveSessionUpsert_frame a d d' :
  saveSessionUpsert a d = Some d' → other_tables d' = other_tables d.
Proof.
  unfold saveSessionUpsert. destruct (t_session d !! _) as [row|].
  - destruct (_ <=? _); by intros [= <-].
  - destruct (t_agents d !! _); [|done]. by intros [= <-].
Qed.

Lemma upsert_agents_frame a d : other_tables (upsert_agents a d).1 = other_tables d.
Proof.
  unfold upsert_agents. destruct (t_agents d !! _) as [row|]; [|done]. by destruct (_ <? _).
Qed.

Lemma do_write_frame w d : other_tables (do_write w d) = other_tables d.
Proof.
  destruct w as [a|a|uid t|uid|t]; simpl; [| |..].
  - unfold SaveAgent. pose proof (upsert_agents_frame a d) as Hu.
    destruct (upsert_agents a d) as [d1 b]. simpl in Hu.
    destruct (saveSessionUpsert a d1) as [d2|] eqn:E; [|done]. simpl.
    rewrite <-Hu, <-(saveSessionUpsert_frame _ _ _ E). by destruct b.
  - destruct (SaveSession a d) as [d'|] eqn:E; [|done]. by apply saveSessionUpsert_frame in E.
  - unfold SoftDeleteAgent. destruct (t_agents d !! uid) as [row|]; [|done].
    by destruct (ar_evicted_at row).
  - done.
  - done.
Qed.

Lemma schema_write w d : schema d → schema (do_write w d).
Proof.
  intros Hd. pose proof (do_write_frame w d) as [= Hc Hj Ht Hr].
  split; rewrite ?Hc, ?Hj, ?Ht, ?Hr; try apply Hd. by apply do_write_ok, Hd.
Qed.

Lemma db_ok_ext d d' :
  t_agents d' = t_agents d → t_session d' = t_session d → t_config d' = t_config d →
  db_ok d → db_ok d'.
Proof. intros Ha Hs Hc []. by split; rewrite ?Ha, ?Hs, ?Hc. Qed.

Lemma NoDup_snoc_key {A K} (key : A → K) l x :
  key x ∉ key <$> l → NoDup (key <$> l) → NoDup (key <$> (l ++ [x])).
Proof.
  intros Hx Hl. rewrite fmap_app. apply NoDup_app. split_and!; [done| |].
  - intros y Hy ->%list_elem_of_singleton. done.
  - apply NoDup_singleton.
Qed.

Lemma schema_job id now job j d d' :
  uuid_in id = Some id → schema d → CreateJob id now job d = Some (j, d') → schema d'.
Proof.
  intros Hid Hd. unfold CreateJob. case_bool_decide as Hin; [done|]. intros [= <- <-].
  split; simpl; try apply Hd.
  - apply (db_ok_ext d); [done..|apply Hd].
  - apply NoDup_snoc_key; [done|apply Hd].
  - apply Forall_app. split; [apply Hd|]. apply Forall_singleton. split_and!; try done. simpl.
    by case_bool_decide.
  - eapply Forall_impl; [apply (schema_targets_fk d Hd)|]. intros t Ht. simpl.
    rewrite fmap_app, elem_of_app. by left.
Qed.

Lemma schema_targets jobID draw ts created d d' :
  schema d → CreateJobTargets jobID draw ts d = Some (created, d') → schema d'.
Proof.
  intros Hd. unfold CreateJobTargets. case_bool_decide as Hts; [by intros [= <- <-]|].
  destruct (uuid_in jobID) as [u|]; [|done]. simpl.
  case_bool_decide as Hok; [|done]. destruct Hok as (Hu & Hpk & Hun). intros [= <- <-].
  split; simpl; try apply Hd; try done.
  - apply (db_ok_ext d); [done..|apply Hd].
  - apply Forall_app. split; [apply Hd|]. apply Forall_forall.
    intros t (i & nt & -> & _)%elem_of_lookup_imap. done.
Qed.

Lemma schema_role id now m r d d' :
  schema d → CreateRoleMapping id now m d = Some (r, d') → schema d'.
Proof.
  intros Hd. unfold CreateRoleMapping. case_bool_decide as Hin; [done|]. intros [= <- <-].
  split; simpl; try apply Hd.
  - apply (db_ok_ext d); [done..|apply Hd].
  - apply NoDup_snoc_key; [done|apply Hd].
  - apply Forall_app. split; [apply Hd|]. apply Forall_singleton. simpl.
    case_bool_decide; congruence.
Qed.

Lemma schema_statement s d : drawn_uuid s → schema d → schema (do_statement s d).
Proof.
  intros Hs Hd. destruct s as [w|c|uid|id now job|jobID draw ts|id now m]; simpl.
  - by apply schema_write.
  - split; simpl; try apply Hd; [apply (db_ok_ext d); [done..|apply Hd]|].
    intros uid c'. rewrite lookup_insert_Some. intros [[<- <-]|[_ Hc]]; [done|].
    by apply (schema_connections d Hd).
  - split; simpl; try apply Hd; [apply (db_ok_ext d); [done..|apply Hd]|].
    intros uid' c [_ Hc]%lookup_delete_Some. by apply (schema_connections d Hd).
  - destruct (CreateJob id now job d) as [[j d']|] eqn:E; [|done]. by eapply schema_job.
  - destruct (CreateJobTargets jobID draw ts d) as [[c d']|] eqn:E; [|done].
    by eapply schema_targets.
  - destruct (CreateRoleMapping id now m d) as [[r d']|] eqn:E; [|done]. by eapply schema_role.
Qed.

Lemma schema_statements l d : Forall drawn_uuid l → schema d → schema (do_statements l d).
Proof.
  intros Hl. revert d. induction Hl as [|s l Hs _ IH]; intros d Hd; [done|].
  by apply IH, schema_statement.
Qed.

Lemma schema_empty : schema empty_DB.
Proof. split; try apply empty_DB_ok; try constructor. done. Qed.

(** ** Lemmas: the targets of a job *)

(** The targets of job [u], in table order. *)
Definition targets_of (u : string) (d : DB) : list JobTarget :=
  filter (λ t, jt_JobID t = u) (t_job_targets d).

Definition rows_of (u : string) (draw : nat → Z) (targets : list NewJobTarget) :
    list JobTarget := imap (λ i t, target_row u (draw i) t) targets.

Lemma rows_of_keys u draw ts :
  target_key <$> rows_of u draw ts = pair u <$> (nt_InstanceUID <$> ts).
Proof.
  unfold rows_of. rewrite fmap_imap, <-list_fmap_compose, <-imap_const. by apply imap_ext.
Qed.

Lemma rows_of_inputs u draw ts :
  (λ t, mkNewJobTarget (jt_InstanceUID t) (jt_Status t) (jt_Reason t)) <$> rows_of u draw ts = ts.
Proof.
  unfold rows_of. rewrite fmap_imap. transitivity (imap (const id) ts).
  - apply imap_ext. by intros i [uid st re] _.
  - rewrite imap_const. apply list_fmap_id.
Qed.

Lemma rows_of_job u draw ts : Forall (λ t, jt_JobID t = u) (rows_of u draw ts).
Proof. apply Forall_forall. by intros t (i & nt & -> & _)%elem_of_lookup_imap. Qed.

Lemma rows_of_sorted u draw ts :
  (∀ i j, (i < j)%nat → draw i < draw j) →
  StronglySorted (λ a b, jt_ID a < jt_ID b) (rows_of u draw ts).
Proof.
  unfold rows_of. revert draw. induction ts as [|t ts IH]; intros draw Hd; [constructor|].
  simpl. constructor.
  - apply (IH (draw ∘ S)). intros i j Hij. apply Hd. lia.
  - apply Forall_forall. intros x (i & nt & -> & _)%elem_of_lookup_imap. simpl. apply Hd. lia.
Qed.

Lemma taken_keys u (old : list JobTarget) :
  pair u <$> (jt_InstanceUID <$> filter (λ t, jt_JobID t = u) old)
  = filter (λ p, p.1 = u) (target_key <$> old).
Proof.
  induction old as [|t old IH]; [done|]. csimpl. rewrite !filter_cons.
  change (target_key t).1 with (jt_JobID t). case_decide as Ht; [|done]. csimpl. rewrite IH.
  unfold target_key. by rewrite Ht.
Qed.

Lemma StronglySorted_lt_NoDup (l : list Z) : StronglySorted Z.lt l → NoDup l.
Proof.
  induction 1 as [|x l _ IH Hx]; constructor; [|done]. intros Hin.
  rewrite Forall_forall in Hx. specialize (Hx x Hin). lia.
Qed.

Lemma rows_of_ids u draw ts :
  (∀ i j, (i < j)%nat → draw i < draw j) → NoDup (jt_ID <$> rows_of u draw ts).
Proof.
  intros Hd. apply StronglySorted_lt_NoDup.
  eapply (StronglySorted_fmap _ (λ a b, jt_ID a < jt_ID b)); [done|]. by apply rows_of_sorted.
Qed.

Lemma draw_in_rows u draw ts i :
  (i < length ts)%nat → draw i ∈ jt_ID <$> rows_of u draw ts.
Proof.
  intros [t Hi]%lookup_lt_is_Some. apply list_elem_of_fmap.
  exists (target_row u (draw i) t). split; [done|]. apply elem_of_lookup_imap. eauto.
Qed.

Lemma rows_of_fresh u draw ts :
  Forall (λ t, jt_JobID t = u ∧ jt_DispatchedAt t = None ∧ jt_CompletedAt t = None)
    (rows_of u draw ts).
Proof. apply Forall_forall. by intros t (i & nt & -> & _)%elem_of_lookup_imap. Qed.

Lemma rows_of_SortFunc u draw ts :
  (∀ i j, (i < j)%nat → draw i < draw j) →
  SortFunc by_ID (rows_of u draw ts) = rows_of u draw ts.
Proof.
  intros Hd. apply SortFunc_unique; [apply (by_key_order jt_ID)| |done|].
  - intros a b Ha Hb Hab Hba. unfold cmp_le, by_ID in *.
    apply (NoDup_fmap_inj jt_ID (rows_of u draw ts)); [|done..|lia].
    by apply rows_of_ids.
  - eapply StronglySorted_weaken; [|by apply rows_of_sorted]. unfold cmp_le, by_ID. lia.
Qed.

(** An id is taken exactly when it is drawn again. *)
Lemma rows_of_ids_NoDup u draw ts old :
  (∀ i j, (i < j)%nat → draw i < draw j) → NoDup (jt_ID <$> old) →
  NoDup (jt_ID <$> (old ++ rows_of u draw ts)) ↔
  ∀ i, (i < length ts)%nat → draw i ∉ jt_ID <$> old.
Proof.
  intros Hd Hold. rewrite fmap_app, NoDup_app. split.
  - intros (_ & Hdis & _) i Hi Hin. apply (Hdis _ Hin). by apply draw_in_rows.
  - intros Hfresh. split_and!; [done| |by apply rows_of_ids].
    intros id Hin (t & -> & (i & nt & -> & Hi)%elem_of_lookup_imap)%list_elem_of_fmap.
    by apply (Hfresh i (lookup_lt_Some _ _ _ Hi)).
Qed.

(** A target repeats exactly when its uid does among the job's. *)
Lemma target_keys_NoDup u draw ts old :
  NoDup (target_key <$> old) →
  NoDup (target_key <$> (old ++ rows_of u draw ts)) ↔
  NoDup ((jt_InstanceUID <$> filter (λ t, jt_JobID t = u) old) ++ (nt_InstanceUID <$> ts)).
Proof.
  intros Hold. rewrite fmap_app, rows_of_keys, !NoDup_app.
  assert (NoDup (jt_InstanceUID <$> filter (λ t, jt_JobID t = u) old)) as Htaken.
  { apply (NoDup_fmap_1 (pair u)). rewrite taken_keys. by apply NoDup_filter. }
  assert (NoDup (pair u <$> (nt_InstanceUID <$> ts)) ↔ NoDup (nt_InstanceUID <$> ts)) as ->.
  { split; [apply NoDup_fmap_1|]. apply NoDup_fmap_2. congruence. }
  assert ((∀ k, k ∈ target_key <$> old → k ∉ pair u <$> (nt_InstanceUID <$> ts)) ↔
          (∀ v, v ∈ jt_InstanceUID <$> filter (λ t, jt_JobID t = u) old →
                v ∉ nt_InstanceUID <$> ts)) as ->; [|tauto].
  split.
  - intros Hk v (t & -> & [Ht Hin]%list_elem_of_filter)%list_elem_of_fmap Hv.
    apply (Hk (target_key t)); [by apply list_elem_of_fmap_2|].
    unfold target_key. rewrite Ht. by apply list_elem_of_fmap_2.
  - intros Hv k (t & -> & Hin)%list_elem_of_fmap (v & Hk & Hin')%list_elem_of_fmap.
    injection Hk as Hu <-. apply (Hv (jt_InstanceUID t)); [|done].
    apply list_elem_of_fmap_2. by apply list_elem_of_filter.
Qed.

Lemma do_statement_targets u s d :
  keeps_targets u s → targets_of u (do_statement s d) = targets_of u d.
Proof.
  intros Hs. unfold targets_of.
  destruct s as [w|c|uid|id now job|jobID draw ts|id now m]; simpl in *; [|done|done|..].
  - pose proof (do_write_frame w d) as Hf. unfold other_tables in Hf.
    injection Hf as _ _ Ht _. by rewrite Ht.
  - unfold CreateJob. by case_bool_decide.
  - unfold CreateJobTargets. case_bool_decide; [done|].
    destruct (uuid_in jobID) as [u'|]; [|done]. simpl. case_bool_decide; [|done]. simpl.
    rewrite filter_app, (list_filter_none _ (imap _ _)); [by rewrite app_nil_r|].
    intros t (i & nt & -> & _)%elem_of_lookup_imap Ht. apply Hs. by rewrite <-Ht.
  - unfold CreateRoleMapping. by case_bool_decide.
Qed.

Lemma do_statements_targets u l d :
  Forall (keeps_targets u) l → targets_of u (do_statements l d) = targets_of u d.
Proof.
  intros Hl. revert d. induction Hl as [|s l Hs _ IH]; intros d; [done|].
  simpl. rewrite IH. by apply do_statement_targets.
Qed.

(** ** Properties *)

(** C22: the tables keep their types.  After any sequence of the package's
    statements, on agents, connections, jobs and role mappings alike, the
    primary keys, UNIQUE and foreign keys of the migrations hold, every job is
    still planned and unarmed with a JSON config, and no tenant is the empty
    string.  Then a read by key and the list it is taken from agree: the row
    of a uid, of a uuid in any spelling, of an id, is there exactly when the
    list has it, and the lists come in the order they ask for. *)
Theorem tables_typed l :
  Forall drawn_uuid l →
  let d := do_statements l empty_DB in
  schema d ∧
  (∀ uid c, GetAgentConnection uid d = Some c ↔
     c ∈ ListAgentConnections d ∧ ac_InstanceUID c = uid) ∧
  (∀ id j, GetJob id d = Some (Some j) ↔
     j ∈ ListJobs d ∧ uuid_in id = Some (job_ID j)) ∧
  (∀ id m, GetRoleMapping id d = Some m ↔ m ∈ ListRoleMappings d ∧ rm_ID m = id) ∧
  StronglySorted (cmp_le by_InstanceUID) (ListAgentConnections d) ∧
  StronglySorted (λ a b, job_CreatedAt a ≤ job_CreatedAt b) (ListJobs d) ∧
  StronglySorted (λ a b, rm_ID a ≤ rm_ID b) (ListRoleMappings d).
Proof.
  intros Hl d. assert (schema d) as Hd by (by apply schema_statements; [|apply schema_empty]).
  split_and!; [done|..].
  - intros uid c. unfold GetAgentConnection, ListAgentConnections, queryAgentConnections.
    rewrite query_all. apply head_query; [by apply connections_NoDup|].
    intros y. apply bool_decide_eq_true.
  - intros id j. unfold GetJob, ListJobs, queryJobs. rewrite query_all.
    destruct (uuid_in id) as [u|]; simpl; [|naive_solver].
    rewrite (inj_iff Some), (head_query job_ID _ _ _ _ u); [|apply Hd|].
    + naive_solver.
    + intros y. apply bool_decide_eq_true.
  - intros id m. unfold GetRoleMapping, ListRoleMappings, queryRoleMappings.
    assert (∀ r, head (SortFunc by_rr_id (filter (λ r, bool_decide (rr_id r = id) = true)
              (t_role_mapping d))) = Some r ↔ r ∈ t_role_mapping d ∧ rr_id r = id) as Hq.
    { intros r. apply head_query; [apply Hd|]. intros y. apply bool_decide_eq_true. }
    rewrite head_fmap, fmap_Some, list_elem_of_fmap. setoid_rewrite Hq.
    setoid_rewrite query_all. naive_solver.
  - apply SortFunc_sorted, by_InstanceUID_order.
  - eapply StronglySorted_weaken; [|apply SortFunc_sorted, (by_key_order job_CreatedAt)].
    unfold cmp_le, by_CreatedAt, Time. lia.
  - unfold ListRoleMappings, queryRoleMappings. eapply (StronglySorted_fmap _ (λ a b, rr_id a ≤ rr_id b)); [done|].
    eapply StronglySorted_weaken; [|apply SortFunc_sorted, (by_key_order rr_id)].
    unfold cmp_le, by_rr_id. lia.
Qed.

(** The targets of a job are materialised at once, and stay.  For ids drawn
    in order, the INSERT is refused exactly when the job does not exist, a uid
    repeats among the targets or those the job has, or an id is taken.
    Otherwise every target becomes a row of the job, with the status and reason
    given and no dispatch times; and whatever the package does later, agents
    evicted and purged included, short of adding targets to the same job,
    ListJobTargets returns what the job had and those rows, in the order given
    when there were none. *)
Theorem targets_materialize jobID u draw targets d :
  schema d → uuid_in jobID = Some u → targets ≠ [] →
  (∀ i j, (i < j)%nat → draw i < draw j) →
  let taken := jt_InstanceUID <$> targets_of u d in
  let creatable := u ∈ job_ID <$> t_jobs d ∧ NoDup (taken ++ (nt_InstanceUID <$> targets)) ∧
    ∀ i, (i < length targets)%nat → draw i ∉ jt_ID <$> t_job_targets d in
  match CreateJobTargets jobID draw targets d with
  | None => ¬ creatable
  | Some (created, d') =>
      creatable ∧
      (λ t, mkNewJobTarget (jt_InstanceUID t) (jt_Status t) (jt_Reason t)) <$> created = targets ∧
      Forall (λ t, jt_JobID t = u ∧ jt_DispatchedAt t = None ∧ jt_CompletedAt t = None) created ∧
      ∀ l, Forall (keeps_targets u) l →
        ∃ rows, ListJobTargets jobID (do_statements l d') = Some rows ∧
          rows ≡ₚ targets_of u d ++ created ∧ (taken = [] → rows = created)
  end.
Proof.
  intros Hd Hu Hts Hdraw taken creatable.
  assert (creatable ↔ u ∈ job_ID <$> t_jobs d ∧
    NoDup (jt_ID <$> (t_job_targets d ++ rows_of u draw targets)) ∧
    NoDup (target_key <$> (t_job_targets d ++ rows_of u draw targets))) as Hc.
  { unfold creatable. rewrite target_keys_NoDup by apply Hd.
    rewrite rows_of_ids_NoDup by first [done|apply Hd]. unfold taken, targets_of. tauto. }
  unfold CreateJobTargets. rewrite bool_decide_eq_false_2, Hu by done. simpl.
  change (imap _ targets) with (rows_of u draw targets).
  case_bool_decide as Hok; [|by rewrite Hc].
  split_and!; [by rewrite Hc|by apply rows_of_inputs|by apply rows_of_fresh|].
  intros l Hl. eexists. split; [unfold ListJobTargets; by rewrite Hu|].
  change (filter _ (t_job_targets ?x)) with (targets_of u x).
  rewrite do_statements_targets by done. unfold targets_of at 1 3. simpl.
  rewrite filter_app, (list_filter_all _ (rows_of u draw targets))
    by (apply Forall_forall, rows_of_job).
  split; [apply SortFunc_perm|]. intros Ht%fmap_nil_inv.
  change (filter _ (t_job_targets d)) with (targets_of u d). rewrite Ht. simpl.
  by apply rows_of_SortFunc.
Qed.

End jobs.

(** ** Instances and witnesses *)

(** The 36 characters Postgres prints; it accepts other spellings too. *)
Program Definition printed_uuids : PgUUID :=
  {| uuid_in s := if (String.length s =? 36)%nat then Some s else None |}.
Next Obligation. intros s u. simpl. destruct (_ =? 36)%nat eqn:E; [|done]. intros [= <-]. by rewrite E. Qed.

#[local] Existing Instances printed_uuids merge_GoSort.

Definition job1 : string := "00000000-0000-4000-8000-000000000001".

Definition restart_all : Job :=
  mkJob "" "restart=true" "restart" "" "armed" (Some "freeze") "ops" 0 None None None.

Definition rollout : list statement :=
  [SCreateJob job1 7000 restart_all;
   SCreateJob job1 8000 restart_all;
   SCreateJobTargets job1 (λ i, Z.of_nat i + 1)
     [mkNewJobTarget "b" JobTargetStatusPending None;
      mkNewJobTarget "a" JobTargetStatusRejected (Some "not supervisor_managed")];
   SCreateRoleMapping 1 9000 (mkRoleMapping 0 "spiffe" "spiffe://td/ops" "exact" "admin" "" 0 0);
   SUpsertConnection (mkAgentConnection "b" "r1" "pod-1" 5000 5000)].

Lemma rollout_drawn : Forall drawn_uuid rollout.
Proof. by repeat constructor. Qed.

(** The job is stored once, planned, whatever status it was given. *)
Example tables_typed_witness :
  (job_Status <$> ListJobs (do_statements rollout empty_DB)) = ["planned"] ∧
  (rm_TenantID <$> GetRoleMapping 1 (do_statements rollout empty_DB)) = Some "" ∧
  ∃ j, GetJob job1 (do_statements rollout empty_DB) = Some (Some j).
Proof.
  destruct (tables_typed rollout rollout_drawn) as (_ & _ & Hj & _).
  split; [vm_compute; reflexivity|]. split; [vm_compute; reflexivity|].
  eexists. apply Hj. split; [vm_compute; left|vm_compute; reflexivity].
Defined.

Definition one_job : DB := do_statements (take 1 rollout) empty_DB.

Lemma one_job_schema : schema one_job.
Proof. apply schema_statements, schema_empty. apply Forall_take, rollout_drawn. Qed.

(** Both targets outlive the agent [b]'s rows. *)
Example targets_materialize_witness :
  let targets := [mkNewJobTarget "b" JobTargetStatusPending None;
    mkNewJobTarget "a" JobTargetStatusRejected (Some "not supervisor_managed")] in
  let d := default empty_DB (snd <$> CreateJobTargets job1 (λ i, Z.of_nat i + 1) targets one_job) in
  ∃ rows, ListJobTargets job1 (do_statements [SWrite (WDelete "b")] d) = Some rows ∧
    rows = [target_row job1 1 (mkNewJobTarget "b" "pending" None);
            target_row job1 2 (mkNewJobTarget "a" "rejected" (Some "not supervisor_managed"))].
Proof.
  intros targets d.
  assert (∀ i j : nat, (i < j)%nat → Z.of_nat i + 1 < Z.of_nat j + 1) as Hdraw by lia.
  pose proof (targets_materialize job1 job1 (λ i, Z.of_nat i + 1) targets one_job one_job_schema
    eq_refl ltac:(discriminate) Hdraw) as Hm.
  cbv zeta in Hm. destruct (CreateJobTargets job1 _ targets one_job) as [[created d']|] eqn:E.
  - destruct Hm as (_ & _ & _ & Hl).
    destruct (Hl [SWrite (WDelete "b")]) as (rows & Hrows & _ & Hnone); [by repeat constructor|].
    exists rows. split; [exact Hrows|]. rewrite Hnone by (vm_compute; reflexivity).
    vm_compute in E. injection E as <- _. vm_compute. reflexivity.
  - vm_compute in E. discriminate.
Defined.
