(* ===== verification/Flush.v ===== *)
(** * Package persistence: the dirty set, the flusher and bounded concurrency

    internal/persistence/flush.go and write.go.  [DirtyTracker] is the
    listener of the registry the flusher drains.  [flusher] is the registry,
    the dirty set, the database and one flush in progress; its steps are the
    operations of the registry, which run concurrently with the flush, and the
    stages of [flushOnce]: the drain, one [Registry.Get] per drained id, the
    saves in whatever order their goroutines commit, the batched soft deletes
    and the batched connection upserts.  [Pool] is the scheduler of
    [runConcurrent]. *)

From Stdlib Require Import ZArith Lia.
From stdpp Require Import list_tactics.
From S2P Require Import Prelude GoLang Fleet Registry RegistryProps Store.
Local Open Scope Z_scope.

(** ** runConcurrent *)

Lemma concat_perm {A} (l l' : list (list A)) : l ≡ₚ l' → concat l ≡ₚ concat l'.
Proof.
  induction 1 as [|x l l' _ IH|x y l|l1 l2 l3 _ IH1 _ IH2]; simpl; [done|by rewrite IH| |by etrans].
  rewrite !app_assoc. by rewrite (Permutation_app_comm y x).
Qed.

Section pool.
Context {T : Type}.

(** Tasks not handed out yet, tasks holding a slot of the semaphore, and the
    finished ones in the order they finished. *)
Record Pool := mkPool { waiting : list T; running : list T; finished : list T }.

(** The number of slots. *)
Definition slots (maxConcurrent : Z) : nat :=
  Z.to_nat (if maxConcurrent <? 1 then 1 else maxConcurrent).

(** The loop blocks on the semaphore before it starts the next task; a task
    gives its slot back when it is done. *)
Inductive pool_step (maxConcurrent : Z) : Pool → Pool → Prop :=
  | pool_start t w r f :
      (length r < slots maxConcurrent)%nat →
      pool_step maxConcurrent (mkPool (t :: w) r f) (mkPool w (t :: r) f)
  | pool_finish t w r1 r2 f :
      pool_step maxConcurrent (mkPool w (r1 ++ t :: r2) f) (mkPool w (r1 ++ r2) (f ++ [t])).

Inductive pool_steps (maxConcurrent : Z) : nat → Pool → Pool → Prop :=
  | pool_refl p : pool_steps maxConcurrent 0 p p
  | pool_trans n p q s :
      pool_step maxConcurrent p q → pool_steps maxConcurrent n q s →
      pool_steps maxConcurrent (S n) p s.

Definition pool_init (tasks : list T) : Pool := mkPool tasks [] [].

(** [runConcurrent tasks maxConcurrent] may finish its tasks in this order. *)
Definition runConcurrent (tasks : list T) (maxConcurrent : Z) (order : list T) : Prop :=
  ∃ n, pool_steps maxConcurrent n (pool_init tasks) (mkPool [] [] order).

Definition pool_measure (p : Pool) : nat := 2 * length (waiting p) + length (running p).

Lemma slots_pos m : (1 ≤ slots m)%nat.
Proof. unfold slots. destruct (m <? 1) eqn:E; [lia|]. apply Z.ltb_ge in E. lia. Qed.

Lemma pool_step_measure m p q : pool_step m p q → pool_measure p = S (pool_measure q).
Proof.
  destruct 1; unfold pool_measure; simpl; rewrite ?length_app; simpl; lia.
Qed.

Lemma pool_step_tasks m p q :
  pool_step m p q →
  waiting q ++ running q ++ finished q ≡ₚ waiting p ++ running p ++ finished p.
Proof.
  destruct 1; simpl.
  - symmetry. apply Permutation_middle.
  - apply Permutation_app_head. rewrite <-!app_assoc. apply Permutation_app_head.
    change (t :: r2) with ([t] ++ r2). solve_Permutation.
Qed.

Lemma pool_step_bound m p q :
  pool_step m p q → (length (running p) ≤ slots m)%nat → (length (running q) ≤ slots m)%nat.
Proof. destruct 1; simpl; rewrite ?length_app; simpl; lia. Qed.

Lemma pool_steps_inv m n p q :
  pool_steps m n p q → (length (running p) ≤ slots m)%nat →
  (n + pool_measure q = pool_measure p)%nat ∧ (length (running q) ≤ slots m)%nat ∧
  waiting q ++ running q ++ finished q ≡ₚ waiting p ++ running p ++ finished p.
Proof.
  induction 1 as [p|n p q s Hs _ IH]; intros Hb; [done|].
  destruct (IH (pool_step_bound _ _ _ Hs Hb)) as (Hn & Hb' & Hp).
  split_and!; [|done|].
  - rewrite (pool_step_measure _ _ _ Hs). lia.
  - by rewrite Hp, (pool_step_tasks _ _ _ Hs).
Qed.

Lemma pool_init_measure (l : list T) : pool_measure (pool_init l) = (2 * length l)%nat.
Proof. unfold pool_measure. simpl. lia. Qed.

Lemma runConcurrent_perm m tasks order : runConcurrent tasks m order → order ≡ₚ tasks.
Proof.
  intros [n Ho]. destruct (pool_steps_inv m n _ _ Ho (Nat.le_0_l _)) as (_ & _ & Hp).
  simpl in Hp. by rewrite Hp, app_nil_r.
Qed.

(** A pool with work left always moves: no deadlock. *)
Lemma pool_progress m p : pool_measure p ≠ 0%nat → ∃ q, pool_step m p q.
Proof.
  destruct p as [w [|t r] f]; unfold pool_measure; simpl; intros Hm.
  - destruct w as [|t w]; [done|]. eexists. apply pool_start. simpl. apply slots_pos.
  - eexists. apply (pool_finish m t w [] r f).
Qed.

End pool.

Arguments Pool : clear implicits.

(** ** chunk *)

Definition defaultBatchSize : Z := 500.

(** The loop over [i], on the rest of the list; the bound on the recursion is
    its length. *)
Fixpoint chunk_loop {A} (fuel : nat) (ids : list A) (size : nat) : list (list A) :=
  match fuel, ids with
  | _, [] => []
  | O, _ => []
  | S fuel, _ => take size ids :: chunk_loop fuel (drop size ids) size
  end.

Definition chunk {A} (ids : list A) (size : Z) : list (list A) :=
  let size := if size <=? 0 then 1 else size in
  chunk_loop (length ids) ids (Z.to_nat size).

Lemma chunk_loop_spec {A} fuel (ids : list A) size :
  (0 < size)%nat → (length ids ≤ fuel)%nat →
  concat (chunk_loop fuel ids size) = ids ∧
  Forall (λ c, c ≠ [] ∧ (length c ≤ size)%nat) (chunk_loop fuel ids size).
Proof.
  intros Hs. revert ids. induction fuel as [|fuel IH]; intros ids Hl.
  - destruct ids; [by split; [|constructor]|simpl in Hl; lia].
  - destruct ids as [|x ids]; [by split; [|constructor]|].
    destruct (IH (drop size (x :: ids))) as [Hc Hf].
    { rewrite length_drop. simpl in *. lia. }
    change (chunk_loop (S fuel) (x :: ids) size)
      with (take size (x :: ids) :: chunk_loop fuel (drop size (x :: ids)) size).
    split.
    + cbn [concat]. by rewrite Hc, take_drop.
    + constructor; [|done]. split; [destruct size; [lia|done]|]. rewrite length_take. lia.
Qed.

Lemma chunk_spec {A} (ids : list A) size :
  concat (chunk ids size) = ids ∧
  Forall (λ c, c ≠ [] ∧ Z.of_nat (length c) ≤ Z.max 1 size) (chunk ids size).
Proof.
  unfold chunk. set (k := if size <=? 0 then 1 else size).
  assert (0 < k ≤ Z.max 1 size) as Hk.
  { unfold k. destruct (size <=? 0) eqn:E; [lia|apply Z.leb_gt in E; lia]. }
  destruct (chunk_loop_spec (length ids) ids (Z.to_nat k)) as [Hc Hf]; [lia..|].
  split; [done|]. eapply Forall_impl; [exact Hf|]. simpl. intros c [Hne Hl]. split; [done|lia].
Qed.

(** The tasks may finish in the order they were given. *)
Lemma runConcurrent_in_order {T} (tasks : list T) m : runConcurrent tasks m tasks.
Proof.
  assert (∀ f, ∃ n, pool_steps m n (mkPool tasks [] f) (mkPool [] [] (f ++ tasks))) as Hf.
  { induction tasks as [|t tasks IH]; intros f.
    - exists 0%nat. rewrite app_nil_r. constructor.
    - destruct (IH (f ++ [t])) as [n Hn]. exists (S (S n)).
      econstructor; [apply pool_start; simpl; apply slots_pos|].
      econstructor; [apply (pool_finish m t tasks [] [] f)|].
      by rewrite <-app_assoc in Hn. }
  destruct (Hf []) as [n Hn]. by exists n.
Qed.

(** ** DirtyTracker *)

Abbreviation DirtyTracker := (gmap string unit).

Definition mark (instanceUID : string) (d : DirtyTracker) : DirtyTracker :=
  <[instanceUID := tt]> d.

(** Every notification marks its agent. *)
#[export] Instance dirty_events : Listener DirtyTracker := λ d e,
  match e with
  | AgentConnected instanceUID => mark instanceUID d
  | AgentDisconnected instanceUID => mark instanceUID d
  | AgentEvicted instanceUID => mark instanceUID d
  | ReportReceived instanceUID _ => mark instanceUID d
  | MissingAttribute instanceUID _ => mark instanceUID d
  | ReservedAttributeConflict instanceUID _ => mark instanceUID d
  end.

(** ** Flusher *)

(** Where [flushOnce] is: between two flushes, looking the drained ids up,
    running the saves, the soft-delete batches, the connection batches. *)
Inductive stage :=
  | Idle
  | Looking (ids : list string) (tasks : list Agent) (evictedIDs : list string)
      (connectedAgents : list Agent)
  | Saving (tasks : Pool Agent) (evictedIDs : list string) (connectedAgents : list Agent)
  | Deleting (tasks : Pool (list string)) (connectedAgents : list Agent)
  | Connecting (tasks : Pool (list string)).

Record FlusherConfig := mkFlusherConfig {
  maxConcurrent : Z;
  replicaID : string;
  replicaLabel : string
}.

Record flusher := mkFlusher {
  fl_registry : Registry;
  fl_dirty : DirtyTracker;
  fl_db : DB;
  fl_stage : stage
}.

#[export] Instance eta_flusher : Eta flusher := λ f,
  mkFlusher (fl_registry f) (fl_dirty f) (fl_db f) (fl_stage f).

(** [FOp]: a critical section of the registry.  [FNext]: the next step of the
    goroutine running [flushOnce].  [FFinish i now landed]: the [i]-th running
    task ends at [now]; its write landed, or failed or timed out. *)
Inductive finput :=
  | FOp (o : action)
  | FNext
  | FFinish (i : nat) (now : Time) (landed : bool).

(** [sem <- struct{}{}]: the next task, when a slot is free. *)
Definition start_task {T} (m : Z) (p : Pool T) : option (Pool T) :=
  match waiting p with
  | t :: w => if (length (running p) <? slots m)%nat
              then Some (mkPool w (t :: running p) (finished p)) else None
  | [] => None
  end.

(** [wg.Wait]. *)
Definition pool_done {T} (p : Pool T) : bool :=
  bool_decide (length (waiting p) = 0%nat) && bool_decide (length (running p) = 0%nat).

Definition finish_task {T} (i : nat) (p : Pool T) : option (T * Pool T) :=
  t ← running p !! i;
  Some (t, mkPool (waiting p) (delete i (running p)) (finished p ++ [t])).

Section flusher.
Context `{PB : Protobuf, UU : UUID, MR : MapRange, PT : PgTime}.

(** [Drain]. *)
Definition Drain (d : DirtyTracker) : list string * DirtyTracker := ((range d).*1, ∅).

(** The task that saves one agent. *)
Definition save_task (landed : bool) (agent : Agent) (d : DB) : DB :=
  if landed then default d (SaveAgent agent d) else d.

(** The task of one chunk of [flushSoftDeletes]. *)
Definition delete_task (now : Time) (landed : bool) (ids : list string) (d : DB) : DB :=
  if landed
  then (SendBatch ((λ id d, Some (SoftDeleteAgent id now d)) <$> ids) d).2 else d.

(** The task of one chunk of [flushAgentConnections]. *)
Definition connection_task (c : FlusherConfig) (now : Time) (landed : bool)
    (ids : list string) (d : DB) : DB :=
  if landed
  then (SendBatch ((λ id d, Some (UpsertAgentConnection
          (mkAgentConnection id (replicaID c) (replicaLabel c) now now) d)) <$> ids) d).2
  else d.

(** The next step of [flushOnce]; [None] when it waits for a running task. *)
Definition flush_next (c : FlusherConfig) (f : flusher) : option flusher :=
  match fl_stage f with
  | Idle =>
      let '(ids, dirty) := Drain (fl_dirty f) in
      Some (f <| fl_dirty := dirty |> <| fl_stage := Looking ids [] [] [] |>)
  | Looking (id :: ids) tasks evictedIDs connectedAgents =>
      match Get (fl_registry f) id with
      | None => Some (f <| fl_stage := Looking ids tasks (evictedIDs ++ [id]) connectedAgents |>)
      | Some agent =>
          let connectedAgents :=
            if Connected agent then connectedAgents ++ [agent] else connectedAgents in
          Some (f <| fl_stage := Looking ids (tasks ++ [agent]) evictedIDs connectedAgents |>)
      end
  | Looking [] tasks evictedIDs connectedAgents =>
      Some (f <| fl_stage := Saving (pool_init tasks) evictedIDs connectedAgents |>)
  | Saving p evictedIDs connectedAgents =>
      if pool_done p
      then Some (f <| fl_stage :=
             Deleting (pool_init (chunk evictedIDs defaultBatchSize)) connectedAgents |>)
      else p ← start_task (maxConcurrent c) p;
           Some (f <| fl_stage := Saving p evictedIDs connectedAgents |>)
  | Deleting p connectedAgents =>
      if pool_done p
      then Some (f <| fl_stage :=
             Connecting (pool_init (chunk (InstanceUID <$> connectedAgents) defaultBatchSize)) |>)
      else p ← start_task (maxConcurrent c) p;
           Some (f <| fl_stage := Deleting p connectedAgents |>)
  | Connecting p =>
      if pool_done p then Some (f <| fl_stage := Idle |>)
      else p ← start_task (maxConcurrent c) p; Some (f <| fl_stage := Connecting p |>)
  end.

Definition flush_finish (c : FlusherConfig) (i : nat) (now : Time) (landed : bool)
    (f : flusher) : option flusher :=
  match fl_stage f with
  | Saving p evictedIDs connectedAgents =>
      tp ← finish_task i p;
      Some (f <| fl_db := save_task landed tp.1 (fl_db f) |>
              <| fl_stage := Saving tp.2 evictedIDs connectedAgents |>)
  | Deleting p connectedAgents =>
      tp ← finish_task i p;
      Some (f <| fl_db := delete_task now landed tp.1 (fl_db f) |>
              <| fl_stage := Deleting tp.2 connectedAgents |>)
  | Connecting p =>
      tp ← finish_task i p;
      Some (f <| fl_db := connection_task c now landed tp.1 (fl_db f) |>
              <| fl_stage := Connecting tp.2 |>)
  | _ => None
  end.

Definition flush_step (c : FlusherConfig) (i : finput) (f : flusher) : option flusher :=
  match i with
  | FOp o =>
      let '(r, es) := act o (fl_registry f) in
      Some (f <| fl_registry := r |> <| fl_dirty := notify_all (fl_dirty f) es |>)
  | FNext => flush_next c f
  | FFinish i now landed => flush_finish c i now landed f
  end.

Fixpoint flush_run (c : FlusherConfig) (l : list finput) (f : flusher) : option flusher :=
  match l with
  | [] => Some f
  | i :: l => f ← flush_step c i f; flush_run c l f
  end.

Definition flush_init (c : Config) : flusher := mkFlusher (New c) ∅ empty_DB Idle.

End flusher.

(** ** Properties *)

(** C29: bounded concurrency.  However the goroutines of runConcurrent are
    scheduled, at most maxConcurrent tasks (one, if it is not positive) hold a
    slot; no task is lost or run twice; the pool can move until nothing is
    left, and it has then taken two steps per task, so runConcurrent returns
    with every task finished exactly once. *)
Theorem runConcurrent_correct {T} (tasks : list T) m n p :
  pool_steps m n (pool_init tasks) p →
  Z.of_nat (length (running p)) ≤ Z.max 1 m ∧
  waiting p ++ running p ++ finished p ≡ₚ tasks ∧
  ((∃ q, pool_step m p q) ∨ runConcurrent tasks m (finished p)) ∧
  (n ≤ 2 * length tasks)%nat ∧
  ∀ order, runConcurrent tasks m order → order ≡ₚ tasks.
Proof.
  intros Hs.
  destruct (pool_steps_inv m n _ p Hs (Nat.le_0_l _)) as (Hn & Hb & Hp).
  rewrite pool_init_measure in Hn. split_and!.
  - revert Hb. unfold slots. destruct (m <? 1) eqn:E; [apply Z.ltb_lt in E|apply Z.ltb_ge in E]; lia.
  - rewrite Hp. simpl. by rewrite app_nil_r.
  - destruct (decide (pool_measure p = 0%nat)) as [H0|H0]; [right|left; by apply pool_progress].
    exists n. destruct p as [[|] [|] f]; unfold pool_measure in H0; simpl in H0; try lia. done.
  - lia.
  - intros order. apply runConcurrent_perm.
Qed.

Example runConcurrent_correct_witness : runConcurrent [1%nat; 2%nat] 2 [1%nat; 2%nat].
Proof.
  assert (pool_steps 2 4 (pool_init [1%nat; 2%nat]) (mkPool [] [] [1%nat; 2%nat])) as Hs'.
  { econstructor; [apply pool_start; vm_compute; lia|].
    econstructor; [apply pool_start; vm_compute; lia|].
    econstructor; [apply (pool_finish 2 1%nat [] [2%nat] [] [])|].
    econstructor; [apply (pool_finish 2 2%nat [] [] [] [1%nat])|]. apply pool_refl. }
  destruct (runConcurrent_correct [1%nat; 2%nat] 2 4 _ Hs') as (_ & _ & [[q Hq]|Hr] & _).
  - inversion Hq as [|t w r1 r2 f Heq]. by destruct r1.
  - exact Hr.
Defined.
