(* ===== verification/Stores.v ===== *)
(** * What the persistence workers ask of a store

    The interfaces of internal/persistence/persistence.go as type classes, with
    what their comments promise as laws, the two paths of the flusher through
    them (flush.go: batches when the store can, one write per agent otherwise)
    and the Postgres store as their instance.  A write is a partial function on
    the store's state; one that fails leaves the state as it was.  The theorem:
    whether or not a store batches, and however the tasks are scheduled, a flush
    leaves the evictions and connections of the tasks that landed, and with all
    landed the two paths end alike. *)

From Stdlib Require Import ZArith Lia.
From S2P Require Import Prelude GoLang Fleet Registry Store Jobs Flush Demo.
Local Open Scope Z_scope.

(** ** Interfaces *)

(** [StateStore]. *)
Class StateStore (S : Type) := {
  ss_SaveAgent : Agent → S → option S;
  ss_SaveSession : Agent → S → option S;
  ss_GetAgent : string → S → option (option Agent);
  ss_ListAgents : S → option (list Agent);
  ss_DeleteAgent : string → S → option S;
  ss_SoftDeleteAgent : string → Time → S → option S
}.

(** [pgx.Batch]: the queued statements. *)
Abbreviation Batch S := (list (S → option S)).

(** What sending a batch gives back: one result per statement, and the store. *)
Abbreviation Sender S := (Batch S → S → list bool * S).

(** [BatchStateStore]. *)
Class BatchStateStore (S : Type) := {
  QueueSaveSession : Batch S → Agent → Batch S;
  QueueSoftDeleteAgent : Batch S → string → Time → Batch S;
  bss_SendBatch : Sender S
}.

(** [ConnectionStore]. *)
Class ConnectionStore (S : Type) := {
  cs_UpsertAgentConnection : AgentConnection → S → option S;
  cs_GetAgentConnection : string → S → option AgentConnection;
  cs_ListAgentConnections : S → list AgentConnection;
  cs_DeleteAgentConnection : string → S → option S
}.

(** [BatchConnectionStore]. *)
Class BatchConnectionStore (S : Type) := {
  QueueUpsertAgentConnection : Batch S → AgentConnection → Batch S;
  bcs_SendBatch : Sender S
}.

(** ** Laws *)

Fixpoint run_all {S} (b : Batch S) (s : S) : option S :=
  match b with [] => Some s | w :: b => s ← w s; run_all b s end.

(** A batch is one transaction: a result for each statement in order; all of
    them run, or one is refused and nothing is kept. *)
Record sends {S} (send : Sender S) : Prop := {
  send_results b s : length (send b s).1 = length b;
  send_all b s s' : run_all b s = Some s' → send b s = (replicate (length b) true, s');
  send_none b s : run_all b s = None → (send b s).2 = s ∧ false ∈ (send b s).1
}.

(** Queueing is appending the statement the single write would execute. *)
Class BatchStateLaws (S : Type) {SS : StateStore S} {BS : BatchStateStore S} := {
  queue_session b a : QueueSaveSession b a = b ++ [ss_SaveSession a];
  queue_soft_delete b u t : QueueSoftDeleteAgent b u t = b ++ [ss_SoftDeleteAgent u t];
  state_sends : sends bss_SendBatch
}.

Class BatchConnectionLaws (S : Type) {CS : ConnectionStore S} {BC : BatchConnectionStore S} := {
  queue_connection b c : QueueUpsertAgentConnection b c = b ++ [cs_UpsertAgentConnection c];
  connection_sends : sends bcs_SendBatch
}.

(** A soft delete is accepted, idempotent, and of its own row only. *)
Class SoftDeleteLaws (S : Type) {SS : StateStore S} := {
  soft_delete : string → Time → S → S;
  soft_delete_accepted u t s : ss_SoftDeleteAgent u t s = Some (soft_delete u t s);
  soft_delete_idempotent u t t' s : soft_delete u t' (soft_delete u t s) = soft_delete u t s;
  soft_delete_comm u u' t t' s :
    u ≠ u' → soft_delete u t (soft_delete u' t' s) = soft_delete u' t' (soft_delete u t s)
}.

(** So is the upsert of a connection, the last one of an agent counting. *)
Class UpsertLaws (S : Type) {CS : ConnectionStore S} := {
  upsert : AgentConnection → S → S;
  upsert_accepted c s : cs_UpsertAgentConnection c s = Some (upsert c s);
  upsert_comm c c' s :
    ac_InstanceUID c ≠ ac_InstanceUID c' → upsert c (upsert c' s) = upsert c' (upsert c s)
}.

(** ** One flush of single statements, batched or not *)

(** The loops [flushSoftDeletes] and [flushAgentConnections] share: the ids in
    chunks of a batch, or one by one. *)
Definition tasks_of (batches : bool) (ids : list string) : list (list string) :=
  if batches then chunk ids defaultBatchSize else (λ id, [id]) <$> ids.

Section flush.
Context {S : Type}.

(** One task: [write] for each id of it, queued and sent, or executed. *)
Definition run_task (send : option (Sender S)) (write : string → S → option S)
    (landed : bool) (ids : list string) (s : S) : S :=
  if landed then
    match send with
    | Some send => (send (write <$> ids) s).2
    | None => foldl (λ s id, default s (write id s)) s ids
    end
  else s.

(** The tasks in the order they finish, each with its clock and its fate. *)
Definition run_tasks (send : option (Sender S)) (write : Time → string → S → option S)
    (order : list (list string * Time * bool)) (s : S) : S :=
  foldl (λ s (t : list string * Time * bool), run_task send (write t.1.2) t.2 t.1.1 s) s order.

Definition flush_ids (send : option (Sender S)) (maxConcurrent : Z) (ids : list string)
    (write : Time → string → S → option S) (order : list (list string * Time * bool)) (s s' : S) : Prop :=
  if bool_decide (ids = []) then order = [] ∧ s' = s
  else runConcurrent (tasks_of (bool_decide (is_Some send)) ids) maxConcurrent (order.*1.*1) ∧
       s' = run_tasks send write order s.

(** [flushSoftDeletes]; [batch] is the type assertion's answer. *)
Definition flushSoftDeletes `{StateStore S} (batch : option (BatchStateStore S)) (m : Z) (ids : list string)
    (order : list (list string * Time * bool)) (s s' : S) : Prop :=
  flush_ids ((λ B, @bss_SendBatch S B) <$> batch) m ids (λ now id, ss_SoftDeleteAgent id now) order s s'.

(** [flushAgentConnections]. *)
Definition flushAgentConnections `{ConnectionStore S} (batch : option (BatchConnectionStore S))
    (c : FlusherConfig) (ids : list string) (order : list (list string * Time * bool)) (s s' : S) : Prop :=
  flush_ids ((λ B, @bcs_SendBatch S B) <$> batch) (maxConcurrent c) ids
    (λ now id, cs_UpsertAgentConnection
       (mkAgentConnection id (replicaID c) (replicaLabel c) now now)) order s s'.

(** *** Lemmas *)

(** What the tasks that landed do. *)
Definition landed (order : list (list string * Time * bool)) : list (string * Time) :=
  order ≫= λ t : list string * Time * bool, if t.2 then (λ id, (id, t.1.2)) <$> t.1.1 else [].

Lemma tasks_of_concat batches ids : concat (tasks_of batches ids) = ids.
Proof.
  unfold tasks_of. destruct batches; [apply chunk_spec|]. induction ids as [|id ids IH]; [done|].
  cbn. by rewrite IH.
Qed.

(** When every task lands at one instant. *)
Lemma landed_at now (order : list (list string * Time * bool)) :
  Forall (λ t, t.2 = true ∧ t.1.2 = now) order →
  landed order = (λ id, (id, now)) <$> concat order.*1.*1.
Proof.
  induction 1 as [|[[ids t] l] order [Hl Ht] _ IH]; [done|]. cbn in Hl, Ht. subst l t.
  unfold landed in *. cbn. by rewrite fmap_app, IH.
Qed.

Context (write : Time → string → S → option S) (eff : Time → string → S → S)
  (accepted : ∀ t u s, write t u s = Some (eff t u s)).

Lemma run_all_accepted t ids s :
  run_all (write t <$> ids) s = Some (foldl (λ s id, eff t id s) s ids).
Proof.
  revert s. induction ids as [|id ids IH]; intros s; [done|]. cbn. rewrite accepted. cbn. apply IH.
Qed.

Lemma run_task_accepted send t l ids s :
  match send with Some f => sends f | None => True end →
  run_task send (write t) l ids s = if l then foldl (λ s id, eff t id s) s ids else s.
Proof.
  intros Hs. unfold run_task. destruct l; [|done]. destruct send as [f|].
  - by rewrite (send_all f Hs _ _ _ (run_all_accepted t ids s)).
  - revert s. induction ids as [|id ids IH]; intros s; [done|]. cbn. rewrite accepted. apply IH.
Qed.

Lemma run_tasks_accepted send order s :
  match send with Some f => sends f | None => True end →
  run_tasks send write order s = foldl (λ s p, eff p.2 p.1 s) s (landed order).
Proof.
  intros Hs. unfold run_tasks, landed. revert s. induction order as [|[[ids t] l] order IH]; intros s; [done|].
  cbn [foldl]. rewrite run_task_accepted by done. rewrite IH. cbn [mbind list_bind fst snd].
  rewrite foldl_app. f_equal. destruct l; [|done]. generalize s.
  induction ids as [|id ids IHi]; intros s0; [done|]. cbn. apply IHi.
Qed.

(** The order of the writes of different agents does not matter. *)
Context (comm : ∀ t t' u u' s, u ≠ u' → eff t u (eff t' u' s) = eff t' u' (eff t u s)).

Lemma foldl_eff_perm (l l' : list (string * Time)) s :
  l ≡ₚ l' → NoDup l.*1 → foldl (λ s p, eff p.2 p.1 s) s l = foldl (λ s p, eff p.2 p.1 s) s l'.
Proof.
  intros Hp. revert s. induction Hp as [|[u t] l l' Hp IH|[u t] [u' t'] l|l1 l2 l3 H1 IH1 H2 IH2];
    intros s Hnd; cbn [foldl fst snd].
  - done.
  - rewrite fmap_cons in Hnd. apply NoDup_cons in Hnd as [_ Hnd]. by apply IH.
  - rewrite comm; [done|]. rewrite !fmap_cons in Hnd. apply NoDup_cons in Hnd as [Hn _].
    cbn in Hn. intros ->. set_solver.
  - rewrite IH1 by done. apply IH2. by rewrite <-H1.
Qed.

(** What a flush amounts to. *)
Lemma flush_ids_spec send m ids order s s' :
  match send with Some f => sends f | None => True end →
  flush_ids send m ids write order s s' →
  s' = foldl (λ s p, eff p.2 p.1 s) s (landed order) ∧ concat order.*1.*1 ≡ₚ ids.
Proof.
  intros Hs. unfold flush_ids. case_bool_decide as Hids; [by intros [-> ->]; rewrite Hids|].
  intros [Hr ->]. split; [by apply run_tasks_accepted|].
  apply runConcurrent_perm in Hr. apply concat_perm in Hr. by rewrite tasks_of_concat in Hr.
Qed.

Lemma flush_ids_agree send m ids now order order' s s1 s2 :
  match send with Some f => sends f | None => True end → NoDup ids →
  Forall (λ t, t.2 = true ∧ t.1.2 = now) order → Forall (λ t, t.2 = true ∧ t.1.2 = now) order' →
  flush_ids send m ids write order s s1 → flush_ids None m ids write order' s s2 → s1 = s2.
Proof.
  intros Hs Hnd Ho Ho' H1 H2. apply flush_ids_spec in H1 as [-> Hp1]; [|done].
  apply flush_ids_spec in H2 as [-> Hp2]; [|done].
  rewrite (landed_at now order), (landed_at now order') by done.
  apply foldl_eff_perm; [by rewrite Hp1, Hp2|].
  rewrite <-list_fmap_compose. change (fst ∘ (λ id : string, (id, now))) with (λ id : string, id).
  rewrite list_fmap_id. by rewrite Hp1.
Qed.

End flush.

(** ** The Postgres store *)

Section postgres.
Context `{PT : PgTime}.

#[export] Instance postgres_state : StateStore DB := {|
  ss_SaveAgent := SaveAgent;
  ss_SaveSession := SaveSession;
  ss_GetAgent := GetAgent;
  ss_ListAgents := ListAgents;
  ss_DeleteAgent u d := Some (DeleteAgent u d);
  ss_SoftDeleteAgent u t d := Some (SoftDeleteAgent u t d)
|}.

#[export] Instance postgres_batch : BatchStateStore DB := {|
  QueueSaveSession batch agent := batch ++ [SaveSession agent];
  QueueSoftDeleteAgent batch u t := batch ++ [λ d, Some (SoftDeleteAgent u t d)];
  bss_SendBatch := SendBatch
|}.

#[export] Instance postgres_connections : ConnectionStore DB := {|
  cs_UpsertAgentConnection c d := Some (UpsertAgentConnection c d);
  cs_GetAgentConnection := GetAgentConnection;
  cs_ListAgentConnections := ListAgentConnections;
  cs_DeleteAgentConnection u d := Some (DeleteAgentConnection u d)
|}.

#[export] Instance postgres_connection_batch : BatchConnectionStore DB := {|
  QueueUpsertAgentConnection batch c := batch ++ [λ d, Some (UpsertAgentConnection c d)];
  bcs_SendBatch := SendBatch
|}.

Lemma run_batch_spec b d :
  length (run_batch b d).1 = length b ∧
  match run_all b d with
  | Some d' => run_batch b d = (replicate (length b) true, Some d')
  | None => (run_batch b d).2 = None ∧ false ∈ (run_batch b d).1
  end.
Proof.
  revert d. induction b as [|w b IH]; intros d; [done|]. cbn. destruct (w d) as [d'|]; cbn.
  - destruct (IH d') as [Hl Hr]. destruct (run_batch b d') as [oks dd]. cbn in *. split; [by rewrite Hl|].
    destruct (run_all b d'); [by injection Hr as -> ->|]. destruct Hr as [-> Hf]. split; [done|]. by right.
  - split; [by rewrite length_replicate|]. split; [done|]. by left.
Qed.

Lemma postgres_sends : sends SendBatch.
Proof.
  split; intros b d; unfold SendBatch; destruct (run_batch_spec b d) as [Hl Hr];
    destruct (run_batch b d) as [oks dd]; cbn in *.
  - done.
  - intros d' Hd. rewrite Hd in Hr. injection Hr as -> ->. done.
  - intros Hd. rewrite Hd in Hr. by destruct Hr as [-> ?].
Qed.

#[export] Instance postgres_batch_laws : BatchStateLaws DB.
Proof. split; [done|done|apply postgres_sends]. Qed.

#[export] Instance postgres_connection_laws : BatchConnectionLaws DB.
Proof. split; [done|apply postgres_sends]. Qed.

(** A soft delete of one row: the row changes by itself. *)
Definition evict_row (t : Time) (row : agents_row) : agents_row :=
  match ar_evicted_at row with
  | None => row <| ar_evicted_at := Some (pg_time t) |>
  | Some _ => row
  end.

Lemma SoftDelete_alter u t d :
  SoftDeleteAgent u t d = d <| t_agents := alter (evict_row t) u (t_agents d) |>.
Proof.
  assert (∀ m : gmap string agents_row, t_agents d = m → d = d <| t_agents := m |>) as Hid
    by (intros m <-; by destruct d).
  unfold SoftDeleteAgent. destruct (t_agents d !! u) as [row|] eqn:Hu.
  - destruct (ar_evicted_at row) as [e|] eqn:He.
    + apply Hid. apply map_eq. intros i. destruct (decide (i = u)) as [->|Hne].
      * rewrite lookup_alter_eq, Hu. cbn. unfold evict_row. by rewrite He.
      * by rewrite lookup_alter_ne.
    + apply (f_equal (λ m, d <| t_agents := m |>)), map_eq. intros i. destruct (decide (i = u)) as [->|Hne].
      * rewrite lookup_alter_eq, Hu, lookup_insert_eq. cbn. unfold evict_row. by rewrite He.
      * by rewrite lookup_alter_ne, lookup_insert_ne.
  - apply Hid. symmetry. by apply alter_id'.
Qed.

#[export] Instance postgres_soft_delete_laws : SoftDeleteLaws DB.
Proof.
  refine {| soft_delete := SoftDeleteAgent |}.
  - done.
  - intros u t t' d. rewrite !SoftDelete_alter. destruct d as [ag se cf co jo ta ro].
    refine (f_equal (λ m, mkDB m se cf co jo ta ro) _). cbn.
    apply map_eq. intros i. destruct (decide (i = u)) as [->|Hne]; [|by rewrite !lookup_alter_ne].
    rewrite !lookup_alter_eq. destruct (ag !! u) as [row|]; [|done]. cbn. unfold evict_row.
    by destruct (ar_evicted_at row) eqn:E; cbn; rewrite ?E.
  - intros u u' t t' d Hne. rewrite !SoftDelete_alter.
    destruct d as [ag se cf co jo ta ro].
    refine (f_equal (λ m, mkDB m se cf co jo ta ro) _). cbn. by apply alter_alter_ne.
Defined.

#[export] Instance postgres_upsert_laws : UpsertLaws DB.
Proof.
  refine {| upsert := UpsertAgentConnection |}.
  - done.
  - intros c c' [ag se cf co jo ta ro] Hne. unfold UpsertAgentConnection. cbn.
    rewrite !lookup_insert_ne by done.
    refine (f_equal (λ m, mkDB ag se cf m jo ta ro) _). by apply insert_insert_ne.
Defined.

(** The tasks of [Flush] are those of this store, batched. *)
Lemma delete_task_interface now l ids d :
  delete_task now l ids d = run_task (Some bss_SendBatch) (λ id, ss_SoftDeleteAgent id now) l ids d.
Proof. done. Qed.

Lemma connection_task_interface c now l ids d :
  connection_task c now l ids d =
  run_task (Some bcs_SendBatch)
    (λ id, cs_UpsertAgentConnection (mkAgentConnection id (replicaID c) (replicaLabel c) now now)) l ids d.
Proof. done. Qed.

End postgres.

(** ** Properties *)

Section properties.
Context {S : Type}.

(** The evictions of a list of writes. *)
Definition soft_deletes `{SoftDeleteLaws S} (l : list (string * Time)) (s : S) : S :=
  foldl (λ s p, soft_delete p.1 p.2 s) s l.

Definition upserts `{UpsertLaws S} (c : FlusherConfig) (l : list (string * Time)) (s : S) : S :=
  foldl (λ s p, upsert (mkAgentConnection p.1 (replicaID c) (replicaLabel c) p.2 p.2) s) s l.

(** C19: batching is invisible.  Let a flush write the evictions of distinct
    agents to a store, or their connections, through batches or one by one, with
    any number of slots and the tasks finishing in any order.  The store ends
    with exactly the writes of the tasks that landed, each at its task's clock;
    the tasks are those ids, none twice; and a flush that batches and one that
    does not, of the same ids and with everything landing at the same instant,
    leave the store in the same state. *)
Theorem batching_invisible `{SL : SoftDeleteLaws S} `{UL : UpsertLaws S}
    {BS : BatchStateStore S} {BC : BatchConnectionStore S} m c ids :
  BatchStateLaws S → BatchConnectionLaws S → NoDup ids →
  (∀ batch order s s', batch = Some BS ∨ batch = None →
     flushSoftDeletes batch m ids order s s' →
     s' = soft_deletes (landed order) s ∧ concat order.*1.*1 ≡ₚ ids) ∧
  (∀ batch order s s', batch = Some BC ∨ batch = None →
     flushAgentConnections batch c ids order s s' →
     s' = upserts c (landed order) s ∧ concat order.*1.*1 ≡ₚ ids) ∧
  ∀ now order order' s s1 s2,
    Forall (λ t, t.2 = true ∧ t.1.2 = now) order → Forall (λ t, t.2 = true ∧ t.1.2 = now) order' →
    (flushSoftDeletes (Some BS) m ids order s s1 → flushSoftDeletes None m ids order' s s2 → s1 = s2) ∧
    (flushAgentConnections (Some BC) c ids order s s1 → flushAgentConnections None c ids order' s s2 →
     s1 = s2).
Proof.
  intros HB HC Hnd.
  assert (∀ batch, batch = Some BS ∨ batch = None →
    match (λ B, @bss_SendBatch S B) <$> batch with Some f => sends f | None => True end) as Hsend
    by (intros batch [-> | ->]; [apply state_sends|done]).
  assert (∀ batch, batch = Some BC ∨ batch = None →
    match (λ B, @bcs_SendBatch S B) <$> batch with Some f => sends f | None => True end) as Hsend'
    by (intros batch [-> | ->]; [apply connection_sends|done]).
  pose (conn := λ t u, mkAgentConnection u (replicaID c) (replicaLabel c) t t).
  split_and!.
  - intros batch order s s' Hb Hf.
    exact (flush_ids_spec (λ t u, ss_SoftDeleteAgent u t) (λ t u, soft_delete u t)
      (λ t u s, soft_delete_accepted u t s) _ m ids order s s' (Hsend batch Hb) Hf).
  - intros batch order s s' Hb Hf.
    exact (flush_ids_spec (λ t u, cs_UpsertAgentConnection (conn t u)) (λ t u, upsert (conn t u))
      (λ t u s, upsert_accepted (conn t u) s) _ _ ids order s s' (Hsend' batch Hb) Hf).
  - intros now order order' s s1 s2 Ho Ho'. split; intros H1 H2.
    + apply (flush_ids_agree (λ t u, ss_SoftDeleteAgent u t) (λ t u, soft_delete u t)
        (λ t u s, soft_delete_accepted u t s) (λ t t' u u' s, soft_delete_comm u u' t t' s)
        (Some bss_SendBatch) m ids now order order' s s1 s2 (Hsend (Some BS) (or_introl eq_refl)) Hnd Ho Ho' H1 H2).
    + apply (flush_ids_agree (λ t u, cs_UpsertAgentConnection (conn t u)) (λ t u, upsert (conn t u))
        (λ t u s, upsert_accepted (conn t u) s)
        (λ t t' u u' s, upsert_comm (conn t u) (conn t' u') s)
        (Some bcs_SendBatch) _ ids now order order' s s1 s2 (Hsend' (Some BC) (or_introl eq_refl)) Hnd Ho Ho' H1 H2).
Qed.

End properties.

(** The Postgres store's two paths, on agents of one chunk. *)
Example batching_invisible_witness :
  let ids := ["a"; "b"] in
  let d := do_write (WSaveAgent (agent_at 5000 true)) empty_DB in
  ∃ d1 d2,
    flushSoftDeletes (Some postgres_batch) 2 ids [(ids, 7000, true)] d d1 ∧
    flushSoftDeletes None 2 ids [(["a"], 7000, true); (["b"], 7000, true)] d d2 ∧
    d1 = d2 ∧ ar_evicted_at <$> t_agents d1 !! "a" = Some (Some 7000).
Proof.
  intros ids d.
  assert (NoDup ids) as Hnd by (apply (bool_decide_unpack _); vm_compute; exact I).
  assert (∃ d1, flushSoftDeletes (Some postgres_batch) 2 ids [(ids, 7000, true)] d d1) as [d1 H1]
    by (eexists; split; [apply runConcurrent_in_order|reflexivity]).
  assert (∃ d2, flushSoftDeletes None 2 ids [(["a"], 7000, true); (["b"], 7000, true)] d d2) as [d2 H2]
    by (eexists; split; [apply runConcurrent_in_order|reflexivity]).
  destruct (batching_invisible 2 (mkFlusherConfig 2 "r" "l") ids _ _ Hnd) as (Hs & _ & Hagree).
  exists d1, d2. split; [exact H1|]. split; [exact H2|]. split.
  - refine (proj1 (Hagree 7000 _ _ d d1 d2 _ _) H1 H2);
      repeat (apply Forall_cons; split; [by split|]); apply Forall_nil_2.
  - destruct (Hs (Some postgres_batch) _ d d1 (or_introl eq_refl) H1) as [-> _].
    vm_compute. reflexivity.
Defined.
