(* ===== verification/Durable.v ===== *)
(** * The flusher keeps the tables current

    What [Flush] promises: while reports, disconnects and sweeps interleave
    with its flushes, the rows of an agent that is neither dirty nor in the
    flush in progress hold what the registry holds of it, unless its last
    write failed ([lost_run]): a failed write is logged and not retried.
    Heartbeats do not mark an agent dirty, so LastSeen, the sequence number,
    the capabilities and the connection's metadata are outside the promise. *)

From Stdlib Require Import ZArith Lia.
From S2P Require Import Prelude GoLang Fleet Registry RegistryProps Store Flush Demo.
Local Open Scope Z_scope.

Section durable.
Context `{PB : Protobuf, UU : UUID, MR : MapRange, PT : PgTime}.

(** ** What is kept current *)

(** The columns of an agents row that only a marking report changes. *)
Definition row_facts (r : agents_row) :=
  (ar_healthy r, ar_health_error r, ar_health_status r, ar_health_start_time r,
   ar_health_status_time r, ar_health_reported r, ar_identifying r, ar_non_identifying r,
   ar_missing_attributes r, ar_reserved_attribute_conflicts r, ar_packages r).

Definition agent_facts (a : Agent) := (row_facts (agents_values a), EffectiveConfig a).

Definition session_facts (a : Agent) : bool * bool := (Connected a, DescriptionReported a).

(** The agents and config rows hold the facts of [a]. *)
Definition row_is (d : DB) (id : string) (row : agents_row) (a : Agent) : Prop :=
  row_facts row = row_facts (agents_values a) ∧ t_config d !! id = Some (EffectiveConfig a).

(** The rows of [id] are not newer than [a], and the same when as new. *)
Definition behind (d : DB) (id : string) (a : Agent) : Prop :=
  (∀ row, t_agents d !! id = Some row → ar_updated_at row ≤ event_time a ∧
     (ar_updated_at row = event_time a → row_is d id row a)) ∧
  ∀ s, t_session d !! id = Some s → sr_updated_at s ≤ event_time a.

(** [settled]: the rows of [id] say what the registry says. *)
Definition settled (r : Registry) (d : DB) (id : string) : Prop :=
  match Get r id with
  | Some a => ∃ row s, t_agents d !! id = Some row ∧ t_session d !! id = Some s ∧
      row_is d id row a ∧ (sr_connected s, sr_description_reported s) = session_facts a
  | None => ∀ row, t_agents d !! id = Some row → ar_evicted_at row ≠ None
  end.

(** The invariant, over the agents whose last write failed, the ids still to
    look up, the ids to soft-delete and the saves to run. *)
Record sync (lost : gset string) (r : Registry) (dirty : DirtyTracker) (d : DB) (todo gone : list string)
    (pending : list Agent) : Prop := {
  sy_wf : wf r;
  sy_db : db_ok d;
  sy_nodup : NoDup (todo ++ gone ++ (InstanceUID <$> pending));
  sy_behind id a : Get r id = Some a → behind d id a;
  sy_pending p a : p ∈ pending → Get r (InstanceUID p) = Some a →
    event_time p ≤ event_time a ∧ (event_time p = event_time a → agent_facts p = agent_facts a);
  sy_pending_behind p : p ∈ pending → behind d (InstanceUID p) p;
  sy_clean p : p ∈ pending → dirty !! InstanceUID p = None →
    ∃ a, Get r (InstanceUID p) = Some a ∧ agent_facts p = agent_facts a ∧
      session_facts p = session_facts a;
  sy_gone id : id ∈ gone → dirty !! id = None → Get r id = None;
  sy_settled id : dirty !! id = None → id ∉ todo ++ gone ++ (InstanceUID <$> pending) →
    id ∉ lost → settled r d id
}.

(** Reports advance the clock at the precision of the columns: a report is
    later than what the registry, the rows and the saves know of its agent. *)
Definition known_times (r : Registry) (d : DB) (pending : list Agent) (id : string) : list Time :=
  (event_time <$> option_list (Get r id)) ++
  (ar_updated_at <$> option_list (t_agents d !! id)) ++
  (sr_updated_at <$> option_list (t_session d !! id)) ++
  (event_time <$> filter (λ p, InstanceUID p = id) pending).

Definition fresh (r : Registry) (d : DB) (pending : list Agent) (o : action) : bool :=
  match o with
  | ActReport now msg _ =>
      match uuid_FromBytes (m_InstanceUid msg) with
      | Some id => forallb (λ t, t <? pg_time now) (known_times r d pending id)
      | None => true
      end
  | _ => true
  end.

Lemma fresh_lt r d pending now msg meta id :
  fresh r d pending (ActReport now msg meta) = true →
  uuid_FromBytes (m_InstanceUid msg) = Some id →
  (∀ a, Get r id = Some a → event_time a < pg_time now) ∧
  (∀ row, t_agents d !! id = Some row → ar_updated_at row < pg_time now) ∧
  (∀ s, t_session d !! id = Some s → sr_updated_at s < pg_time now) ∧
  (∀ p, p ∈ pending → InstanceUID p = id → event_time p < pg_time now).
Proof.
  intros Hf Hid. cbn [fresh] in Hf. rewrite Hid in Hf. unfold known_times in Hf.
  rewrite !forallb_app in Hf. apply andb_prop in Hf as [H1 Hf].
  apply andb_prop in Hf as [H2 Hf]. apply andb_prop in Hf as [H3 Hf].
  split_and!.
  - intros a Ha. rewrite Ha in H1. simpl in H1. apply andb_prop in H1 as [H1 _]. by apply Z.ltb_lt.
  - intros a Ha. rewrite Ha in H2. simpl in H2. apply andb_prop in H2 as [H2 _]. by apply Z.ltb_lt.
  - intros a Ha. rewrite Ha in H3. simpl in H3. apply andb_prop in H3 as [H3 _]. by apply Z.ltb_lt.
  - intros p Hp Hu. rewrite forallb_forall in Hf. apply Z.ltb_lt, Hf.
    apply list_elem_of_In, list_elem_of_fmap_2, list_elem_of_filter. done.
Qed.

(** ** What a step of the registry does to one agent *)

Lemma notify_all_dirty (es : list Event) (d : DirtyTracker) id :
  notify_all d es !! id = None ↔ d !! id = None ∧ id ∉ event_id <$> es.
Proof.
  unfold notify_all. revert d. induction es as [|e es IH]; intros d; simpl.
  - split; [intros Hd; split; [done|apply not_elem_of_nil]|by intros [? _]].
  - rewrite IH. rewrite not_elem_of_cons.
    assert (notify d e = <[event_id e := tt]> d) as -> by (by destruct e).
    rewrite lookup_insert_None. naive_solver.
Qed.

(** A part of a report marks its agent, or does nothing. *)
Definition marks_or_keeps (id : string) (a : Agent) (w : writer Event Agent) : Prop :=
  id ∈ event_id <$> w.2 ∨ w.1 = a.

Lemma report_description_marks c id d a : marks_or_keeps id a (report_description c id d a).
Proof.
  destruct d as [desc|]; [left|by right].
  unfold report_description. rewrite snd_bind. by left.
Qed.

Lemma report_health_marks id h a : marks_or_keeps id a (report_health id h a).
Proof.
  destruct h as [h|]; [left|by right]. unfold report_health. rewrite snd_bind. by left.
Qed.

Lemma report_packages_marks id m a : marks_or_keeps id a (report_packages id m a).
Proof. unfold report_packages. case_bool_decide; [by right|]. left. by left. Qed.

Lemma report_config_marks id m a : marks_or_keeps id a (report_config id m a).
Proof. unfold report_config. case_bool_decide; [by right|]. left. by left. Qed.

(** A report marks its agent, or changes none of the facts. *)
Lemma report_marks c now id msg meta o :
  id ∈ event_id <$> (report_agent c now id msg meta o).2 ∨
  ∃ a, o = Some a ∧ agent_facts (report_agent c now id msg meta o).1 = agent_facts a ∧
    session_facts (report_agent c now id msg meta o).1 = session_facts a.
Proof.
  unfold report_agent. rewrite !snd_bind, !fst_bind, !fmap_app, !elem_of_app.
  destruct o as [a|]; [|left; left; by left].
  destruct (Connected a) eqn:Hc; simpl negb; cbn [fst mret writer_ret];
    [|left; left; by left].
  match goal with |- context [report_description c id ?d ?b] =>
    destruct (report_description_marks c id d b) as [|Hd]; [tauto|]; rewrite Hd; clear Hd;
    set (base := b) in *
  end.
  destruct (report_health_marks id (m_Health msg) base) as [|Hd]; [tauto|rewrite Hd; clear Hd].
  destruct (report_packages_marks id (m_PackageStatuses msg) base) as [|Hd];
    [tauto|rewrite Hd; clear Hd].
  destruct (report_config_marks id (m_EffectiveConfig msg) base) as [|Hd];
    [tauto|rewrite Hd; clear Hd].
  right. exists a. unfold base, session_facts. rewrite Hc. by case_bool_decide.
Qed.

Lemma report_agent_LastSeen c now id msg meta o :
  LastSeen (report_agent c now id msg meta o).1 = now.
Proof.
  rewrite report_agent_fst, report_description_fst, report_config_fst,
    report_packages_fst, report_health_fst.
  by repeat case_match.
Qed.


(** What one critical section may do to the entry of [id]. *)
Lemma act_effect o r id :
  wf r →
  Get (act o r).1 id = Get r id ∨
  (∃ now msg meta a', o = ActReport now msg meta ∧
     uuid_FromBytes (m_InstanceUid msg) = Some id ∧
     Get (act o r).1 id = Some a' ∧ LastSeen a' = now ∧
     (id ∈ event_id <$> (act o r).2 ∨
      ∃ a, Get r id = Some a ∧ agent_facts a' = agent_facts a ∧
        session_facts a' = session_facts a)) ∨
  ∃ a, Get r id = Some a ∧ id ∈ event_id <$> (act o r).2 ∧
    (Get (act o r).1 id = None ∨ ∃ b, Get (act o r).1 id = Some (a <| Connected := b |>)).
Proof.
  intros Hwf. pose proof (act_refines r o Hwf) as Hr.
  rewrite !Get_flat by (try apply act_wf; done).
  set (w := act o r) in *. clearbody w. destruct o as [now msg meta|id0 b|i now]; simpl in Hr.
  - destruct (uuid_FromBytes (m_InstanceUid msg)) as [id0|] eqn:Hid; [|left; by destruct Hr as [-> _]].
    destruct Hr as [-> ->]. destruct (decide (id0 = id)) as [->|Hne];
      [|left; by rewrite lookup_insert_ne].
    right; left. exists now, msg, meta, (report_agent (cfg r) now id msg meta (flat r !! id)).1.
    rewrite lookup_insert_eq. split_and!; [done..|apply report_agent_LastSeen|].
    destruct (report_marks (cfg r) now id msg meta (flat r !! id)) as [|(a & Ha & Hf)];
      [by left|right; by exists a].
  - destruct (flat r !! id0) as [a|] eqn:Ha; [|left; by destruct Hr as [-> _]].
    destruct Hr as [-> ->]. destruct (decide (id0 = id)) as [->|Hne];
      [|left; by rewrite lookup_insert_ne].
    rewrite lookup_insert_eq, setConnected_agent_fst.
    destruct (decide (Connected a = b)) as [Hc|Hc];
      [left; by rewrite set_Connected_same|right; right].
    exists a. split; [done|]. split; [|right; by exists b].
    unfold setConnected_agent. rewrite snd_bind, app_nil_r.
    destruct (Connected a), b; simpl; [done|by left|by left|done].
  - destruct Hr as [-> He]. rewrite spec_sweep_lookup.
    destruct (flat r !! id) as [a|] eqn:Ha; [|by left]. simpl.
    case_bool_decide as Hi; [|by left].
    destruct (decide (stale (cfg r) now a = true ∨ (Connected a && missed (cfg r) now a) = true))
      as [Hc|Hc].
    + right; right. exists a. split; [done|]. split.
      * rewrite He. apply list_elem_of_fmap. unfold spec_sweep_events.
        assert (∃ e, e ∈ (sweep_agent (cfg r) now id a).2 ∧ event_id e = id) as (e & Hin & Hid).
        { rewrite sweep_agent_snd. destruct Hc as [->| ->].
          - exists (AgentEvicted id). split; [apply elem_of_app; right; by left|done].
          - exists (AgentDisconnected id). split; [apply elem_of_app; left; by left|done]. }
        exists e. split; [done|]. apply list_elem_of_bind. exists (id, a). simpl.
        rewrite bool_decide_eq_true_2 by done. split; [done|]. by apply elem_of_map_to_list.
      * destruct (stale (cfg r) now a); [by left|right; by eexists].
    + left. destruct (stale (cfg r) now a); [destruct Hc; by left|]. f_equal.
      apply set_Connected_same. destruct (Connected a), (missed (cfg r) now a); try done.
      destruct Hc. by right.
Qed.

(** ** The invariant is kept *)

Lemma sync_init c : ShardCount c < 2 ^ 32 → sync ∅ (New c) ∅ empty_DB [] [] [].
Proof.
  intros Hc. assert (∀ id, Get (New c) id = None) as Hg.
  { intros id. rewrite Get_flat by by apply wf_New. by rewrite flat_New. }
  split; try (by intros ? ?%not_elem_of_nil); try (by intros ? ? ?%not_elem_of_nil).
  - by apply wf_New.
  - apply empty_DB_ok.
  - constructor.
  - intros id a. by rewrite Hg.
  - intros id _ _ _. unfold settled. by rewrite Hg.
Qed.

(** The lists of the flush matter up to their order. *)
Lemma sync_perm lost r dirty d todo gone pending todo' gone' pending' :
  todo ≡ₚ todo' → gone ≡ₚ gone' → pending ≡ₚ pending' →
  sync lost r dirty d todo gone pending → sync lost r dirty d todo' gone' pending'.
Proof.
  intros Ht Hg Hp [].
  assert (∀ p, p ∈ pending' ↔ p ∈ pending) as Hpe by (intros p; by rewrite Hp).
  assert (todo' ++ gone' ++ (InstanceUID <$> pending') ≡ₚ
          todo ++ gone ++ (InstanceUID <$> pending)) as Hall by (by rewrite Ht, Hg, Hp).
  split; try done.
  - by rewrite Hall.
  - intros p a Hin. apply sy_pending0. by apply Hpe.
  - intros p Hin. apply sy_pending_behind0. by apply Hpe.
  - intros p Hin. apply sy_clean0. by apply Hpe.
  - intros id Hin. apply sy_gone0. by rewrite Hg.
  - intros id Hd. rewrite Hall. by apply sy_settled0.
Qed.

Lemma row_is_facts d id row a a' : agent_facts a' = agent_facts a → row_is d id row a → row_is d id row a'.
Proof.
  intros Hf [Hr Hc]. pose proof (f_equal fst Hf) as H1. pose proof (f_equal snd Hf) as H2.
  cbn in H2. split; [etransitivity; [exact Hr|by symmetry]|by rewrite H2].
Qed.

(** Marking more agents keeps the invariant. *)
Lemma sync_act lost r dirty d todo gone pending o :
  fresh r d pending o = true →
  sync lost r dirty d todo gone pending →
  sync lost (act o r).1 (notify_all dirty (act o r).2) d todo gone pending.
Proof.
  intros Hfresh [Hwf Hdb Hnd Hbeh Hpend Hpb Hclean Hgone Hset].
  pose proof (act_effect o r) as Heff.
  split; [by apply act_wf|done|done| | |done| | |].
  - intros id a' Ha'. destruct (Heff id Hwf) as [Hsame|[(now & msg & meta & a1 & -> & Hid & Ha1 & Hls & _)|(a & Ha & _ & [Hn|[b Hb]])]].
    + apply Hbeh. by rewrite <-Hsame.
    + rewrite Ha' in Ha1. injection Ha1 as ->.
      destruct (fresh_lt _ _ _ _ _ _ _ Hfresh Hid) as (_ & H2 & H3 & _).
      unfold behind, event_time. rewrite Hls. split.
      * intros row Hrow%H2. split; lia.
      * intros s Hs%H3. lia.
    + congruence.
    + rewrite Ha' in Hb. injection Hb as ->. exact (Hbeh id a Ha).
  - intros p a' Hin Ha'. destruct (Heff (InstanceUID p) Hwf) as [Hsame|[(now & msg & meta & a1 & -> & Hid & Ha1 & Hls & _)|(a & Ha & _ & [Hn|[b Hb]])]].
    + apply Hpend; [done|]. by rewrite <-Hsame.
    + rewrite Ha' in Ha1. injection Ha1 as ->.
      destruct (fresh_lt _ _ _ _ _ _ _ Hfresh Hid) as (_ & _ & _ & H4).
      specialize (H4 p Hin eq_refl). unfold event_time in *. rewrite Hls. split; lia.
    + congruence.
    + rewrite Ha' in Hb. injection Hb as ->. exact (Hpend p a Hin Ha).
  - intros p Hin [Hd Hno]%notify_all_dirty. destruct (Hclean p Hin Hd) as (a & Ha & Hf & Hs).
    destruct (Heff (InstanceUID p) Hwf) as [Hsame|[(now & msg & meta & a1 & -> & Hid & Ha1 & Hls & [?|(a2 & Ha2 & Hf2 & Hs2)])|(a2 & _ & Hm & _)]].
    + exists a. by rewrite Hsame.
    + done.
    + exists a1. rewrite Ha in Ha2. injection Ha2 as <-. split_and!; congruence.
    + done.
  - intros id Hin [Hd Hno]%notify_all_dirty. specialize (Hgone id Hin Hd).
    destruct (Heff id Hwf) as [Hsame|[(now & msg & meta & a1 & -> & Hid & Ha1 & Hls & [?|(a2 & Ha2 & Hf2 & Hs2)])|(a2 & _ & Hm & _)]];
      congruence.
  - intros id [Hd Hno]%notify_all_dirty Hin Hl. specialize (Hset id Hd Hin Hl). unfold settled in *.
    destruct (Heff id Hwf) as [Hsame|[(now & msg & meta & a1 & -> & Hid & Ha1 & Hls & [?|(a2 & Ha2 & Hf2 & Hs2)])|(a2 & _ & Hm & _)]].
    + by rewrite Hsame.
    + done.
    + rewrite Ha1. rewrite Ha2 in Hset. destruct Hset as (row & s & Hrow & Hs & Hri & Hsf).
      exists row, s. split_and!; [done..|by eapply row_is_facts|congruence].
    + done.
Qed.


(** The drain: what was dirty is now to look up. *)
Lemma sync_drain lost r dirty d :
  sync lost r dirty d [] [] [] → sync (lost ∖ dom dirty) r ∅ d (range dirty).*1 [] [].
Proof.
  intros [Hwf Hdb Hnd Hbeh Hpend Hpb Hclean Hgone Hset].
  split; try done; try by intros ? ?%not_elem_of_nil.
  - simpl. rewrite app_nil_r. apply range_NoDup.
  - intros id _ Hin Hl.
    assert (dirty !! id = None) as Hd.
    { destruct (dirty !! id) as [[]|] eqn:Hd; [|done]. destruct Hin. apply elem_of_app. left.
      apply list_elem_of_fmap. exists (id, tt). split; [done|]. by apply elem_of_range. }
    apply Hset; [done|apply not_elem_of_nil|]. intros Hin'. apply Hl, elem_of_difference.
    split; [done|]. by apply not_elem_of_dom.
Qed.

(** The lookup of an agent the registry holds. *)
Lemma sync_found lost r dirty d id todo gone pending a :
  Get r id = Some a →
  sync lost r dirty d (id :: todo) gone pending → sync lost r dirty d todo gone (a :: pending).
Proof.
  intros Ha [Hwf Hdb Hnd Hbeh Hpend Hpb Hclean Hgone Hset].
  pose proof (Get_uid r id a Hwf Ha) as Hid.
  assert (todo ++ gone ++ (InstanceUID <$> a :: pending) ≡ₚ
          (id :: todo) ++ gone ++ (InstanceUID <$> pending)) as Hperm.
  { csimpl. rewrite Hid. rewrite <-!Permutation_middle. done. }
  split; try done.
  - by rewrite Hperm.
  - intros p b [->|Hin]%elem_of_cons; [|by apply Hpend].
    rewrite Hid, Ha. by intros [= ->].
  - intros p [->|Hin]%elem_of_cons; [|by apply Hpb]. rewrite Hid. by apply Hbeh.
  - intros p [->|Hin]%elem_of_cons; [|by apply Hclean]. intros _. exists a. by rewrite Hid.
  - intros u Hd. rewrite Hperm. by apply Hset.
Qed.

(** The lookup of an agent it does not hold. *)
Lemma sync_missing lost r dirty d id todo gone pending :
  Get r id = None →
  sync lost r dirty d (id :: todo) gone pending → sync lost r dirty d todo (id :: gone) pending.
Proof.
  intros Ha [Hwf Hdb Hnd Hbeh Hpend Hpb Hclean Hgone Hset].
  assert (todo ++ (id :: gone) ++ (InstanceUID <$> pending) ≡ₚ
          (id :: todo) ++ gone ++ (InstanceUID <$> pending)) as Hperm.
  { simpl. by rewrite <-Permutation_middle. }
  split; try done.
  - by rewrite Hperm.
  - intros u [->|Hin]%elem_of_cons; [done|by apply Hgone].
  - intros u Hd. rewrite Hperm. by apply Hset.
Qed.

(** What a save that is not behind leaves. *)
Lemma save_lands d p :
  db_ok d → behind d (InstanceUID p) p →
  let d' := do_write (WSaveAgent p) d in
  ∃ row, t_agents d' !! InstanceUID p = Some row ∧ ar_updated_at row = event_time p ∧
    row_is d' (InstanceUID p) row p ∧ t_session d' !! InstanceUID p = Some (session_values p).
Proof.
  intros Hdb [Hrow Hses] d'. destruct (t_agents d !! InstanceUID p) as [row|] eqn:Ha.
  - destruct (Hrow row eq_refl) as [Hle Heq].
    destruct (decide (ar_updated_at row = event_time p)) as [He|Hne].
    + destruct (t_session d !! InstanceUID p) as [s|] eqn:Hs.
      2: { exfalso. apply not_elem_of_dom in Hs. rewrite (db_session d Hdb) in Hs.
           apply elem_of_dom_2 in Ha. done. }
      specialize (Hses s eq_refl). unfold d'. rewrite (SaveAgent_tie p d row s) by (done || lia).
      exists row. unfold row_is. simpl. rewrite lookup_insert_eq. by destruct (Heq He).
    + destruct (SaveAgent_newer p d Hdb) as (Ha' & Hs' & Hc').
      { rewrite Ha. intros ? [= <-]. lia. } { done. }
      rewrite Ha in Ha'. eexists. split; [exact Ha'|]. by split_and!; [|split|].
  - destruct (SaveAgent_newer p d Hdb) as (Ha' & Hs' & Hc'); [by rewrite Ha|done|].
    rewrite Ha in Ha'. eexists. split; [exact Ha'|]. by split_and!; [|split|].
Qed.

Lemma behind_ext d d' id a :
  t_agents d' !! id = t_agents d !! id → t_session d' !! id = t_session d !! id →
  t_config d' !! id = t_config d !! id → behind d id a → behind d' id a.
Proof. intros Ha Hs Hc. unfold behind, row_is. by rewrite Ha, Hs, Hc. Qed.

Lemma settled_ext r d d' id :
  t_agents d' !! id = t_agents d !! id → t_session d' !! id = t_session d !! id →
  t_config d' !! id = t_config d !! id → settled r d id → settled r d' id.
Proof. intros Ha Hs Hc. unfold settled, row_is. by rewrite Ha, Hs, Hc. Qed.

(** A save that lands. *)
Lemma sync_save lost r dirty d todo gone pending p :
  sync lost r dirty d todo gone (p :: pending) →
  sync lost r dirty (save_task true p d) todo gone pending.
Proof.
  intros [Hwf Hdb Hnd Hbeh Hpend Hpb Hclean Hgone Hset].
  change (save_task true p d) with (do_write (WSaveAgent p) d). set (d' := do_write _ _).
  pose proof (Hpb p ltac:(by left)) as Hp.
  destruct (save_lands d p Hdb Hp) as (row & Hrow & Hup & Hri & Hs). fold d' in Hrow, Hri, Hs.
  assert (todo ++ gone ++ (InstanceUID <$> p :: pending) ≡ₚ
          InstanceUID p :: todo ++ gone ++ (InstanceUID <$> pending)) as Hperm.
  { csimpl. by rewrite <-!Permutation_middle. }
  rewrite Hperm in Hnd. apply NoDup_cons in Hnd as [Hnew Hnd].
  assert (∀ u, u ≠ InstanceUID p → t_agents d' !! u = t_agents d !! u ∧
    t_session d' !! u = t_session d !! u ∧ t_config d' !! u = t_config d !! u) as Hother.
  { intros u Hne. apply (SaveAgent_other u p d Hdb). congruence. }
  assert (∀ q, q ∈ pending → InstanceUID q ≠ InstanceUID p) as Hne.
  { intros q Hq Heq. apply Hnew. rewrite <-Heq, !elem_of_app. right; right.
    by apply list_elem_of_fmap_2. }
  split; try done.
  - by apply do_write_ok.
  - intros id a Ha. destruct (decide (id = InstanceUID p)) as [->|Hid].
    + destruct (Hpend p a ltac:(by left) Ha) as [Hle Heq]. split.
      * rewrite Hrow. intros ? [= <-]. rewrite Hup. split; [done|]. intros He.
        eapply row_is_facts; [|exact Hri]. symmetry. by apply Heq.
      * rewrite Hs. by intros ? [= <-].
    + destruct (Hother id Hid) as (H1 & H2 & H3). apply (behind_ext d); [done..|]. by apply Hbeh.
  - intros q a Hq. apply Hpend. by right.
  - intros q Hq. destruct (Hother _ (Hne q Hq)) as (H1 & H2 & H3).
    apply (behind_ext d); [done..|]. apply Hpb. by right.
  - intros q Hq. apply Hclean. by right.
  - intros id Hd Hin Hl. destruct (decide (id = InstanceUID p)) as [->|Hid].
    + destruct (Hclean p ltac:(by left) Hd) as (a & Ha & Hf & Hsf).
      unfold settled. rewrite Ha. exists row, (session_values p). split_and!; [done..| |done].
      eapply row_is_facts; [|exact Hri]. by symmetry.
    + destruct (Hother id Hid) as (H1 & H2 & H3). apply (settled_ext r d); [done..|].
      apply Hset; [done| |done]. rewrite Hperm. by apply not_elem_of_cons.
Qed.

(** A write that fails: the saves and the ids that leave the flush are lost. *)
Lemma sync_fails lost r dirty d todo gone pending todo' gone' pending' (ids : list string) :
  todo ++ gone ++ (InstanceUID <$> pending) ≡ₚ
    ids ++ todo' ++ gone' ++ (InstanceUID <$> pending') →
  gone' ⊆ gone → pending' ⊆ pending →
  sync lost r dirty d todo gone pending →
  sync (list_to_set ids ∪ lost) r dirty d todo' gone' pending'.
Proof.
  intros Hperm Hg Hp [Hwf Hdb Hnd Hbeh Hpend Hpb Hclean Hgone Hset].
  split; try done; try (by intros p; eauto); try (by intros p a; eauto).
  - rewrite Hperm in Hnd. by apply NoDup_app in Hnd as (_ & _ & ?).
  - intros id Hd Hin [Hids Hl]%not_elem_of_union. apply Hset; [done| |done].
    rewrite Hperm, elem_of_app. rewrite elem_of_list_to_set in Hids. by intros [?|?].
Qed.

(** A soft delete touches one column of one row. *)
Lemma SoftDeleteAgent_lookup id now d u :
  t_agents (SoftDeleteAgent id now d) !! u =
    (if decide (u = id)
     then (λ row, row <| ar_evicted_at := Some (default (pg_time now) (ar_evicted_at row)) |>)
            <$> t_agents d !! u
     else t_agents d !! u).
Proof.
  unfold SoftDeleteAgent. destruct (t_agents d !! id) as [row|] eqn:Ha.
  - destruct (ar_evicted_at row) as [t|] eqn:He.
    + case_decide as Hu; [subst u; rewrite Ha; simpl; rewrite He|done].
      destruct row; simpl in *. by rewrite <-He.
    + simpl. case_decide as Hu; [subst u; rewrite lookup_insert_eq, Ha; simpl; by rewrite He|].
      by rewrite lookup_insert_ne.
  - case_decide as Hu; [subst u; by rewrite Ha|done].
Qed.

Lemma SoftDeleteAgent_other_tables id now d :
  t_session (SoftDeleteAgent id now d) = t_session d ∧
  t_config (SoftDeleteAgent id now d) = t_config d.
Proof.
  unfold SoftDeleteAgent. destruct (t_agents d !! id) as [row|]; [|done].
  by destruct (ar_evicted_at row).
Qed.

Lemma behind_soft_delete id now d u a :
  behind d u a → behind (SoftDeleteAgent id now d) u a.
Proof.
  destruct (SoftDeleteAgent_other_tables id now d) as [Hs Hc].
  unfold behind, row_is. rewrite Hs, Hc, SoftDeleteAgent_lookup. intros [Hrow Hses].
  split; [|done]. case_decide as Hu; [|done].
  intros row' (row & Ha & ->)%fmap_Some. exact (Hrow row Ha).
Qed.

(** A soft delete that lands. *)
Lemma sync_soft_delete lost r dirty d todo id gone pending now :
  sync lost r dirty d todo (id :: gone) pending →
  sync lost r dirty (SoftDeleteAgent id now d) todo gone pending.
Proof.
  intros [Hwf Hdb Hnd Hbeh Hpend Hpb Hclean Hgone Hset].
  destruct (SoftDeleteAgent_other_tables id now d) as [Hs Hc].
  assert (todo ++ (id :: gone) ++ (InstanceUID <$> pending) ≡ₚ
          id :: todo ++ gone ++ (InstanceUID <$> pending)) as Hperm.
  { simpl. by rewrite <-Permutation_middle. }
  rewrite Hperm in Hnd. apply NoDup_cons in Hnd as [Hnew Hnd].
  split; try done.
  - by apply (do_write_ok (WSoftDelete id now)).
  - intros u a Ha. by apply behind_soft_delete, Hbeh.
  - intros p Hp. by apply behind_soft_delete, Hpb.
  - intros u Hu. apply Hgone. by right.
  - intros u Hd Hin Hl. unfold settled, row_is. rewrite Hs, Hc, SoftDeleteAgent_lookup.
    case_decide as Hu; [subst u|].
    + rewrite (Hgone id ltac:(by left) Hd). by intros row (? & _ & ->)%fmap_Some.
    + apply (Hset u Hd); [|done]. rewrite Hperm. by apply not_elem_of_cons.
Qed.

(** A batch none of whose statements is refused. *)
Lemma SendBatch_total (f : string → DB → DB) ids d :
  SendBatch ((λ id d, Some (f id d)) <$> ids) d =
    (replicate (length ids) true, foldl (λ d id, f id d) d ids).
Proof.
  unfold SendBatch.
  assert (run_batch ((λ id d, Some (f id d)) <$> ids) d =
    (replicate (length ids) true, Some (foldl (λ d id, f id d) d ids))) as ->; [|done].
  revert d. induction ids as [|id ids IH]; intros d; [done|].
  csimpl. by rewrite IH.
Qed.

Lemma sync_delete_task lost r dirty d todo ids gone pending now :
  sync lost r dirty d todo (ids ++ gone) pending →
  sync lost r dirty (delete_task now true ids d) todo gone pending.
Proof.
  unfold delete_task. rewrite (SendBatch_total (λ id d, SoftDeleteAgent id now d)). simpl.
  revert d. induction ids as [|id ids IH]; intros d Hs; simpl in *; [done|].
  by apply IH, sync_soft_delete.
Qed.

(** The connection upserts leave the agents' tables alone. *)
Lemma connection_task_tables c now ids d :
  let d' := connection_task c now true ids d in
  t_agents d' = t_agents d ∧ t_session d' = t_session d ∧ t_config d' = t_config d.
Proof.
  unfold connection_task. rewrite (SendBatch_total (λ id d, UpsertAgentConnection _ d)). simpl.
  revert d. induction ids as [|id ids IH]; intros d; simpl; [done|].
  by destruct (IH (UpsertAgentConnection
    (mkAgentConnection id (replicaID c) (replicaLabel c) now now) d)) as (-> & -> & ->).
Qed.

Lemma sync_tables lost r dirty d d' todo gone pending :
  t_agents d' = t_agents d → t_session d' = t_session d → t_config d' = t_config d →
  sync lost r dirty d todo gone pending → sync lost r dirty d' todo gone pending.
Proof.
  intros Ha Hs Hc [Hwf [H1 H2] Hnd Hbeh Hpend Hpb Hclean Hgone Hset].
  split; try done.
  - split; by rewrite ?Ha, ?Hs, ?Hc.
  - intros id a Hg. apply (behind_ext d); [by rewrite ?Ha, ?Hs, ?Hc..|]. by apply Hbeh.
  - intros p Hp. apply (behind_ext d); [by rewrite ?Ha, ?Hs, ?Hc..|]. by apply Hpb.
  - intros id Hd Hin Hl. apply (settled_ext r d); [by rewrite ?Ha, ?Hs, ?Hc..|]. by apply Hset.
Qed.


(** ** Runs of the flusher *)

Definition todo (st : stage) : list string :=
  match st with Looking ids _ _ _ => ids | _ => [] end.

Definition gone (st : stage) : list string :=
  match st with
  | Looking _ _ ev _ => ev
  | Saving _ ev _ => ev
  | Deleting p _ => concat (waiting p ++ running p)
  | _ => []
  end.

Definition pending (st : stage) : list Agent :=
  match st with
  | Looking _ tasks _ _ => tasks
  | Saving p _ _ => waiting p ++ running p
  | _ => []
  end.

(** The agents the flush in progress is not done with. *)
Definition busy (st : stage) : list string :=
  todo st ++ gone st ++ (InstanceUID <$> pending st).

Definition fsync_but (lost : gset string) (f : flusher) : Prop :=
  sync lost (fl_registry f) (fl_dirty f) (fl_db f)
    (todo (fl_stage f)) (gone (fl_stage f)) (pending (fl_stage f)).

Definition fsync (f : flusher) : Prop := fsync_but ∅ f.

(** The clock: reports are fresh. *)
Definition input_fresh (i : finput) (f : flusher) : bool :=
  match i with
  | FOp o => fresh (fl_registry f) (fl_db f) (pending (fl_stage f)) o
  | _ => true
  end.

Fixpoint run_fresh (c : FlusherConfig) (l : list finput) (f : flusher) : bool :=
  match l with
  | [] => true
  | i :: l =>
      input_fresh i f &&
      match flush_step c i f with Some f' => run_fresh c l f' | None => true end
  end.

(** The agents whose last write failed, and which no later flush has drained:
    the agent of a save, or the chunk of a soft-delete batch, that ends
    without landing. *)
Definition lost_step (i : finput) (f : flusher) (lost : gset string) : gset string :=
  match i, fl_stage f with
  | FNext, Idle => lost ∖ dom (fl_dirty f)
  | FFinish j _ false, Saving p _ _ =>
      list_to_set (InstanceUID <$> option_list (running p !! j)) ∪ lost
  | FFinish j _ false, Deleting p _ =>
      list_to_set (default [] (running p !! j)) ∪ lost
  | _, _ => lost
  end.

Fixpoint lost_run (c : FlusherConfig) (l : list finput) (f : flusher) (lost : gset string) :
    gset string :=
  match l with
  | [] => lost
  | i :: l =>
      match flush_step c i f with
      | Some f' => lost_run c l f' (lost_step i f lost)
      | None => lost
      end
  end.

(** An input of a run without failures: writes land, and reports are fresh. *)
Definition input_ok (i : finput) (f : flusher) : bool :=
  match i with
  | FOp o => fresh (fl_registry f) (fl_db f) (pending (fl_stage f)) o
  | FNext => true
  | FFinish _ _ landed => landed
  end.

Fixpoint run_ok (c : FlusherConfig) (l : list finput) (f : flusher) : bool :=
  match l with
  | [] => true
  | i :: l =>
      input_ok i f &&
      match flush_step c i f with Some f' => run_ok c l f' | None => true end
  end.

Lemma start_task_perm {T} m (p p' : Pool T) :
  start_task m p = Some p' →
  waiting p' ++ running p' ≡ₚ waiting p ++ running p.
Proof.
  unfold start_task. destruct (waiting p) as [|t w]; [done|]. destruct (_ <? _)%nat; [|done].
  intros [= <-]. simpl. by rewrite <-Permutation_middle.
Qed.

Lemma finish_task_perm {T} i (p p' : Pool T) t :
  finish_task i p = Some (t, p') →
  waiting p ++ running p ≡ₚ t :: waiting p' ++ running p'.
Proof.
  unfold finish_task. intros (x & Hx & [= <- <-])%bind_Some. simpl.
  etransitivity; [apply Permutation_app_head, (delete_Permutation _ _ _ Hx)|].
  symmetry. apply Permutation_middle.
Qed.

Lemma pool_done_nil {T} (p : Pool T) : pool_done p = true → waiting p ++ running p = [].
Proof.
  unfold pool_done. intros [H1%bool_decide_eq_true H2%bool_decide_eq_true]%andb_prop.
  apply length_zero_iff_nil in H1, H2. by rewrite H1, H2.
Qed.

Lemma flush_next_sync c f f' lost :
  fsync_but lost f → flush_next c f = Some f' → fsync_but (lost_step FNext f lost) f'.
Proof.
  unfold fsync_but, flush_next. destruct f as [r dirty d st]. simpl. intros Hs.
  destruct st as [|ids tasks ev conn|p ev conn|p conn|p]; simpl in *.
  - intros [= <-]. by apply sync_drain.
  - destruct ids as [|id ids].
    + intros [= <-]. simpl. by rewrite app_nil_r.
    + destruct (Get r id) as [a|] eqn:Ha; intros [= <-]; simpl.
      * eapply sync_perm; [done|done| |by eapply sync_found]. by rewrite Permutation_app_comm.
      * eapply sync_perm; [done| |done|by eapply sync_missing]. by rewrite Permutation_app_comm.
  - destruct (pool_done p) eqn:Hd.
    + intros [= <-]. simpl. rewrite app_nil_r.
      destruct (chunk_spec ev defaultBatchSize) as [-> _].
      by rewrite (pool_done_nil p Hd) in Hs.
    + intros (p' & Hp & [= <-])%bind_Some. simpl.
      eapply sync_perm; [done|done| |exact Hs]. symmetry. by eapply start_task_perm.
  - destruct (pool_done p) eqn:Hd.
    + intros [= <-]. simpl. by rewrite (pool_done_nil p Hd) in Hs.
    + intros (p' & Hp & [= <-])%bind_Some. simpl.
      eapply sync_perm; [done| |done|exact Hs]. apply concat_perm. symmetry.
      by eapply start_task_perm.
  - destruct (pool_done p); [by intros [= <-]|].
    by intros (p' & Hp & [= <-])%bind_Some.
Qed.

Lemma finish_task_running {T} i (p p' : Pool T) t :
  finish_task i p = Some (t, p') → running p !! i = Some t.
Proof. unfold finish_task. by intros (x & Hx & [= <- _])%bind_Some. Qed.

Lemma flush_finish_sync c i now landed f f' lost :
  fsync_but lost f → flush_finish c i now landed f = Some f' →
  fsync_but (lost_step (FFinish i now landed) f lost) f'.
Proof.
  unfold fsync_but, flush_finish, lost_step. destruct f as [r dirty d st]. simpl. intros Hs.
  destruct st as [|ids tasks ev conn|p ev conn|p conn|p]; simpl in *; [done|done|..];
    intros ([t p'] & Hp & [= <-])%bind_Some; simpl;
    pose proof (finish_task_perm _ _ _ _ Hp) as Hperm;
    pose proof (finish_task_running _ _ _ _ Hp) as Hrun.
  - destruct landed; [apply sync_save; by eapply sync_perm|].
    rewrite Hrun. eapply sync_fails; [| | |exact Hs]; [|done|].
    + simpl. rewrite Hperm. csimpl. by rewrite <-!Permutation_middle.
    + intros q Hq. rewrite Hperm. by right.
  - pose proof (concat_perm _ _ Hperm) as Hc. simpl in Hc. destruct landed.
    + apply sync_delete_task. by eapply sync_perm.
    + rewrite Hrun. eapply sync_fails; [| | |exact Hs]; [|..|done].
      * simpl. by rewrite Hc, <-app_assoc.
      * intros q Hq. rewrite Hc. apply elem_of_app. by right.
  - destruct landed; [|done].
    destruct (connection_task_tables c now t d) as (H1 & H2 & H3).
    by apply (sync_tables _ _ _ d).
Qed.

Lemma flush_step_but c i f f' lost :
  fsync_but lost f → input_fresh i f = true → flush_step c i f = Some f' →
  fsync_but (lost_step i f lost) f'.
Proof.
  intros Hs Hok. destruct i as [o| |i now landed]; simpl in *.
  - destruct (act o (fl_registry f)) as [r es] eqn:E. intros [= <-].
    pose proof (sync_act _ _ _ _ _ _ _ _ Hok Hs) as Hs'. by rewrite E in Hs'.
  - by apply flush_next_sync.
  - by apply flush_finish_sync.
Qed.

Lemma flush_run_but c l f f' lost :
  fsync_but lost f → run_fresh c l f = true → flush_run c l f = Some f' →
  fsync_but (lost_run c l f lost) f'.
Proof.
  revert f lost. induction l as [|i l IH]; intros f lost Hs Hok; simpl in *; [by intros [= <-]|].
  apply andb_prop in Hok as [Hi Hl]. intros (f1 & Hf1 & Hrun)%bind_Some. rewrite Hf1 in *.
  apply (IH f1); [|done..]. by eapply flush_step_but.
Qed.

Definition lands (i : finput) : bool := match i with FFinish _ _ landed => landed | _ => true end.

Lemma lost_step_lands i f lost : lands i = true → lost_step i f lost ⊆ lost.
Proof.
  unfold lost_step. destruct i as [o| |j now landed]; [done| |by simpl; intros ->].
  intros _. destruct (fl_stage f); set_solver.
Qed.

Lemma lost_run_lands c l f lost : forallb lands l = true → lost_run c l f lost ⊆ lost.
Proof.
  revert f lost. induction l as [|i l IH]; intros f lost Hl; [done|]. cbn [forallb lost_run] in *.
  apply andb_prop in Hl as [Hi Hl]. destruct (flush_step c i f) as [f'|]; [|done].
  etransitivity; [by apply IH|by apply lost_step_lands].
Qed.

Lemma run_ok_lands c l f f' :
  run_ok c l f = true → flush_run c l f = Some f' →
  run_fresh c l f = true ∧ forallb lands l = true.
Proof.
  revert f. induction l as [|i l IH]; intros f Hok; [done|]. cbn [run_ok run_fresh flush_run forallb] in *.
  apply andb_prop in Hok as [Hi Hl]. intros (f1 & Hf1 & Hrun)%bind_Some. rewrite Hf1 in *.
  destruct (IH f1 Hl Hrun) as [-> ->]. destruct i; simpl in *; by rewrite ?Hi.
Qed.

(** Without failures nothing is lost. *)
Lemma flush_step_sync c i f f' :
  fsync f → input_ok i f = true → flush_step c i f = Some f' → fsync f'.
Proof.
  intros Hs Hok Hf. assert (lost_step i f ∅ = ∅) as Hl.
  { assert (lands i = true) as Hi by (by destruct i).
    pose proof (lost_step_lands i f ∅ Hi). set_solver. }
  unfold fsync. rewrite <-Hl. eapply flush_step_but; [exact Hs| |exact Hf]. by destruct i.
Qed.

(** *** The clock, read off the inputs *)

(** The agent a report is about, and its instant at the precision of the
    columns. *)
Definition report_of (i : finput) : option (string * Time) :=
  match i with
  | FOp (ActReport now msg _) => (λ id, (id, pg_time now)) <$> uuid_FromBytes (m_InstanceUid msg)
  | _ => None
  end.

(** A later report of an agent carries a later instant. *)
Definition later (p q : string * Time) : Prop := p.1 = q.1 → p.2 < q.2.

Definition ticking (l : list finput) : Prop := StronglySorted later (omap report_of l).

(** The instants the registry, the rows and the saves know of an agent. *)
Definition known (f : flusher) (id : string) : list Time :=
  known_times (fl_registry f) (fl_db f) (pending (fl_stage f)) id.

Lemma elem_of_known_times r d l id t :
  t ∈ known_times r d l id ↔
    event_time <$> Get r id = Some t ∨ ar_updated_at <$> t_agents d !! id = Some t ∨
    sr_updated_at <$> t_session d !! id = Some t ∨
    ∃ p, p ∈ l ∧ InstanceUID p = id ∧ event_time p = t.
Proof.
  unfold known_times. rewrite !elem_of_app.
  assert (t ∈ event_time <$> filter (λ p, InstanceUID p = id) l ↔
    ∃ p, p ∈ l ∧ InstanceUID p = id ∧ event_time p = t) as ->.
  { rewrite list_elem_of_fmap. setoid_rewrite list_elem_of_filter. naive_solver. }
  assert (∀ A (g : A → Time) o, t ∈ g <$> option_list o ↔ g <$> o = Some t) as Ho.
  { intros A g [x|]; simpl; [|by rewrite elem_of_nil].
    rewrite list_elem_of_singleton. split; [by intros ->|by intros [= ->]]. }
  by rewrite !Ho.
Qed.

Lemma known_times_perm r d l l' id t :
  l ≡ₚ l' → t ∈ known_times r d l' id → t ∈ known_times r d l id.
Proof. intros Hl. unfold known_times. by rewrite Hl. Qed.

(** A delete batch moves no clock. *)
Lemma delete_task_clock now landed ids d id :
  ar_updated_at <$> t_agents (delete_task now landed ids d) !! id = ar_updated_at <$> t_agents d !! id ∧
  t_session (delete_task now landed ids d) = t_session d.
Proof.
  unfold delete_task. destruct landed; [|done].
  rewrite (SendBatch_total (λ id d, SoftDeleteAgent id now d)). simpl.
  revert d. induction ids as [|id' ids IH]; intros d; [done|]. simpl.
  destruct (IH (SoftDeleteAgent id' now d)) as [-> ->].
  split; [|by apply SoftDeleteAgent_other_tables]. rewrite SoftDeleteAgent_lookup.
  case_decide; [|done]. by destruct (t_agents d !! id).
Qed.

(** A save that lands leaves the instants it carried. *)
Lemma save_task_known lost r dirty d todo gone l p id t :
  sync lost r dirty d todo gone (p :: l) →
  t ∈ known_times r (save_task true p d) l id → t ∈ known_times r d (p :: l) id.
Proof.
  intros Hs. change (save_task true p d) with (do_write (WSaveAgent p) d).
  pose proof (sy_db _ _ _ _ _ _ _ Hs) as Hdb.
  pose proof (sy_pending_behind _ _ _ _ _ _ _ Hs p ltac:(by left)) as Hp.
  destruct (save_lands d p Hdb Hp) as (row & Hrow & Hup & _ & Hse).
  rewrite !elem_of_known_times. destruct (decide (id = InstanceUID p)) as [->|Hid].
  - rewrite Hrow, Hse. intros [?|[[= <-]|[[= <-]|(q & Hq & ?)]]];
      [by left|right; right; right|right; right; right|right; right; right; exists q; by split; [right|]].
    + exists p. rewrite Hup. by split; [left|].
    + exists p. by split; [left|].
  - destruct (SaveAgent_other id p d Hdb) as (-> & -> & _); [congruence|].
    intros [?|[?|[?|(q & Hq & ?)]]]; [by left|by right; left|by right; right; left|].
    right; right; right. exists q. by split; [right|].
Qed.

(** The next step of a flush takes its saves from the registry. *)
Lemma flush_next_pending c f f' :
  wf (fl_registry f) → flush_next c f = Some f' →
  fl_registry f' = fl_registry f ∧ fl_db f' = fl_db f ∧
  ∀ p, p ∈ pending (fl_stage f') →
    p ∈ pending (fl_stage f) ∨ Get (fl_registry f) (InstanceUID p) = Some p.
Proof.
  unfold flush_next. destruct f as [r dirty d st]. simpl. intros Hwf.
  destruct st as [|[|id ids] tasks ev conn|p ev conn|p conn|p]; simpl.
  - intros [= <-]. split_and!; [done..|]. by intros p ?%not_elem_of_nil.
  - intros [= <-]. split_and!; [done..|]. intros p. simpl. rewrite app_nil_r. by left.
  - destruct (Get r id) as [a|] eqn:Ha; intros [= <-]; (split_and!; [done..|]); [|by left].
    intros p [Hp|Hp]%elem_of_app; [by left|right]. apply list_elem_of_singleton in Hp as ->.
    by rewrite (Get_uid r id a Hwf Ha).
  - destruct (pool_done p).
    + intros [= <-]. split_and!; [done..|]. by intros q ?%not_elem_of_nil.
    + intros (p' & Hp & [= <-])%bind_Some. split_and!; [done..|]. intros q Hq. left.
      simpl in Hq. by rewrite (start_task_perm _ _ _ Hp) in Hq.
  - destruct (pool_done p); [intros [= <-]|intros (p' & Hp & [= <-])%bind_Some];
      (split_and!; [done..|]); by intros q ?%not_elem_of_nil.
  - destruct (pool_done p); [intros [= <-]|intros (p' & Hp & [= <-])%bind_Some];
      (split_and!; [done..|]); by intros q ?%not_elem_of_nil.
Qed.

(** The end of a task adds no instant. *)
Lemma flush_finish_known c i now landed f f' lost id t :
  fsync_but lost f → flush_finish c i now landed f = Some f' → t ∈ known f' id → t ∈ known f id.
Proof.
  unfold fsync_but, flush_finish, known. destruct f as [r dirty d st]. simpl. intros Hs.
  destruct st as [|ids tasks ev conn|p ev conn|p conn|p]; simpl in *; [done|done|..];
    intros ([q p'] & Hp & [= <-])%bind_Some; simpl;
    pose proof (finish_task_perm _ _ _ _ Hp) as Hperm.
  - intros Ht. apply (known_times_perm r d _ _ id t Hperm). destruct landed.
    + eapply save_task_known; [|exact Ht]. by eapply sync_perm.
    + revert Ht. rewrite !elem_of_known_times. setoid_rewrite elem_of_cons. naive_solver.
  - rewrite !elem_of_known_times. by destruct (delete_task_clock now landed q d id) as [-> ->].
  - rewrite !elem_of_known_times. destruct landed; [|done].
    by destruct (connection_task_tables c now q d) as (-> & -> & _).
Qed.

(** The instants a step adds are those of its report. *)
Lemma known_step c i f f' lost id t :
  fsync_but lost f → flush_step c i f = Some f' →
  t ∈ known f' id → t ∈ known f id ∨ report_of i = Some (id, t).
Proof.
  intros Hs Hf. pose proof (sy_wf _ _ _ _ _ _ _ Hs) as Hwf.
  destruct i as [o| |j now landed]; simpl in Hf.
  - destruct f as [r dirty d st]. unfold known. cbn [fl_registry fl_dirty fl_db fl_stage] in *.
    destruct (act o r) as [r' es] eqn:E. injection Hf as <-. simpl. rewrite !elem_of_known_times.
    intros [Hg|?]; [|by left; right]. pose proof (act_effect o r id Hwf) as Heff. rewrite E in Heff.
    cbn [fst] in Heff.
    destruct Heff as [Hsame|[(now & msg & meta & a' & -> & Hid & Ha' & Hls & _)|(a & Ha & _ & [Hn|[b Hb]])]].
    + left. left. by rewrite <-Hsame.
    + right. simpl. rewrite Hid. rewrite Ha' in Hg. injection Hg as <-.
      unfold event_time. by rewrite Hls.
    + by rewrite Hn in Hg.
    + left. left. rewrite Hb in Hg. by rewrite Ha.
  - destruct (flush_next_pending c f f' Hwf Hf) as (Hr & Hd & Hp). unfold known.
    rewrite Hr, Hd, !elem_of_known_times. intros [?|[?|[?|(p & Hin & Hu & Ht)]]]; [tauto..|].
    left. destruct (Hp p Hin) as [?|Hg]; [right; right; right; eauto|].
    left. by rewrite <-Hu, Hg, <-Ht.
  - intros Ht. left. by eapply flush_finish_known.
Qed.

(** Reports that tick are fresh. *)
Lemma ticking_fresh_from c l f lost (past : list (string * Time)) :
  fsync_but lost f → (∀ id t, t ∈ known f id → (id, t) ∈ past) →
  (∀ p q, p ∈ past → q ∈ omap report_of l → later p q) → ticking l → run_fresh c l f = true.
Proof.
  revert f lost past. induction l as [|i l IH]; intros f lost past Hs Hk Hpast Ht; [done|]. cbn [run_fresh].
  assert (input_fresh i f = true) as Hi.
  { destruct i as [[now msg meta| |]| |]; try done. cbn [input_fresh fresh].
    destruct (uuid_FromBytes (m_InstanceUid msg)) as [id|] eqn:Hid; [|done].
    apply forallb_forall. intros t Hin%list_elem_of_In. apply Z.ltb_lt.
    apply (Hpast (id, t) (id, pg_time now)); [by apply Hk| |done].
    csimpl. rewrite Hid. left. }
  rewrite Hi. cbn [andb]. destruct (flush_step c i f) as [f'|] eqn:Hf; [|done].
  apply (IH f' (lost_step i f lost) (option_list (report_of i) ++ past)).
  - by eapply flush_step_but.
  - intros id t Hin. apply elem_of_app.
    destruct (known_step c i f f' lost id t Hs Hf Hin) as [?| ->]; [right; by apply Hk|left; by left].
  - intros p q [Hp|Hp]%elem_of_app Hq.
    + unfold ticking in Ht. csimpl in Ht. destruct (report_of i) as [x|]; [|by apply not_elem_of_nil in Hp].
      apply list_elem_of_singleton in Hp as ->. apply StronglySorted_inv in Ht as [_ Ht].
      by eapply Forall_forall in Ht.
    + apply Hpast; [done|]. csimpl. destruct (report_of i); [by right|done].
  - unfold ticking in *. csimpl in Ht. destruct (report_of i); [|done]. by inversion Ht.
Qed.

Lemma ticking_fresh cfg0 c l :
  ShardCount cfg0 < 2 ^ 32 → ticking l → run_fresh c l (flush_init cfg0) = true.
Proof.
  intros Hc. apply (ticking_fresh_from c l _ ∅ []); [exact (sync_init cfg0 Hc)| |].
  - intros id t. unfold known. rewrite elem_of_known_times. simpl. rewrite !lookup_empty.
    rewrite Get_flat by (by apply wf_New). rewrite flat_New, lookup_empty. simpl.
    by intros [?|[?|[?|(p & ?%not_elem_of_nil & _)]]].
  - by intros p q ?%not_elem_of_nil.
Qed.

Lemma reachable_but cfg0 c l f :
  ShardCount cfg0 < 2 ^ 32 → ticking l → flush_run c l (flush_init cfg0) = Some f →
  fsync_but (lost_run c l (flush_init cfg0) ∅) f.
Proof.
  intros Hc Ht. apply flush_run_but; [exact (sync_init cfg0 Hc)|by apply ticking_fresh].
Qed.

(** What reading an agent back gives of the facts. *)
Definition read_facts (a : Agent) :=
  (Healthy a, HealthError a, HealthStatus a, HealthStartTime a, HealthStatusTime a,
   HealthReported a, Identifying a, NonIdentifying a, MissingAttributes a,
   ReservedAttributeConflicts a, Packages a, EffectiveConfig a, Connected a,
   DescriptionReported a).

(** The database tells what the registry knows of [id]. *)
Definition in_sync (r : Registry) (d : DB) (id : string) : Prop :=
  match Get r id with
  | Some a => ∃ b, GetAgent id d = Some (Some b) ∧ read_facts b = read_facts (stored a None)
  | None => ∀ b, GetAgent id d = Some (Some b) → EvictedAt b ≠ None
  end.

Lemma settled_in_sync r d id : settled r d id → in_sync r d id.
Proof.
  unfold settled, in_sync. destruct (Get r id) as [a|].
  - intros (row & s & Hrow & Hs & [Hr Hc] & Hse).
    unfold GetAgent, scan_uid. rewrite Hrow, Hs, Hc. eexists. split; [reflexivity|].
    unfold row_facts, session_facts in *. destruct a, row, s; simpl in *.
    unfold read_facts. simpl. by simplify_eq.
  - intros Hrow b Hb. destruct (GetAgent_row id d b Hb) as (row & s & Ha & _ & -> & _).
    by apply Hrow.
Qed.


(** ** A flush ends *)

Lemma length_chunk {A} (ids : list A) n : (length (chunk ids n) ≤ length ids)%nat.
Proof.
  destruct (chunk_spec ids n) as [Hc Hf]. rewrite <-Hc at 2. clear Hc.
  induction Hf as [|c cs [Hne _] _ IH]; simpl; [lia|].
  rewrite length_app. destruct c; [done|simpl; lia].
Qed.

(** A bound on the steps left. *)
Definition work (st : stage) : nat :=
  match st with
  | Idle => 0
  | Looking ids tasks ev conn =>
      7 * length ids + 2 * length tasks + 2 * length ev + 2 * length conn + 4
  | Saving p ev conn => pool_measure p + 2 * length ev + 2 * length conn + 3
  | Deleting p conn => pool_measure p + 2 * length conn + 2
  | Connecting p => pool_measure p + 1
  end.

(** The steps of the flush itself. *)
Definition flush_input (i : finput) : bool :=
  match i with FOp _ => false | _ => true end.

Lemma start_task_work {T} m (p p' : Pool T) :
  start_task m p = Some p' → pool_measure p = S (pool_measure p').
Proof.
  destruct p as [w r f]. unfold start_task. simpl. destruct w as [|t w]; [done|].
  destruct (_ <? _)%nat eqn:E; [|done]. intros [= <-].
  apply (pool_step_measure m). apply pool_start. by apply Nat.ltb_lt.
Qed.

Lemma finish_task_work {T} i (p p' : Pool T) t :
  finish_task i p = Some (t, p') → pool_measure p = S (pool_measure p').
Proof.
  unfold finish_task. intros (x & Hx & [= <- <-])%bind_Some. unfold pool_measure. simpl.
  pose proof (lookup_lt_Some _ _ _ Hx). rewrite (length_delete _ _) by done. lia.
Qed.

Lemma flush_step_work c i f f' :
  flush_input i = true → fl_stage f ≠ Idle → flush_step c i f = Some f' →
  (work (fl_stage f') < work (fl_stage f))%nat ∧
  fl_registry f' = fl_registry f ∧ fl_dirty f' = fl_dirty f.
Proof.
  intros Hi Hst. destruct f as [r dirty d st], i as [o| |j now landed]; [done|..]; simpl in *.
  - unfold flush_next. simpl. destruct st as [|ids tasks ev conn|p ev conn|p conn|p]; [done|..].
    + destruct ids as [|id ids].
      * intros [= <-]. cbn [work fl_stage fl_registry fl_dirty]. simpl.
        rewrite pool_init_measure. by split; [lia|].
      * destruct (Get r id) as [a|]; intros [= <-]; simpl; (split; [|done]);
          [destruct (Connected a)|]; rewrite ?length_app; simpl; lia.
    + destruct (pool_done p) eqn:Hd.
      * intros [= <-]. simpl. rewrite pool_init_measure.
        pose proof (length_chunk ev defaultBatchSize). by split; [lia|].
      * intros (p' & Hp & [= <-])%bind_Some. simpl. rewrite (start_task_work _ _ _ Hp).
        by split; [lia|].
    + destruct (pool_done p) eqn:Hd.
      * intros [= <-]. simpl. rewrite pool_init_measure.
        pose proof (length_chunk (InstanceUID <$> conn) defaultBatchSize) as Hl.
        rewrite length_fmap in Hl. by split; [lia|].
      * intros (p' & Hp & [= <-])%bind_Some. simpl. rewrite (start_task_work _ _ _ Hp).
        by split; [lia|].
    + destruct (pool_done p) eqn:Hd.
      * intros [= <-]. simpl. by split; [lia|].
      * intros (p' & Hp & [= <-])%bind_Some. simpl. rewrite (start_task_work _ _ _ Hp).
        by split; [lia|].
  - unfold flush_finish. simpl. destruct st as [|ids tasks ev conn|p ev conn|p conn|p]; [done|done|..];
      intros ([t p'] & Hp & [= <-])%bind_Some; simpl; rewrite (finish_task_work _ _ _ _ Hp);
      by split; [lia|].
Qed.

(** With work left in a pool the loop starts a task or some task ends. *)
Lemma pool_moves {T} m (p : Pool T) :
  pool_done p = false →
  (∃ p', start_task m p = Some p') ∨ ∃ t p', finish_task 0 p = Some (t, p').
Proof.
  destruct p as [w [|t r] f]; simpl; intros Hd.
  - left. destruct w as [|t w]; [done|]. unfold start_task. simpl.
    pose proof (slots_pos m). destruct (slots m); [lia|]. by eexists.
  - right. by eexists _, _.
Qed.

Lemma flush_progress c f (now : Time) :
  fl_stage f ≠ Idle →
  ∃ i f', flush_input i = true ∧ input_ok i f = true ∧ flush_step c i f = Some f' ∧
    (i = FNext ∨ i = FFinish 0 now true).
Proof.
  intros Hst. destruct f as [r dirty d st]. simpl in Hst.
  assert ((∃ f', flush_next c (mkFlusher r dirty d st) = Some f') ∨
          ∃ f', flush_finish c 0 now true (mkFlusher r dirty d st) = Some f') as [[f' H]|[f' H]].
  { unfold flush_next, flush_finish. simpl.
    destruct st as [|[|id ids] tasks ev conn|p ev conn|p conn|p]; [done|..].
    - left. by eexists.
    - left. destruct (Get r id); by eexists.
    - destruct (pool_done p) eqn:Hd; [left; by eexists|].
      destruct (pool_moves (maxConcurrent c) p Hd) as [(p' & ->)|(t & p' & ->)];
        [left|right]; by eexists.
    - destruct (pool_done p) eqn:Hd; [left; by eexists|].
      destruct (pool_moves (maxConcurrent c) p Hd) as [(p' & ->)|(t & p' & ->)];
        [left|right]; by eexists.
    - destruct (pool_done p) eqn:Hd; [left; by eexists|].
      destruct (pool_moves (maxConcurrent c) p Hd) as [(p' & ->)|(t & p' & ->)];
        [left|right]; by eexists. }
  - exists FNext, f'. split_and!; auto.
  - exists (FFinish 0 now true), f'. split_and!; auto.
Qed.

Lemma flush_ends c (now : Time) n f :
  (work (fl_stage f) ≤ n)%nat →
  ∃ l f', flush_run c l f = Some f' ∧ run_ok c l f = true ∧
    forallb flush_input l = true ∧ (length l ≤ n)%nat ∧
    fl_stage f' = Idle ∧ fl_registry f' = fl_registry f ∧ fl_dirty f' = fl_dirty f.
Proof.
  revert f. induction n as [|n IH]; intros f Hn.
  - exists [], f. destruct f as [r dirty d []]; simpl in *; try lia. by split_and!.
  - destruct (decide (work (fl_stage f) = 0%nat)) as [H0|H0].
    { exists [], f. destruct f as [r dirty d []]; simpl in *; try lia. by split_and!; try lia. }
    assert (fl_stage f ≠ Idle) as Hst by (intros Hst; by rewrite Hst in H0).
    destruct (flush_progress c f now Hst) as (i & f1 & Hi & Hok & Hf1 & _).
    destruct (flush_step_work c i f f1 Hi Hst Hf1) as (Hlt & Hr & Hd).
    destruct (IH f1) as (l & f' & Hl & Hrok & Hfi & Hlen & Hidle & Hr' & Hd'); [lia|].
    exists (i :: l), f'. simpl. rewrite Hf1, Hok, Hi, Hrok, Hfi. simpl.
    split_and!; try done; try congruence. lia.
Qed.


(** ** Properties *)

(** C2: the flusher keeps the tables current.  Whatever reports, disconnects
    and sweeps run between the steps of the flushes, in whatever order the
    saves of a flush commit and whichever of its writes fail: provided the
    reports of one agent carry increasing instants at the precision of the
    columns, an agent that is not marked dirty, is not still in the flush in
    progress and is not one whose last write failed reads back from the
    database with the facts the registry holds, or as evicted when the registry
    has dropped it.  A failed write is not retried: its agent stays outside the
    promise until a notification marks it and a flush drains it again. *)
Theorem flusher_keeps_current cfg0 c l f id :
  ShardCount cfg0 < 2 ^ 32 → ticking l →
  flush_run c l (flush_init cfg0) = Some f →
  fl_dirty f !! id = None → id ∉ busy (fl_stage f) →
  id ∉ lost_run c l (flush_init cfg0) ∅ →
  in_sync (fl_registry f) (fl_db f) id.
Proof.
  intros Hc Ht Hrun Hd Hb Hl. apply settled_in_sync.
  pose proof (reachable_but cfg0 c l f Hc Ht Hrun) as Hs.
  by apply (sy_settled _ _ _ _ _ _ _ Hs).
Qed.

(** C3: a flush ends and catches up.  Every step of a flush leaves less work
    and a flush in progress can always move.  From any state between flushes,
    whichever writes failed before, one flush runs to its end within a bound
    on the dirty set, with every write landing, and leaves no agent dirty.
    After it every agent is in sync, provided the reports of one agent carried
    increasing instants at the precision of the columns: every agent but those
    whose last write had failed and which were not dirty when it began, and
    those too as soon as they are marked. *)
Theorem flush_catches_up cfg0 c l f (now : Time) :
  ShardCount cfg0 < 2 ^ 32 → ticking l →
  flush_run c l (flush_init cfg0) = Some f →
  (fl_stage f ≠ Idle →
    (∃ i f', flush_input i = true ∧ flush_step c i f = Some f') ∧
    ∀ i f', flush_input i = true → flush_step c i f = Some f' →
      (work (fl_stage f') < work (fl_stage f))%nat) ∧
  (fl_stage f = Idle →
    ∃ l' f', flush_run c (FNext :: l') f = Some f' ∧ forallb flush_input l' = true ∧
      forallb lands l' = true ∧ (length l' ≤ 7 * size (fl_dirty f) + 4)%nat ∧
      fl_stage f' = Idle ∧ fl_dirty f' = ∅ ∧ fl_registry f' = fl_registry f ∧
      ∀ id, id ∉ lost_run c l (flush_init cfg0) ∅ ∨ is_Some (fl_dirty f !! id) →
        in_sync (fl_registry f') (fl_db f') id).
Proof.
  intros Hc Ht Hrun.
  pose proof (reachable_but cfg0 c l f Hc Ht Hrun) as Hs.
  set (lost := lost_run _ _ _ _) in *. clearbody lost.
  split.
  - intros Hst. split.
    + destruct (flush_progress c f now Hst) as (i & f' & Hi & _ & Hf' & _). by exists i, f'.
    + intros i f' Hi Hf'. by apply (flush_step_work c i f f').
  - intros Hst. destruct (flush_step c FNext f) as [f1|] eqn:Hf1.
    2: { exfalso. destruct f as [r dirty d st]. simpl in *. by subst st. }
    assert (fsync_but (lost ∖ dom (fl_dirty f)) f1) as Hs1.
    { pose proof (flush_step_but c FNext f f1 lost Hs eq_refl Hf1) as H. unfold lost_step in H.
      by rewrite Hst in H. }
    assert (work (fl_stage f1) = (7 * size (fl_dirty f) + 4)%nat ∧ fl_dirty f1 = ∅ ∧
            fl_registry f1 = fl_registry f) as (Hw & Hd1 & Hr1).
    { destruct f as [r dirty d st]. simpl in *. subst st. injection Hf1 as <-. simpl.
      rewrite length_fmap, range_perm, length_map_to_list. simpl. by split; [lia|]. }
    destruct (flush_ends c now _ f1 (Nat.le_refl _))
      as (l' & f' & Hl' & Hok' & Hfi & Hlen & Hidle & Hr' & Hd').
    destruct (run_ok_lands c l' f1 f' Hok' Hl') as [Hfresh Hlands].
    exists l', f'. cbn [flush_run]. rewrite Hf1. simpl.
    rewrite Hw in Hlen. split_and!; try done; try congruence.
    intros id Hid. apply settled_in_sync.
    pose proof (flush_run_but c l' f1 f' _ Hs1 Hfresh Hl') as Hs'.
    apply (sy_settled _ _ _ _ _ _ _ Hs'); [by rewrite Hd', Hd1| |].
    + rewrite Hidle. apply not_elem_of_nil.
    + intros Hin%lost_run_lands; [|done]. rewrite elem_of_difference, elem_of_dom in Hin. tauto.
Qed.

End durable.

(** One agent connects with its description, a flush starts, the connection
    closes while the save is running, and a second flush catches up. *)
Definition one_slot : FlusherConfig := mkFlusherConfig 1 "replica" "pod".

Definition two_flushes : list finput :=
  [FOp (ActReport 5000000 msg1 meta1);
   FNext; FNext; FNext; FNext;
   FOp (ActSetConnected id1 false);
   FFinish 0 0 true; FNext; FNext; FNext; FFinish 0 6000000 true; FNext].

Definition after_flush : flusher :=
  default (flush_init cfg_one) (flush_run one_slot two_flushes (flush_init cfg_one)).

Lemma two_flushes_ticking : ticking two_flushes.
Proof.
  assert (omap report_of two_flushes = [(id1, 5000000)]) as Hl by (vm_compute; reflexivity).
  unfold ticking. rewrite Hl. repeat constructor.
Qed.

(** The save of a first report fails; the second report marks the agent again
    and the next flush lands. *)
Definition one_flush (landed : bool) : list finput :=
  [FNext; FNext; FNext; FNext; FFinish 0 0 landed; FNext; FNext; FNext; FFinish 0 6000000 true; FNext].

Definition failed_then_saved : list finput :=
  FOp (ActReport 3000000 msg1 meta1) :: one_flush false ++
  FOp (ActReport 9000000 msg1 meta1) :: one_flush true.

Lemma failed_then_saved_ticking : ticking failed_then_saved.
Proof.
  assert (omap report_of failed_then_saved = [(id1, 3000000); (id1, 9000000)]) as Hl
    by (vm_compute; reflexivity).
  unfold ticking. rewrite Hl. repeat constructor.
Qed.

Example flusher_keeps_current_witness :
  let run l := default (flush_init cfg_one) (flush_run one_slot l (flush_init cfg_one)) in
  let half := FOp (ActReport 3000000 msg1 meta1) :: one_flush false in
  let f := run failed_then_saved in
  lost_run one_slot half (flush_init cfg_one) ∅ = {[id1]} ∧
  GetAgent id1 (fl_db (run half)) = Some None ∧
  (Connected <$> Get (fl_registry f) id1) = Some true ∧
  in_sync (fl_registry f) (fl_db f) id1.
Proof.
  intros run half f. split; [vm_compute; reflexivity|]. split; [vm_compute; reflexivity|].
  split; [vm_compute; reflexivity|].
  apply (flusher_keeps_current cfg_one one_slot failed_then_saved f id1).
  - vm_compute. reflexivity.
  - exact failed_then_saved_ticking.
  - vm_compute. reflexivity.
  - vm_compute. reflexivity.
  - intros H. vm_compute in H. by apply not_elem_of_nil in H.
  - apply (bool_decide_unpack _). vm_compute. exact I.
Defined.

Example flush_catches_up_witness :
  ∃ l' f', flush_run one_slot (FNext :: l') after_flush = Some f' ∧
    fl_dirty f' = ∅ ∧ in_sync (fl_registry f') (fl_db f') id1.
Proof.
  destruct (flush_catches_up cfg_one one_slot two_flushes after_flush 0) as [_ Hc];
    [vm_compute; reflexivity|exact two_flushes_ticking|vm_compute; reflexivity|].
  destruct Hc as (l' & f' & Hl & _ & _ & _ & _ & Hd & _ & Hs); [vm_compute; reflexivity|].
  exists l', f'. split; [exact Hl|]. split; [exact Hd|]. apply Hs. right. vm_compute. by eexists.
Defined.
