(* ===== verification/Replicas.v ===== *)
(** * Two replicas and one database

    The registry, the flusher, the tables and the API put together: what a
    replica's agents look like from a sibling that shares the database and
    does not hold them.  [Durable] says the rows follow the first replica's
    registry; here they are read back through [ListAgents] and [GetAgent],
    merged into the sibling's fleet and answered by its API. *)

From Stdlib Require Import ZArith Lia.
From S2P Require Import Prelude GoLang Fleet Registry RegistryProps Demo Auth Filter Paginate.
From S2P Require Import Api Store Flush Durable.
Local Open Scope Z_scope.

(** The fields of a view that a heartbeat leaves alone; of [Connected], which
    the sibling may correct, the theorem speaks apart. *)
Definition view_facts (v : AgentView) :=
  ((v_InstanceUID v, v_Identifying v, v_NonIdentifying v, v_MissingAttributes v),
   (v_Healthy v, v_HealthError v, v_HealthStatus v, v_HealthStartTime v, v_HealthStatusTime v,
    v_HealthReported v),
   (v_DescriptionReported v, v_EffectiveConfig v, v_Packages v),
   (v_Role v, v_DisplayName v, v_HostName v, v_Version v, v_SupervisorManaged v)).

Section replicas.
Context `{PB : Protobuf, UU : UUID, MR : MapRange, GS : GoSort, RE : Regexp, UN : Unicode}
        `{PT : PgTime} (bits : CapabilityBits).

(** A view depends on the uid and the facts that are read back. *)
Lemma view_facts_read a b :
  InstanceUID b = InstanceUID a → read_facts b = read_facts a →
  view_facts (DetailView bits b) = view_facts (DetailView bits a).
Proof.
  intros Hu Hf. unfold read_facts in Hf. simplify_eq.
  unfold view_facts, DetailView, fullView, SupervisorManaged, RoleOf, DisplayNameOf, Attr. simpl.
  repeat match goal with H : _ b = _ a |- _ => rewrite H; clear H end. reflexivity.
Qed.

(** Correcting a stale connection changes no fact. *)
Lemma view_facts_corrected now d b :
  view_facts (DetailView bits (if StaleConnected b now d then b <| Connected := false |> else b))
  = view_facts (DetailView bits b).
Proof. by destruct (StaleConnected b now d). Qed.

(** The store reads as its own list. *)
Lemma GetAgent_find d rows id :
  db_ok d → ListAgents d = Some rows → GetAgent id d = Some (find_uid id rows).
Proof.
  intros Hok Hl. destruct (ListAgents_spec d Hok) as (rows' & Hl' & Hu & Hnd & Hg).
  rewrite Hl in Hl'. injection Hl' as <-.
  destruct (find_uid id rows) as [a|] eqn:Hf.
  - unfold find_uid in Hf. apply head_Some_elem_of, list_elem_of_filter in Hf as [<- Hin].
    by apply Hg.
  - apply find_uid_None in Hf. rewrite Hu in Hf. unfold GetAgent.
    destruct (t_agents d !! id) as [row|]; [|done]. destruct Hf. by eexists.
Qed.

Lemma ListAgents_NoDup d rows : db_ok d → ListAgents d = Some rows → NoDup (InstanceUID <$> rows).
Proof.
  intros Hok Hl. destruct (ListAgents_spec d Hok) as (rows' & Hl' & _ & Hnd & _).
  rewrite Hl in Hl'. by injection Hl' as <-.
Qed.

(** A row the sibling does not hold, as its merged fleet shows it. *)
Lemma fleet_view_row now rows id rB :
  wf rB → NoDup (InstanceUID <$> rows) → Get rB id = None →
  find_uid id (fleet_view now (Some (Some rows)) rB).1.1 =
    b ← find_uid id rows;
    if bool_decide (is_Some (EvictedAt b)) then None
    else Some (if StaleConnected b now (DisconnectThreshold (cfg rB))
               then b <| Connected := false |> else b).
Proof.
  intros Hwf Hnd Hget. unfold fleet_view. cbn [fst mret writer_ret]. unfold MergeAgents.
  rewrite find_uid_app, find_uid_List, Hget, find_uid_merge by done.
  destruct (find_uid id rows) as [b|] eqn:Hf; [|done]. cbn [mbind option_bind].
  assert (InstanceUID b = id) as Hb.
  { unfold find_uid in Hf. by apply head_Some_elem_of, list_elem_of_filter in Hf as [? _]. }
  unfold merge_db. rewrite (bool_decide_eq_false_2 (InstanceUID b ∈ _)).
  - simpl. destruct (bool_decide _); [done|]. by destruct (StaleConnected _ _ _).
  - rewrite Hb. apply find_uid_None. by rewrite find_uid_List.
Qed.

(** The detail endpoint over such a store. *)
Lemma getAgent_row now d rows id rB :
  wf rB → db_ok d → ListAgents d = Some rows → id ≠ "" → Get rB id = None →
  getAgent bits now (Some (λ id, GetAgent id d)) id rB =
    match find_uid id (fleet_view now (Some (Some rows)) rB).1.1 with
    | Some b => DetailOk (DetailView bits b)
    | None => Error 404 "agent not found"
    end.
Proof.
  intros Hwf Hok Hl Hid Hget. rewrite fleet_view_row by (eauto using ListAgents_NoDup).
  unfold getAgent. rewrite bool_decide_eq_false_2, Hget, (GetAgent_find d rows id Hok Hl) by done.
  destruct (find_uid id rows) as [b|]; [|done]. simpl. by destruct (bool_decide _).
Qed.

(** C5: a sibling replica serves what the first one knows.  Whatever reports,
    disconnects and sweeps ran between the steps of the first replica's
    flushes, take an agent that is neither dirty nor in the flush in progress
    and whose last write did not fail, each report having come later, at the
    precision of the columns, than the registry, the rows and the writes
    pending knew of its agent ([run_fresh], which increasing clocks imply by
    [ticking_fresh]).  Then the shared database lists, and a sibling that does
    not hold the agent answers the detail endpoint with the agent its merged
    list shows.  That agent carries the facts of the first replica's registry, connected exactly
    when it is connected there and its session row is not stale; it is missing
    only when its row is marked evicted, and an agent the first replica has
    dropped is shown by neither. *)
Theorem sibling_serves cfg0 c l f id now rB :
  ShardCount cfg0 < 2 ^ 32 →
  run_fresh c l (flush_init cfg0) = true →
  flush_run c l (flush_init cfg0) = Some f →
  fl_dirty f !! id = None → id ∉ busy (fl_stage f) →
  id ∉ lost_run c l (flush_init cfg0) ∅ →
  wf rB → id ≠ "" → Get rB id = None →
  ∃ rows, ListAgents (fl_db f) = Some rows ∧
    let listed := find_uid id (fleet_view now (Some (Some rows)) rB).1.1 in
    getAgent bits now (Some (λ id, GetAgent id (fl_db f))) id rB =
      match listed with
      | Some b => DetailOk (DetailView bits b)
      | None => Error 404 "agent not found"
      end ∧
    match Get (fl_registry f) id, listed with
    | None, _ => listed = None
    | Some a, None => ∃ row, t_agents (fl_db f) !! id = Some row ∧ is_Some (ar_evicted_at row)
    | Some a, Some b =>
        view_facts (DetailView bits b) = view_facts (DetailView bits (stored a None)) ∧
        Connected b = Connected a &&
          negb (DisconnectThreshold (cfg rB) <? time_Sub now (SessionUpdatedAt b))
    end.
Proof.
  intros Hc Hok Hrun Hd Hb Hlost Hwf Hid Hget.
  pose proof (flush_run_but c l (flush_init cfg0) f ∅ (sync_init cfg0 Hc) Hok Hrun) as Hs.
  pose proof (sy_db _ _ _ _ _ _ _ Hs) as Hdb.
  destruct (ListAgents_spec (fl_db f) Hdb) as (rows & Hl & _ & _ & _).
  exists rows. split; [done|]. split; [by apply getAgent_row|].
  rewrite fleet_view_row by (eauto using ListAgents_NoDup).
  pose proof (GetAgent_find _ _ id Hdb Hl) as Hfind.
  assert (in_sync (fl_registry f) (fl_db f) id) as Hin
    by (by apply settled_in_sync, (sy_settled _ _ _ _ _ _ _ Hs)).
  unfold in_sync in Hin. destruct (Get (fl_registry f) id) as [a|] eqn:Ha.
  - destruct Hin as (b & Hgb & Hfacts). rewrite Hgb in Hfind. injection Hfind as <-. simpl.
    destruct (GetAgent_row _ _ _ Hgb) as (row & s & Hrow & _ & Hev & _).
    case_bool_decide as Hevd; [exists row; by rewrite <-Hev|].
    assert (InstanceUID b = InstanceUID a) as Hu.
    { rewrite (Get_uid _ _ _ (sy_wf _ _ _ _ _ _ _ Hs) Ha). revert Hgb. unfold GetAgent.
      rewrite Hrow. simpl. destruct (scan_uid _ id row) as [b'|] eqn:Hscan; [|done].
      intros [= <-]. by apply scan_uid_uid in Hscan. }
    rewrite view_facts_corrected. split.
    + by apply view_facts_read.
    + assert (Connected b = Connected a) as Hcon by (unfold read_facts in Hfacts; by simplify_eq).
      unfold StaleConnected. rewrite Hcon.
      destruct (Connected a) eqn:Hca; simpl; [|done].
      by destruct (_ <? _) eqn:E; simpl; rewrite ?E.
  - destruct (find_uid id rows) as [b|]; [|done]. simpl.
    rewrite bool_decide_eq_true_2; [done|]. apply not_eq_None_Some. by apply Hin.
Qed.

End replicas.

(** The agent of the flusher's runs, served by a replica that has none: while
    its session is fresh it shows as connected, a minute later as not. *)
Definition flushed_inputs : list finput :=
  [FOp (ActReport 5000000 msg1 meta1); FNext; FNext; FNext; FNext; FFinish 0 0 true;
   FNext; FNext; FNext; FFinish 0 6000000 true; FNext].

Definition flushed : flusher :=
  default (flush_init cfg_one) (flush_run one_slot flushed_inputs (flush_init cfg_one)).

(** What the sibling's list has for the agent at an instant. *)
Definition shown (now : Time) : option Agent :=
  rows ← ListAgents (fl_db flushed);
  find_uid id1 (fleet_view now (Some (Some rows)) (New cfg_one)).1.1.

Lemma shown_fresh : Connected <$> shown 6000000 = Some true.
Proof. vm_compute. reflexivity. Qed.

Lemma shown_later : Connected <$> shown (60 * Second) = Some false.
Proof. vm_compute. reflexivity. Qed.

Lemma held : Connected <$> Get (fl_registry flushed) id1 = Some true.
Proof. vm_compute. reflexivity. Qed.

Example sibling_serves_witness :
  ∃ a b, Get (fl_registry flushed) id1 = Some a ∧ shown (60 * Second) = Some b ∧
    view_facts (DetailView bits1 b) = view_facts (DetailView bits1 (stored a None)) ∧
    Connected a = true ∧ Connected b = false.
Proof.
  destruct (sibling_serves bits1 cfg_one one_slot flushed_inputs flushed id1 (60 * Second)
    (New cfg_one)) as (rows & Hl & _ & Hm);
    [vm_compute; reflexivity|vm_compute; reflexivity|vm_compute; reflexivity|
     vm_compute; reflexivity|vm_compute; apply not_elem_of_nil|
     apply (bool_decide_unpack (id1 ∉ _)); vm_compute; reflexivity|
     apply wf_New; vm_compute; reflexivity|discriminate|vm_compute; reflexivity|].
  assert (shown (60 * Second)
    = find_uid id1 (fleet_view (60 * Second) (Some (Some rows)) (New cfg_one)).1.1) as Hs
    by (unfold shown; rewrite Hl; reflexivity).
  cbv zeta in Hm. rewrite <-Hs in Hm.
  destruct (proj1 (fmap_Some _ _ _) held) as (a & Ha & Hca).
  destruct (proj1 (fmap_Some _ _ _) shown_later) as (b & Hb & Hcb).
  rewrite Ha, Hb in Hm. exists a, b.
  exact (conj Ha (conj Hb (conj (proj1 Hm) (conj (eq_sym Hca) (eq_sym Hcb))))).
Defined.
