(* ===== verification/Snapshot.v ===== *)
(** * Package persistence: the session snapshotter

    internal/persistence/session_snapshot.go.  [SessionSnapshotter] is what the
    snapshotter remembers between ticks; [snapshotOnce] is one tick against
    the registry and the database.  The chunks are sent in any order
    [runConcurrent] allows, each as one [SendBatch]. *)

From Stdlib Require Import ZArith Lia.
From S2P Require Import Prelude GoLang Fleet Registry RegistryProps Filter Store Flush Demo.
Local Open Scope Z_scope.

(** ** State *)

Record sessionWrite := mkSessionWrite { sw_lastSeen : Time; sw_gen : Z }.

Record SessionSnapshotter := mkSessionSnapshotter {
  sn_keepalive : Duration;
  sn_written : gmap string sessionWrite;
  sn_gen : Z
}.

#[export] Instance eta_SessionSnapshotter : Eta SessionSnapshotter := λ s,
  mkSessionSnapshotter (sn_keepalive s) (sn_written s) (sn_gen s).

(** [keepaliveInterval], in int64 arithmetic. *)
Definition keepaliveInterval (disconnectAfter tick : Duration) : Duration :=
  let keepalive := Z.quot (int64 (disconnectAfter * 2)) 3 in
  let limit := int64 (disconnectAfter - tick) in
  let keepalive := if limit <? keepalive then limit else keepalive in
  if keepalive <? 0 then 0 else keepalive.

Definition NewSessionSnapshotter (disconnectThreshold interval : Duration) : SessionSnapshotter :=
  mkSessionSnapshotter (keepaliveInterval disconnectThreshold interval) ∅ 0.

(** The body of the loop of [due] over the registry's agents. *)
Definition due_agent (now : Time) (s : SessionSnapshotter) (agent : Agent) :
    SessionSnapshotter * bool :=
  match sn_written s !! InstanceUID agent with
  | Some w =>
      (s <| sn_written := <[InstanceUID agent := mkSessionWrite (sw_lastSeen w) (sn_gen s)]>
              (sn_written s) |>,
       negb (time_Sub now (sw_lastSeen w) <? sn_keepalive s))
  | None => (s, true)
  end.

Fixpoint due_loop (now : Time) (agents : list Agent) (s : SessionSnapshotter) :
    SessionSnapshotter * list Agent :=
  match agents with
  | [] => (s, [])
  | agent :: agents =>
      let '(s, is_due) := due_agent now s agent in
      let '(s, due) := due_loop now agents s in
      (s, if is_due then agent :: due else due)
  end.

(** [recordWritten]. *)
Definition recordWritten (agent : Agent) (s : SessionSnapshotter) : SessionSnapshotter :=
  s <| sn_written := <[InstanceUID agent := mkSessionWrite (LastSeen agent) (sn_gen s)]>
         (sn_written s) |>.

Section snapshot.
Context `{PB : Protobuf, UU : UUID, MR : MapRange, PT : PgTime}.

Definition due (now : Time) (r : Registry) (s : SessionSnapshotter) :
    SessionSnapshotter * list Agent :=
  let s := s <| sn_gen := uint64 (sn_gen s + 1) |> in
  let '(s, due) := due_loop now (List r) s in
  (s <| sn_written := filter (λ p : string * sessionWrite, sw_gen p.2 = sn_gen s)
                        (sn_written s) |>, due).

(** The task of one chunk: every statement that reports success is recorded;
    a batch that was never run reports no success. *)
Definition snapshot_task (landed : bool) (agents : list Agent)
    (sd : SessionSnapshotter * DB) : SessionSnapshotter * DB :=
  let '(s, d) := sd in
  if landed then
    let '(oks, d) := SendBatch ((λ a d, SaveSession a d) <$> agents) d in
    (foldl (λ s (p : Agent * bool), if p.2 then recordWritten p.1 s else s) s (zip agents oks), d)
  else (s, d).

(** The path of a store that cannot batch: one write per agent. *)
Definition snapshot_one (landed : bool) (agent : Agent)
    (sd : SessionSnapshotter * DB) : SessionSnapshotter * DB :=
  let '(s, d) := sd in
  match (if landed then SaveSession agent d else None) with
  | Some d => (recordWritten agent s, d)
  | None => (s, d)
  end.

(** [snapshotOnce]: the agents of a chunk are those its ids look up in [byID],
    which is the list the ids come from; [order] is the order the chunks
    finish in, and which of them landed. *)
Definition snapshotOnce (m : Z) (now : Time) (r : Registry)
    (order : list (list Agent * bool)) (sd sd' : SessionSnapshotter * DB) : Prop :=
  let '(s, agents) := due now r sd.1 in
  runConcurrent (chunk agents defaultBatchSize) m order.*1 ∧
  sd' = foldl (λ sd (t : list Agent * bool), snapshot_task t.2 t.1 sd) (s, sd.2) order.


(** ** Invariant *)

(** What was recorded is in the table, or something newer is. *)
Definition recorded (s : SessionSnapshotter) (d : DB) : Prop :=
  ∀ id w, sn_written s !! id = Some w →
    ∃ row, t_session d !! id = Some row ∧ pg_time (sw_lastSeen w) ≤ sr_updated_at row.

(** Every entry is of the last pass. *)
Record sn_ok (s : SessionSnapshotter) (d : DB) : Prop := {
  sn_gen_range : is_uint64 (sn_gen s);
  sn_gens id w : sn_written s !! id = Some w → sw_gen w = sn_gen s;
  sn_recorded : recorded s d
}.

Lemma sn_ok_init threshold interval d : sn_ok (NewSessionSnapshotter threshold interval) d.
Proof. split; [unfold is_uint64; simpl; lia|..]; intros id w Hw;
    cbn [sn_written NewSessionSnapshotter] in Hw; by rewrite lookup_empty in Hw. Qed.

(** ** The loop of [due] *)

Definition is_due (now : Time) (s : SessionSnapshotter) (agent : Agent) : bool :=
  match sn_written s !! InstanceUID agent with
  | Some w => negb (time_Sub now (sw_lastSeen w) <? sn_keepalive s)
  | None => true
  end.

Lemma due_agent_spec now s agent :
  let s' := (due_agent now s agent).1 in
  (due_agent now s agent).2 = is_due now s agent ∧
  sn_keepalive s' = sn_keepalive s ∧ sn_gen s' = sn_gen s ∧
  ∀ id, sn_written s' !! id =
    (if decide (id = InstanceUID agent)
     then (λ w, mkSessionWrite (sw_lastSeen w) (sn_gen s)) <$> sn_written s !! id
     else sn_written s !! id).
Proof.
  unfold due_agent, is_due. destruct (sn_written s !! InstanceUID agent) as [w|] eqn:Hw; simpl.
  - split_and!; [done..|]. intros id. case_decide as Hid; [subst id|].
    + by rewrite lookup_insert_eq, Hw.
    + by rewrite lookup_insert_ne.
  - split_and!; [done..|]. intros id. case_decide as Hid; [subst id; by rewrite Hw|done].
Qed.

Lemma filter_ext_in {A} (f g : A → bool) (l : list A) :
  (∀ x, x ∈ l → f x = g x) → filter (λ x, f x = true) l = filter (λ x, g x = true) l.
Proof.
  induction l as [|x l IH]; intros Hfg; [done|].
  rewrite !filter_cons, IH by (intros; apply Hfg; by right).
  by rewrite (Hfg x) by by left.
Qed.

Lemma due_loop_spec now l s :
  NoDup (InstanceUID <$> l) →
  let s' := (due_loop now l s).1 in
  (due_loop now l s).2 = filter (λ a, is_due now s a = true) l ∧
  sn_keepalive s' = sn_keepalive s ∧ sn_gen s' = sn_gen s ∧
  ∀ id, sn_written s' !! id =
    (if decide (id ∈ InstanceUID <$> l)
     then (λ w, mkSessionWrite (sw_lastSeen w) (sn_gen s)) <$> sn_written s !! id
     else sn_written s !! id).
Proof.
  revert s. induction l as [|a l IH]; intros s Hnd.
  { simpl. by split_and!. }
  rewrite fmap_cons, NoDup_cons in Hnd. destruct Hnd as [Hnew Hnd].
  destruct (due_agent_spec now s a) as (Hdue & Hk & Hg & Hw).
  simpl. destruct (due_agent now s a) as [s1 b]. simpl in *.
  destruct (IH s1 Hnd) as (Hf & Hk' & Hg' & Hw').
  destruct (due_loop now l s1) as [s2 due2]. simpl in *.
  split_and!; [|congruence..|].
  - rewrite filter_cons, <-Hdue, Hf, (filter_ext_in (is_due now s1) (is_due now s)).
    + by destruct b.
    + intros c Hc. unfold is_due. rewrite Hw, Hk, decide_False; [done|].
      intros Heq. apply Hnew. rewrite <-Heq. by apply list_elem_of_fmap_2.
  - intros id. rewrite Hw', Hw, Hg. destruct (decide (id = InstanceUID a)) as [->|Hne].
    + rewrite decide_False by done. by rewrite decide_True by by left.
    + destruct (decide (id ∈ InstanceUID <$> l)) as [Hin|Hin].
      * by rewrite decide_True by by right.
      * by rewrite decide_False by (by apply not_elem_of_cons).
Qed.

(** The whole of [due]: entries of agents the registry no longer holds go. *)
Lemma due_spec now r s d :
  wf r → sn_ok s d →
  let s' := (due now r s).1 in
  (due now r s).2 = filter (λ a, is_due now s a = true) (List r) ∧
  sn_keepalive s' = sn_keepalive s ∧ sn_ok s' d ∧
  ∀ id, sw_lastSeen <$> sn_written s' !! id =
    (if decide (id ∈ InstanceUID <$> List r) then sw_lastSeen <$> sn_written s !! id else None).
Proof.
  intros Hwf [Hrange Hgens Hrec]. unfold due.
  set (s1 := s <| sn_gen := uint64 (sn_gen s + 1) |>).
  assert (uint64 (sn_gen s + 1) ≠ sn_gen s) as Hgen.
  { unfold uint64, is_uint64 in *. intros He.
    pose proof (Z.div_mod (sn_gen s + 1) (2 ^ 64)). lia. }
  destruct (due_loop_spec now (List r) s1 (List_NoDup_uid r Hwf)) as (Hdue & Hk & Hg & Hw).
  destruct (due_loop now (List r) s1) as [s2 l]. simpl in *.
  assert (∀ id w, filter (λ p : string * sessionWrite, sw_gen p.2 = sn_gen s2) (sn_written s2) !! id
    = Some w ↔ id ∈ InstanceUID <$> List r ∧
      ∃ w0, sn_written s !! id = Some w0 ∧ w = mkSessionWrite (sw_lastSeen w0) (sn_gen s2)) as Hf.
  { intros id w. rewrite map_lookup_filter_Some, Hw, Hg. simpl. split.
    - intros [Hin Hgw]. case_decide as Hid.
      + apply fmap_Some in Hin as (w0 & Hw0 & ->). split; [done|]. by exists w0.
      + rewrite (Hgens id w Hin) in Hgw. by destruct Hgen.
    - intros (Hid & w0 & Hw0 & ->). rewrite decide_True by done. by rewrite Hw0. }
  split_and!; [|done| |].
  - rewrite Hdue. done.
  - split; simpl.
    + rewrite Hg. unfold is_uint64, uint64. apply Z.mod_pos_bound. lia.
    + intros id w Hin. apply Hf in Hin as (_ & w0 & _ & ->). done.
    + intros id w Hin. apply Hf in Hin as (_ & w0 & Hw0 & ->). by apply (Hrec id w0).
  - intros id. case_decide as Hid.
    + destruct (sn_written s !! id) as [w0|] eqn:Hw0.
      * rewrite (proj2 (Hf id (mkSessionWrite (sw_lastSeen w0) (sn_gen s2)))); [done|].
        split; [done|]. by exists w0.
      * destruct (filter _ (sn_written s2) !! id) as [w|] eqn:E; [|done].
        apply Hf in E as (_ & w0 & Hw0' & _). congruence.
    + destruct (filter _ (sn_written s2) !! id) as [w|] eqn:E; [|done].
      by apply Hf in E as (Hin & _).
Qed.


(** ** Writing the due agents *)

(** No session row went back in time. *)
Definition newer (d d' : DB) : Prop :=
  ∀ id row, t_session d !! id = Some row →
    ∃ row', t_session d' !! id = Some row' ∧ sr_updated_at row ≤ sr_updated_at row'.

Definition landed_row (d : DB) (a : Agent) : Prop :=
  ∃ row, t_session d !! InstanceUID a = Some row ∧ pg_time (LastSeen a) ≤ sr_updated_at row.

#[local] Instance newer_preorder : PreOrder newer.
Proof.
  split.
  - intros d id row Hr. by exists row.
  - intros d1 d2 d3 H12 H23 id row Hr. destruct (H12 id row Hr) as (row2 & Hr2 & Hle).
    destruct (H23 id row2 Hr2) as (row3 & Hr3 & Hle3). exists row3. split; [done|lia].
Qed.

Lemma landed_row_newer d d' a : newer d d' → landed_row d a → landed_row d' a.
Proof.
  intros Hn (row & Hr & Hle). destruct (Hn _ row Hr) as (row' & Hr' & Hle').
  exists row'. split; [done|lia].
Qed.

Lemma SaveSession_lands a d :
  db_ok d → is_Some (t_agents d !! InstanceUID a) →
  ∃ d', SaveSession a d = Some d' ∧ db_ok d' ∧ t_agents d' = t_agents d ∧ newer d d' ∧
    landed_row d' a.
Proof.
  intros Hok [ar Ha].
  assert (∃ d', SaveSession a d = Some d' ∧ t_agents d' = t_agents d ∧ newer d d' ∧
    landed_row d' a) as (d' & Hs & Hd').
  { unfold SaveSession, saveSessionUpsert, landed_row.
    destruct (t_session d !! InstanceUID a) as [row|] eqn:Hs.
    - destruct (sr_updated_at row <=? sr_updated_at (session_values a)) eqn:Hle.
      + apply Z.leb_le in Hle. eexists. split_and!; [done|done| |].
        * intros id row' Hr'. simpl. destruct (decide (id = InstanceUID a)) as [->|Hne].
          -- exists (session_values a). rewrite lookup_insert_eq. split; [done|]. congruence.
          -- exists row'. by rewrite lookup_insert_ne.
        * simpl. exists (session_values a). by rewrite lookup_insert_eq.
      + apply Z.leb_gt in Hle. simpl in Hle. eexists. split_and!; [done|done|done|].
        exists row. split; [done|lia].
    - rewrite Ha. eexists. split_and!; [done|done| |].
      + intros id row' Hr'. simpl. exists row'. rewrite lookup_insert_ne; [done|].
        intros Heq. congruence.
      + simpl. exists (session_values a). by rewrite lookup_insert_eq. }
  exists d'. split_and!; [done|by eapply SaveSession_ok|by apply Hd'..].
Qed.

(** A batch of agents with rows is accepted as a whole. *)
Lemma run_batch_lands l d :
  db_ok d → Forall (λ a, is_Some (t_agents d !! InstanceUID a)) l →
  ∃ d', run_batch ((λ a d, SaveSession a d) <$> l) d = (replicate (length l) true, Some d') ∧
    db_ok d' ∧ t_agents d' = t_agents d ∧ newer d d' ∧ Forall (landed_row d') l.
Proof.
  revert d. induction l as [|a l IH]; intros d Hok Hall; [by exists d; split_and!|].
  apply Forall_cons in Hall as [Ha Hall].
  destruct (SaveSession_lands a d Hok Ha) as (d1 & Hs & Hok1 & Ha1 & Hn1 & Hl1).
  destruct (IH d1 Hok1) as (d' & Hr & Hok' & Ha' & Hn' & Hl'); [by rewrite Ha1|].
  exists d'. csimpl. rewrite Hs, Hr. split_and!; [done|done|congruence|by etrans|].
  constructor; [by eapply landed_row_newer|done].
Qed.

Definition record_all (l : list Agent) (s : SessionSnapshotter) : SessionSnapshotter :=
  foldl (λ s a, recordWritten a s) s l.

Lemma foldl_record_all l s :
  foldl (λ s (p : Agent * bool), if p.2 then recordWritten p.1 s else s) s
    (zip l (replicate (length l) true)) = record_all l s.
Proof. revert s. induction l as [|a l IH]; intros s; [done|]. apply IH. Qed.

Lemma snapshot_task_lands l s d :
  db_ok d → Forall (λ a, is_Some (t_agents d !! InstanceUID a)) l →
  ∃ d', snapshot_task true l (s, d) = (record_all l s, d') ∧
    db_ok d' ∧ t_agents d' = t_agents d ∧ newer d d' ∧ Forall (landed_row d') l.
Proof.
  intros Hok Hall. destruct (run_batch_lands l d Hok Hall) as (d' & Hr & Hd').
  exists d'. unfold snapshot_task, SendBatch. rewrite Hr. simpl. by rewrite foldl_record_all.
Qed.

Lemma snapshot_tasks_land order s d :
  db_ok d → Forall (λ t, t.2 = true) order →
  Forall (λ a, is_Some (t_agents d !! InstanceUID a)) (concat order.*1) →
  ∃ d', foldl (λ sd (t : list Agent * bool), snapshot_task t.2 t.1 sd) (s, d) order =
      (record_all (concat order.*1) s, d') ∧
    db_ok d' ∧ t_agents d' = t_agents d ∧ newer d d' ∧ Forall (landed_row d') (concat order.*1).
Proof.
  revert s d. induction order as [|[l b] order IH]; intros s d Hok Hland Hall.
  { exists d. split_and!; done. }
  apply Forall_cons in Hland as [Hb Hland]. simpl in Hb. subst b.
  rewrite fmap_cons in *. cbn [concat] in *. apply Forall_app in Hall as [Hl Hall].
  destruct (snapshot_task_lands l s d Hok Hl) as (d1 & Hs & Hok1 & Ha1 & Hn1 & Hl1).
  destruct (IH (record_all l s) d1 Hok1 Hland) as (d' & Hr & Hok' & Ha' & Hn' & Hl');
    [by rewrite Ha1|].
  exists d'. cbn [foldl fst snd]. rewrite Hs, Hr. split_and!; [|done|congruence|by etrans|].
  - unfold record_all. by rewrite foldl_app.
  - apply Forall_app. split; [|done]. eapply Forall_impl; [exact Hl1|].
    intros a. by apply landed_row_newer.
Qed.

Lemma record_all_spec l s :
  NoDup (InstanceUID <$> l) →
  sn_keepalive (record_all l s) = sn_keepalive s ∧ sn_gen (record_all l s) = sn_gen s ∧
  (∀ a, a ∈ l → sn_written (record_all l s) !! InstanceUID a =
                  Some (mkSessionWrite (LastSeen a) (sn_gen s))) ∧
  ∀ id, id ∉ InstanceUID <$> l → sn_written (record_all l s) !! id = sn_written s !! id.
Proof.
  revert s. induction l as [|a l IH]; intros s Hnd.
  { split_and!; try done. by intros a ?%not_elem_of_nil. }
  rewrite fmap_cons, NoDup_cons in Hnd. destruct Hnd as [Hnew Hnd].
  destruct (IH (recordWritten a s) Hnd) as (Hk & Hg & Hw & Ho). simpl in *.
  split_and!; [done|done| |].
  - intros b [->|Hb]%elem_of_cons; [|by apply Hw]. rewrite Ho by done. apply lookup_insert_eq.
  - intros id [Hne Hid]%not_elem_of_cons.
    rewrite Ho by done. by apply lookup_insert_ne.
Qed.


(** One tick whose batches land, in the terms of the snapshotter's map. *)
Lemma snapshotOnce_lands m now r order s d sd' :
  wf r → db_ok d → sn_ok s d →
  (∀ a, a ∈ List r → is_Some (t_agents d !! InstanceUID a)) →
  snapshotOnce m now r order (s, d) sd' → Forall (λ t, t.2 = true) order →
  sn_ok sd'.1 sd'.2 ∧ db_ok sd'.2 ∧ t_agents sd'.2 = t_agents d ∧
  sn_keepalive sd'.1 = sn_keepalive s ∧
  (∀ id, is_Some (sn_written sd'.1 !! id) → id ∈ InstanceUID <$> List r) ∧
  ∀ a, a ∈ List r → ∃ w, sn_written sd'.1 !! InstanceUID a = Some w ∧
    (sw_lastSeen w = LastSeen a ∨ time_Sub now (sw_lastSeen w) < sn_keepalive s).
Proof.
  intros Hwf Hdb Hsn Hrows Hsnap Hland. unfold snapshotOnce in Hsnap. cbn [fst snd] in Hsnap.
  destruct (due_spec now r s d Hwf Hsn) as (Hdue & Hk & Hsn1 & Hw1).
  destruct (due now r s) as [s1 agents]. cbn [fst snd] in *.
  destruct Hsnap as [Horder ->].
  assert (concat order.*1 ≡ₚ agents) as Hperm.
  { rewrite <-(proj1 (chunk_spec agents defaultBatchSize)).
    by apply concat_perm, (runConcurrent_perm m). }
  assert (∀ a, a ∈ concat order.*1 → a ∈ List r) as Hin.
  { intros a Ha. rewrite Hperm, Hdue in Ha. apply list_elem_of_filter in Ha as [_ Ha]. done. }
  assert (NoDup (InstanceUID <$> concat order.*1)) as Hnd.
  { rewrite Hperm, Hdue. eapply sublist_NoDup; [apply (List_NoDup_uid r Hwf)|].
    apply fmap_sublist, sublist_filter. }
  destruct (snapshot_tasks_land order s1 d Hdb Hland) as (d' & Hrun & Hdb' & Hag & Hnew & Hl).
  { apply Forall_forall. intros a Ha. by apply Hrows, Hin. }
  rewrite Hrun. cbn [fst snd].
  destruct (record_all_spec (concat order.*1) s1 Hnd) as (Hk' & Hg' & Hw' & Ho').
  destruct Hsn1 as [Hrange Hgens Hrec].
  assert (∀ id w, sn_written (record_all (concat order.*1) s1) !! id = Some w →
    (∃ a, a ∈ concat order.*1 ∧ InstanceUID a = id ∧ w = mkSessionWrite (LastSeen a) (sn_gen s1)) ∨
    sn_written s1 !! id = Some w) as Hsplit.
  { intros id w Hid. destruct (decide (id ∈ InstanceUID <$> concat order.*1)) as [Hi|Hi].
    - left. apply list_elem_of_fmap in Hi as (a & -> & Ha). exists a.
      rewrite (Hw' a Ha) in Hid. by injection Hid as <-.
    - right. by rewrite Ho' in Hid. }
  split_and!; [split| done|done|congruence| |].
  - by rewrite Hg'.
  - intros id w Hid. rewrite Hg'. destruct (Hsplit id w Hid) as [(a & _ & _ & ->)|Hold]; [done|].
    by apply (Hgens id).
  - intros id w Hid. destruct (Hsplit id w Hid) as [(a & Ha & <- & ->)|Hold].
    + rewrite Forall_forall in Hl. apply (Hl a Ha).
    + destruct (Hrec id w Hold) as (row & Hr & Hle). destruct (Hnew id row Hr) as (row' & Hr' & Hle').
      exists row'. split; [done|lia].
  - intros id [w Hid]. destruct (Hsplit id w Hid) as [(a & Ha & <- & ->)|Hold].
    + by apply list_elem_of_fmap_2, Hin.
    + specialize (Hw1 id). rewrite Hold in Hw1. by case_decide.
  - intros a Ha. destruct (decide (InstanceUID a ∈ InstanceUID <$> concat order.*1)) as [Hi|Hi].
    + apply list_elem_of_fmap in Hi as (b & Hb & Hbin). rewrite Hb, (Hw' b Hbin).
      eexists. split; [done|]. left. simpl. f_equal.
      apply (NoDup_fmap_inj InstanceUID (List r)); [by apply List_NoDup_uid|by apply Hin|done|done].
    + rewrite Ho' by done.
      assert (is_due now s a ≠ true) as Hnot.
      { intros Hd. apply Hi, list_elem_of_fmap_2. rewrite Hperm, Hdue. by apply list_elem_of_filter. }
      specialize (Hw1 (InstanceUID a)). rewrite decide_True in Hw1 by by apply list_elem_of_fmap_2.
      unfold is_due in Hnot. destruct (sn_written s !! InstanceUID a) as [w0|] eqn:Hw0; [|done].
      destruct (time_Sub now (sw_lastSeen w0) <? sn_keepalive s) eqn:Hlt; [|done].
      apply Z.ltb_lt in Hlt. simpl in Hw1. apply fmap_Some in Hw1 as (w & Hw & Heq).
      exists w. split; [done|]. right. by rewrite <-Heq.
Qed.

(** One tick whose batches land, as another replica reads it. *)
Lemma snapshot_pass_fresh m now r order s d sd' disconnectAfter tick eps :
  wf r → db_ok d → sn_ok s d →
  (∀ a, a ∈ List r → is_Some (t_agents d !! InstanceUID a)) →
  (∀ t, t < pg_time t + eps) →
  0 ≤ disconnectAfter < int64_max → 0 ≤ tick → 0 ≤ sn_keepalive s → sn_keepalive s + tick ≤ disconnectAfter →
  snapshotOnce m now r order (s, d) sd' → Forall (λ t, t.2 = true) order →
  sn_ok sd'.1 sd'.2 ∧ db_ok sd'.2 ∧
  (∀ id, is_Some (sn_written sd'.1 !! id) ↔ id ∈ InstanceUID <$> List r) ∧
  ∀ a, a ∈ List r → now - LastSeen a < sn_keepalive s →
    ∃ b, GetAgent (InstanceUID a) sd'.2 = Some (Some b) ∧
      ∀ t, now ≤ t → t + eps ≤ now + tick → StaleConnected b t disconnectAfter = false.
Proof.
  intros Hwf Hdb Hsn Hrows Heps Hthr Htick Hkpos Hmargin Hsnap Hland.
  destruct (snapshotOnce_lands m now r order s d sd' Hwf Hdb Hsn Hrows Hsnap Hland)
    as (Hsn' & Hdb' & Hag & Hk & Hdom & Hw).
  split_and!; [done|done| |].
  - intros id. split; [apply Hdom|]. intros Hid. apply list_elem_of_fmap in Hid as (a & -> & Ha).
    destruct (Hw a Ha) as (w & Hwa & _). by exists w.
  - intros a Ha Halive. destruct (Hw a Ha) as (w & Hwa & Hcase).
    destruct (sn_recorded _ _ Hsn' _ w Hwa) as (row & Hr & Hle).
    destruct (Hrows a Ha) as [ar Har]. rewrite <-Hag in Har.
    destruct (scan_uid_ok sd'.2 (InstanceUID a) ar Hdb' Har) as [b Hb].
    assert (GetAgent (InstanceUID a) sd'.2 = Some (Some b)) as Hg
      by (unfold GetAgent; by rewrite Har, Hb).
    exists b. split; [done|]. intros t Hnow Ht.
    destruct (GetAgent_row _ _ _ Hg) as (ar' & row' & _ & Hr' & _ & _ & Hsu & _).
    rewrite Hr in Hr'. injection Hr' as <-.
    unfold StaleConnected. rewrite Hsu. destruct (Connected b); [|done]. simpl.
    apply Z.ltb_ge, Z.nlt_ge. rewrite time_Sub_gt by (unfold int64_min; lia).
    specialize (Heps (sw_lastSeen w)).
    assert (now - sw_lastSeen w < sn_keepalive s) as Hage.
    { destruct Hcase as [->|Hlt]; [done|]. unfold time_Sub in Hlt.
      unfold int64_min, int64_max in *. lia. }
    lia.
Qed.

(** ** Properties *)

(** The keepalive leaves the tick its margin.  For a threshold whose
    double is an int64, a row written at the keepalive point is still within
    the threshold one tick later; the keepalive is at most two thirds of the
    threshold and exactly that when the tick fits the remaining third; when
    the tick leaves no room it is zero, that is every agent every tick. *)
Theorem keepalive_bounds disconnectAfter tick :
  0 ≤ disconnectAfter → disconnectAfter * 2 ≤ int64_max → 0 ≤ tick ≤ int64_max →
  let k := keepaliveInterval disconnectAfter tick in
  0 ≤ k ∧ 3 * k ≤ 2 * disconnectAfter ∧
  (tick ≤ disconnectAfter → k + tick ≤ disconnectAfter) ∧
  (disconnectAfter ≤ tick → k = 0) ∧
  (3 * tick ≤ disconnectAfter → k = 2 * disconnectAfter / 3).
Proof.
  intros Hd Hmax Ht k. unfold k, keepaliveInterval.
  rewrite !int64_id by (unfold is_int64, int64_min, int64_max in *; lia).
  rewrite Z.quot_div_nonneg by lia. rewrite (Z.mul_comm disconnectAfter 2).
  pose proof (Z.mul_div_le (2 * disconnectAfter) 3 ltac:(lia)) as Hq.
  pose proof (Z.mod_pos_bound (2 * disconnectAfter) 3 ltac:(lia)) as Hm.
  pose proof (Z.div_mod (2 * disconnectAfter) 3 ltac:(lia)) as Hdm.
  destruct (disconnectAfter - tick <? 2 * disconnectAfter / 3) eqn:E1;
    [apply Z.ltb_lt in E1|apply Z.ltb_ge in E1];
  match goal with |- context [if ?b then 0 else _] => destruct b eqn:E2 end;
    [apply Z.ltb_lt in E2|apply Z.ltb_ge in E2|apply Z.ltb_lt in E2|apply Z.ltb_ge in E2];
    split_and!; intros; lia.
Qed.



(** C23: stored rows stay fresh.  After a tick whose batches land, with a row
    in agents for every registered agent: the snapshotter remembers only
    registered agents, what it remembers is in the table, and an agent the
    database holds as connected that was heard from within the keepalive does
    not read as stale to another replica until the next tick, allowing [eps]
    for the precision of the column. *)
Theorem snapshot_keeps_fresh m now r order s d sd' disconnectAfter tick eps :
  wf r → db_ok d → sn_ok s d →
  (∀ a, a ∈ List r → is_Some (t_agents d !! InstanceUID a)) →
  (∀ t, t < pg_time t + eps) →
  0 ≤ disconnectAfter < int64_max → 0 ≤ tick → 0 ≤ sn_keepalive s → sn_keepalive s + tick ≤ disconnectAfter →
  snapshotOnce m now r order (s, d) sd' → Forall (λ t, t.2 = true) order →
  sn_ok sd'.1 sd'.2 ∧ db_ok sd'.2 ∧
  (∀ id, is_Some (sn_written sd'.1 !! id) ↔ id ∈ InstanceUID <$> List r) ∧
  ∀ a, a ∈ List r → now - LastSeen a < sn_keepalive s →
    ∃ b, GetAgent (InstanceUID a) sd'.2 = Some (Some b) ∧
      ∀ t, now ≤ t → t + eps ≤ now + tick → StaleConnected b t disconnectAfter = false.
Proof. apply snapshot_pass_fresh. Qed.

End snapshot.

(** ** Concrete runs *)

(** One connected agent, its row saved, one tick. *)
Definition fleet_one : Registry := (act (ActReport 5000000 msg1 meta1) (New cfg_one)).1.

Definition agents_one : list Agent := List fleet_one.

Definition db_one : DB := save_all agents_one empty_DB.

Definition sn_one : SessionSnapshotter :=
  NewSessionSnapshotter (DisconnectThreshold cfg_one) (15 * Second).

Lemma wf_fleet_one : wf fleet_one.
Proof.
  assert (wf (New cfg_one)) as Hwf by (apply wf_New; vm_compute; reflexivity).
  exact (act_wf (ActReport 5000000 msg1 meta1) (New cfg_one) Hwf).
Qed.

Example keepalive_bounds_witness :
  keepaliveInterval (45 * Second) (15 * Second) = 30 * Second ∧
  keepaliveInterval (45 * Second) (15 * Second) + 15 * Second ≤ 45 * Second.
Proof.
  destruct (keepalive_bounds (45 * Second) (15 * Second)) as (_ & _ & Hm & _ & He);
    [vm_compute; congruence..|split; vm_compute; congruence|].
  split; [rewrite He by (vm_compute; congruence); reflexivity|].
  apply Hm. vm_compute. congruence.
Defined.

(** Whatever one agent's tick writes reads as connected ten seconds later. *)
Example snapshot_keeps_fresh_witness :
  ∃ sd' b, snapshotOnce 4 6000000 fleet_one [(agents_one, true)] (sn_one, db_one) sd' ∧
    GetAgent id1 sd'.2 = Some (Some b) ∧
    StaleConnected b (6000000 + 10 * Second) (45 * Second) = false.
Proof.
  set (sd' := snapshot_task true agents_one ((due 6000000 fleet_one sn_one).1, db_one)).
  assert (snapshotOnce 4 6000000 fleet_one [(agents_one, true)] (sn_one, db_one) sd') as Hsnap.
  { assert (chunk (due 6000000 fleet_one sn_one).2 defaultBatchSize = [agents_one]) as Hchunk
      by (vm_compute; reflexivity).
    unfold snapshotOnce, sd'. cbn [fst snd]. revert Hchunk.
    destruct (due 6000000 fleet_one sn_one) as [s1 l]. cbn [fst snd]. intros ->.
    split; [apply runConcurrent_in_order|reflexivity]. }
  assert (∀ t, t < pg_time t + 1000) as Heps.
  { intros t. simpl. pose proof (Z.mod_pos_bound t 1000). pose proof (Z.div_mod t 1000). lia. }
  pose proof (sn_ok_init (DisconnectThreshold cfg_one) (15 * Second) db_one) as Hsn.
  assert (∃ a, List fleet_one = [a] ∧ InstanceUID a = id1 ∧ LastSeen a = 5000000) as (a & Ha & Hu & Hl).
  { eexists. split; [vm_compute; reflexivity|]. split; reflexivity. }
  destruct (snapshot_keeps_fresh 4 6000000 fleet_one [(agents_one, true)] sn_one db_one sd'
    (45 * Second) (15 * Second) 1000 wf_fleet_one) as (_ & _ & _ & Hf).
  - apply do_writes_ok, empty_DB_ok.
  - exact Hsn.
  - rewrite Ha. intros b Hb. apply list_elem_of_singleton in Hb as ->. rewrite Hu.
    vm_compute. eexists. reflexivity.
  - exact Heps.
  - vm_compute. split; [discriminate|reflexivity].
  - vm_compute. discriminate.
  - vm_compute. discriminate.
  - vm_compute. discriminate.
  - exact Hsnap.
  - constructor; [reflexivity|constructor].
  - destruct (Hf a) as (b & Hg & Hs).
    + rewrite Ha. by left.
    + rewrite Hl. vm_compute. reflexivity.
    + exists sd', b. rewrite Hu in Hg. split; [exact Hsnap|]. split; [exact Hg|].
      apply Hs; vm_compute; discriminate.
Defined.

(** A refused statement rolls the whole batch back, but the statements
    before it reported success: their agents are recorded as written although
    their rows did not change, and are not due again until the keepalive runs
    out.  Here the batch holds an agent with a row and one that has none. *)
Theorem rolled_back_batch_recorded :
  let known := agent_at 9000 true in
  let unsaved := zero_Agent <| InstanceUID := "b" |> <| LastSeen := 9000 |> in
  let '(s, d) := snapshot_task true [known; unsaved] (sn_one, one_agent) in
  d = one_agent ∧
  (sr_updated_at <$> t_session d !! "a") = Some 5000 ∧
  sn_written s !! "a" = Some (mkSessionWrite 9000 0) ∧
  sn_written s !! "b" = None ∧
  is_due 10000 s known = false ∧ is_due 10000 s unsaved = true.
Proof. vm_compute. repeat split; reflexivity. Qed.
