(* ===== verification/YamlDisplay.v ===== *)
(** * Package ui: the effective configuration as it is displayed

    [yamlDisplay] and [gcd] of internal/ui/ui.go: tabs expand to stops every
    two columns, the indentation unit is the greatest common divisor of the
    leading blanks, and a unit that is even and at least four is rescaled to
    two.  Ranging over a string decodes runes, so expanding a line also
    replaces what is not UTF-8 by U+FFFD ([runes]).  The theorems: [gcd] is the
    greatest common divisor with int64's one exception, what the display does
    to each line, and that displaying twice changes nothing. *)

From Stdlib Require Import Ascii ZArith Lia.
From S2P Require Import Prelude GoLang GoParse GoUrl.
Local Open Scope Z_scope.

(** ** Runes of a string *)

(** U+FFFD as [WriteRune] encodes it. *)
Definition RuneError : string :=
  String (ascii_of_N 239) (String (ascii_of_N 191) (String (ascii_of_N 189) "")).

(** The runes [range] yields, each as the bytes [WriteRune] writes for it. *)
Fixpoint runes (s : string) : list string :=
  match s with
  | EmptyString => []
  | String c0 s1 =>
      if is_ascii c0 then String c0 "" :: runes s1 else
      match s1 with
      | EmptyString => RuneError :: runes s1
      | String c1 s2 =>
          if is_rune2 c0 c1 then String c0 (String c1 "") :: runes s2 else
          match s2 with
          | EmptyString => RuneError :: runes s1
          | String c2 s3 =>
              if is_rune3 c0 c1 c2 then String c0 (String c1 (String c2 "")) :: runes s3 else
              match s3 with
              | EmptyString => RuneError :: runes s1
              | String c3 s4 =>
                  if is_rune4 c0 c1 c2 c3
                  then String c0 (String c1 (String c2 (String c3 ""))) :: runes s4
                  else RuneError :: runes s1
              end
          end
      end
  end.

(** ** Blanks *)

Definition tab : ascii := ascii_of_N 9.
Definition nl : ascii := ascii_of_N 10.

(** [strings.TrimLeft(s, " ")] and [strings.Repeat(" ", n)]. *)
Fixpoint TrimLeft (s : string) : string :=
  match s with
  | String c s' => if bool_decide (c = " "%char) then TrimLeft s' else s
  | EmptyString => s
  end.

Fixpoint blanks (n : nat) : string :=
  match n with O => EmptyString | S n => String " " (blanks n) end.

Definition Repeat_blank (n : Z) : string := blanks (Z.to_nat n).

Definition slen (s : string) : Z := Z.of_nat (String.length s).

(** ** gcd *)

Fixpoint gcd_loop (fuel : nat) (a b : Z) : Z :=
  match fuel with
  | O => a
  | S fuel => if b =? 0 then a else gcd_loop fuel b (Z.rem a b)
  end.

(** Two iterations at least halve [b]. *)
Definition gcd (a b : Z) : Z :=
  let a := gcd_loop (Z.to_nat (2 * (Z.log2 (Z.abs b) + 1) + 1)) a b in
  if a <? 0 then int64 (- a) else a.

(** ** yamlDisplay *)

Fixpoint expand_runes (col : Z) (rs : list string) : string :=
  match rs with
  | [] => ""
  | r :: rs =>
      if bool_decide (r = String tab "") then
        let n := 2 - Z.rem col 2 in
        String.app (Repeat_blank n) (expand_runes (col + n) rs)
      else String.app r (expand_runes (col + 1) rs)
  end.

Definition expand_line (line : string) : string :=
  if bool_decide (is_Some (index_byte tab line)) then expand_runes 0 (runes line) else line.

Definition detect_line (unit : Z) (line : string) : Z :=
  let trimmed := TrimLeft line in
  if bool_decide (trimmed = "") || HasPrefix trimmed "#" then unit
  else
    let n := slen line - slen trimmed in
    if n =? 0 then unit
    else if unit =? 0 then n
    else gcd unit n.

Definition rescale_line (scale : Z) (line : string) : string :=
  let trimmed := TrimLeft line in
  if bool_decide (trimmed = "") then line
  else
    let n := slen line - slen trimmed in
    if n =? 0 then line
    else String.app (Repeat_blank (Z.quot n scale)) trimmed.

Definition yamlDisplay (s : string) : string :=
  if bool_decide (s = "") then s
  else
    let lines := expand_line <$> split_byte nl s in
    let unit := foldl detect_line 0 lines in
    let lines := if (4 <=? unit) && (Z.rem unit 2 =? 0)
                 then rescale_line (Z.quot unit 2) <$> lines else lines in
    string_join (String nl "") lines.

(** ** The specification: indentation, and which lines count *)

Definition indent (line : string) : Z := slen line - slen (TrimLeft line).

(** Neither blank nor a comment. *)
Definition structural (line : string) : bool :=
  negb (bool_decide (TrimLeft line = "")) && negb (HasPrefix (TrimLeft line) "#").

(** What a line contributes to the unit: 0 is neutral for the gcd. *)
Definition weight (line : string) : Z := if structural line then indent line else 0.

Definition unit_of (lines : list string) : Z := foldr Z.gcd 0 (weight <$> lines).

Definition oversized (u : Z) : bool := (4 <=? u) && (Z.rem u 2 =? 0).

(** ** Lemmas: gcd *)

Lemma gcd_rem a b : b ≠ 0 → Z.gcd b (Z.rem a b) = Z.gcd a b.
Proof.
  intros Hb. rewrite (Z.rem_eq a b Hb), (Z.gcd_comm a b).
  replace (a - b * (a ÷ b)) with (a + (- (a ÷ b)) * b) by lia.
  by rewrite Z.gcd_add_mult_diag_r.
Qed.

(** Enough fuel: a remainder of a remainder is less than half. *)
Lemma gcd_loop_spec k fuel a b :
  Z.abs b < 2 ^ Z.of_nat k → (2 * k + 1 ≤ fuel)%nat →
  Z.abs (gcd_loop fuel a b) = Z.gcd a b.
Proof.
  revert fuel a b. induction k as [|k IH]; intros fuel a b Hb Hf.
  - destruct fuel as [|fuel]; [lia|]. simpl in Hb. assert (b = 0) as -> by lia.
    simpl. by rewrite Z.gcd_0_r.
  - rewrite Nat2Z.inj_succ, Z.pow_succ_r in Hb by lia.
    do 2 (destruct fuel as [|fuel]; [lia|]). cbn [gcd_loop].
    destruct (Z.eqb_spec b 0) as [->|H0]; [by rewrite Z.gcd_0_r|].
    rewrite <-(gcd_rem a b H0). pose proof (Z.rem_bound_abs a b H0).
    destruct (Z.eqb_spec (Z.rem a b) 0) as [->|H1]; [by rewrite Z.gcd_0_r|].
    rewrite IH; [by apply gcd_rem| |lia].
    pose proof (Z.rem_bound_abs b (Z.rem a b) H1).
    rewrite <-(Z.rem_abs b (Z.rem a b) H1) in *.
    pose proof (Z.quot_rem (Z.abs b) (Z.abs (Z.rem a b)) ltac:(lia)).
    assert (1 ≤ Z.abs b ÷ Z.abs (Z.rem a b)) by (apply Z.quot_le_lower_bound; lia).
    pose proof (Z.rem_nonneg (Z.abs b) (Z.abs (Z.rem a b)) ltac:(lia) ltac:(lia)). nia.
Qed.

Lemma gcd_loop_int64 fuel a b :
  is_int64 a → is_int64 b → is_int64 (gcd_loop fuel a b).
Proof.
  revert a b. induction fuel as [|fuel IH]; intros a b Ha Hb; [done|]. cbn [gcd_loop].
  destruct (Z.eqb_spec b 0) as [|H0]; [done|]. apply IH; [done|].
  pose proof (Z.rem_bound_abs a b H0). unfold is_int64, int64_min, int64_max in *. lia.
Qed.

Lemma gcd_loop_abs a b :
  Z.abs (gcd_loop (Z.to_nat (2 * (Z.log2 (Z.abs b) + 1) + 1)) a b) = Z.gcd a b.
Proof.
  pose proof (Z.log2_nonneg (Z.abs b)).
  apply (gcd_loop_spec (Z.to_nat (Z.log2 (Z.abs b) + 1))); [|lia].
  rewrite Z2Nat.id by lia. destruct (Z.eq_dec b 0) as [->|Hb]; [done|].
  pose proof (Z.log2_spec (Z.abs b) ltac:(lia)). rewrite Z.add_1_r. lia.
Qed.

Lemma gcd_nonneg a b : 0 ≤ a → 0 ≤ b → gcd a b = Z.gcd a b.
Proof.
  intros Ha Hb. unfold gcd.
  assert (∀ fuel a b, 0 ≤ a → 0 ≤ b → 0 ≤ gcd_loop fuel a b) as Hpos.
  { clear. induction fuel as [|fuel IH]; intros a b Ha Hb; [done|]. cbn [gcd_loop].
    destruct (Z.eqb_spec b 0); [done|]. apply IH; [done|]. by apply Z.rem_nonneg. }
  pose proof (gcd_loop_abs a b) as H. pose proof (Hpos (Z.to_nat (2 * (Z.log2 (Z.abs b) + 1) + 1)) a b Ha Hb).
  cbv zeta. destruct (Z.ltb_spec (gcd_loop (Z.to_nat (2 * (Z.log2 (Z.abs b) + 1) + 1)) a b) 0); lia.
Qed.

(** ** Lemmas: blanks and indentation *)

#[local] Arguments String.append !_ _ /.

Lemma slen_app s t : slen (String.app s t) = slen s + slen t.
Proof.
  unfold slen. induction s as [|c s IH]; simpl; [done|].
  rewrite !Nat2Z.inj_succ. lia.
Qed.

Lemma slen_blanks n : slen (blanks n) = Z.of_nat n.
Proof. unfold slen. f_equal. induction n; simpl; congruence. Qed.

Lemma TrimLeft_blanks n t : TrimLeft (String.app (blanks n) t) = TrimLeft t.
Proof. by induction n. Qed.

Lemma TrimLeft_decompose l : ∃ n, l = String.app (blanks n) (TrimLeft l).
Proof.
  induction l as [|c l [n IH]]; simpl; [by exists 0%nat|].
  case_bool_decide as Hc; [|by exists 0%nat].
  exists (S n). simpl. by rewrite <-IH, Hc.
Qed.

Lemma TrimLeft_idemp l : TrimLeft (TrimLeft l) = TrimLeft l.
Proof. induction l as [|c l IH]; simpl; [done|]. case_bool_decide as Hc; [done|]. simpl. by rewrite bool_decide_eq_false_2. Qed.

Lemma indent_blanks n t : indent (String.app (blanks n) (TrimLeft t)) = Z.of_nat n.
Proof. unfold indent. rewrite TrimLeft_blanks, TrimLeft_idemp, slen_app, slen_blanks. lia. Qed.

Lemma indent_nonneg l : 0 ≤ indent l.
Proof. destruct (TrimLeft_decompose l) as [n ->]. rewrite indent_blanks. lia. Qed.

Lemma weight_nonneg l : 0 ≤ weight l.
Proof. unfold weight. destruct (structural l); [apply indent_nonneg|done]. Qed.

(** Two lines with the same text count alike. *)
Lemma structural_text l l' : TrimLeft l' = TrimLeft l → structural l' = structural l.
Proof. intros H. unfold structural. by rewrite H. Qed.

(** ** Lemmas: the unit *)

Lemma detect_line_gcd u l : 0 ≤ u → detect_line u l = Z.gcd u (weight l).
Proof.
  intros Hu. unfold detect_line, weight, structural. fold (indent l).
  pose proof (indent_nonneg l).
  destruct (bool_decide (TrimLeft l = "")); simpl; [by rewrite Z.gcd_0_r_nonneg|].
  destruct (HasPrefix (TrimLeft l) "#"); simpl; [by rewrite Z.gcd_0_r_nonneg|].
  destruct (Z.eqb_spec (indent l) 0) as [->|]; [by rewrite Z.gcd_0_r_nonneg|].
  destruct (Z.eqb_spec u 0) as [->|]; [by rewrite Z.gcd_0_l_nonneg|].
  by apply gcd_nonneg.
Qed.

Lemma unit_of_nonneg lines : 0 ≤ unit_of lines.
Proof. destruct lines; [done|]. apply Z.gcd_nonneg. Qed.

Lemma foldl_detect u lines :
  0 ≤ u → foldl detect_line u lines = Z.gcd u (unit_of lines).
Proof.
  revert u. induction lines as [|l lines IH]; intros u Hu.
  - simpl. symmetry. by apply Z.gcd_0_r_nonneg.
  - cbn [foldl]. rewrite detect_line_gcd, IH by (done || apply Z.gcd_nonneg).
    symmetry. apply Z.gcd_assoc.
Qed.

Lemma unit_of_divides lines l : l ∈ lines → (unit_of lines | weight l).
Proof.
  induction lines as [|l0 lines IH]; intros Hl; [by apply not_elem_of_nil in Hl|].
  apply elem_of_cons in Hl as [->|Hl].
  - apply Z.gcd_divide_l.
  - etransitivity; [apply Z.gcd_divide_r|by apply IH].
Qed.

(** Scaling every weight scales the unit. *)
Lemma unit_of_scale u k lines lines' :
  0 ≤ u → 0 ≤ k → Forall2 (λ l l', weight l' * u = k * weight l) lines lines' →
  unit_of lines' * u = k * unit_of lines.
Proof.
  intros Hu Hk H. induction H as [|l l' lines lines' Hl _ IH]; [unfold unit_of; simpl; lia|].
  unfold unit_of in *. rewrite !fmap_cons. cbn [foldr].
  rewrite <-Z.gcd_mul_mono_r_nonneg, IH, Hl by done. by apply Z.gcd_mul_mono_l_nonneg.
Qed.

(** ** Lemmas: one line rescaled *)

Lemma rescale_text scale l : TrimLeft (rescale_line scale l) = TrimLeft l.
Proof.
  unfold rescale_line. case_bool_decide; [done|]. destruct (_ =? 0); [done|].
  unfold Repeat_blank. by rewrite TrimLeft_blanks, TrimLeft_idemp.
Qed.

Lemma rescale_indent scale l :
  0 < scale → TrimLeft l ≠ "" → indent (rescale_line scale l) = indent l ÷ scale.
Proof.
  intros Hs Hl. unfold rescale_line. rewrite bool_decide_eq_false_2 by done.
  fold (indent l). pose proof (indent_nonneg l).
  destruct (Z.eqb_spec (indent l) 0) as [->|]; [by rewrite Z.quot_0_l by lia|].
  unfold Repeat_blank. rewrite indent_blanks, Z2Nat.id; [done|]. by apply Z.quot_pos.
Qed.

Lemma structural_nonblank l : structural l = true → TrimLeft l ≠ "".
Proof.
  unfold structural. intros [H _]%andb_true_iff. apply negb_true_iff in H.
  by apply bool_decide_eq_false in H.
Qed.

Lemma oversized_half u : oversized u = true → u = 2 * (u ÷ 2) ∧ 2 ≤ u ÷ 2.
Proof.
  unfold oversized. intros [H1%Z.leb_le H2%Z.eqb_eq]%andb_true_iff.
  pose proof (Z.quot_rem u 2 ltac:(lia)). lia.
Qed.

(** A structural line of unit [u] is rescaled exactly. *)
Lemma rescale_exact u l :
  oversized u = true → (u | indent l) → structural l = true →
  indent (rescale_line (u ÷ 2) l) * u = 2 * indent l.
Proof.
  intros Ho [k Hk] Hl. destruct (oversized_half u Ho) as [Hu H2].
  rewrite rescale_indent, Hk by (lia || by apply structural_nonblank).
  replace (k * u) with (2 * k * (u ÷ 2)) at 1 by (remember (u ÷ 2) as h; subst u; ring). rewrite Z.quot_mul by lia. lia.
Qed.

Lemma rescale_weight u l :
  oversized u = true → (u | weight l) → weight (rescale_line (u ÷ 2) l) * u = 2 * weight l.
Proof.
  intros Ho. unfold weight. rewrite (structural_text l _ (rescale_text _ l)).
  destruct (structural l) eqn:Hl; [|lia]. intros Hd. by apply rescale_exact.
Qed.

(** ** Lemmas: runes, tabs and newlines *)

Lemma byte_in_not_ascii c d lo hi :
  is_ascii c = true → (128 ≤ lo)%N → byte_in lo hi d = true → c ≠ d.
Proof.
  unfold is_ascii, byte_in. intros Hc%N.ltb_lt Hlo [Hd%N.leb_le _]%andb_true_iff ->. lia.
Qed.

Lemma no_byte_single c d : c ≠ d → no_byte c (String d "").
Proof. intros ?. by apply no_byte_cons. Qed.

Lemma no_byte_RuneError c : is_ascii c = true → no_byte c RuneError.
Proof.
  intros Hc. unfold RuneError.
  do 3 (apply no_byte_cons; split; [intros ->; discriminate Hc|]). done.
Qed.

(** Splits the boolean tests of a decoding step into byte ranges. *)
Ltac split_ranges :=
  repeat match goal with
  | H : _ && _ = true |- _ => apply andb_true_iff in H as [? ?]
  | H : _ || _ = true |- _ => apply orb_true_iff in H as [?|?]
  end.

(** No byte of a multi-byte rune is ASCII. *)
Ltac rune_no_byte :=
  repeat (apply no_byte_cons; split; [eapply byte_in_not_ascii; [done| |eassumption]; lia|]);
  done.

(** An ASCII byte is a rune of its own, of the text, and in no other rune. *)
Lemma runes_byte c s :
  is_ascii c = true →
  Forall (λ r, no_byte c r ∨ (r = String c "" ∧ ¬ no_byte c s)) (runes s).
Proof.
  intros Hc.
  assert (∀ t d rs, Forall (λ r, no_byte c r ∨ (r = String c "" ∧ ¬ no_byte c t)) rs →
    Forall (λ r, no_byte c r ∨ (r = String c "" ∧ ¬ no_byte c (String d t))) rs) as Hw.
  { intros t d rs H. eapply Forall_impl; [exact H|]. intros r [?|[-> Hn]]; [by left|].
    right. split; [done|]. by intros [_ ?]%no_byte_cons. }
  remember (String.length s) as n eqn:Hn. revert s Hn.
  induction (lt_wf n) as [n _ IH]. intros s ->.
  destruct s as [|c0 s1]; [constructor|]. cbn [runes].
  assert (Forall (λ r, no_byte c r ∨ (r = String c "" ∧ ¬ no_byte c (String c0 s1)))
    (RuneError :: runes s1)) as Herr.
  { constructor; [left; by apply no_byte_RuneError|]. apply Hw.
    eapply IH; [|reflexivity]. simpl. lia. }
  destruct (is_ascii c0) eqn:H0.
  { constructor.
    - destruct (decide (c = c0)) as [->|Hne]; [right|left; by apply no_byte_single].
      split; [done|]. by intros [? _]%no_byte_cons.
    - apply Hw. eapply IH; [|reflexivity]. simpl. lia. }
  destruct s1 as [|c1 s2]; [done|]. destruct (is_rune2 c0 c1) eqn:H2.
  { unfold is_rune2 in H2. split_ranges. constructor; [left; rune_no_byte|].
    do 2 apply Hw. eapply IH; [|reflexivity]. simpl. lia. }
  destruct s2 as [|c2 s3]; [done|]. destruct (is_rune3 c0 c1 c2) eqn:H3.
  { unfold is_rune3 in H3. constructor; [left; split_ranges; rune_no_byte|].
    do 3 apply Hw. eapply IH; [|reflexivity]. simpl. lia. }
  destruct s3 as [|c3 s4]; [done|]. destruct (is_rune4 c0 c1 c2 c3) eqn:H4; [|done].
  unfold is_rune4 in H4. constructor; [left; split_ranges; rune_no_byte|].
  do 4 apply Hw. eapply IH; [|reflexivity]. simpl. lia.
Qed.

Lemma no_byte_blanks c n : c ≠ " "%char → no_byte c (blanks n).
Proof. intros Hc. induction n as [|n IH]; [done|]. simpl. by apply no_byte_cons. Qed.

Lemma no_byte_expand_runes c col rs :
  c ≠ " "%char → Forall (λ r, r = String tab "" ∨ no_byte c r) rs →
  no_byte c (expand_runes col rs).
Proof.
  intros Hc Hrs. revert col. induction Hrs as [|r rs Hr _ IH]; intros col; [done|].
  cbn [expand_runes]. case_bool_decide; apply no_byte_app; (split; [|done]).
  - by apply no_byte_blanks.
  - by destruct Hr.
Qed.

Lemma no_byte_expand_line c l :
  c = tab ∨ (is_ascii c = true ∧ c ≠ " "%char ∧ no_byte c l) → no_byte c (expand_line l).
Proof.
  intros Hc. unfold expand_line. case_bool_decide as Ht.
  - apply no_byte_expand_runes; [destruct Hc as [->|(_ & ? & _)]; done|].
    destruct Hc as [->|(Ha & _ & Hl)].
    + eapply Forall_impl; [by apply (runes_byte tab l)|]. intros r [?|[-> _]]; auto.
    + eapply Forall_impl; [by apply (runes_byte c l)|]. intros r [?|[_ ?]]; auto. done.
  - destruct Hc as [->|(_ & _ & Hl)]; [|done]. unfold no_byte.
    destruct (index_byte tab l); [destruct Ht; eauto|done].
Qed.

Lemma no_byte_rescale c scale l : c ≠ " "%char → no_byte c l → no_byte c (rescale_line scale l).
Proof.
  intros Hc Hl. unfold rescale_line. case_bool_decide; [done|]. destruct (_ =? 0); [done|].
  apply no_byte_app. split; [by apply no_byte_blanks|].
  destruct (TrimLeft_decompose l) as [n Hn]. rewrite Hn in Hl. by apply no_byte_app in Hl as [_ ?].
Qed.

Lemma expand_line_id l : no_byte tab l → expand_line l = l.
Proof.
  unfold expand_line, no_byte. intros ->. by rewrite bool_decide_eq_false_2 by (by intros []).
Qed.

Lemma split_byte_pieces c s : split_byte c s ≠ [] ∧ Forall (no_byte c) (split_byte c s).
Proof.
  induction s as [|d s [Hne IH]]; [by split; [|repeat constructor]|]. simpl.
  case_bool_decide as Hd; [split; [done|by constructor]|].
  destruct (split_byte c s) as [|p ps]; [done|]. apply Forall_cons in IH as [Hp Hps].
  split; [done|]. constructor; [|done]. apply no_byte_cons. by split; [congruence|].
Qed.

(** ** Lemmas: the displayed lines *)

Definition display_lines (lines : list string) : list string :=
  let u := unit_of lines in
  if oversized u then rescale_line (u ÷ 2) <$> lines else lines.

Lemma yamlDisplay_lines s :
  yamlDisplay s = string_join (String nl "") (display_lines (expand_line <$> split_byte nl s)).
Proof.
  unfold yamlDisplay. case_bool_decide as Hs; [by rewrite Hs|].
  rewrite foldl_detect, Z.gcd_0_l_nonneg by (done || apply unit_of_nonneg). done.
Qed.

(** Displayed lines have neither newline nor tab. *)
Lemma display_lines_clean s :
  Forall (λ l, no_byte nl l ∧ no_byte tab l) (display_lines (expand_line <$> split_byte nl s)).
Proof.
  assert (Forall (λ l, no_byte nl l ∧ no_byte tab l) (expand_line <$> split_byte nl s)) as H.
  { apply Forall_fmap. eapply Forall_impl; [apply (split_byte_pieces nl s)|].
    intros l Hl. split; apply no_byte_expand_line; [right|left]; done. }
  unfold display_lines. destruct (oversized _); [|done].
  apply Forall_fmap. eapply Forall_impl; [exact H|]. intros l [? ?].
  by split; apply no_byte_rescale.
Qed.

Lemma split_display s :
  split_byte nl (yamlDisplay s) = display_lines (expand_line <$> split_byte nl s).
Proof.
  rewrite yamlDisplay_lines. apply split_byte_join.
  - pose proof (proj1 (split_byte_pieces nl s)) as H. unfold display_lines.
    destruct (oversized _); by destruct (split_byte nl s).
  - eapply Forall_impl; [apply display_lines_clean|]. by intros l [? _].
Qed.

Lemma display_lines_idemp lines : display_lines (display_lines lines) = display_lines lines.
Proof.
  unfold display_lines at 2 3. destruct (oversized (unit_of lines)) eqn:Ho.
  - assert (unit_of (rescale_line (unit_of lines ÷ 2) <$> lines) * unit_of lines =
      2 * unit_of lines) as Hu.
    { apply unit_of_scale; [apply unit_of_nonneg|lia|]. apply Forall2_fmap_r, Forall_Forall2_diag.
      apply Forall_forall. intros l Hl. by apply rescale_weight, unit_of_divides. }
    assert (4 ≤ unit_of lines) by (apply andb_true_iff in Ho as [Ho _]; by apply Z.leb_le).
    assert (unit_of (rescale_line (unit_of lines ÷ 2) <$> lines) = 2) as H2 by nia.
    unfold display_lines. by rewrite H2.
  - unfold display_lines. by rewrite Ho.
Qed.

(** ** The claims *)

(** [gcd] is the greatest common divisor of two machine integers; only
    [gcd(math.MinInt64, 0)] and its like, whose divisor 2^63 has no positive
    int64, wrap. *)
Theorem gcd_correct a b : is_int64 a → is_int64 b → gcd a b = int64 (Z.gcd a b).
Proof.
  intros Ha Hb. rewrite <-(gcd_loop_abs a b). unfold gcd. cbv zeta.
  pose proof (gcd_loop_int64 (Z.to_nat (2 * (Z.log2 (Z.abs b) + 1) + 1)) a b Ha Hb) as Hr.
  revert Hr. generalize (gcd_loop (Z.to_nat (2 * (Z.log2 (Z.abs b) + 1) + 1)) a b) as g.
  intros g Hr. destruct (Z.ltb_spec g 0).
  - by rewrite Z.abs_neq by lia.
  - rewrite Z.abs_eq by lia. by rewrite int64_id.
Qed.

(** How the effective configuration is displayed.  Line by line, the displayed
    text has no tab and the same content as the line with its tabs expanded;
    blank lines are untouched; the indentation of every other line that is not
    a comment is kept when the unit of the text (the greatest common divisor
    of these indentations) is odd or below four, and otherwise scaled exactly
    so that one unit becomes two columns.  Displaying the result again changes
    nothing. *)
Theorem yamlDisplay_correct s :
  let lines := expand_line <$> split_byte nl s in
  let u := unit_of lines in
  Forall2 (λ l l',
    no_byte tab l' ∧ TrimLeft l' = TrimLeft l ∧
    (TrimLeft l = "" → l' = l) ∧
    (structural l = true →
      (u | indent l) ∧
      if oversized u then indent l' * u = 2 * indent l else l' = l))
    lines (split_byte nl (yamlDisplay s)) ∧
  yamlDisplay (yamlDisplay s) = yamlDisplay s.
Proof.
  intros lines u. rewrite split_display. fold lines. split.
  - assert (∀ l, l ∈ lines → structural l = true → (u | indent l)) as Hd.
    { intros l Hl Hst. pose proof (unit_of_divides lines l Hl) as Hd.
      unfold weight in Hd. by rewrite Hst in Hd. }
    pose proof (display_lines_clean s) as Hc. fold lines in Hc.
    unfold display_lines in *. fold u in Hc |- *. destruct (oversized u) eqn:Ho.
    + apply Forall2_fmap_r, Forall_Forall2_diag, Forall_forall. intros l Hl.
      rewrite Forall_fmap, Forall_forall in Hc. specialize (Hc l Hl) as [_ Ht].
      split_and!; [exact Ht|apply rescale_text| |].
      * intros Hb. unfold rescale_line. by rewrite bool_decide_eq_true_2.
      * intros Hst. split; [auto|]. apply rescale_exact; auto.
    + apply Forall_Forall2_diag, Forall_forall. intros l Hl.
      rewrite Forall_forall in Hc. specialize (Hc l Hl) as [_ Ht]. split_and!; auto.
  - rewrite yamlDisplay_lines, split_display. fold lines.
    rewrite (proj1 (Forall_fmap_ext expand_line id (display_lines lines))).
    + rewrite list_fmap_id, display_lines_idemp, yamlDisplay_lines. done.
    + eapply Forall_impl; [apply display_lines_clean|]. intros l [_ ?]. by apply expand_line_id.
Qed.

(** ** Evaluation *)

Definition lines_text (l : list string) : string := string_join (String nl "") l.

Example yamlDisplay_ok :
  yamlDisplay (lines_text ["receivers:"; "    otlp:"; "        protocols:"; "   # note"; ""]) =
  lines_text ["receivers:"; "  otlp:"; "    protocols:"; " # note"; ""].
Proof. vm_compute. reflexivity. Qed.

Example yamlDisplay_tabs :
  yamlDisplay (lines_text [String "a" (String tab "b"); String tab "c"]) =
  lines_text ["a b"; "  c"].
Proof. vm_compute. reflexivity. Qed.

Lemma gcd_correct_witness : gcd (-6) 9 = 3 ∧ gcd int64_min 0 = int64_min.
Proof.
  split; rewrite gcd_correct by (unfold is_int64, int64_min, int64_max; lia);
    vm_compute; reflexivity.
Defined.
