(* ===== verification/UiLinks.v ===== *)
(** * Package ui: sorting, page numbers and links (internal/ui/ui.go)

    The fleet table's column and order ([parseSort]), the comparison
    [sortAgents] sorts by, the page arithmetic and the links the templates
    build from the current query ([sortHref], [queryWith], [pollQuery]).
    [link_query] is the query a followed link arrives with.  The lemmas: the
    comparison is an order that tells agents apart by uid, the pages of a list
    partition it, and a link carries exactly the query it was built from. *)

From Stdlib Require Import Ascii ZArith Lia.
From S2P Require Import Prelude GoLang GoParse GoUrl Fleet Filter.
Local Open Scope Z_scope.

(** ** Columns *)

Definition sortColumns : list string :=
  ["status"; "name"; "role"; "version"; "via"; "transport"; "last_seen"; "instance"].

Definition parseSort `{Unicode} (q : url_Values) : string * string :=
  let sortKey := TrimSpace (query_Get q "sort") in
  let sortKey := if bool_decide (sortKey ∉ sortColumns) then "instance" else sortKey in
  let order := ToLower (TrimSpace (query_Get q "order")) in
  let order :=
    if bool_decide (order ≠ "asc") && bool_decide (order ≠ "desc") then
      if bool_decide (sortKey = "last_seen") && bool_decide (query_Get q "order" = "") &&
         bool_decide (query_Get q "sort" ≠ "")
      then "desc" else "asc"
    else order in
  if bool_decide (query_Get q "sort" = "") then ("instance", "asc") else (sortKey, order).

(** [statusRank]: connected healthy first, then unhealthy, unknown, and
    disconnected last. *)
Definition statusRank (a : Agent) : string :=
  if negb (Connected a) then "3-disconnected"
  else if negb (HealthReported a) then "2-unknown"
  else if Healthy a then "0-healthy"
  else "1-unhealthy".

(** [Time.Before] and [Time.After]. *)
Definition time_compare (t u : Time) : Z := if t <? u then -1 else if u <? t then 1 else 0.

(** The switch over the column. *)
Definition column_cmp `{Unicode} (sortKey : string) (a b : Agent) : Z :=
  if bool_decide (sortKey = "status") then string_Compare (statusRank a) (statusRank b)
  else if bool_decide (sortKey = "name") then
    string_Compare (ToLower (DisplayNameOf a)) (ToLower (DisplayNameOf b))
  else if bool_decide (sortKey = "role") then
    string_Compare (ToLower (RoleOf a)) (ToLower (RoleOf b))
  else if bool_decide (sortKey = "version") then
    string_Compare (Attr a "service.version") (Attr b "service.version")
  else if bool_decide (sortKey = "via") then
    let ai := if ViaGateway (Conn a) then 1 else 0 in
    let bi := if ViaGateway (Conn b) then 1 else 0 in
    ai - bi
  else if bool_decide (sortKey = "transport") then
    string_Compare (Transport (Conn a)) (Transport (Conn b))
  else if bool_decide (sortKey = "last_seen") then time_compare (LastSeen a) (LastSeen b)
  else string_Compare (InstanceUID a) (InstanceUID b).

(** The closure [sortAgents] passes to [slices.SortFunc]. *)
Definition agent_cmp `{Unicode} (sortKey order : string) (a b : Agent) : Z :=
  let c := column_cmp sortKey a b in
  let c := if bool_decide (c = 0) && bool_decide (sortKey ≠ "instance")
           then string_Compare (InstanceUID a) (InstanceUID b) else c in
  if bool_decide (order = "desc") then - c else c.

Definition sortAgents `{Unicode, GoSort} (agents : list Agent) (sortKey order : string) :
    list Agent := SortFunc (agent_cmp sortKey order) agents.

(** ** Links *)

Section links.
Context `{MR : MapRange, GS : GoSort}.

Definition cloneQuery (q : url_Values) : url_Values :=
  foldl (λ cp kv, <[kv.1 := kv.2]> cp) ∅ (range q).

Definition sortHref (q : url_Values) (col curSort curOrder : string) : string :=
  let cp := query_Del (cloneQuery q) "offset" in
  let nextOrder := if bool_decide (col = "last_seen") then "desc" else "asc" in
  let nextOrder :=
    if bool_decide (curSort = col)
    then if bool_decide (curOrder = "asc") then "desc" else "asc"
    else nextOrder in
  let cp := query_Set cp "sort" col in
  let cp := query_Set cp "order" nextOrder in
  let enc := Encode cp in
  if bool_decide (enc = "") then "/" else String.app "/?" enc.

Definition queryWith (q : url_Values) (key val : string) : string :=
  let cp := cloneQuery q in
  let cp := if bool_decide (val = "") then query_Del cp key else query_Set cp key val in
  let enc := Encode cp in
  if bool_decide (enc = "") then "" else String.app "?" enc.

(** A nil query is an empty one. *)
Definition pollQuery (q : url_Values) : string :=
  let enc := Encode q in
  if bool_decide (enc = "") then "" else String.app "?" enc.

End links.

Definition sortClass (col curSort curOrder : string) : string :=
  if bool_decide (col ≠ curSort) then "th-sort"
  else String.app "th-sort is-active order-" curOrder.

Definition sortAria (col curSort curOrder : string) : string :=
  if bool_decide (col ≠ curSort) then "none"
  else if bool_decide (curOrder = "desc") then "descending" else "ascending".

(** ** Page numbers: [int] arithmetic *)

Definition pageCount (total limit : Z) : Z :=
  if (total <=? 0) || (limit <=? 0) then 0
  else Z.quot (int64 (int64 (total + limit) - 1)) limit.

Definition pageNum (offset limit : Z) : Z :=
  if limit <=? 0 then 1 else int64 (Z.quot offset limit + 1).

Definition pageOffset (page limit : Z) : Z :=
  let page := if page <? 1 then 1 else page in
  if limit <=? 0 then 0 else int64 (int64 (page - 1) * limit).

Definition pageList (total limit : Z) : list Z :=
  let n := pageCount total limit in
  if n =? 0 then [] else (λ i : nat, Z.of_nat i + 1) <$> seq 0 (Z.to_nat n).

(** ** The query a followed link arrives with *)

Definition link_query (link : string) : url_Values :=
  match string_Cut "?" link with Some (_, query) => ParseQuery query | None => ∅ end.

(** ** Lemmas: comparisons *)

(** A comparison that is antisymmetric in sign, and transitive. *)
Definition cmp_good {A} (cmp : A → A → Z) : Prop :=
  (∀ a b, cmp b a = - cmp a b) ∧
  (∀ a b c, cmp a b ≤ 0 → cmp b c ≤ 0 → cmp a c ≤ 0).

Lemma cmp_good_order {A} (cmp : A → A → Z) : cmp_good cmp → cmp_order cmp.
Proof.
  intros [Hs Ht]. split; [|exact Ht]. intros a b. unfold cmp_le.
  rewrite (Hs a b). lia.
Qed.

Lemma cmp_good_string {A} (f : A → string) : cmp_good (λ a b, string_Compare (f a) (f b)).
Proof.
  split.
  - intros a b. apply string_Compare_antisym.
  - intros a b c. destruct string_Compare_order as [_ Ht]. apply Ht.
Qed.

Lemma cmp_good_opp {A} (cmp : A → A → Z) : cmp_good cmp → cmp_good (λ a b, - cmp a b).
Proof.
  intros [Hs Ht]. split; intros a b; [by rewrite Hs|]. intros c Hab Hbc.
  rewrite <-Hs in *. by apply (Ht c b a).
Qed.

(** Ties of one comparison broken by another. *)
Lemma cmp_good_lex {A} (cmp cmp' : A → A → Z) :
  cmp_good cmp → cmp_good cmp' →
  cmp_good (λ a b, if bool_decide (cmp a b = 0) then cmp' a b else cmp a b).
Proof.
  intros [Hs Ht] [Hs' Ht']. split.
  - intros a b. rewrite (Hs a b), (Hs' a b). by repeat case_bool_decide; lia.
  - intros a b c. pose proof (Ht a b c). pose proof (Ht' a b c).
    pose proof (Ht b c a). pose proof (Ht c a b).
    pose proof (Hs a c). pose proof (Hs a b). pose proof (Hs b c).
    repeat case_bool_decide; lia.
Qed.

Section sorting.
Context `{UN : Unicode}.

Lemma column_cmp_good key : cmp_good (column_cmp key).
Proof.
  unfold column_cmp. repeat case_bool_decide; try apply cmp_good_string.
  - split; intros a b; [|intros c]; destruct (ViaGateway (Conn a)), (ViaGateway (Conn b));
      try destruct (ViaGateway (Conn c)); lia.
  - unfold time_compare. split; intros a b; [|intros c];
      repeat match goal with |- context [?x <? ?y] => destruct (Z.ltb_spec x y) end; lia.
Qed.

Lemma agent_cmp_good key order : cmp_good (agent_cmp key order).
Proof.
  assert (cmp_good (λ a b,
    if bool_decide (column_cmp key a b = 0) && bool_decide (key ≠ "instance")
    then string_Compare (InstanceUID a) (InstanceUID b) else column_cmp key a b)) as H.
  { destruct (bool_decide_reflect (key ≠ "instance")).
    - pose proof (cmp_good_lex _ _ (column_cmp_good key) (cmp_good_string InstanceUID)) as H.
      destruct H as [Hs Ht]. split; intros a b.
      + rewrite !andb_true_r. apply Hs.
      + intros c. rewrite !andb_true_r. apply Ht.
    - destruct (column_cmp_good key) as [Hs Ht]. split; intros a b.
      + rewrite !andb_false_r. apply Hs.
      + intros c. rewrite !andb_false_r. apply Ht. }
  destruct (decide (order = "desc")) as [->|Hne]; [exact (cmp_good_opp _ H)|].
  destruct H as [Hs Ht]. unfold agent_cmp. split; intros a b; [|intros c];
    rewrite !(bool_decide_eq_false_2 (order = "desc")) by done; [apply Hs|apply Ht].
Qed.

(** Only agents of one uid compare equal. *)
Lemma agent_cmp_eq key order a b : agent_cmp key order a b = 0 → InstanceUID a = InstanceUID b.
Proof.
  intros H. apply string_Compare_0.
  assert ((if bool_decide (column_cmp key a b = 0) && bool_decide (key ≠ "instance")
    then string_Compare (InstanceUID a) (InstanceUID b) else column_cmp key a b) = 0) as Hc.
  { unfold agent_cmp in H. case_bool_decide; [lia|exact H]. }
  case_bool_decide as H0; [|done].
  destruct (bool_decide_reflect (key ≠ "instance")) as [|Hk]; [exact Hc|].
  simpl in Hc. assert (key = "instance") as -> by (destruct (decide (key = "instance")); tauto).
  exact Hc.
Qed.

Lemma agent_cmp_desc key a b : agent_cmp key "desc" a b = - agent_cmp key "asc" a b.
Proof. reflexivity. Qed.

End sorting.

(** ** Lemmas: sorting *)

Lemma StronglySorted_reverse {A} (R : A → A → Prop) l :
  StronglySorted R l → StronglySorted (λ a b, R b a) (reverse l).
Proof.
  induction 1 as [|a l _ IH Ha]; [constructor|]. rewrite reverse_cons.
  apply StronglySorted_app_2; [|done|repeat constructor].
  intros x y Hx ->%list_elem_of_singleton. rewrite elem_of_reverse in Hx.
  rewrite Forall_forall in Ha. by apply Ha.
Qed.

Section sort_agents.
Context `{UN : Unicode, GS : GoSort}.

Lemma sortAgents_perm l key order : sortAgents l key order ≡ₚ l.
Proof. apply SortFunc_perm. Qed.

Lemma sortAgents_unique l l' key order :
  NoDup (InstanceUID <$> l) → l' ≡ₚ l → StronglySorted (cmp_le (agent_cmp key order)) l' →
  sortAgents l key order = l'.
Proof.
  intros Hnd Hl Hs. destruct (agent_cmp_good key order) as [Hanti _].
  apply SortFunc_unique; [by apply cmp_good_order, agent_cmp_good| |done|done].
  intros a b Ha Hb Hab Hba. apply (NoDup_fmap_inj InstanceUID l); [done..|].
  apply (agent_cmp_eq key order). unfold cmp_le in *. rewrite Hanti in Hba. lia.
Qed.

Lemma sortAgents_sorted l key order :
  StronglySorted (cmp_le (agent_cmp key order)) (sortAgents l key order).
Proof. by apply SortFunc_sorted, cmp_good_order, agent_cmp_good. Qed.

(** Neither the order of the agents nor the sort's treatment of ties shows. *)
Lemma sortAgents_perm_eq l l' key order :
  NoDup (InstanceUID <$> l) → l' ≡ₚ l → sortAgents l' key order = sortAgents l key order.
Proof.
  intros Hnd Hl. symmetry. apply sortAgents_unique; [done| |apply sortAgents_sorted].
  by rewrite sortAgents_perm.
Qed.

Lemma sortAgents_desc l key :
  NoDup (InstanceUID <$> l) → sortAgents l key "desc" = reverse (sortAgents l key "asc").
Proof.
  intros Hnd. apply sortAgents_unique; [done|by rewrite reverse_Permutation, sortAgents_perm|].
  eapply StronglySorted_weaken; [|apply StronglySorted_reverse, sortAgents_sorted].
  intros a b H. unfold cmp_le in *. rewrite agent_cmp_desc.
  destruct (agent_cmp_good key "asc") as [Hs _]. rewrite Hs in H. lia.
Qed.

End sort_agents.

(** ** Lemmas: pages *)

Lemma concat_pages {A} (L n : nat) (l : list A) :
  (length l ≤ n * L)%nat →
  seq 0 n ≫= (λ i, take L (drop (i * L) l)) = l.
Proof.
  revert l. induction n as [|n IH]; intros l Hl; [by destruct l; [|simpl in Hl; lia]|].
  cbn [seq]. csimpl. rewrite ?drop_0, <-fmap_S_seq, list_fmap_bind.
  transitivity (take L l ++ drop L l); [f_equal|apply take_drop].
  transitivity (seq 0 n ≫= (λ i, take L (drop (i * L) (drop L l)))).
  - apply bind_ext. intros i _. unfold compose. by rewrite drop_drop.
  - apply IH. rewrite length_drop. lia.
Qed.

Lemma pageCount_spec total limit :
  0 < total → 0 < limit → total + limit ≤ int64_max →
  0 < pageCount total limit ∧
  (pageCount total limit - 1) * limit < total ≤ pageCount total limit * limit.
Proof.
  intros Ht Hl Hm. unfold pageCount.
  destruct (Z.leb_spec total 0), (Z.leb_spec limit 0); [lia..|]. simpl.
  rewrite (int64_id (total + limit)), int64_id by (unfold is_int64, int64_min, int64_max in *; lia).
  rewrite Z.quot_div_nonneg by lia.
  pose proof (Z.div_mod (total + limit - 1) limit ltac:(lia)).
  pose proof (Z.mod_pos_bound (total + limit - 1) limit Hl). nia.
Qed.

Lemma pageOffset_exact p total limit :
  1 ≤ p ≤ pageCount total limit → 0 < total → 0 < limit → total + limit ≤ int64_max →
  pageOffset p limit = (p - 1) * limit ∧ 0 ≤ (p - 1) * limit < total.
Proof.
  intros Hp Ht Hl Hm. destruct (pageCount_spec total limit Ht Hl Hm) as (_ & H & _).
  assert (0 ≤ (p - 1) * limit < total) as Hb by nia. split; [|done].
  unfold pageOffset. destruct (Z.ltb_spec p 1); [lia|].
  destruct (Z.leb_spec limit 0); [lia|].
  assert (p - 1 ≤ (p - 1) * limit) by nia.
  by rewrite (int64_id (p - 1)), int64_id by (unfold is_int64, int64_min, int64_max in *; lia).
Qed.

Lemma elem_of_pageList p total limit :
  p ∈ pageList total limit → 1 ≤ p ≤ pageCount total limit.
Proof.
  unfold pageList. destruct (Z.eqb_spec (pageCount total limit) 0); [by intros ?%not_elem_of_nil|].
  intros (i & -> & Hi%elem_of_seq)%list_elem_of_fmap. lia.
Qed.

(** Every page shows its own number, and the pages partition the list. *)
Lemma pageNum_Offset p total limit :
  p ∈ pageList total limit → 0 < total → 0 < limit → total + limit ≤ int64_max →
  pageNum (pageOffset p limit) limit = p.
Proof.
  intros Hp%elem_of_pageList Ht Hl Hm.
  destruct (pageOffset_exact p total limit Hp Ht Hl Hm) as [-> Hb]. unfold pageNum.
  destruct (Z.leb_spec limit 0); [lia|]. rewrite Z.quot_mul by lia.
  replace (p - 1 + 1) with p by lia. apply int64_id.
  unfold is_int64, int64_min, int64_max in *. nia.
Qed.

Lemma pages_partition {A} (l : list A) limit :
  0 < limit → zlen l + limit ≤ int64_max →
  pageList (zlen l) limit ≫=
    (λ p, take (Z.to_nat limit) (drop (Z.to_nat (pageOffset p limit)) l)) = l.
Proof.
  intros Hl Hm. destruct l as [|a l]; [by destruct limit|].
  set (l' := a :: l) in *. assert (0 < zlen l') as Ht by (simpl; lia).
  destruct (pageCount_spec (zlen l') limit Ht Hl Hm) as (Hn & _ & Hc).
  rewrite (bind_ext _ (λ p, take (Z.to_nat limit) (drop (Z.to_nat ((p - 1) * limit)) l'))).
  - unfold pageList. destruct (Z.eqb_spec (pageCount (zlen l') limit) 0); [lia|].
    rewrite list_fmap_bind.
    rewrite <-(concat_pages (Z.to_nat limit) (Z.to_nat (pageCount (zlen l') limit)) l') at 2 by lia.
    apply bind_ext. intros i _. unfold compose. do 2 f_equal. lia.
  - intros p Hp%elem_of_pageList. by destruct (pageOffset_exact p (zlen l') limit) as [-> _].
Qed.

(** ** Lemmas: links *)

#[local] Arguments String.append !_ _ /.

Lemma foldl_insert_union {A} (l : list (string * A)) (m : gmap string A) :
  NoDup l.*1 → foldl (λ cp kv, <[kv.1 := kv.2]> cp) m l = list_to_map l ∪ m.
Proof.
  revert m. induction l as [|[k v] l IH]; intros m Hnd; simpl; [by rewrite map_empty_union|].
  rewrite fmap_cons in Hnd. apply NoDup_cons in Hnd as [Hk Hnd].
  rewrite IH by done. rewrite <-insert_union_l, insert_union_r; [done|].
  by apply not_elem_of_list_to_map_1.
Qed.

Section link_lemmas.
Context `{MR : MapRange, GS : GoSort}.

Lemma cloneQuery_id q : cloneQuery q = q.
Proof.
  unfold cloneQuery. pose proof (range_perm q) as Hp.
  assert (NoDup (range q).*1) as Hnd by (rewrite Hp; apply NoDup_fst_map_to_list).
  rewrite foldl_insert_union, map_union_empty by done.
  by rewrite (list_to_map_proper _ _ Hnd Hp), list_to_map_to_list.
Qed.

(** A query that a link can carry. *)
Definition carried (q : url_Values) : Prop :=
  query_ok q ∧ zlen (query_pairs q) ≤ defaultMaxParams.

Lemma link_query_encode (pre : string) q :
  carried q → no_byte "?" pre →
  link_query (String.app pre (String "?" (Encode q))) = q.
Proof.
  intros [Hq Hn] Hp. unfold link_query. rewrite string_Cut_app by done.
  by apply ParseQuery_Encode.
Qed.

Lemma carried_nil q : carried q → Encode q = "" → q = ∅.
Proof. intros [Hq Hn] He. rewrite <-(ParseQuery_Encode q), He by done. reflexivity. Qed.

Lemma link_queryWith q key val :
  carried (query_Set q key val) → val ≠ "" →
  link_query (String.app "/" (queryWith q key val)) = query_Set q key val.
Proof.
  intros Hc Hv. unfold queryWith. rewrite cloneQuery_id. cbv zeta.
  rewrite (bool_decide_eq_false_2 (val = "")) by done. case_bool_decide as He.
  - apply carried_nil in He; [|done]. by rewrite He.
  - by apply (link_query_encode "/").
Qed.

Lemma link_pollQuery path q :
  carried q → no_byte "?" path → link_query (String.app path (pollQuery q)) = q.
Proof.
  intros Hc Hp. unfold pollQuery. cbv zeta. case_bool_decide as He.
  - apply carried_nil in He; [|done]. subst q. unfold link_query, string_Cut.
    assert (String.app path "" = path) as -> by (clear; induction path; simpl; congruence).
    by rewrite Hp.
  - by apply link_query_encode.
Qed.

Definition toggled (col curSort curOrder : string) : string :=
  if bool_decide (curSort = col) then (if bool_decide (curOrder = "asc") then "desc" else "asc")
  else if bool_decide (col = "last_seen") then "desc" else "asc".

Definition sorted_query (q : url_Values) (col order : string) : url_Values :=
  query_Set (query_Set (query_Del q "offset") "sort" col) "order" order.

Lemma link_sortHref q col curSort curOrder :
  carried (sorted_query q col (toggled col curSort curOrder)) →
  link_query (sortHref q col curSort curOrder) = sorted_query q col (toggled col curSort curOrder).
Proof.
  intros Hc. unfold sortHref. rewrite cloneQuery_id. cbv zeta.
  change (query_Set (query_Set (query_Del q "offset") "sort" col) "order" _)
    with (sorted_query q col (toggled col curSort curOrder)).
  case_bool_decide as He; [|by apply (link_query_encode "/")].
  apply carried_nil in He; [|done]. unfold sorted_query, query_Set in He.
  by apply insert_non_empty in He.
Qed.

Lemma carried_Set q k v :
  query_ok q → zlen (query_pairs q) < defaultMaxParams → carried (query_Set q k v).
Proof.
  intros Hq Hn. split; [by apply query_ok_Set|]. pose proof (query_size_Set q k v). lia.
Qed.

Lemma carried_sorted_query q col order :
  query_ok q → zlen (query_pairs q) + 1 < defaultMaxParams → carried (sorted_query q col order).
Proof.
  intros Hq Hn. apply carried_Set; [by apply query_ok_Set, query_ok_Del|].
  pose proof (query_size_Set (query_Del q "offset") "sort" col).
  pose proof (query_size_Del q "offset"). lia.
Qed.

End link_lemmas.

(** ** The claims *)

Section claims.
Context `{UN : Unicode, GS : GoSort}.

(** The table's order.  For agents of distinct uids, [sortAgents] keeps
    every agent, each strictly before the next in the column's comparison with
    ties broken by uid; the arrangement depends neither on the order the
    agents come in nor on what the unstable sort does with equal rows; and
    descending is ascending reversed. *)
Theorem sortAgents_correct l l' key order :
  NoDup (InstanceUID <$> l) → l' ≡ₚ l →
  let s := sortAgents l key order in
  s ≡ₚ l ∧ StronglySorted (λ a b, agent_cmp key order a b < 0) s ∧
  sortAgents l' key order = s ∧
  sortAgents l key "desc" = reverse (sortAgents l key "asc").
Proof.
  intros Hnd Hl s. split_and!.
  - apply sortAgents_perm.
  - assert (NoDup (InstanceUID <$> s)) as Hs by (unfold s; by rewrite sortAgents_perm).
    pose proof (sortAgents_sorted l key order) as Hsort. fold s in Hsort.
    clearbody s. induction Hsort as [|a s Hsort IH Ha]; [constructor|].
    rewrite fmap_cons in Hs. apply NoDup_cons in Hs as [Hn Hs]. constructor; [by apply IH|].
    rewrite Forall_forall in Ha |- *. intros b Hb. specialize (Ha b Hb). unfold cmp_le in Ha.
    destruct (Z.eq_dec (agent_cmp key order a b) 0) as [Heq|]; [|lia].
    apply agent_cmp_eq in Heq. destruct Hn. rewrite Heq. by apply list_elem_of_fmap_2.
  - by apply sortAgents_perm_eq.
  - by apply sortAgents_desc.
Qed.

End claims.

(** ** Witness *)

Definition agent_status (u : string) (connected healthy : bool) : Agent :=
  zero_Agent <| InstanceUID := u |> <| Connected := connected |>
    <| HealthReported := true |> <| Healthy := healthy |>.

Definition agents3 : list Agent :=
  [agent_status "b" true false; agent_status "c" false true; agent_status "a" true true].

Lemma sortAgents_correct_witness :
  let UN : Unicode := {| map_lower s := s; IsPrint _ := false |} in let GS := merge_GoSort in
  InstanceUID <$> sortAgents agents3 "status" "asc" = ["a"; "b"; "c"] ∧
  sortAgents (reverse agents3) "status" "asc" = sortAgents agents3 "status" "asc".
Proof.
  intros UN GS. split; [vm_compute; reflexivity|].
  apply (sortAgents_correct agents3 (reverse agents3) "status" "asc").
  - apply (bool_decide_unpack _). vm_compute. exact I.
  - apply reverse_Permutation.
Defined.
