(* ===== verification/UiText.v ===== *)
(** * Package ui: the text of the pages (internal/ui/ui.go)

    The functions the templates call to render a value: short uids, relative
    and absolute times, durations, status badges, attribute lists and [dict].
    The lemmas show that [attrPairs] lists a map once, its keys ascending. *)

From Stdlib Require Import Ascii ZArith Lia.
From S2P Require Import Prelude GoLang GoParse GoUrl GoTime Fleet.
Local Open Scope Z_scope.

(** ** The helpers *)

(** U+2026 and U+2014. *)
Definition ellipsis : string :=
  String (ascii_of_N 226) (String (ascii_of_N 128) (String (ascii_of_N 166) "")).
Definition em_dash : string :=
  String (ascii_of_N 226) (String (ascii_of_N 128) (String (ascii_of_N 148) "")).

Definition formatPoll (d : Duration) : string :=
  let sec := Z.quot (duration_Round d Second) Second in
  let sec := if sec <? 1 then 5 else sec in
  String.app (Itoa sec) "s".

Definition shortUID (id : string) : string :=
  if (String.length id <=? 12)%nat then id else String.app (string_to 8 id) ellipsis.

Definition relTime (now t : Time) : string :=
  if IsZero t then em_dash else
  let d := time_Sub now t in
  let d := if d <? 0 then 0 else d in
  if d <? Second then "just now"
  else if d <? Minute then String.app (Itoa (Seconds d)) "s ago"
  else if d <? Hour then String.app (Itoa (Minutes d)) "m ago"
  else if d <? 24 * Hour then String.app (Itoa (Hours d)) "h ago"
  else String.app (Itoa (Days d)) "d ago".

Definition formatTime (t : Time) : string := if IsZero t then em_dash else format_RFC3339 t.

Definition formatUptime (d : Duration) : string :=
  let d := if d <? 0 then 0 else d in
  let d := duration_Round d Second in
  let h := Hours d in
  let m := Z.rem (Minutes d) 60 in
  let s := Z.rem (Seconds d) 60 in
  if 0 <? h then concat_strings [Itoa h; "h "; Itoa m; "m "; Itoa s; "s"]
  else if 0 <? m then concat_strings [Itoa m; "m "; Itoa s; "s"]
  else concat_strings [Itoa s; "s"].

Definition statusLabel (a : AgentView) : string :=
  if negb (v_Connected a) then "Disconnected"
  else if negb (v_HealthReported a) then "Unknown"
  else if v_Healthy a then "Healthy"
  else "Unhealthy".

Definition statusClass (a : AgentView) : string :=
  if negb (v_Connected a) then "badge-disconnected"
  else if negb (v_HealthReported a) then "badge-unknown"
  else if v_Healthy a then "badge-healthy"
  else "badge-unhealthy".

Definition statusTitle (a : AgentView) : string :=
  if negb (v_Connected a) then
    if negb (v_HealthReported a) then "No recent check-in; no health report received"
    else if v_Healthy a then "No recent check-in; last health report was healthy"
    else "No recent check-in; last health report was unhealthy"
  else if negb (v_HealthReported a) then "Connected; waiting for a health report"
  else if v_Healthy a then "Connected and healthy"
  else "Connected but reporting unhealthy".

Definition viaLabel (via : bool) : string := if via then "gateway" else "direct".

(** ** Attributes *)

(** The inner loop: while [keys[j-1] > keys[j]], swap them and step down. *)
Fixpoint sink (j : nat) (keys : list string) : list string :=
  match j with
  | O => keys
  | S i =>
      match keys !! i, keys !! S i with
      | Some a, Some b =>
          if 0 <? string_Compare a b then sink i (<[i := b]> (<[S i := a]> keys)) else keys
      | _, _ => keys
      end
  end.

(** The outer loop, [i] from 1. *)
Definition insertion_sort (keys : list string) : list string :=
  foldl (λ keys i, sink i keys) keys (seq 1 (length keys - 1)).

Definition attrPairs `{MapRange} (m : gmap string string) : list (string * string) :=
  if bool_decide (m = ∅) then []
  else (λ k, (k, default "" (m !! k))) <$> insertion_sort (range m).*1.

(** The loop over one map's pairs. *)
Definition nonblank_pairs (l : list (string * string)) : list (string * string) :=
  filter (λ p, TrimSpace p.2 ≠ "") l.

Definition attrChips `{MapRange} (a : AgentView) : list (string * string) :=
  nonblank_pairs (attrPairs (v_Identifying a)) ++ nonblank_pairs (attrPairs (v_NonIdentifying a)).

(** ** dict *)

(** A template value: a string, or anything else. *)
Inductive any (V : Type) := AnyString (s : string) | AnyOther (v : V).
Arguments AnyString {V}.
Arguments AnyOther {V}.

Inductive dict_error := OddArgs | KeyNotString.

Fixpoint dict_loop {V} (pairs : list (any V)) (m : gmap string (any V)) :
    dict_error + gmap string (any V) :=
  match pairs with
  | k :: v :: pairs =>
      match k with
      | AnyString k => dict_loop pairs (<[k := v]> m)
      | AnyOther _ => inl KeyNotString
      end
  | _ => inr m
  end.

Definition dict {V} (pairs : list (any V)) : dict_error + gmap string (any V) :=
  if bool_decide (Z.rem (zlen pairs) 2 ≠ 0) then inl OddArgs else dict_loop pairs ∅.

(** ** Lemmas: the insertion sort *)

(** [k] sinks in front of the greater keys at the end of what precedes it. *)
Lemma sink_app pre k post :
  ∃ pre1 pre2, pre = pre1 ++ pre2 ∧
    sink (length pre) (pre ++ k :: post) = pre1 ++ k :: pre2 ++ post ∧
    Forall (λ a, 0 < string_Compare a k) pre2 ∧
    (∀ a, last pre1 = Some a → string_Compare a k ≤ 0).
Proof.
  revert post. induction pre as [|a pre IH] using rev_ind; intros post.
  { exists [], []. split_and!; [done..|constructor|done]. }
  rewrite length_app, Nat.add_1_r, <-app_assoc. cbn [app sink].
  rewrite lookup_app_r, Nat.sub_diag by lia. rewrite lookup_app_r by lia.
  replace (S (length pre) - length pre)%nat with 1%nat by lia. cbn [lookup list_lookup].
  destruct (Z.ltb_spec 0 (string_Compare a k)) as [Hgt|Hle].
  - rewrite insert_app_r_alt by lia. replace (S (length pre) - length pre)%nat with 1%nat by lia.
    rewrite insert_app_r_alt, Nat.sub_diag by lia. cbn [insert list_insert].
    destruct (IH (a :: post)) as (pre1 & pre2 & -> & -> & Hpre2 & Hlast).
    exists pre1, (pre2 ++ [a]). split_and!; [by rewrite app_assoc|by rewrite <-app_assoc| |done].
    apply Forall_app. split; [done|]. by repeat constructor.
  - exists (pre ++ [a]), []. split_and!; [by rewrite app_nil_r|by rewrite <-app_assoc|constructor|].
    intros b. rewrite last_snoc. by intros [= ->].
Qed.

Definition string_le (a b : string) : Prop := string_Compare a b ≤ 0.

Lemma string_le_trans a b c : string_le a b → string_le b c → string_le a c.
Proof. destruct string_Compare_order as [_ Ht]. apply Ht. Qed.

(** One turn of the outer loop extends the sorted prefix by one. *)
Lemma sink_sorted pre k post :
  StronglySorted string_le pre →
  ∃ pre', sink (length pre) (pre ++ k :: post) = pre' ++ post ∧
    pre' ≡ₚ pre ++ [k] ∧ StronglySorted string_le pre'.
Proof.
  intros Hs. destruct (sink_app pre k post) as (pre1 & pre2 & -> & -> & Hgt & Hle).
  exists (pre1 ++ k :: pre2). split_and!.
  - by rewrite <-app_assoc.
  - rewrite <-app_assoc. apply Permutation_app_head. by rewrite (Permutation_app_comm pre2).
  - apply StronglySorted_app in Hs as (H12 & H1 & H2). rewrite Forall_forall in Hgt.
    assert (∀ a, a ∈ pre2 → string_le k a) as Hk.
    { intros a Ha. unfold string_le. rewrite string_Compare_antisym. pose proof (Hgt a Ha). lia. }
    apply StronglySorted_app. split_and!; [|done|].
    + intros a b Ha [-> |Hb]%elem_of_cons; [|by apply H12].
      destruct pre1 as [|c pre1 _] using rev_ind; [by apply not_elem_of_nil in Ha|].
      specialize (Hle c (last_snoc _ _)).
      apply elem_of_app in Ha as [Ha| ->%list_elem_of_singleton]; [|done].
      apply (string_le_trans a c); [|done].
      apply StronglySorted_app in H1 as (H1 & _). apply H1; [done|by left].
    + constructor; [done|]. by apply Forall_forall.
Qed.

Lemma insertion_sort_correct keys :
  insertion_sort keys ≡ₚ keys ∧ StronglySorted string_le (insertion_sort keys).
Proof.
  unfold insertion_sort.
  assert (∀ post pre, StronglySorted string_le pre →
    let r := foldl (λ keys i, sink i keys) (pre ++ post) (seq (length pre) (length post)) in
    r ≡ₚ pre ++ post ∧ StronglySorted string_le r) as H.
  { induction post as [|k post IH]; intros pre Hs; [by rewrite app_nil_r|].
    cbn [length seq foldl]. destruct (sink_sorted pre k post Hs) as (pre' & -> & Hp & Hs').
    assert (S (length pre) = length pre') as -> by (rewrite Hp, length_app; simpl; lia).
    destruct (IH pre' Hs') as [IHp IHs]. split; [|exact IHs].
    cbv zeta in *. rewrite IHp, Hp. by rewrite <-app_assoc. }
  destruct keys as [|k keys]; [by split; [|constructor]|].
  cbn [length]. rewrite Nat.sub_succ, Nat.sub_0_r.
  apply (H keys [k]). repeat constructor.
Qed.

Lemma attrPairs_sorted `{MapRange} m :
  attrPairs m ≡ₚ map_to_list m ∧
  StronglySorted (λ p q, string_Compare p.1 q.1 < 0) (attrPairs m).
Proof.
  unfold attrPairs. case_bool_decide as Hm.
  { subst m. rewrite map_to_list_empty. split; constructor. }
  destruct (insertion_sort_correct (range m).*1) as [Hp Hs].
  assert (insertion_sort (range m).*1 ≡ₚ (map_to_list m).*1) as Hk by (by rewrite Hp, range_perm).
  split.
  - rewrite Hk, <-list_fmap_compose.
    rewrite (proj1 (Forall_fmap_ext _ id (map_to_list m))); [by rewrite list_fmap_id|].
    apply Forall_forall. intros [k v] Hin%elem_of_map_to_list. simpl. by rewrite Hin.
  - assert (NoDup (insertion_sort (range m).*1)) as Hnd.
    { rewrite Hk. apply NoDup_fst_map_to_list. }
    clear Hp Hk Hm. induction Hs as [|k keys Hs IH Hle]; [constructor|].
    apply NoDup_cons in Hnd as [Hn Hnd]. rewrite fmap_cons. constructor; [by apply IH|].
    rewrite Forall_fmap. apply Forall_forall. intros k' Hk'. unfold compose. cbn [fst].
    rewrite Forall_forall in Hle. specialize (Hle k' Hk'). unfold string_le in Hle.
    destruct (Z.eq_dec (string_Compare k k') 0) as [->%string_Compare_0|]; [done|lia].
Qed.
