(* ===== verification/UI.v ===== *)
(** * Package ui: the pages (internal/ui/ui.go)

    What each page shows.  [fleetData] reads the query, merges the database
    into the registry's list as the API does, filters, sorts and cuts a page;
    [agentData] finds one agent; [statusData] counts the fleet.  The templates
    are an argument ([Templates]): rendering one gives its text or fails;
    [Pages] has the program's.  The store is an argument as in [Api], and so is
    the clock's reading. *)

From Stdlib Require Import Ascii ZArith Lia.
From S2P Require Import Prelude GoLang GoParse GoUrl Fleet Registry RegistryProps Demo.
From S2P Require Import Filter Paginate Api UiLinks UiText.
Local Open Scope Z_scope.

(** ** Data *)

Definition defaultLimit : Z := 100.
Definition maxLimit : Z := 1000.

Record Config := mkConfig { PollInterval : Duration }.

Record statusView := mkStatusView {
  sv_Version : string;
  sv_Commit : string;
  sv_StartedAt : Time;
  sv_Uptime : string;
  sv_Total : Z;
  sv_Connected : Z;
  sv_Disconnected : Z;
  sv_Healthy : Z;
  sv_Unhealthy : Z;
  sv_HealthUnknown : Z;
  sv_Awaiting : Z
}.

#[export] Instance eta_statusView : Eta statusView := λ s,
  mkStatusView (sv_Version s) (sv_Commit s) (sv_StartedAt s) (sv_Uptime s) (sv_Total s)
    (sv_Connected s) (sv_Disconnected s) (sv_Healthy s) (sv_Unhealthy s)
    (sv_HealthUnknown s) (sv_Awaiting s).

Record pageData := mkPageData {
  Title : string;
  Nav : string;
  pd_PollInterval : string;
  Query : url_Values;
  Agents : list AgentView;
  Total : Z;
  Limit : Z;
  Offset : Z;
  Partial : bool;
  Sort : string;
  Order : string;
  pd_Healthy : string;
  pd_Connected : string;
  pd_ViaGateway : string;
  Matches : list string;
  pd_Agent : option AgentView;
  pd_Status : option statusView
}.

#[export] Instance eta_pageData : Eta pageData := λ d,
  mkPageData (Title d) (Nav d) (pd_PollInterval d) (Query d) (Agents d) (Total d) (Limit d)
    (Offset d) (Partial d) (Sort d) (Order d) (pd_Healthy d) (pd_Connected d)
    (pd_ViaGateway d) (Matches d) (pd_Agent d) (pd_Status d).

Definition zero_pageData : pageData :=
  mkPageData "" "" "" ∅ [] 0 0 0 false "" "" "" "" "" [] None None.

(** [Handler]: the parts that are not the registry, the store or the metrics. *)
Record Handler := mkHandler { h_cfg : Config; h_started : Time }.

(** [New]'s defaults. *)
Definition New (cfg : Config) (now startedAt : Time) : Handler :=
  mkHandler
    (if PollInterval cfg <=? 0 then mkConfig (5 * Second) else cfg)
    (if IsZero startedAt then now else startedAt).

(** internal/buildinfo: the variables the linker sets. *)
Record BuildInfo := mkBuildInfo { bi_Version : string; bi_Commit : string }.

(** [h.tmpl.ExecuteTemplate]: the text of a template, or an error. *)
Class Templates := ExecuteTemplate : string → pageData → option string.

(** A response: a rendered page, or a plain-text error. *)
Inductive ui_response :=
  | Html (status : Z) (text : string)
  | TextError (status : Z) (message : string).

(** ** Reading the query *)

Definition parsePagination (q : url_Values) : string + Z * Z :=
  let v := query_Get q "limit" in
  match (if bool_decide (v ≠ "") then
           match Atoi v with
           | Some n => if n <=? 0 then None else Some (Z.min n maxLimit)
           | None => None
           end
         else Some defaultLimit) with
  | None => inl "limit must be a positive integer"
  | Some limit =>
      let v := query_Get q "offset" in
      match (if bool_decide (v ≠ "") then
               match Atoi v with
               | Some n => if n <? 0 then None else Some n
               | None => None
               end
             else Some 0) with
      | None => inl "offset must be a non-negative integer"
      | Some offset => inr (limit, offset)
      end
  end.

(** The parameters [collectMatches] does not show as matchers. *)
Definition reserved : list string :=
  ["limit"; "offset"; "sort"; "order"; "healthy"; "connected"; "via_gateway";
   "match"; "attr_key"; "attr_value"].

(** The body of the loop over the query. *)
Definition bare_match (p : string * list string) : option string :=
  match p.2 with
  | [] => None
  | v :: _ =>
      if bool_decide (p.1 ∈ reserved) || bool_decide (TrimSpace v = "") then None
      else Some (String.app p.1 (String.app "=" v))
  end.

Definition collectMatches `{MapRange} (q : url_Values) : list string :=
  let out := filter (λ m, m ≠ "") (TrimSpace <$> default [] (q !! "match")) in
  let key := TrimSpace (query_Get q "attr_key") in
  let out := if bool_decide (key ≠ "")
             then out ++ [String.app key (String.app "=" (query_Get q "attr_value"))]
             else out in
  out ++ omap bare_match (range q).

Definition hasFilter (data : pageData) : bool :=
  bool_decide (pd_Healthy data ≠ "") || bool_decide (pd_Connected data ≠ "") ||
  bool_decide (pd_ViaGateway data ≠ "") || (0 <? zlen (Matches data)).

Section handler.
Context `{PB : Protobuf, UU : UUID, MR : MapRange, GS : GoSort, RE : Regexp, UN : Unicode}
        `{TM : Templates} (bits : CapabilityBits) (build : BuildInfo).

(** ** The fleet *)

(** The list merged with the store's, and whether the store failed. *)
Definition merged_agents (now : Time) (db : option (option (list Agent))) (r : Registry) :
    writer ApiMetric (list Agent * bool) :=
  let localAgents := List r in
  match db with
  | None => mret (localAgents, false)
  | Some None => _ ← emit (ListStoreFallbackFailed "ui"); mret (localAgents, true)
  | Some (Some dbAgents) =>
      mret (MergeAgents localAgents dbAgents now (DisconnectThreshold (cfg r)), false)
  end.

Definition fleetData (h : Handler) (now : Time) (db : option (option (list Agent)))
    (q : url_Values) (r : Registry) : writer ApiMetric (string + pageData) :=
  match parsePagination q with
  | inl e => mret (inl e)
  | inr (limit, offset) =>
      match ParseFilters q with
      | inl e => mret (inl (filter_error_message e))
      | inr filters =>
          m ← merged_agents now db r;
          let matched := MatchingAgents m.1 filters in
          let '(sortKey, order) := parseSort q in
          let matched := sortAgents matched sortKey order in
          let total := zlen matched in
          let start := Z.min offset total in
          let e := Z.min (int64 (start + limit)) total in
          let page := slice matched start e in
          let views := SummaryView bits <$> page in
          mret (inr (mkPageData "" "" (formatPoll (PollInterval (h_cfg h))) q views total
            limit offset m.2 sortKey order (query_Get q "healthy") (query_Get q "connected")
            (query_Get q "via_gateway") (collectMatches q) None None))
      end
  end.

(** [render]: the template's output, or 500 when it fails. *)
Definition render (name : string) (data : pageData) : ui_response :=
  match ExecuteTemplate name data with
  | None => TextError 500 "template error"
  | Some text => Html 200 text
  end.

Definition fleetPage (h : Handler) (now : Time) (db : option (option (list Agent)))
    (q : url_Values) (r : Registry) : writer ApiMetric ui_response :=
  d ← fleetData h now db q r;
  match d with
  | inl err => mret (TextError 400 err)
  | inr data => mret (render "fleet.html" (data <| Title := "Fleet" |> <| Nav := "fleet" |>))
  end.

Definition fleetPartial (h : Handler) (now : Time) (db : option (option (list Agent)))
    (q : url_Values) (r : Registry) : writer ApiMetric ui_response :=
  d ← fleetData h now db q r;
  match d with
  | inl err => mret (TextError 400 err)
  | inr data => mret (render "partials/agents.html" data)
  end.

(** ** One agent *)

(** [db id]: [GetAgent]'s error, or the row if there is one. *)
Definition agentData (h : Handler) (now : Time) (db : option (string → option (option Agent)))
    (id : string) (r : Registry) : option pageData :=
  agent ← match Get r id, db with
    | Some agent, _ => Some agent
    | None, None => None
    | None, Some store =>
        row ← store id;
        agent ← row;
        if bool_decide (is_Some (EvictedAt agent)) then None
        else if StaleConnected agent now (DisconnectThreshold (cfg r))
        then Some (agent <| Connected := false |>)
        else Some agent
    end;
  Some (zero_pageData <| pd_PollInterval := formatPoll (PollInterval (h_cfg h)) |>
          <| pd_Agent := Some (DetailView bits agent) |>).

(** [renderNotFound] has sent its status before the template runs, and drops
    the template's error; what a failing template wrote before it failed is
    not modelled. *)
Definition renderNotFound (h : Handler) : ui_response :=
  Html 404 (default "" (ExecuteTemplate "notfound.html"
    (zero_pageData <| Title := "Not found" |>
       <| pd_PollInterval := formatPoll (PollInterval (h_cfg h)) |>))).

Definition agentPage (h : Handler) (now : Time) (db : option (string → option (option Agent)))
    (id : string) (r : Registry) : ui_response :=
  match agentData h now db id r with
  | None => renderNotFound h
  | Some data =>
      let title := match pd_Agent data with Some v => v_DisplayName v | None => "" end in
      render "agent.html" (data <| Title := title |> <| Nav := "fleet" |>)
  end.

Definition agentPartial (h : Handler) (now : Time) (db : option (string → option (option Agent)))
    (id : string) (r : Registry) : ui_response :=
  match agentData h now db id r with
  | None => TextError 404 "agent not found"
  | Some data => render "partials/agent.html" data
  end.

(** ** Server status *)

(** The body of the loop. *)
Definition count_agent (sv : statusView) (a : Agent) : statusView :=
  let sv := if Connected a then sv <| sv_Connected := sv_Connected sv + 1 |>
            else sv <| sv_Disconnected := sv_Disconnected sv + 1 |> in
  let sv := if negb (DescriptionReported a) then sv <| sv_Awaiting := sv_Awaiting sv + 1 |>
            else sv in
  if negb (HealthReported a) then sv <| sv_HealthUnknown := sv_HealthUnknown sv + 1 |>
  else if Healthy a then sv <| sv_Healthy := sv_Healthy sv + 1 |>
  else sv <| sv_Unhealthy := sv_Unhealthy sv + 1 |>.

Definition statusData (h : Handler) (now : Time) (r : Registry) : pageData :=
  let agents := List r in
  let sv := mkStatusView (bi_Version build) (bi_Commit build) (h_started h)
    (formatUptime (time_Sub now (h_started h))) (zlen agents) 0 0 0 0 0 0 in
  let sv := foldl count_agent sv agents in
  zero_pageData <| pd_PollInterval := formatPoll (PollInterval (h_cfg h)) |>
    <| pd_Status := Some sv |>.

Definition statusPage (h : Handler) (now : Time) (r : Registry) : ui_response :=
  render "status.html" ((statusData h now r) <| Title := "Server status" |> <| Nav := "status" |>).

Definition statusPartial (h : Handler) (now : Time) (r : Registry) : ui_response :=
  render "partials/status.html" (statusData h now r).

End handler.

(** ** Lemmas: the query *)

Lemma parsePagination_agrees q : UI.parsePagination q = Api.parsePagination q.
Proof.
  unfold parsePagination, Api.parsePagination.
  cbv zeta. rewrite !bool_decide_not. by destruct (bool_decide (query_Get q "limit" = "")),
    (bool_decide (query_Get q "offset" = "")).
Qed.

(** The parameters that page and sort, and do not filter. *)
Definition paging_params : list string := ["limit"; "offset"; "sort"; "order"].

Lemma wants_paging `{RE : Regexp} q q' c :
  (∀ k, k ∉ paging_params → q !! k = q' !! k) → wants q c → wants q' c.
Proof.
  intros Hq. assert (∀ k, k ∉ reservedParams → k ∉ paging_params) as Hr.
  { intros k Hk Hp. apply Hk. unfold paging_params, reservedParams in *.
    repeat (apply elem_of_cons in Hp as [->|Hp]; [by repeat (left || right)|]).
    by apply not_elem_of_nil in Hp. }
  assert (∀ k, k ∉ paging_params → query_Get q k = query_Get q' k) as Hg.
  { intros k Hk. unfold query_Get. by rewrite Hq. }
  assert ("match" ∉ paging_params) as Hm by (by apply (bool_decide_unpack _)).
  assert ("attr_key" ∉ paging_params) as Hk by (by apply (bool_decide_unpack _)).
  assert ("attr_value" ∉ paging_params) as Hv by (by apply (bool_decide_unpack _)).
  intros [key v vs field H1 H2 H3 H4|key v vs H1 H2 H3 H4|raws raw H1 H2 H3|H1].
  - rewrite (Hq _ (Hr _ H2)) in H1. by eapply wants_bool.
  - rewrite (Hq _ (Hr _ H2)) in H1. by eapply wants_attr.
  - rewrite (Hq _ Hm) in H1. by eapply wants_match.
  - rewrite (Hg _ Hk) in *. rewrite (Hg _ Hv). by apply wants_legacy.
Qed.

Section queries.
Context `{RE : Regexp}.

(** Two parses that accept the same agents, or both fail, each walking maps
    in an order of its own. *)
Definition same_filters (MR MR' : MapRange) (x y : filter_error + Filters) : Prop :=
  match x, y with
  | inl _, inl _ => True
  | inr f, inr f' => ∀ a, AgentMatches (MR := MR) a f = AgentMatches (MR := MR') a f'
  | _, _ => False
  end.

Lemma ParseFilters_same (MR MR' : MapRange) q q' :
  (∀ c, wants q c ↔ wants q' c) →
  same_filters MR MR' (ParseFilters (MR := MR) q) (ParseFilters (MR := MR') q').
Proof.
  intros Hw. pose proof (ParseFilters_extends (MR := MR) q) as H.
  pose proof (ParseFilters_extends (MR := MR') q') as H'.
  assert (∀ c, Some c ∈ query_wants (MR := MR) q ↔ Some c ∈ query_wants (MR := MR') q') as Hc.
  { intros c. rewrite !query_wants_spec. apply Hw. }
  unfold extends in *. destruct (ParseFilters q) as [e|f], (ParseFilters q') as [e'|f']; simpl.
  - done.
  - destruct H' as [H' _]. by apply (H' e), Hc.
  - destruct H as [H _]. by apply (H e'), Hc.
  - intros a. apply eq_bool_prop_intro. destruct H as [_ H], H' as [_ H'].
    rewrite !Is_true_true, !AgentMatches_sat, H, H'. by setoid_rewrite Hc.
Qed.

(** A refusal names one of the errors of the query. *)
Lemma ParseFilters_error (MR : MapRange) q e :
  ParseFilters (MR := MR) q = inl e → wants q (inl e).
Proof.
  intros He. pose proof (ParseFilters_extends q) as H. rewrite He in H.
  by apply query_wants_spec in H.
Qed.

Lemma ParseFilters_accepts (MR : MapRange) q f e :
  ParseFilters (MR := MR) q = inr f → ¬ wants q (inl e).
Proof.
  intros Hf He%query_wants_spec. pose proof (ParseFilters_extends q) as H. rewrite Hf in H.
  by destruct H as [H _]; apply (H e).
Qed.

Lemma ParseFilters_paging `{MR : MapRange} q q' :
  (∀ k, k ∉ paging_params → q !! k = q' !! k) →
  same_filters MR MR (ParseFilters q) (ParseFilters q').
Proof.
  intros Hq. apply ParseFilters_same. intros c. split; apply wants_paging; [done|].
  intros k Hk. symmetry. by apply Hq.
Qed.

End queries.

(** ** Lemmas: the fleet page *)

Section fleet.
Context `{PB : Protobuf, UU : UUID, MR : MapRange, GS : GoSort, RE : Regexp, UN : Unicode}
        `{TM : Templates} (bits : CapabilityBits).

(** The agents a query selects, in the order it asks for. *)
Definition selected (m : list Agent) (f : Filters) : list Agent :=
  filter (λ a, AgentMatches a f = true) m.

Definition arranged (q : url_Values) (l : list Agent) : list Agent :=
  sortAgents l (parseSort q).1 (parseSort q).2.

Lemma merged_agents_spec now db r :
  (merged_agents now db r).1.1 = (fleet_view now db r).1.1 ∧
  (merged_agents now db r).1.2 = bool_decide (db = Some None) ∧
  (merged_agents now db r).2 =
    if bool_decide (db = Some None) then [ListStoreFallbackFailed "ui"] else [].
Proof. by destruct db as [[rows|]|]. Qed.

Lemma selected_NoDup now db r f :
  wf r → rows_distinct db → NoDup (InstanceUID <$> selected (merged_agents now db r).1.1 f).
Proof.
  intros Hwf Hdb. apply NoDup_uid_filter.
  rewrite (proj1 (merged_agents_spec now db r)). by apply fleet_view_NoDup.
Qed.

Lemma arranged_length q l : length (arranged q l) = length l.
Proof. apply SortFunc_length. Qed.

(** The default column is the API's order. *)
Lemma sortAgents_default l :
  NoDup (InstanceUID <$> l) → sortAgents l "instance" "asc" = sortByInstanceUID l.
Proof.
  intros Hnd. apply sortAgents_unique; [done|apply SortFunc_perm|].
  eapply (StronglySorted_weaken (cmp_le cmp_uid)).
  - intros a b H%cmp_uid_le. unfold cmp_le, agent_cmp, column_cmp. rewrite andb_false_r.
    apply uid_lt_irrefl_le in H. rewrite string_Compare_antisym in H.
    change (string_Compare (InstanceUID a) (InstanceUID b) ≤ 0). lia.
  - apply SortFunc_sorted, cmp_uid_order.
Qed.

(** The window of a list a page shows. *)
Lemma slice_window {A} (l : list A) limit offset :
  1 ≤ limit → 0 ≤ offset → zlen l + limit ≤ int64_max →
  let start := Z.min offset (zlen l) in
  slice l start (Z.min (int64 (start + limit)) (zlen l)) =
    take (Z.to_nat limit) (drop (Z.to_nat offset) l).
Proof.
  intros Hl Ho Hm start. rewrite int64_id by (unfold is_int64, int64_min, int64_max, start in *; lia).
  unfold slice, start. destruct (Z.le_gt_cases offset (zlen l)).
  - rewrite (Z.min_l offset) by lia. destruct (Z.le_gt_cases (offset + limit) (zlen l)).
    + f_equal. lia.
    + rewrite !take_ge by (rewrite length_drop; lia). done.
  - rewrite (Z.min_r offset) by lia. rewrite !drop_ge by lia. by rewrite !take_nil.
Qed.

Lemma fleetData_ok h now db q r limit offset f :
  parsePagination q = inr (limit, offset) → ParseFilters q = inr f →
  let l := selected (merged_agents now db r).1.1 f in
  zlen l + maxLimit ≤ int64_max →
  (fleetData bits h now db q r).1 = inr (mkPageData "" "" (formatPoll (PollInterval (h_cfg h))) q
    (SummaryView bits <$> take (Z.to_nat limit) (drop (Z.to_nat offset) (arranged q l)))
    (zlen l) limit offset (bool_decide (db = Some None)) (parseSort q).1 (parseSort q).2
    (query_Get q "healthy") (query_Get q "connected") (query_Get q "via_gateway")
    (collectMatches q) None None).
Proof.
  intros Hp Hf l Hm. pose proof Hp as Hb. rewrite parsePagination_agrees in Hb.
  apply parsePagination_bounds in Hb as [Hl Ho].
  unfold fleetData. rewrite Hp, Hf. rewrite fst_bind. cbv zeta.
  rewrite MatchingAgents_filter. fold (selected (merged_agents now db r).1.1 f). fold l.
  unfold arranged. destruct (parseSort q) as [key order]. cbn [fst snd mret writer_ret].
  assert (zlen (sortAgents l key order) = zlen l) as Hlen by (unfold sortAgents; by rewrite SortFunc_length).
  rewrite <-Hlen in Hm |- *. rewrite slice_window by (unfold maxLimit, Api.maxLimit in *; lia).
  by rewrite (proj1 (proj2 (merged_agents_spec now db r))).
Qed.

Lemma fleetData_inv h now db q r data :
  (fleetData bits h now db q r).1 = inr data →
  ∃ limit offset f, parsePagination q = inr (limit, offset) ∧ ParseFilters q = inr f ∧
    Total data = zlen (selected (merged_agents now db r).1.1 f) ∧ Limit data = limit.
Proof.
  unfold fleetData. destruct (parsePagination q) as [|[limit offset]]; [done|].
  destruct (ParseFilters q) as [|f]; [done|]. rewrite fst_bind. cbv zeta.
  rewrite MatchingAgents_filter. destruct (parseSort q) as [key order].
  intros [= <-]. exists limit, offset, f. split_and!; [done..| |done]. cbn [Total].
  unfold sortAgents. by rewrite SortFunc_length.
Qed.

(** What each surface counts. *)
Lemma fleetData_counts h now db q r :
  (fleetData bits h now db q r).2 =
  match parsePagination q, ParseFilters q with
  | inr _, inr _ => if bool_decide (db = Some None) then [ListStoreFallbackFailed "ui"] else []
  | _, _ => []
  end.
Proof.
  unfold fleetData. destruct (parsePagination q) as [|[limit offset]]; [done|].
  destruct (ParseFilters q); [done|]. rewrite snd_bind. cbv zeta. destruct (parseSort q).
  by destruct db as [[|]|].
Qed.

Lemma listAgents_counts now db q r :
  (listAgents bits now db q r).2 =
  match Api.parsePagination q, ParseFilters q with
  | inr _, inr _ => if bool_decide (db = Some None) then [ListStoreFallbackFailed "api"] else []
  | _, _ => []
  end.
Proof.
  unfold listAgents. destruct (Api.parsePagination q) as [|[limit offset]]; [done|].
  destruct (ParseFilters q); [done|]. rewrite snd_bind. by destruct db as [[|]|].
Qed.

(** Two queries that differ in paging and sorting select the same agents. *)
Lemma selected_same m q q' f f' :
  (∀ k, k ∉ paging_params → q !! k = q' !! k) →
  ParseFilters q = inr f → ParseFilters q' = inr f' → selected m f' = selected m f.
Proof.
  intros Hq Hf Hf'. pose proof (ParseFilters_paging q q' Hq) as H. rewrite Hf, Hf' in H.
  simpl in H. unfold selected. induction m as [|a m IH]; [done|].
  rewrite !filter_cons, H, IH. done.
Qed.

Lemma ParseFilters_paging_ok q q' f :
  (∀ k, k ∉ paging_params → q !! k = q' !! k) →
  ParseFilters q = inr f → ∃ f', ParseFilters q' = inr f'.
Proof.
  intros Hq Hf. pose proof (ParseFilters_paging q q' Hq) as H. rewrite Hf in H.
  simpl in H. destruct (ParseFilters q') as [|f']; [done|eauto].
Qed.

(** The link to a page keeps everything but the offset. *)
Lemma page_link_query q offset :
  query_ok q → zlen (query_pairs q) < defaultMaxParams →
  link_query (String.app "/" (queryWith q "offset" (Itoa offset))) =
    query_Set q "offset" (Itoa offset).
Proof.
  intros Hq Hn. apply link_queryWith; [by apply carried_Set|].
  unfold Itoa. destruct (_ <? _); [done|].
  by destruct (print_nat_cons 18 offset "") as (c & s & ->).
Qed.

Lemma query_Get_Set q k k' v :
  query_Get (query_Set q k v) k' = if bool_decide (k = k') then v else query_Get q k'.
Proof.
  unfold query_Get, query_Set. case_bool_decide as Hk.
  - subst. by rewrite lookup_insert_eq.
  - by rewrite lookup_insert_ne.
Qed.

Lemma parsePagination_page q limit offset offset' :
  parsePagination q = inr (limit, offset) → 0 ≤ offset' ≤ int64_max →
  parsePagination (query_Set q "offset" (Itoa offset')) = inr (limit, offset').
Proof.
  intros Hp Ho. unfold parsePagination in *. cbv zeta in *. rewrite !query_Get_Set.
  rewrite (bool_decide_eq_false_2 ("offset" = "limit")), (bool_decide_eq_true_2 ("offset" = "offset"))
    by done.
  destruct (if bool_decide (query_Get q "limit" ≠ "") then _ else _) as [l|]; [|done].
  assert (l = limit) as ->.
  { destruct (if bool_decide (query_Get q "offset" ≠ "") then _ else _); congruence. }
  rewrite Atoi_Itoa by (unfold is_int64, int64_min, int64_max in *; lia).
  destruct (Z.ltb_spec offset' 0); [lia|].
  rewrite bool_decide_eq_true_2; [done|].
  unfold Itoa. destruct (_ <? _); [done|].
  by destruct (print_nat_cons 18 offset' "") as (c & s & ->).
Qed.

End fleet.

(** ** Lemmas: sorting links and echoed filters *)

Section echoes.
Context `{MR : MapRange, GS : GoSort, RE : Regexp, UN : Unicode}.

Lemma parseSort_order q : (parseSort q).2 = "asc" ∨ (parseSort q).2 = "desc".
Proof.
  unfold parseSort. cbv zeta. destruct (bool_decide (query_Get q "sort" = "")); [by left|].
  cbn [snd]. destruct (bool_decide_reflect (ToLower (TrimSpace (query_Get q "order")) ≠ "asc"));
    destruct (bool_decide_reflect (ToLower (TrimSpace (query_Get q "order")) ≠ "desc")); simpl.
  - destruct (_ && _); auto.
  - right. by apply dec_stable.
  - left. by apply dec_stable.
  - left. by apply dec_stable.
Qed.

Lemma toggled_order col curSort curOrder :
  toggled col curSort curOrder = "asc" ∨ toggled col curSort curOrder = "desc".
Proof. unfold toggled. repeat case_bool_decide; auto. Qed.

Lemma parseSort_sorted q col order :
  col ∈ sortColumns → order = "asc" ∨ order = "desc" →
  parseSort (sorted_query q col order) = (col, order).
Proof.
  intros Hcol Ho. unfold parseSort, sorted_query. rewrite !query_Get_Set.
  change (bool_decide ("order" = "sort")) with false.
  change (bool_decide ("sort" = "sort")) with true.
  change (bool_decide ("order" = "order")) with true. cbv iota.
  unfold sortColumns in *.
  repeat (apply elem_of_cons in Hcol as [->|Hcol]; [by destruct Ho as [->| ->]|]).
  by apply not_elem_of_nil in Hcol.
Qed.

Lemma parsePagination_first q limit offset col order :
  parsePagination q = inr (limit, offset) →
  parsePagination (sorted_query q col order) = inr (limit, 0).
Proof.
  intros Hp. unfold parsePagination, sorted_query in *. cbv zeta in *. rewrite !query_Get_Set.
  change (bool_decide ("order" = "limit")) with false.
  change (bool_decide ("sort" = "limit")) with false.
  change (bool_decide ("order" = "offset")) with false.
  change (bool_decide ("sort" = "offset")) with false. cbv iota.
  assert (query_Get (query_Del q "offset") "limit" = query_Get q "limit") as ->.
  { unfold query_Get, query_Del. by rewrite lookup_delete_ne. }
  assert (query_Get (query_Del q "offset") "offset" = "") as ->.
  { unfold query_Get, query_Del. by rewrite lookup_delete_eq. }
  destruct (if bool_decide (query_Get q "limit" ≠ "") then _ else _) as [l'|]; [|done].
  destruct (if bool_decide (query_Get q "offset" ≠ "") then _ else _); [|done].
  by injection Hp as -> _.
Qed.

(** A filter the page does not echo is not one. *)
Lemma unfiltered_wants q c :
  bool_decide (query_Get q "healthy" ≠ "") || bool_decide (query_Get q "connected" ≠ "") ||
  bool_decide (query_Get q "via_gateway" ≠ "") || (0 <? zlen (collectMatches q)) = false →
  ¬ wants q c.
Proof.
  intros H. rewrite !orb_false_iff in H. destruct H as [[[Hh Hc] Hv] Hm].
  apply bool_decide_eq_false, dec_stable in Hh, Hc, Hv. apply Z.ltb_ge in Hm.
  assert (collectMatches q = []) as Hnil by (apply nil_length_inv; lia).
  unfold collectMatches in Hnil. cbv zeta in Hnil. apply app_eq_nil in Hnil as [Hout Hbare].
  assert (∀ k v vs, q !! k = Some (v :: vs) → TrimSpace v ≠ "" → k ∈ reserved) as Hres.
  { intros k v vs Hk Ht. destruct (decide (k ∈ reserved)) as [|Hr]; [done|].
    assert (String.app k (String.app "=" v) ∈ omap bare_match (range q)) as Hin.
    { apply list_elem_of_omap. exists (k, v :: vs). split.
      - rewrite range_perm. by apply elem_of_map_to_list.
      - unfold bare_match. cbn [fst snd]. by rewrite !bool_decide_eq_false_2. }
    rewrite Hbare in Hin. by apply not_elem_of_nil in Hin. }
  assert (∀ k v vs, q !! k = Some (v :: vs) → TrimSpace v ≠ "" → k ∉ reservedParams → False) as Hno.
  { intros k v vs Hk Ht Hr. pose proof (Hres k v vs Hk Ht) as Hin.
    assert (query_Get q k = v) as Hget by (unfold query_Get; by rewrite Hk).
    assert (v ≠ "") as Hne by (by intros ->).
    unfold reserved, reservedParams in *. rewrite !elem_of_cons in *.
    destruct Hin as [->|[->|[->|[->|[->|[->|[->|[->|[->|[->|Hin]]]]]]]]]]; try tauto; congruence. }
  intros [key v vs field H1 H2 H3 H4|key v vs H1 H2 H3 H4|raws raw H1 H2 H3|H1].
  - by apply (Hno key v vs).
  - by apply (Hno key v vs).
  - assert (TrimSpace raw ∈ filter (λ m, m ≠ "") (TrimSpace <$> default [] (q !! "match"))) as Hin.
    { apply list_elem_of_filter. split; [done|]. rewrite H1. by apply list_elem_of_fmap_2. }
    destruct (bool_decide _); [by apply app_eq_nil in Hout as [_ ?]|].
    rewrite Hout in Hin. by apply not_elem_of_nil in Hin.
  - rewrite bool_decide_eq_true_2 in Hout by done. by apply app_eq_nil in Hout as [_ ?].
Qed.

End echoes.

(** The status page's counters and the API's, figure by figure. *)
Definition same_figures (sv : statusView) (s : fleetStats) : Prop :=
  sv_Total sv = fs_Total s ∧ sv_Connected sv = fs_Connected s ∧
  sv_Disconnected sv = fs_Disconnected s ∧ sv_Healthy sv = fs_Healthy s ∧
  sv_Unhealthy sv = fs_Unhealthy s ∧ sv_HealthUnknown sv = fs_HealthUnknown s ∧
  sv_Awaiting sv = fs_AwaitingFullState s.

Lemma count_agent_figures sv s a :
  same_figures sv s → same_figures (count_agent sv a) (status_agent s a).
Proof.
  intros (H1 & H2 & H3 & H4 & H5 & H6 & H7). unfold same_figures, count_agent, status_agent.
  destruct (Connected a), (DescriptionReported a), (HealthReported a), (Healthy a);
    simpl; split_and!; lia.
Qed.

(** Whatever order each of two calls walks its maps in, they list the same
    agents and select the same ones. *)
Section orders.
Context `{PB : Protobuf, UU : UUID, RE : Regexp}.

Lemma merge_db_seen seen seen' now d (rows : list Agent) :
  (∀ uid, uid ∈ seen ↔ uid ∈ seen') →
  omap (merge_db seen now d) rows = omap (merge_db seen' now d) rows.
Proof.
  intros Hs. induction rows as [|a rows IH]; [done|]. csimpl.
  assert (merge_db seen now d a = merge_db seen' now d a) as ->; [|by rewrite IH].
  unfold merge_db. by rewrite (bool_decide_ext _ _ (Hs (InstanceUID a))).
Qed.

Lemma merged_agents_any_order (MR MR' : MapRange) now db r :
  wf r → rows_distinct db →
  (merged_agents (MR := MR) now db r).1.1 ≡ₚ (merged_agents (MR := MR') now db r).1.1.
Proof.
  intros Hwf Hdb. pose proof (List_any_order MR MR' r Hwf) as Hl.
  destruct db as [[rows|]|]; simpl; [|done..]. unfold MergeAgents.
  rewrite (merge_db_seen _ (InstanceUID <$> List (MR := MR') r)).
  - by apply Permutation_app_tail.
  - intros id. by rewrite Hl.
Qed.

Lemma selected_any_order (MR MR' : MapRange) q f f' m m' :
  ParseFilters (MR := MR) q = inr f → ParseFilters (MR := MR') q = inr f' → m ≡ₚ m' →
  selected (MR := MR) m f ≡ₚ selected (MR := MR') m' f'.
Proof.
  intros Hf Hf' Hm. pose proof (ParseFilters_same MR MR' q q (λ _, iff_refl _)) as Hs.
  rewrite Hf, Hf' in Hs. simpl in Hs. unfold selected. rewrite Hm.
  erewrite list_filter_iff; [done|]. intros a. by rewrite Hs.
Qed.

(** Two calls that accept a query, side by side. *)
Lemma accepted_pages_agree `{GS : GoSort, UN : Unicode} bits (MR MR' : MapRange)
    h now db q r limit offset f f' :
  wf r → rows_distinct db →
  zlen (merged_agents (MR := MR) now db r).1.1 + maxLimit ≤ int64_max →
  parsePagination q = inr (limit, offset) →
  ParseFilters (MR := MR) q = inr f → ParseFilters (MR := MR') q = inr f' →
  ∃ data body, (fleetData (MR := MR) bits h now db q r).1 = inr data ∧
    (listAgents (MR := MR') bits now db q r).1 = ListOk body ∧
    Total data = lr_Total body ∧ Limit data = lr_Limit body ∧
    Offset data = lr_Offset body ∧ Partial data = lr_Partial body ∧
    (query_Get q "sort" = "" → Agents data = lr_Agents body).
Proof.
  intros Hwf Hdb Hm Hp Hf Hf'.
  pose proof (selected_any_order MR MR' q f f' _ _ Hf Hf'
    (merged_agents_any_order MR MR' now db r Hwf Hdb)) as Hl.
  pose proof (selected_NoDup (MR := MR) now db r f Hwf Hdb) as Hnd.
  pose proof (selected_NoDup (MR := MR') now db r f' Hwf Hdb) as Hnd'.
  set (l := selected (MR := MR) _ f) in *. set (l' := selected (MR := MR') _ f') in *.
  assert (zlen l + maxLimit ≤ int64_max) as Hlen.
  { pose proof (length_filter (λ a, AgentMatches (MR := MR) a f = true)
      (merged_agents (MR := MR) now db r).1.1).
    unfold l, selected. lia. }
  assert (zlen l = zlen l') as Hll by (by rewrite Hl).
  pose proof Hp as Hb. rewrite parsePagination_agrees in Hb.
  apply parsePagination_bounds in Hb as [Hpl Hpo].
  rewrite (fleetData_ok (MR := MR) bits h now db q r limit offset f Hp Hf Hlen).
  unfold listAgents. rewrite <-parsePagination_agrees, Hp, Hf', fst_bind. cbv zeta.
  rewrite MatchingAgents_filter, <-(proj1 (merged_agents_spec (MR := MR') now db r)).
  fold (selected (MR := MR') (merged_agents (MR := MR') now db r).1.1 f'). fold l l'.
  eexists _, _. split_and!; [reflexivity|reflexivity|..]; cbn; [done..|by destruct db as [[|]|]|].
  intros Hs. rewrite list_page_spec by (done || lia).
  assert (arranged q l = sortByInstanceUID l') as ->; [|done].
  unfold arranged, parseSort. rewrite bool_decide_eq_true_2 by done. cbn [fst snd].
  rewrite <-(sortAgents_perm_eq l l') by done. by apply sortAgents_default.
Qed.

End orders.

(** ** The claims *)

Section claims.
Context `{PB : Protobuf, UU : UUID, GS : GoSort, RE : Regexp, UN : Unicode}
        (bits : CapabilityBits).

(** C10: the fleet page and the API's list answer alike.  For one query, clock,
    registry and store, each walking its maps in an order of its own, both
    refuse the query or both accept it.  A refusal is status 400 and counts
    nothing: bad paging has one message on both sides; otherwise the message
    on each side is that of a parameter of the query that does not parse.
    When both accept, they report the same total, limit, offset and partial
    flag, each counts a store failure once under its own surface, and a query
    without [sort] shows the very page of agents the API returns. *)
Theorem fleet_page_agrees (MR MR' : MapRange) h now db q r :
  wf r → rows_distinct db →
  zlen (merged_agents (MR := MR) now db r).1.1 + maxLimit ≤ int64_max →
  let w := fleetData (MR := MR) bits h now db q r in
  let w' := listAgents (MR := MR') bits now db q r in
  match w.1, w'.1 with
  | inl e, Error status e' =>
      status = 400 ∧ w.2 = [] ∧ w'.2 = [] ∧
      match parsePagination q with
      | inl msg => e = msg ∧ e' = msg
      | inr _ => ∃ bad bad', wants q (inl bad) ∧ wants q (inl bad') ∧
                   e = filter_error_message bad ∧ e' = filter_error_message bad'
      end
  | inr data, ListOk body =>
      (∀ bad, ¬ wants q (inl bad)) ∧
      Total data = lr_Total body ∧ Limit data = lr_Limit body ∧
      Offset data = lr_Offset body ∧ Partial data = lr_Partial body ∧
      (query_Get q "sort" = "" → Agents data = lr_Agents body) ∧
      (∀ s, w.2 = [ListStoreFallbackFailed s] ↔ s = "ui" ∧ db = Some None) ∧
      (∀ s, w'.2 = [ListStoreFallbackFailed s] ↔ s = "api" ∧ db = Some None)
  | _, _ => False
  end.
Proof.
  intros Hwf Hdb Hm w w'. subst w w'.
  pose proof (ParseFilters_same MR MR' q q (λ _, iff_refl _)) as Hsame.
  destruct (parsePagination q) as [e|[limit offset]] eqn:Hp.
  { unfold fleetData, listAgents. rewrite Hp, <-parsePagination_agrees, Hp. done. }
  destruct (ParseFilters (MR := MR) q) as [e|f] eqn:Hf,
    (ParseFilters (MR := MR') q) as [e'|f'] eqn:Hf'; try done.
  { unfold fleetData, listAgents. rewrite Hp, <-parsePagination_agrees, Hp, Hf, Hf'. cbn.
    split_and!; [done..|]. exists e, e'.
    split_and!; [exact (ParseFilters_error MR q e Hf)|exact (ParseFilters_error MR' q e' Hf')|done..]. }
  destruct (accepted_pages_agree bits MR MR' h now db q r limit offset f f' Hwf Hdb Hm Hp Hf Hf')
    as (data & body & -> & -> & ?). split; [intros bad; by apply (ParseFilters_accepts MR q f)|].
  rewrite fleetData_counts, listAgents_counts, Hp, <-parsePagination_agrees, Hp, Hf, Hf'.
  split_and!; [naive_solver..| |]; intros s; case_bool_decide; naive_solver.
Qed.

End claims.

(** Following the page's own links. *)
Section links.
Context `{PB : Protobuf, UU : UUID, MR : MapRange, GS : GoSort, RE : Regexp, UN : Unicode}
        (bits : CapabilityBits).

(** The page behind the link of number [p]. *)
Lemma followed_page h now db q r limit offset f p :
  query_ok q → zlen (query_pairs q) < defaultMaxParams →
  parsePagination q = inr (limit, offset) → ParseFilters q = inr f →
  let l := selected (merged_agents now db r).1.1 f in
  1 ≤ limit → zlen l + maxLimit ≤ int64_max → limit ≤ maxLimit → p ∈ pageList (zlen l) limit →
  ∃ d, (fleetData bits h now db
      (link_query (String.app "/" (queryWith q "offset" (Itoa (pageOffset p limit))))) r).1 = inr d ∧
    Total d = zlen l ∧ Limit d = limit ∧ Offset d = pageOffset p limit ∧
    Agents d = SummaryView bits <$>
      take (Z.to_nat limit) (drop (Z.to_nat (pageOffset p limit)) (arranged q l)).
Proof.
  intros Hq Hn Hp Hf l Hl1 Hm Hl2 Hin. unfold maxLimit in *.
  pose proof (elem_of_pageList _ _ _ Hin) as Hpc.
  assert (0 < zlen l) as Hpos.
  { destruct (Z.lt_ge_cases 0 (zlen l)) as [|Hz]; [done|]. unfold pageList, pageCount in Hin.
    destruct (Z.leb_spec (zlen l) 0); [|lia]. by apply not_elem_of_nil in Hin. }
  destruct (pageOffset_exact p (zlen l) limit Hpc Hpos ltac:(lia) ltac:(lia)) as [Ho Hob].
  set (q' := query_Set q "offset" (Itoa (pageOffset p limit))).
  assert (∀ k, k ∉ paging_params → q !! k = q' !! k) as Hqq.
  { intros k Hk. unfold q', query_Set. rewrite lookup_insert_ne; [done|].
    intros <-. apply Hk. right. left. }
  assert (parsePagination q' = inr (limit, pageOffset p limit)) as Hp'.
  { eapply parsePagination_page; [exact Hp|lia]. }
  destruct (ParseFilters_paging_ok q q' f Hqq Hf) as [f' Hf'].
  pose proof (selected_same (merged_agents now db r).1.1 q q' f f' Hqq Hf Hf') as Hsel.
  assert (parseSort q' = parseSort q) as Hsort.
  { unfold parseSort, q'. by rewrite !query_Get_Set. }
  rewrite page_link_query by done. fold q'.
  rewrite (fleetData_ok bits h now db q' r limit (pageOffset p limit) f' Hp' Hf')
    by (rewrite Hsel; fold l; unfold maxLimit; lia).
  rewrite Hsel. fold l. unfold arranged. rewrite Hsort. eexists. split_and!; reflexivity.
Qed.

(** The pager reaches every agent once.  Below the page of an accepted
    query, following the link of each page number gives a page of the same
    total that knows its own number, and the pages together list exactly the
    agents the query selects, in the order it asks for. *)
Theorem page_links_cover h now db q r data :
  query_ok q → zlen (query_pairs q) < defaultMaxParams →
  (fleetData bits h now db q r).1 = inr data → Total data + maxLimit ≤ int64_max →
  let page p := (fleetData bits h now db
    (link_query (String.app "/" (queryWith q "offset" (Itoa (pageOffset p (Limit data)))))) r).1 in
  (∀ p, p ∈ pageList (Total data) (Limit data) → ∃ d, page p = inr d ∧
    Total d = Total data ∧ Limit d = Limit data ∧ pageNum (Offset d) (Limit d) = p) ∧
  ∃ f, ParseFilters q = inr f ∧
    pageList (Total data) (Limit data) ≫=
      (λ p, match page p with inr d => Agents d | inl _ => [] end) =
    SummaryView bits <$> arranged q (selected (merged_agents now db r).1.1 f).
Proof.
  intros Hq Hn Hdata Hm page.
  destruct (fleetData_inv _ _ _ _ _ _ _ Hdata) as (limit & offset & f & Hp & Hf & Ht & Hlim).
  set (l := selected (merged_agents now db r).1.1 f) in *.
  rewrite Hlim, Ht in *. clear Hdata.
  pose proof Hp as Hb. rewrite parsePagination_agrees in Hb.
  apply parsePagination_bounds in Hb as [Hb _]. unfold Api.maxLimit, maxLimit in *.
  assert (∀ p, p ∈ pageList (zlen l) limit → ∃ d, page p = inr d ∧
    Total d = zlen l ∧ Limit d = limit ∧ Offset d = pageOffset p limit ∧
    Agents d = SummaryView bits <$>
      take (Z.to_nat limit) (drop (Z.to_nat (pageOffset p limit)) (arranged q l))) as Hpage.
  { intros p Hin. unfold page. rewrite Hlim.
    apply (followed_page h now db q r limit offset f p); try done; unfold maxLimit; fold l; lia. }
  split.
  - intros p Hin. destruct (Hpage p Hin) as (d & Hd & Htd & Hld & Hod & _).
    exists d. split_and!; [done..|]. rewrite Hod, Hld.
    destruct (decide (zlen l = 0)) as [Hz|Hz].
    + rewrite Hz in Hin. by apply not_elem_of_nil in Hin.
    + apply (pageNum_Offset p (zlen l)); [done|lia..].
  - exists f. split; [done|].
    rewrite (bind_ext _ (λ p, SummaryView bits <$>
      take (Z.to_nat limit) (drop (Z.to_nat (pageOffset p limit)) (arranged q l)))).
    + rewrite <-fmap_list_bind. f_equal. rewrite <-(arranged_length q l).
      apply pages_partition; [lia|]. rewrite arranged_length. fold l. lia.
    + intros p Hin. by destruct (Hpage p Hin) as (d & -> & _ & _ & _ & ->).
Qed.

(** Clicking a column header.  The link of a column, followed, sorts by
    that column in the toggled order from the first page, with the same total
    and page size; on the active column the order of the whole selection is
    reversed. *)
Theorem sort_link_followed h now db q r data col :
  wf r → rows_distinct db →
  query_ok q → zlen (query_pairs q) + 1 < defaultMaxParams → col ∈ sortColumns →
  (fleetData bits h now db q r).1 = inr data → Total data + maxLimit ≤ int64_max →
  let q' := link_query (sortHref q col (Sort data) (Order data)) in
  ∃ d f, ParseFilters q = inr f ∧ (fleetData bits h now db q' r).1 = inr d ∧
    Sort d = col ∧ Order d = toggled col (Sort data) (Order data) ∧
    Offset d = 0 ∧ Limit d = Limit data ∧ Total d = Total data ∧
    let l := selected (merged_agents now db r).1.1 f in
    Agents d = SummaryView bits <$> take (Z.to_nat (Limit data)) (arranged q' l) ∧
    (Sort data = col → arranged q' l = reverse (arranged q l)).
Proof.
  intros Hwf Hdb Hq Hn Hcol Hdata Hm q'.
  destruct (fleetData_inv _ _ _ _ _ _ _ Hdata) as (limit & offset & f & Hp & Hf & Ht & Hlim).
  set (l := selected (merged_agents now db r).1.1 f) in *.
  assert (Sort data = (parseSort q).1 ∧ Order data = (parseSort q).2) as [Hs Ho].
  { rewrite (fleetData_ok bits h now db q r limit offset f Hp Hf) in Hdata by (fold l; lia).
    injection Hdata as <-. done. }
  assert (q' = sorted_query q col (toggled col (Sort data) (Order data))) as Hq'.
  { apply link_sortHref, carried_sorted_query; done. }
  assert (∀ k, k ∉ paging_params → q !! k = q' !! k) as Hqq.
  { intros k Hk. rewrite Hq'. unfold sorted_query, query_Set, query_Del.
    rewrite !lookup_insert_ne, lookup_delete_ne; [done|..];
      intros <-; apply Hk; by repeat (left || right). }
  assert (parsePagination q' = inr (limit, 0)) as Hp'.
  { rewrite Hq'. by apply (parsePagination_first q limit offset). }
  destruct (ParseFilters_paging_ok q q' f Hqq Hf) as [f' Hf'].
  pose proof (selected_same (merged_agents now db r).1.1 q q' f f' Hqq Hf Hf') as Hsel.
  assert (parseSort q' = (col, toggled col (Sort data) (Order data))) as Hsort.
  { rewrite Hq'. by apply parseSort_sorted, toggled_order. }
  eexists _, f. split; [done|].
  rewrite (fleetData_ok bits h now db q' r limit 0 f' Hp' Hf') by (rewrite Hsel; fold l; lia).
  split; [reflexivity|]. cbn [Sort Order Offset Limit Total Agents].
  rewrite Hsel, Hsort. fold l. split_and!; [done..|by rewrite drop_0, Hlim|].
  intros Hcur. unfold arranged. rewrite Hsort, <-Hs, <-Ho, Hcur. cbn [fst snd].
  unfold toggled. rewrite bool_decide_eq_true_2 by done.
  assert (NoDup (InstanceUID <$> l)) as Hnd by (by apply selected_NoDup).
  destruct (parseSort_order q) as [H|H]; rewrite <-Ho in H; rewrite H.
  - by apply sortAgents_desc.
  - rewrite bool_decide_eq_false_2 by done. by rewrite (sortAgents_desc l col Hnd), reverse_involutive.
Qed.

(** A page that shows no filter shows the whole fleet.  When [hasFilter]
    finds nothing to echo, the query constrains nothing: every agent of the
    merged list is selected and counted. *)
Theorem no_filter_shown_means_none h now db q r data f :
  (fleetData bits h now db q r).1 = inr data → hasFilter data = false →
  ParseFilters q = inr f → zlen (merged_agents now db r).1.1 + maxLimit ≤ int64_max →
  selected (merged_agents now db r).1.1 f = (merged_agents now db r).1.1 ∧
  Total data = zlen (merged_agents now db r).1.1.
Proof.
  intros Hdata Hnone Hf Hm.
  destruct (fleetData_inv _ _ _ _ _ _ _ Hdata) as (limit & offset & f' & Hp & Hf' & Ht & _).
  assert (f' = f) as -> by congruence.
  assert (selected (merged_agents now db r).1.1 f = (merged_agents now db r).1.1) as Hsel.
  { unfold selected. apply list_filter_all. intros a _. apply AgentMatches_sat.
    pose proof (ParseFilters_extends q) as He. rewrite Hf in He. destruct He as [_ He].
    apply He. split; [split; [constructor|by intros ? ? ?]|]. intros c Hc%query_wants_spec.
    destruct (unfiltered_wants q (inr c)); [|done].
    rewrite (fleetData_ok bits h now db q r limit offset f Hp Hf) in Hdata.
    - injection Hdata as <-. exact Hnone.
    - pose proof (length_filter (λ a, AgentMatches a f = true) (merged_agents now db r).1.1).
      unfold selected. lia. }
  split; [done|]. by rewrite Ht, Hsel.
Qed.

(** The agent page and the API's detail endpoint answer alike: the page
    shows exactly the view the API returns, and is not found when the API
    answers 404; only a failing store tells them apart, which the API reports
    as 500 and the page as not found. *)
Theorem agent_page_agrees h now db id r :
  id ≠ "" →
  match agentData bits h now db id r, getAgent bits now db id r with
  | Some data, DetailOk v => pd_Agent data = Some v
  | None, Error status _ =>
      status = 404 ∨ (status = 500 ∧ ∃ store, db = Some store ∧ store id = None)
  | _, _ => False
  end.
Proof.
  intros Hid. unfold agentData, getAgent. rewrite bool_decide_eq_false_2 by done.
  destruct (Get r id) as [a|]; [done|]. destruct db as [store|]; [|by left].
  destruct (store id) as [[a|]|] eqn:Hs; simpl; [|by left|right; eauto].
  destruct (EvictedAt a); simpl; [by left|]. by destruct (StaleConnected a now _).
Qed.

(** The status page shows the figures of [GET /api/status]. *)
Theorem status_page_agrees build h now r :
  match pd_Status (statusData build h now r), status now (h_started h) r with
  | Some sv, StatusOk body =>
      let s := sr_Fleet body in
      sv_StartedAt sv = sr_StartedAt body ∧
      sv_Total sv = fs_Total s ∧ sv_Connected sv = fs_Connected s ∧
      sv_Disconnected sv = fs_Disconnected s ∧ sv_Healthy sv = fs_Healthy s ∧
      sv_Unhealthy sv = fs_Unhealthy s ∧ sv_HealthUnknown sv = fs_HealthUnknown s ∧
      sv_Awaiting sv = fs_AwaitingFullState s
  | _, _ => False
  end.
Proof.
  unfold statusData, status. cbn [pd_Status sr_Fleet sr_StartedAt].
  match goal with |- context [foldl count_agent ?sv0 _] => set (sv := sv0) end.
  match goal with |- context [foldl status_agent ?s0 _] => set (s := s0) end.
  assert (∀ l sv s, same_figures sv s → same_figures (foldl count_agent sv l) (foldl status_agent s l)
    ∧ sv_StartedAt (foldl count_agent sv l) = sv_StartedAt sv) as H.
  { clear. induction l as [|a l IH]; intros sv s Hs; [done|]. cbn [foldl].
    destruct (IH (count_agent sv a) (status_agent s a)) as [IH1 ->].
    - by apply count_agent_figures.
    - split; [done|]. unfold count_agent.
      by destruct (Connected a), (DescriptionReported a), (HealthReported a), (Healthy a). }
  destruct (H (List r) sv s) as [Hf Hst]; [done|]. split; [exact Hst|]. exact Hf.
Qed.

End links.

(** ** Witnesses *)

Definition handler1 : Handler := New (mkConfig 0) 5 time_zero.

Definition reg1 : Registry := (Report 0 msg1 meta1 (Registry.New cfg1)).1.

Lemma wf_reg1 : wf reg1.
Proof. apply (act_wf (ActReport 0 msg1 meta1)). by apply wf_New. Qed.

Definition db1 : option (option (list Agent)) := Some (Some [row1]).

Lemma rows_db1 : rows_distinct db1.
Proof. intros rows [= <-]. apply NoDup_singleton. Qed.

Definition query1 : url_Values := {["limit" := ["1"]]}.

Lemma query_ok1 : query_ok query1.
Proof. by apply map_Forall_singleton. Qed.

Lemma merged1_bound : zlen (merged_agents 0 db1 reg1).1.1 + maxLimit ≤ int64_max.
Proof. vm_compute. discriminate. Qed.

Lemma fleet_page_agrees_witness :
  match (fleetData bits1 handler1 0 db1 query1 reg1).1,
    (listAgents (MR := range_by_key_down) bits1 0 db1 query1 reg1).1 with
  | inr data, ListOk body => Total data = lr_Total body ∧ Agents data = lr_Agents body
  | _, _ => False
  end.
Proof.
  pose proof (fleet_page_agrees bits1 _ range_by_key_down handler1 0 db1 query1 reg1 wf_reg1 rows_db1
    merged1_bound) as H.
  cbv zeta in H. destruct (fleetData bits1 handler1 0 db1 query1 reg1).1 as [e|data] eqn:E.
  - vm_compute in E. discriminate E.
  - destruct (listAgents (MR := range_by_key_down) bits1 0 db1 query1 reg1).1;
      [destruct H| |destruct H..].
    destruct H as (_ & Ht & _ & _ & _ & Ha & _). split; [exact Ht|]. apply Ha. vm_compute. reflexivity.
Defined.

(** The messages may differ: with two parameters at fault, each call reports
    the one its own walk meets first. *)
Example refusals_may_differ :
  let q : url_Values := <["healthy" := ["maybe"]]> {["connected" := ["maybe"]]} in
  ∃ key key', key ≠ key' ∧
    (fleetData (MR := range_by_key) bits1 handler1 0 db1 q reg1).1 =
      inl (String.app key " must be a boolean (true or false)") ∧
    (listAgents (MR := range_by_key_down) bits1 0 db1 q reg1).1 =
      Error 400 (String.app key' " must be a boolean (true or false)").
Proof.
  exists "connected", "healthy". split; [done|]. split; vm_compute; reflexivity.
Qed.

(** The first page of one. *)
Lemma fleet1 : ∃ data, (fleetData bits1 handler1 0 db1 query1 reg1).1 = inr data ∧
  Total data = 2 ∧ Limit data = 1 ∧ hasFilter data = false.
Proof.
  eexists. split; [vm_compute; reflexivity|].
  split; [vm_compute; reflexivity|]. split; vm_compute; reflexivity.
Qed.

(** Two pages of one agent each. *)
Lemma page_links_cover_witness :
  ∃ data, (fleetData bits1 handler1 0 db1 query1 reg1).1 = inr data ∧
    pageList (Total data) (Limit data) = [1; 2] ∧
    ∀ p, p ∈ [1; 2] → ∃ d,
      (fleetData bits1 handler1 0 db1 (link_query (String.app "/"
        (queryWith query1 "offset" (Itoa (pageOffset p (Limit data)))))) reg1).1 = inr d ∧
      pageNum (Offset d) (Limit d) = p.
Proof.
  destruct fleet1 as (data & E & Ht & Hl & _). exists data. split; [exact E|].
  assert (pageList (Total data) (Limit data) = [1; 2]) as Hp.
  { rewrite Ht, Hl. vm_compute. reflexivity. }
  split; [exact Hp|]. rewrite <-Hp. intros p Hin.
  destruct (page_links_cover bits1 handler1 0 db1 query1 reg1 data query_ok1) as [Hpage _].
  - vm_compute. reflexivity.
  - exact E.
  - rewrite Ht. vm_compute. discriminate.
  - destruct (Hpage p Hin) as (d & Hd & _ & _ & Hn). exists d. split; [exact Hd|exact Hn].
Defined.

(** The instance column, followed from the default order. *)
Lemma sort_link_followed_witness :
  ∃ data d, (fleetData bits1 handler1 0 db1 query1 reg1).1 = inr data ∧
    (fleetData bits1 handler1 0 db1
      (link_query (sortHref query1 "instance" (Sort data) (Order data))) reg1).1 = inr d ∧
    Sort d = "instance" ∧ Total d = Total data.
Proof.
  destruct fleet1 as (data & E & Ht & _ & _). exists data.
  destruct (sort_link_followed bits1 handler1 0 db1 query1 reg1 data "instance"
    wf_reg1 rows_db1 query_ok1) as (d & f & _ & Hd & Hs & _ & _ & _ & Htd & _).
  - vm_compute. reflexivity.
  - apply (bool_decide_unpack _). vm_compute. exact I.
  - exact E.
  - rewrite Ht. vm_compute. discriminate.
  - exists d. split; [exact E|]. split; [exact Hd|]. split; [exact Hs|exact Htd].
Defined.

Lemma no_filter_shown_means_none_witness :
  ∃ data, (fleetData bits1 handler1 0 db1 query1 reg1).1 = inr data ∧
    Total data = zlen (merged_agents 0 db1 reg1).1.1.
Proof.
  destruct fleet1 as (data & E & _ & _ & Hf). exists data. split; [exact E|].
  apply (no_filter_shown_means_none bits1 handler1 0 db1 query1 reg1 data (mkFilters [] ∅)).
  - exact E.
  - exact Hf.
  - vm_compute. reflexivity.
  - exact merged1_bound.
Defined.

Lemma agent_page_agrees_witness :
  match agentData bits1 handler1 0 (Some (λ _, None)) "gone" reg1 with
  | None => ∃ m, getAgent bits1 0 (Some (λ _, None)) "gone" reg1 = Error 500 m
  | Some _ => False
  end.
Proof.
  pose proof (agent_page_agrees bits1 handler1 0 (Some (λ _, None)) "gone" reg1 ltac:(discriminate)) as H.
  destruct (agentData bits1 handler1 0 (Some (λ _, None)) "gone" reg1) as [d|] eqn:E.
  - vm_compute in E. discriminate E.
  - destruct (getAgent bits1 0 (Some (λ _, None)) "gone" reg1) eqn:G; try (destruct H; fail).
    destruct H as [->|[-> _]]; [|eauto]. vm_compute in G. discriminate G.
Defined.
