(* ===== verification/ApiJson.v ===== *)
(** * The JSON of the API and of the gateway protocol

    The bodies [writeJSON] writes and the one [createJob] reads
    (internal/api/handler.go, attributes.go, jobs.go), and the payloads of the
    gateway's connect message (internal/opamp/handler.go), over [JsonStruct].
    [decode_createJobRequest] and [gateway_json] are what [Api.createJob] and
    the class [GatewayJSON] leave open.  The theorems: a request body is read
    as its fields say, whatever their order, case and company, or refused; a
    list, and every other document of the API, is read back by a client; a
    gateway finds its request in the answer. *)

From Stdlib Require Import ZArith Lia Ascii String.
From stdpp Require Import list_tactics.
From S2P Require Import Prelude GoLang GoParse GoUrl GoTime Json JsonTime JsonStruct Fleet FleetJson.
From S2P Require Import Registry Demo OpAMP Filter Paginate Api UI.
Local Open Scope Z_scope.

(** ** Responses *)

Section bodies.
Context `{LO : Location} (build : BuildInfo) (go_version : string).

Definition listResponse_json (r : listResponse) : option json :=
  views ← mapM AgentView_json (lr_Agents r);
  Some (obj [("agents", Some (JArray views)); ("total", Some (JInt (lr_Total r)));
             ("limit", Some (JInt (lr_Limit r))); ("offset", Some (JInt (lr_Offset r)));
             ("partial", Some (JBool (lr_Partial r)))]).

Definition fleetStats_json (s : fleetStats) : json :=
  obj [("total", Some (JInt (fs_Total s))); ("connected", Some (JInt (fs_Connected s)));
       ("disconnected", Some (JInt (fs_Disconnected s))); ("healthy", Some (JInt (fs_Healthy s)));
       ("unhealthy", Some (JInt (fs_Unhealthy s))); ("health_unknown", Some (JInt (fs_HealthUnknown s)));
       ("awaiting_full_state", Some (JInt (fs_AwaitingFullState s)))].

(** [StartedAt] is in UTC. *)
Definition statusResponse_json (s : statusResponse) : option json :=
  started ← MarshalText 0 (sr_StartedAt s);
  Some (obj [("version", Some (JString (bi_Version build))); ("commit", Some (JString (bi_Commit build)));
             ("go_version", Some (JString go_version)); ("started_at", Some (JString started));
             ("uptime_seconds", Some (JInt (sr_UptimeSeconds s)));
             ("fleet", Some (fleetStats_json (sr_Fleet s)))]).

(** map[string]any, sorted by key. *)
Definition keys_json (keys : list string) : json := obj [("keys", Some (JArray (JString <$> keys)))].

Definition values_json (key : string) (values : list string) : json :=
  obj [("key", Some (JString key)); ("values", Some (JArray (JString <$> values)))].

(** A pointer: null, or what it points to. *)
Definition nullable {A} (f : A → option json) (p : option A) : option json :=
  match p with Some x => f x | None => Some JNull end.

(** The document of a [jobResponse]; the text of [ActionConfig] is copied, so
    the document it denotes stands for it, and one that is none is an error. *)
Definition jobResponse_json (j : Job) : option json :=
  config ← Unmarshal (job_ActionConfig j); created ← Time_json (job_CreatedAt j);
  armed ← nullable Time_json (job_ArmedAt j); dispatch ← nullable Time_json (job_DispatchAt j);
  cancelled ← nullable Time_json (job_CancelledAt j);
  mode ← nullable (Some ∘ JString) (job_TargetMode j);
  Some (obj [("id", Some (JString (job_ID j))); ("filter", Some (JString (job_Filter j)));
             ("action", Some (JString (job_Action j))); ("action_config", Some config);
             ("status", Some (JString (job_Status j))); ("target_mode", Some mode);
             ("submitted_by", Some (JString (job_SubmittedBy j))); ("created_at", Some created);
             ("armed_at", Some armed); ("dispatch_at", Some dispatch);
             ("cancelled_at", Some cancelled)]).

(** The document of a response; an [http.Error] is plain text. *)
Definition document (r : response) : option json :=
  match r with
  | Error _ _ => None
  | ListOk body => listResponse_json body
  | DetailOk body => AgentView_json body
  | StatusOk body => statusResponse_json body
  | KeysOk keys => Some (keys_json keys)
  | ValuesOk key values => Some (values_json key values)
  | JobCreated job => jobResponse_json job
  end.

(** [writeJSON]: the encoder's line, or nothing when it fails. *)
Definition writeJSON (j : option json) : string := match j with Some j => Encode j | None => "" end.

End bodies.

(** ** Request bodies *)

#[export] Instance eta_createJobRequest : Eta createJobRequest := λ r,
  mkCreateJobRequest (req_Filter r) (req_Action r) (req_ActionConfig r) (req_SubmittedBy r).

Definition zero_createJobRequest : createJobRequest := mkCreateJobRequest "" "" "" "".

Definition createJobRequest_fields : list (setter createJobRequest) :=
  [mkSetter "filter" (set_string (λ s r, r <| req_Filter := s |>));
   mkSetter "action" (set_string (λ s r, r <| req_Action := s |>));
   mkSetter "action_config" (set_raw (λ s r, r <| req_ActionConfig := s |>));
   mkSetter "submitted_by" (set_string (λ s r, r <| req_SubmittedBy := s |>))].

(** [json.NewDecoder(body).Decode(&req)]. *)
Definition decode_createJobRequest (body : string) : option createJobRequest :=
  fill_from createJobRequest_fields (Decode body) body zero_createJobRequest.

(** ** The gateway's payloads *)

#[export] Instance eta_gatewayConnect : Eta gatewayConnect := λ c,
  mkGatewayConnect (gc_RequestUID c) (gc_RemoteAddress c).

Definition gatewayConnect_fields : list (setter gatewayConnect) :=
  [mkSetter "request_uid" (set_string (λ s c, c <| gc_RequestUID := s |>));
   mkSetter "remote_address" (set_string (λ s c, c <| gc_RemoteAddress := s |>));
   mkSetter "headers" check_header].

(** [json.Unmarshal(data, &connect)]. *)
Definition decode_gatewayConnect (data : string) : option gatewayConnect :=
  fill_from gatewayConnect_fields (Unmarshal data) data (mkGatewayConnect "" "").

Definition gatewayConnectResult_json (r : gatewayConnectResult) : json :=
  obj [("request_uid", omit_string (gr_RequestUID r)); ("accept", Some (JBool (gr_Accept r)));
       ("http_status_code", Some (JInt (gr_HTTPStatusCode r)))].

Definition gateway_json : GatewayJSON := {|
  Unmarshal_connect := decode_gatewayConnect;
  Marshal_result r := Some (Marshal (gatewayConnectResult_json r))
|}.

(** ** Evaluation *)

Example decode_createJobRequest_ok :
  let body := Encode (JObject [("Filter", JString "role=x"); ("extra", JArray []); ("action", JString "restart");
                               ("action_config", JObject [("timeout", JInt 5)]); ("SUBMITTED_BY", JString "me")]) in
  decode_createJobRequest body =
    Some (mkCreateJobRequest "role=x" "restart" (Marshal (JObject [("timeout", JInt 5)])) "me") ∧
  decode_createJobRequest "null" = Some zero_createJobRequest ∧
  decode_createJobRequest (Encode (JObject [("filter", JInt 1)])) = None ∧
  decode_createJobRequest "" = None.
Proof. split_and!; vm_compute; reflexivity. Qed.

(** ** Lemmas: requests *)

(** What [decode_createJobRequest] makes of the members of an object. *)
Definition request_of (m : list (string * json)) : option createJobRequest :=
  f ← text_of (member "filter" m); a ← text_of (member "action" m);
  s ← text_of (member "submitted_by" m);
  Some (mkCreateJobRequest f a (raw_of (member "action_config" m)) s).

(** The same over a request that is filled in part. *)
Definition text_or (d : string) (j : option json) : option string :=
  match j with None | Some JNull => Some d | Some (JString s) => Some s | _ => None end.

Definition request_from (x : createJobRequest) (m : list (string * json)) : option createJobRequest :=
  f ← text_or (req_Filter x) (member "filter" m); a ← text_or (req_Action x) (member "action" m);
  s ← text_or (req_SubmittedBy x) (member "submitted_by" m);
  Some (mkCreateJobRequest f a
    (match member "action_config" m with Some j => Marshal j | None => req_ActionConfig x end) s).

Lemma fill_request m x :
  NoDup ((foldName ∘ fst) <$> m) →
  fill createJobRequest_fields ((λ p, (p.1, (p.2, Marshal p.2))) <$> m) x = request_from x m.
Proof.
  revert x. induction m as [|p m IH]; intros x Hnd; [by destruct x|].
  pose proof (λ k, member_tail k p m Hnd) as Htail.
  assert (NoDup ((foldName ∘ fst) <$> m)) as Hnd' by (rewrite fmap_cons in Hnd; by apply NoDup_cons in Hnd as [_ ?]).
  rewrite fmap_cons. cbn [fill]. rewrite find_setter_fold
    by (apply (bool_decide_unpack _); vm_compute; exact I).
  unfold request_from. rewrite !member_cons.
  cbn [createJobRequest_fields List.find set_name].
  destruct (String.eqb_spec (foldName "filter") (foldName p.1)) as [E|_].
  { rewrite <-E. cbn [set_value set_string].
    change (String.eqb (foldName "action") (foldName "filter")) with false.
    change (String.eqb (foldName "submitted_by") (foldName "filter")) with false.
    change (String.eqb (foldName "action_config") (foldName "filter")) with false. cbn iota.
    destruct p.2; cbn [mbind option_bind text_or set_string]; try done; rewrite IH by done;
      unfold request_from; by rewrite (Htail "filter" E). }
  destruct (String.eqb_spec (foldName "action") (foldName p.1)) as [E|_].
  { rewrite <-E. cbn [set_value set_string].
    change (String.eqb (foldName "submitted_by") (foldName "action")) with false.
    change (String.eqb (foldName "action_config") (foldName "action")) with false. cbn iota.
    destruct p.2; cbn [mbind option_bind text_or set_string]; try rewrite IH by done;
      unfold request_from; rewrite ?(Htail "action" E); try done;
      by destruct (text_or _ (member "filter" m)). }
  destruct (String.eqb_spec (foldName "action_config") (foldName p.1)) as [E|_].
  { rewrite <-E. cbn [set_value]; unfold set_raw.
    change (String.eqb (foldName "submitted_by") (foldName "action_config")) with false. cbn iota.
    cbn [mbind option_bind]. rewrite IH by done. unfold request_from. by rewrite (Htail "action_config" E). }
  destruct (String.eqb_spec (foldName "submitted_by") (foldName p.1)) as [E|_]; [|by apply IH].
  cbn [set_value set_string].
  destruct p.2; cbn [mbind option_bind text_or set_string]; try rewrite IH by done;
    unfold request_from; rewrite ?(Htail "submitted_by" E); try done;
    destruct (text_or _ (member "filter" m)); cbn [mbind option_bind]; try done;
    by destruct (text_or _ (member "action" m)).
Qed.

Lemma decode_request m n :
  fits n (JObject m) → n ≤ maxNestingDepth → doc_valid (JObject m) = true →
  NoDup ((foldName ∘ fst) <$> m) →
  decode_createJobRequest (Encode (JObject m)) = request_of m.
Proof.
  intros Hf Hn Hv Hnd. unfold decode_createJobRequest, Encode.
  rewrite (fill_from_object _ m _ Decode _ n); [|done..|].
  - rewrite fill_request by done. reflexivity.
  - pose proof (Decode_fits n _ Hf Hn) as Hd. rewrite sanitize_id in Hd by done. exact Hd.
Qed.

(** *** The gateway's documents *)

Lemma gatewayConnectResult_fits r :
  Z.abs (gr_HTTPStatusCode r) < 10 ^ 20 → fits 1 (gatewayConnectResult_json r).
Proof. unfold gatewayConnectResult_json. fits. Qed.

(** A gateway's payload fills the struct; its headers are only checked. *)
Lemma fill_gateway uid addr headers :
  forallb (λ p, header_value p.2) headers = true →
  fill gatewayConnect_fields
    ((λ p, (p.1, (p.2, Marshal p.2))) <$>
       [("request_uid", JString uid); ("remote_address", JString addr); ("headers", JObject headers)])
    (mkGatewayConnect "" "") = Some (mkGatewayConnect uid addr).
Proof.
  intros Hh. cbn. unfold check_header. by rewrite Hh.
Qed.

(** ** A client of the list *)

Definition read_listResponse (j : json) : option listResponse :=
  agents ← match field "agents" j with Some (JArray l) => mapM read_AgentView l | _ => None end;
  total ← as_int (field "total" j); limit ← as_int (field "limit" j); offset ← as_int (field "offset" j);
  partial ← as_bool (field "partial" j); Some (mkListResponse agents total limit offset partial).

Section list.
Context {LO : Location} {LL : LocationLaws LO}.

Record list_ok (r : listResponse) : Prop := {
  lo_views : Forall view_ok (lr_Agents r);
  lo_total : is_int64 (lr_Total r);
  lo_limit : is_int64 (lr_Limit r);
  lo_offset : is_int64 (lr_Offset r)
}.

Lemma int64_fits z : is_int64 z → Z.abs z < 10 ^ 20.
Proof. unfold is_int64, int64_min, int64_max. lia. Qed.

Lemma views_json l :
  Forall view_ok l → ∃ js, mapM AgentView_json l = Some js ∧ mapM read_AgentView js = Some l ∧
    Forall (fits 3) js.
Proof.
  induction 1 as [|v l Hv _ (js & H1 & H2 & H3)]; [by exists []|].
  destruct (read_AgentView_json v Hv) as (j & Hj & Hr). exists (j :: js).
  apply mapM_Some in H1, H2. split_and!.
  - apply mapM_Some. by constructor.
  - apply mapM_Some. by constructor.
  - constructor; [|done]. apply (AgentView_fits v); [by apply Hv..|done].
Qed.

Lemma list_json r :
  list_ok r → ∃ j, listResponse_json r = Some j ∧ read_listResponse j = Some r ∧ fits 5 j.
Proof.
  intros [Hv Ht Hl Ho]. destruct (views_json _ Hv) as (js & H1 & H2 & H3).
  unfold listResponse_json. rewrite H1. cbn [mbind option_bind]. eexists. split; [reflexivity|].
  split.
  - unfold read_listResponse. rewrite !field_obj by reflexivity.
    cbn [assoc String.eqb Ascii.eqb Bool.eqb mbind option_bind id as_bool].
    rewrite H2, !as_JInt by (by apply int64_fits). cbn [mbind option_bind]. by destruct r.
  - fits; try (by apply int64_fits). exact H3.
Qed.

(** ** Properties *)

(** The list endpoint's body.  For every page the API can answer with, the
    encoder succeeds and a client that decodes the body finds the agents of the
    page in their order, the total, the limit, the offset and the partial flag
    (strings being valid UTF-8). *)
Theorem list_roundtrip build go_version r :
  list_ok r →
  ∃ j, document build go_version (ListOk r) = Some j ∧
    Decode (writeJSON (Some j)) = Some (sanitize j) ∧
    (doc_valid j = true → Decode (writeJSON (Some j)) ≫= read_listResponse = Some r).
Proof.
  intros Hr. destruct (list_json r Hr) as (j & Hj & Hread & Hf). exists j. split; [exact Hj|].
  assert (Decode (writeJSON (Some j)) = Some (sanitize j)) as Hd by (by apply (Decode_fits 5)).
  split; [done|]. intros Hv. rewrite Hd. cbn [mbind option_bind]. by rewrite sanitize_id.
Qed.

End list.

(** C21: POST /api/jobs reads its body as its fields say.  Let the body be any
    JSON object of valid strings whose names differ up to case: in whatever
    order they come, however they are capitalised, whatever other fields there
    are.  A required field that is neither a string nor null makes the body
    malformed; one that is absent, null or empty is named in the 400; otherwise
    the job is created with these three strings and the text of action_config,
    and the answer is the created job or, when the database fails, a 500. *)
Theorem createJob_reads CreateJob m n :
  fits n (JObject m) → n ≤ maxNestingDepth → doc_valid (JObject m) = true →
  NoDup ((foldName ∘ fst) <$> m) →
  createJob decode_createJobRequest (Some CreateJob) (Encode (JObject m)) =
  match text_of (member "filter" m), text_of (member "action" m), text_of (member "submitted_by" m) with
  | Some filter, Some action, Some submitted_by =>
      if bool_decide (filter = "") then Error 400 "filter is required"
      else if bool_decide (action = "") then Error 400 "action is required"
      else if bool_decide (submitted_by = "") then Error 400 "submitted_by is required"
      else match CreateJob (new_job (mkCreateJobRequest filter action
                                       (raw_of (member "action_config" m)) submitted_by)) with
           | Some job => JobCreated job
           | None => Error 500 "create job failed"
           end
  | _, _, _ => Error 400 "malformed request body"
  end.
Proof.
  intros Hf Hn Hv Hnd. unfold createJob. rewrite (decode_request m n) by done. unfold request_of.
  destruct (text_of (member "filter" m)) as [f|]; [|done].
  destruct (text_of (member "action" m)) as [a|]; [|done].
  by destruct (text_of (member "submitted_by" m)) as [s|].
Qed.

(** C16: a gateway finds its request in the answer.  Whatever a connect message
    carries, the reply is addressed to the sender and its payload is JSON with
    accept and http_status_code true and 200, or false and 400, as the payload
    decodes or not.  A payload a gateway encodes, with its request, an address
    and any headers, is accepted, and the answer has its request_uid. *)
Theorem gateway_answer msg custom cs :
  let GJ := gateway_json in
  (∃ reply data j,
    (onGatewayConnect msg custom cs).1.2 = Some reply ∧ sta_InstanceUid reply = m_InstanceUid msg ∧
    sta_CustomMessage reply = Some (mkCustomMessage GatewayCapability gatewayConnectResultType data) ∧
    Unmarshal data = Some j ∧
    match decode_gatewayConnect (cm_Data custom) with
    | Some c => as_bool (field "accept" j) = Some true ∧ as_int (field "http_status_code" j) = Some 200 ∧
        (ValidString (gc_RequestUID c) = true → as_string (field "request_uid" j) = Some (gc_RequestUID c))
    | None => as_bool (field "accept" j) = Some false ∧ as_int (field "http_status_code" j) = Some 400
    end) ∧
  ∀ uid addr headers n,
    let connect := JObject [("request_uid", JString uid); ("remote_address", JString addr);
                            ("headers", JObject headers)] in
    fits n connect → n ≤ maxNestingDepth → doc_valid connect = true →
    forallb (λ p, header_value p.2) headers = true → cm_Data custom = Marshal connect →
    decode_gatewayConnect (cm_Data custom) = Some (mkGatewayConnect uid addr).
Proof.
  cbv zeta. split.
  - unfold onGatewayConnect. cbn [Unmarshal_connect Marshal_result gateway_json].
    set (result := match decode_gatewayConnect (cm_Data custom) with None => _ | Some _ => _ end).
    set (d := Marshal (gatewayConnectResult_json result)).
    assert (fits 1 (gatewayConnectResult_json result)) as Hf.
    { apply gatewayConnectResult_fits. subst result. by destruct (decode_gatewayConnect _). }
    exists (mkServerToAgent (m_InstanceUid msg) 0 0
              (Some (mkCustomMessage GatewayCapability gatewayConnectResultType d))), d,
      (sanitize (gatewayConnectResult_json result)).
    split; [by destruct (viaGateway cs)|]. split; [done|]. split; [done|].
    split; [destruct Hf as [Hok Hd]; apply Unmarshal_Marshal; [done|unfold maxNestingDepth; lia]|].
    subst result d. clear Hf.
    destruct (decode_gatewayConnect (cm_Data custom)) as [c|]; [|by vm_compute].
    unfold gatewayConnectResult_json, omit_string. cbn [gr_RequestUID gr_Accept gr_HTTPStatusCode].
    case_bool_decide as Hu.
    + rewrite Hu. by vm_compute.
    + split; [vm_compute; reflexivity|]. split; [vm_compute; reflexivity|]. intros Hv.
      rewrite sanitize_id; [by rewrite field_obj by reflexivity|].
      unfold obj. cbn [doc_valid omap list_omap present fmap option_fmap option_map fst snd forallb].
      by rewrite Hv.
  - intros uid addr headers n [Hok Hd] Hn Hv Hh ->. unfold decode_gatewayConnect, Marshal.
    assert (Unmarshal (Marshal (JObject [("request_uid", JString uid); ("remote_address", JString addr);
      ("headers", JObject headers)])) = Some (JObject [("request_uid", JString uid);
      ("remote_address", JString addr); ("headers", JObject headers)])) as Hu.
    { rewrite Unmarshal_Marshal, sanitize_id by (done || lia). done. }
    rewrite (fill_from_object _ _ "" Unmarshal _ n); [|by split|done|done|exact Hu].
    by apply fill_gateway.
Qed.

(** ** At concrete requests *)

Definition job_request : list (string * json) :=
  [("submitted_by", JString "me"); ("ACTION", JString "restart"); ("note", JNull);
   ("filter", JString "role=gateway"); ("action_config", JObject [("timeout", JInt 5)])].

Example createJob_reads_witness :
  createJob decode_createJobRequest (Some Some) (Encode (JObject job_request)) =
    JobCreated (new_job (mkCreateJobRequest "role=gateway" "restart"
                           (Marshal (JObject [("timeout", JInt 5)])) "me")) ∧
  createJob decode_createJobRequest (Some Some) (Encode (JObject (take 3 job_request))) =
    Error 400 "filter is required".
Proof.
  assert (fits 2 (JObject job_request)) as Hf by (unfold job_request; fits).
  assert (fits 2 (JObject (take 3 job_request))) as Hf3 by (unfold job_request; cbn [take]; fits).
  split.
  - rewrite (createJob_reads Some job_request 2 Hf); [vm_compute; reflexivity|by vm_compute|reflexivity|].
    apply (bool_decide_unpack _). vm_compute. exact I.
  - rewrite (createJob_reads Some (take 3 job_request) 2 Hf3);
      [vm_compute; reflexivity|by vm_compute|reflexivity|].
    apply (bool_decide_unpack _). vm_compute. exact I.
Defined.

Example list_roundtrip_witness :
  let r := mkListResponse [view1] 7 1 3 true in
  ∃ j, document (mkBuildInfo "dev" "none") "go1.26" (ListOk r) = Some j ∧
    Decode (writeJSON (Some j)) ≫= read_listResponse = Some r.
Proof.
  intros r.
  assert (list_ok r) as Hr.
  { split; [|by vm_compute..]. constructor; [|constructor].
    split; first [by vm_compute|by left|right; by vm_compute]. }
  destruct (list_roundtrip (mkBuildInfo "dev" "none") "go1.26" r Hr) as (j & Hj & _ & Hread).
  exists j. split; [exact Hj|]. apply Hread.
  assert (∃ j', document (mkBuildInfo "dev" "none") "go1.26" (ListOk r) = Some j' ∧
    doc_valid j' = true) as (j' & Hj' & Hv).
  { eexists. split; [vm_compute; reflexivity|]. vm_compute. reflexivity. }
  rewrite Hj in Hj'. injection Hj' as ->. exact Hv.
Defined.

(** A connect message, decoded and answered; and one that is none. *)
Definition connect1 : list (string * json) :=
  [("request_uid", JString "r1"); ("remote_address", JString "10.0.0.1:5");
   ("headers", JObject [("User-Agent", JArray [JString "otel"])])].

Definition custom1 : CustomMessage :=
  mkCustomMessage GatewayCapability gatewayConnectType (Marshal (JObject connect1)).

Example gateway_answer_witness :
  decode_gatewayConnect (cm_Data custom1) = Some (mkGatewayConnect "r1" "10.0.0.1:5") ∧
  ∃ reply data j,
    (onGatewayConnect (GJ := gateway_json) msg1 custom1 (mkConnState "ws" false ∅)).1.2 = Some reply ∧
    sta_CustomMessage reply = Some (mkCustomMessage GatewayCapability gatewayConnectResultType data) ∧
    Unmarshal data = Some j ∧ as_string (field "request_uid" j) = Some "r1".
Proof.
  destruct (gateway_answer msg1 custom1 (mkConnState "ws" false ∅))
    as [(reply & data & j & Hr & _ & Hc & Hu & Hj) Hd].
  assert (decode_gatewayConnect (cm_Data custom1) = Some (mkGatewayConnect "r1" "10.0.0.1:5")) as H.
  { assert (fits 3 (JObject connect1)) as Hf by (unfold connect1; fits).
    refine (Hd "r1" "10.0.0.1:5" [("User-Agent", JArray [JString "otel"])] 3 Hf _ _ _ _);
      [by vm_compute|reflexivity|reflexivity|reflexivity]. }
  split; [exact H|]. exists reply, data, j. rewrite H in Hj. destruct Hj as (_ & _ & Hj).
  split_and!; [exact Hr|exact Hc|exact Hu|by apply Hj].
Defined.
