(* ===== verification/Metrics.v ===== *)
(** * Package metrics: counters at the event, gauges at the scrape

    internal/metrics/metrics.go.  [Events] is what the other packages report
    to: the registry's notifications ([fleet.Events]), the handler's, the
    gate's and the two lists'.  A prometheus metric is third-party code, so the
    model keeps what the program asks of it: the operations on each metric, in
    order ([MetricOp]); [increments] counts those on one series.  [Collect]
    returns the samples of a scrape.  It reads the registry twice, once for the
    aggregate and once for the series, so it takes both states; the order in
    which Go ranges over the routes is a parameter. *)

From Stdlib Require Import ZArith Lia.
From Stdlib Require Import SpecFloat.
From S2P Require Import Prelude GoLang GoParse GoTime Fleet Registry RegistryProps Demo.
From S2P Require Import Auth OpAMP Api.
Local Open Scope Z_scope.

(** ** Events *)

Inductive MetricOp :=
  | CounterInc (name : string) (labels : list string)
  | CounterAdd (name : string) (v : spec_float)
  | GaugeInc (name : string)
  | GaugeDec (name : string)
  | GaugeSet (name : string) (labels : list string) (v : spec_float)
  | Observe (name : string) (labels : list string) (v : spec_float).

(** A notification interface [Events] implements. *)
Class Instrumented (E : Type) := metric_ops : E → list MetricOp.

(** [fleet.Events]: the uid is dropped, a label per agent would be too many
    series. *)
#[export] Instance fleet_ops : Instrumented Event := λ e,
  match e with
  | AgentConnected _ => [CounterInc "grex_agent_connects_total" []]
  | AgentDisconnected _ => [CounterInc "grex_agent_disconnects_total" []]
  | AgentEvicted _ => [CounterInc "grex_agents_evicted_total" []]
  | ReportReceived _ kind => [CounterInc "grex_agent_reports_total" [kind]]
  | MissingAttribute _ key => [CounterInc "grex_agent_missing_attributes_total" [key]]
  | ReservedAttributeConflict _ key =>
      [CounterInc "grex_agent_reserved_attribute_conflicts_total" [key]]
  end.

(** The handler's hooks. *)
#[export] Instance opamp_ops : Instrumented Metric := λ m,
  match m with
  | Message => [CounterInc "grex_opamp_messages_total" []]
  | MessageError => [CounterInc "grex_opamp_message_errors_total" []]
  | GatewayConnect accepted =>
      [CounterInc "grex_gateway_connects_total" [if negb accepted then "rejected" else "accepted"]]
  | GatewayConnectionOpened => [GaugeInc "grex_gateway_connections"]
  | GatewayConnectionClosed => [GaugeDec "grex_gateway_connections"]
  | Fleet_ e => metric_ops e
  end.

(** The gate's hooks, and the lists'. *)
#[export] Instance auth_ops : Instrumented AuthMetric := λ m,
  match m with
  | AuthDenied reason => [CounterInc "grex_auth_denied_total" [reason]]
  | AuthAllowed role => [CounterInc "grex_auth_allowed_total" [role]]
  end.

#[export] Instance api_ops : Instrumented ApiMetric := λ m,
  match m with
  | ListStoreFallbackFailed surface =>
      [CounterInc "grex_list_agents_store_fallback_errors_total" [surface]]
  end.

(** [AgentsPurged], [ObserveWriteDuration] and [SetWriteTimeout], called by
    name rather than through an interface of notifications. *)
Definition AgentsPurged (n : Z) : list MetricOp :=
  [CounterAdd "grex_agents_purged_total" (float64 n)].

Definition ObserveWriteDuration (op : string) (d : Duration) : list MetricOp :=
  [Observe "grex_persistence_write_duration_seconds" [op] (duration_in Second d)].

Definition SetWriteTimeout (op : string) (timeout : Duration) : list MetricOp :=
  [GaugeSet "grex_persistence_write_timeout_seconds" [op] (duration_in Second timeout)].

(** The operations a run of notifications performs. *)
Definition log_of {E} `{Instrumented E} (es : list E) : list MetricOp := es ≫= metric_ops.

(** As a listener of the registry. *)
#[export] Instance metrics_events : Listener (list MetricOp) := λ log e, log ++ metric_ops e.

(** ** Reading a log *)

Definition is_inc (name : string) (labels : list string) (o : MetricOp) : bool :=
  match o with
  | CounterInc n l => bool_decide (n = name) && bool_decide (l = labels)
  | _ => false
  end.

Definition is_gauge_inc (name : string) (o : MetricOp) : bool :=
  match o with GaugeInc n => bool_decide (n = name) | _ => false end.

Definition is_gauge_dec (name : string) (o : MetricOp) : bool :=
  match o with GaugeDec n => bool_decide (n = name) | _ => false end.

(** The increments of one series of a counter. *)
Definition increments (name : string) (labels : list string) (log : list MetricOp) : Z :=
  Z.of_nat (count (is_inc name labels) log).

(** A gauge's increments less its decrements. *)
Definition gauge_level (name : string) (log : list MetricOp) : Z :=
  Z.of_nat (count (is_gauge_inc name) log) - Z.of_nat (count (is_gauge_dec name) log).

(** ** FleetCollector *)

(** A constant metric: its name, its label values and its value. *)
Record Sample := mkSample {
  s_Name : string;
  s_Labels : list string;
  s_Value : spec_float
}.

(** The series a sample belongs to: a scrape must not repeat one. *)
Definition series (s : Sample) : string * list string := (s_Name s, s_Labels s).

Class RouteRange := {
  range_routes : gmap ConnRoute Z → list (ConnRoute * Z);
  range_routes_perm m : range_routes m ≡ₚ map_to_list m
}.

Section collector.
Context `{MR : MapRange, RR : RouteRange}.

(** The samples of one agent: no health before it has reported it. *)
Definition agent_samples (agent : AgentSeries) : list Sample :=
  (if as_HealthReported agent then
     let health := if as_Healthy agent then 1 else 0 in
     [mkSample "grex_agent_health" [as_InstanceUID agent] (float64 health)]
   else []) ++
  [mkSample "grex_agent_last_seen_timestamp_seconds" [as_InstanceUID agent]
     (float64 (time_Unix (as_LastSeen agent)))].

(** [Collect]: [r] as [Aggregate] reads it, [r'] as [AgentSeries] does. *)
Definition Collect (perAgentLimit : Z) (r r' : Registry) : list Sample :=
  let stats := Aggregate r in
  ((λ rc, mkSample "grex_agents_connected" [rc.1.1; rc.1.2] (float64 rc.2)) <$>
     range_routes (StatsConnected stats)) ++
  [mkSample "grex_agents_disconnected" [] (float64 (Disconnected stats));
   mkSample "grex_agents_noncompliant" [] (float64 (Noncompliant stats));
   mkSample "grex_agents_supervisor_managed" [] (float64 (StatsSupervisorManaged stats));
   mkSample "grex_agents_awaiting_full_state" [] (float64 (AwaitingFullState stats));
   mkSample "grex_fleet_size" [] (float64 (Size stats));
   mkSample "grex_agent_series_capped" []
     (float64 (if perAgentLimit <? Size stats then 1 else 0))] ++
  (if perAgentLimit <? Size stats then []
   else AgentSeries_list r' ≫= agent_samples).

End collector.

(** ** Lemmas: logs *)

Lemma log_of_app {E} `{Instrumented E} (es es' : list E) :
  log_of (es ++ es') = log_of es ++ log_of es'.
Proof. apply bind_app. Qed.

Lemma notify_metrics (log : list MetricOp) (es : list Event) :
  notify_all log es = log ++ log_of es.
Proof.
  unfold notify_all, log_of. revert log. induction es as [|e es IH]; intros log;
    [by rewrite app_nil_r|].
  csimpl. rewrite IH. unfold notify, metrics_events. by rewrite app_assoc.
Qed.

(** One operation per notification makes the counts those of notifications. *)
Lemma count_log {E} `{Instrumented E} (P : E → bool) (Q : MetricOp → bool) (es : list E) :
  (∀ e, count Q (metric_ops e) = if P e then 1 else 0)%nat →
  count Q (log_of es) = count P es.
Proof.
  intros HP. unfold log_of. induction es as [|e es IH]; [done|].
  csimpl. by rewrite count_app, count_cons, IH, HP.
Qed.

Lemma connects_count es :
  increments "grex_agent_connects_total" [] (log_of es) = Z.of_nat (count is_connect es).
Proof. unfold increments. f_equal. apply count_log. by intros []. Qed.

Lemma disconnects_count es :
  increments "grex_agent_disconnects_total" [] (log_of es) = Z.of_nat (count is_disconnect es).
Proof. unfold increments. f_equal. apply count_log. by intros []. Qed.

(** The handler's log holds the registry's. *)
Lemma fleet_counter name (ms : list Metric) :
  name ≠ "grex_opamp_messages_total" → name ≠ "grex_opamp_message_errors_total" →
  increments name [] (log_of ms) = increments name [] (log_of (fleet_events ms)).
Proof.
  intros H1 H2. unfold increments, log_of, fleet_events. f_equal.
  induction ms as [|m ms IH]; [done|]. csimpl. rewrite count_app, IH.
  destruct m as [| |acc| | |e]; csimpl; unfold metric_ops, opamp_ops;
    rewrite ?count_cons, ?count_nil, ?count_app; cbn [is_inc]; [..|done].
  - by rewrite bool_decide_eq_false_2.
  - by rewrite bool_decide_eq_false_2.
  - by rewrite andb_false_r.
  - done.
  - done.
Qed.

(** ** Lemmas: connections, over whole operations *)

Section balance.
Context `{PB : Protobuf, UU : UUID, MR : MapRange}.

Lemma do_op_balance o r :
  wf r → DisconnectThreshold (cfg r) ≤ evictAfter (cfg r) →
  (online (flat (do_op o r).1) + count is_disconnect (do_op o r).2 =
   online (flat r) + count is_connect (do_op o r).2)%nat.
Proof.
  intros Hwf Hc. destruct o as [now msg meta|id b|now]; cbn [do_op].
  - apply (spec_act_balance (cfg r) (shardFor r) (ActReport now msg meta)); [done|].
    by apply (act_refines r (ActReport now msg meta)).
  - apply (spec_act_balance (cfg r) (shardFor r) (ActSetConnected id b)); [done|].
    by apply (act_refines r (ActSetConnected id b)).
  - rewrite fst_bind, snd_bind. cbn [fst snd mret writer_ret]. rewrite app_nil_r.
    rewrite (Sweep_events_perm now r Hwf), flat_Sweep by done. by apply spec_sweep_balance.
Qed.

Lemma do_op_wf o r : wf r → wf (do_op o r).1 ∧ cfg (do_op o r).1 = cfg r.
Proof.
  intros Hwf. destruct o as [now msg meta|id b|now]; cbn [do_op].
  - split; [by apply (act_wf (ActReport now msg meta))|apply (act_cfg (ActReport now msg meta))].
  - split; [by apply (act_wf (ActSetConnected id b))|apply (act_cfg (ActSetConnected id b))].
  - rewrite fst_bind. split; [by apply Sweep_wf|apply Sweep_cfg].
Qed.

Lemma do_ops_balance l r :
  wf r → DisconnectThreshold (cfg r) ≤ evictAfter (cfg r) →
  (online (flat (do_ops l r).1) + count is_disconnect (do_ops l r).2 =
   online (flat r) + count is_connect (do_ops l r).2)%nat.
Proof.
  revert r. induction l as [|o l IH]; intros r Hwf Hc; [done|].
  cbn [do_ops]. rewrite fst_bind, snd_bind, !count_app.
  pose proof (do_op_balance o r Hwf Hc) as Ho. destruct (do_op_wf o r Hwf) as [Hwf' Hcfg].
  specialize (IH (do_op o r).1 Hwf'). rewrite Hcfg in IH. specialize (IH Hc). lia.
Qed.

(** ** Lemmas: the aggregate's routes *)

Lemma aggregate_positive l st :
  (∀ k v, StatsConnected st !! k = Some v → 0 < v) →
  ∀ k v, StatsConnected (foldl aggregate_agent st l) !! k = Some v → 0 < v.
Proof.
  revert st. induction l as [|a l IH]; intros st Hst; [done|]. cbn [foldl]. apply IH.
  intros k v. unfold aggregate_agent.
  assert (∀ k v, StatsConnected (if Connected a
      then st <| Size := Size st + 1 |> <| StatsConnected := <[route_of a :=
        default 0 (StatsConnected st !! route_of a) + 1]> (StatsConnected st) |>
      else st) !! k = Some v → 0 < v) as H.
  { intros k0 v0. destruct (Connected a); [|apply Hst]. simpl.
    destruct (decide (route_of a = k0)) as [<-|Hne].
    - rewrite lookup_insert_eq. intros [= <-].
      destruct (StatsConnected st !! route_of a) as [v1|] eqn:Hv; simpl; [|lia].
      specialize (Hst _ _ Hv). lia.
    - rewrite lookup_insert_ne by done. apply Hst. }
  intros Hv. apply (H k v). rewrite <-Hv.
  by destruct (Connected a), (0 <? Z.of_nat (length (MissingAttributes a))),
    (SupervisorManaged a), (DescriptionReported a).
Qed.

Definition on_route (k : ConnRoute) (a : Agent) : bool :=
  Connected a && bool_decide (route_of a = k).

(** A route is exported exactly when an agent is connected on it. *)
Lemma Aggregate_route r k v :
  StatsConnected (Aggregate r) !! k = Some v ↔
    v = Z.of_nat (count (on_route k) (List r)) ∧ 0 < v.
Proof.
  rewrite Aggregate_entries.
  destruct (Aggregate_foldl (List r) zero_FleetStats) as (_ & H & _). specialize (H k).
  change (default 0 (StatsConnected zero_FleetStats !! k)) with 0 in H.
  pose proof (aggregate_positive (List r) zero_FleetStats
    ltac:(intros k' v' Hk'; discriminate Hk') k) as Hpos.
  unfold on_route.
  destruct (StatsConnected (foldl aggregate_agent zero_FleetStats (List r)) !! k) as [v'|]; simpl in H.
  - specialize (Hpos v' eq_refl). split; [intros [= ->]; lia|]. intros [-> _]. f_equal. lia.
  - split; [done|]. intros [-> Hv]. lia.
Qed.

(** The routes partition the connected agents. *)
Lemma routes_sum (l : list Agent) (ks : list ConnRoute) :
  NoDup ks → (∀ a, a ∈ l → Connected a = true → route_of a ∈ ks) →
  foldr Z.add 0 ((λ k, Z.of_nat (count (on_route k) l)) <$> ks) = Z.of_nat (count Connected l).
Proof.
  intros Hnd. induction l as [|a l IH]; intros Hks.
  - clear Hnd Hks. induction ks as [|k ks IH]; [done|]. cbn [fmap list_fmap foldr].
    rewrite IH. by rewrite !count_nil.
  - assert (∀ ks0, NoDup ks0 →
      foldr Z.add 0 ((λ k, Z.of_nat (count (on_route k) (a :: l))) <$> ks0) =
      foldr Z.add 0 ((λ k, Z.of_nat (count (on_route k) l)) <$> ks0) +
      (if Connected a && bool_decide (route_of a ∈ ks0) then 1 else 0)) as Hstep.
    { clear IH Hks Hnd. intros ks0 Hnd. induction ks0 as [|k ks0 IH].
      - cbn [fmap list_fmap foldr]. by rewrite andb_false_r.
      - apply NoDup_cons in Hnd as [Hk Hnd]. cbn [fmap list_fmap foldr].
        rewrite (IH Hnd), count_cons. unfold on_route at 1.
        destruct (Connected a); simpl; [|lia].
        destruct (decide (route_of a = k)) as [->|Hne].
        + rewrite (bool_decide_eq_true_2 (k = k)), (bool_decide_eq_false_2 (k ∈ ks0)) by done.
          rewrite (bool_decide_eq_true_2 (k ∈ k :: ks0)) by left. lia.
        + rewrite (bool_decide_eq_false_2 (route_of a = k)) by done.
          rewrite (bool_decide_ext (route_of a ∈ k :: ks0) (route_of a ∈ ks0)); [lia|].
          rewrite elem_of_cons. naive_solver. }
    rewrite (Hstep ks Hnd), IH.
    + rewrite count_cons. destruct (Connected a) eqn:Ha; simpl; [|lia].
      rewrite bool_decide_eq_true_2; [lia|]. apply Hks; [by left|done].
    + intros b Hb. apply Hks. by right.
Qed.

Lemma routes_total r (routes : list (ConnRoute * Z)) :
  routes ≡ₚ map_to_list (StatsConnected (Aggregate r)) →
  foldr Z.add 0 routes.*2 = Z.of_nat (count Connected (List r)).
Proof.
  intros Hp.
  assert (∀ k v, (k, v) ∈ routes ↔ StatsConnected (Aggregate r) !! k = Some v) as Hin.
  { intros k v. rewrite Hp. apply elem_of_map_to_list. }
  rewrite <-(routes_sum (List r) routes.*1).
  - f_equal. rewrite <-list_fmap_compose. apply Forall_fmap_ext, Forall_forall.
    intros [k v] Hkv. apply Hin, Aggregate_route in Hkv as [-> _]. done.
  - rewrite Hp. apply NoDup_fst_map_to_list.
  - intros a Ha Hc. apply list_elem_of_fmap.
    assert (0 < Z.of_nat (count (on_route (route_of a)) (List r))) as Hpos.
    { apply list_elem_of_split in Ha as (l1 & l2 & ->). rewrite count_app, count_cons.
      unfold on_route at 2. rewrite Hc, bool_decide_eq_true_2 by done. simpl. lia. }
    eexists (_, _). split; [reflexivity|]. apply Hin, Aggregate_route. split; [reflexivity|done].
Qed.

Lemma online_List r : wf r → online (flat r) = count Connected (List r).
Proof.
  intros Hwf. unfold online, mcount. rewrite (List_perm r Hwf).
  generalize (map_to_list (flat r)) as l. induction l as [|p l IH]; [done|].
  rewrite fmap_cons, !count_cons. by rewrite IH.
Qed.

End balance.

(** ** Lemmas: the samples of a scrape *)

Section samples.
Context `{PB : Protobuf, UU : UUID, MR : MapRange, RR : RouteRange}.

Lemma AgentSeries_List r : AgentSeries_list r = series_of <$> List r.
Proof.
  unfold AgentSeries_list, List, snapshot. rewrite fmap_list_bind.
  apply bind_ext. intros s _. by rewrite list_fmap_id.
Qed.

(** Samples of agents with distinct uids name distinct series. *)
Lemma agent_samples_series l :
  NoDup (as_InstanceUID <$> l) → NoDup (series <$> (l ≫= agent_samples)).
Proof.
  induction l as [|a l IH]; intros Hnd; [constructor|].
  rewrite fmap_cons in Hnd. apply NoDup_cons in Hnd as [Hn Hnd]. csimpl.
  rewrite fmap_app. apply NoDup_app. split_and!; [| |by apply IH].
  - unfold agent_samples. destruct (as_HealthReported a); csimpl; [|apply NoDup_singleton].
    apply NoDup_cons. split; [|apply NoDup_singleton].
    rewrite list_elem_of_singleton. by intros [=].
  - intros s (x & -> & Hx)%list_elem_of_fmap (y & Hs & Hy)%list_elem_of_fmap.
    apply list_elem_of_bind in Hy as (b & Hy & Hb). apply Hn.
    assert (s_Labels x = [as_InstanceUID a]) as Hxl.
    { unfold agent_samples in Hx. destruct (as_HealthReported a); csimpl in *; set_solver. }
    assert (s_Labels y = [as_InstanceUID b]) as Hyl.
    { unfold agent_samples in Hy. destruct (as_HealthReported b); csimpl in *; set_solver. }
    unfold series in Hs. injection Hs as _ Hs. rewrite Hxl, Hyl in Hs. injection Hs as ->.
    by apply list_elem_of_fmap_2.
Qed.

(** What a scrape of one registry state exports. *)
Inductive exported (perAgentLimit : Z) (r : Registry) : Sample → Prop :=
  | exported_connected k :
      (0 < count (on_route k) (List r))%nat →
      exported perAgentLimit r (mkSample "grex_agents_connected" [k.1; k.2]
        (float64 (Z.of_nat (count (on_route k) (List r)))))
  | exported_disconnected :
      exported perAgentLimit r (mkSample "grex_agents_disconnected" []
        (float64 (Z.of_nat (count (λ a, negb (Connected a)) (List r)))))
  | exported_noncompliant :
      exported perAgentLimit r (mkSample "grex_agents_noncompliant" []
        (float64 (Z.of_nat (count (λ a, negb (bool_decide (MissingAttributes a = []))) (List r)))))
  | exported_supervisor :
      exported perAgentLimit r (mkSample "grex_agents_supervisor_managed" []
        (float64 (Z.of_nat (count SupervisorManaged (List r)))))
  | exported_awaiting :
      exported perAgentLimit r (mkSample "grex_agents_awaiting_full_state" []
        (float64 (Z.of_nat (count (λ a, negb (DescriptionReported a)) (List r)))))
  | exported_size : exported perAgentLimit r (mkSample "grex_fleet_size" [] (float64 (zlen (List r))))
  | exported_capped :
      exported perAgentLimit r (mkSample "grex_agent_series_capped" []
        (float64 (if perAgentLimit <? zlen (List r) then 1 else 0)))
  | exported_health a :
      zlen (List r) ≤ perAgentLimit → a ∈ List r → HealthReported a = true →
      exported perAgentLimit r (mkSample "grex_agent_health" [InstanceUID a]
        (float64 (if Healthy a then 1 else 0)))
  | exported_last_seen a :
      zlen (List r) ≤ perAgentLimit → a ∈ List r →
      exported perAgentLimit r (mkSample "grex_agent_last_seen_timestamp_seconds" [InstanceUID a]
        (float64 (time_Unix (LastSeen a)))).

Lemma elem_of_agent_samples a s :
  s ∈ agent_samples (series_of a) ↔
    (HealthReported a = true ∧ s = mkSample "grex_agent_health" [InstanceUID a]
       (float64 (if Healthy a then 1 else 0))) ∨
    s = mkSample "grex_agent_last_seen_timestamp_seconds" [InstanceUID a]
      (float64 (time_Unix (LastSeen a))).
Proof.
  unfold agent_samples. simpl. rewrite elem_of_app, list_elem_of_singleton.
  destruct (HealthReported a); [rewrite list_elem_of_singleton|rewrite elem_of_nil]; naive_solver.
Qed.

Lemma elem_of_agent_series r s :
  s ∈ AgentSeries_list r ≫= agent_samples ↔ ∃ a, a ∈ List r ∧ s ∈ agent_samples (series_of a).
Proof.
  rewrite AgentSeries_List, list_fmap_bind, list_elem_of_bind. unfold compose. naive_solver.
Qed.

(** No series is collected twice, even across two registry states. *)
Lemma Collect_series limit r r' : wf r' → NoDup (series <$> Collect limit r r').
Proof.
  intros Hwf'. unfold Collect. cbv zeta. rewrite !fmap_app.
  apply NoDup_app. split_and!; [| |apply NoDup_app; split_and!].
  - rewrite <-list_fmap_compose, range_routes_perm.
    pose proof (NoDup_fst_map_to_list (StatsConnected (Aggregate r))) as Hnd.
    revert Hnd. generalize (map_to_list (StatsConnected (Aggregate r))) as l.
    induction l as [|[[t v] n] l IH]; intros Hnd; [constructor|].
    rewrite fmap_cons in *. apply NoDup_cons in Hnd as [Hn Hnd].
    apply NoDup_cons. split; [|by apply IH]. unfold compose, series. simpl.
    intros ([[t' v'] n'] & [= -> ->] & Hin)%list_elem_of_fmap. apply Hn.
    apply list_elem_of_fmap. by exists (t', v', n').
  - intros x (s & -> & (kv & -> & _)%list_elem_of_fmap)%list_elem_of_fmap Hx.
    rewrite elem_of_app in Hx. destruct Hx as [Hx|Hx].
    + unfold series in Hx. csimpl in Hx. rewrite !elem_of_cons, elem_of_nil in Hx.
      by destruct Hx as [[=]|[[=]|[[=]|[[=]|[[=]|[[=]|[]]]]]]].
    + destruct (limit <? _); [by apply not_elem_of_nil in Hx|].
      apply list_elem_of_fmap in Hx as (s & Hs & (a & _ & [[_ ->]| ->]%elem_of_agent_samples)%elem_of_agent_series);
        by injection Hs.
  - apply (bool_decide_unpack _). reflexivity.
  - intros x Hx Hx'. destruct (limit <? _); [by apply not_elem_of_nil in Hx'|].
    apply list_elem_of_fmap in Hx' as (s & -> & (a & _ & Hs)%elem_of_agent_series).
    apply elem_of_agent_samples in Hs. unfold series in Hx. csimpl in Hx.
    rewrite !elem_of_cons, elem_of_nil in Hx.
    by destruct Hs as [[_ ->]| ->]; destruct Hx as [[=]|[[=]|[[=]|[[=]|[[=]|[[=]|[]]]]]]].
  - destruct (limit <? _); [constructor|]. apply agent_samples_series.
    rewrite AgentSeries_List, <-list_fmap_compose. by apply List_NoDup_uid.
Qed.

Lemma online_New c : online (flat (New c)) = 0%nat.
Proof.
  assert (flat (New c) = ∅) as ->; [|apply mcount_empty].
  unfold flat, New. cbn [shards]. generalize (Z.to_nat (if ShardCount c <=? 0 then defaultShardCount else ShardCount c)) as n.
  induction n as [|n IH]; [done|]. cbn [replicate foldr]. by rewrite IH.
Qed.

End samples.

(** ** The claims *)

Section claims.
Context `{PB : Protobuf, UU : UUID, MR : MapRange, RR : RouteRange, GJ : GatewayJSON, WI : Wire}.

(** C11: a scrape exports the fleet and nothing else.  A sample is collected
    exactly when the registry's list calls for it: one connected gauge per
    transport and route that has a connected agent, with their number; the
    fleet-wide counts; and, while the fleet is within the per-agent limit, each
    agent's last-seen time, with its health only once reported.  Whatever the
    registry becomes between the collector's two reads, no series is repeated,
    so the scrape never fails on a duplicate. *)
Theorem scrape_correct limit r :
  wf r →
  (∀ s, s ∈ Collect limit r r ↔ exported limit r s) ∧
  ∀ r', wf r' → NoDup (series <$> Collect limit r r').
Proof.
  intros Hwf. pose proof (Aggregate_foldl (List r) zero_FleetStats) as Hagg.
  cbv zeta in Hagg. rewrite <-Aggregate_entries in Hagg.
  destruct Hagg as (Hsize & _ & Hdis & Hnon & Hsup & Haw).
  assert (∀ k v, (k, v) ∈ range_routes (StatsConnected (Aggregate r)) ↔
    v = Z.of_nat (count (on_route k) (List r)) ∧ 0 < v) as Hroute.
  { intros k v. by rewrite range_routes_perm, elem_of_map_to_list, Aggregate_route. }
  change (Size zero_FleetStats) with 0 in Hsize.
  change (Disconnected zero_FleetStats) with 0 in Hdis.
  change (Noncompliant zero_FleetStats) with 0 in Hnon.
  change (StatsSupervisorManaged zero_FleetStats) with 0 in Hsup.
  change (AwaitingFullState zero_FleetStats) with 0 in Haw.
  rewrite Z.add_0_l in Hsize, Hdis, Hnon, Hsup, Haw.
  split; [|by apply Collect_series].
  intros s. unfold Collect. rewrite Hsize, Hdis, Hnon, Hsup, Haw.
  rewrite !elem_of_app, list_elem_of_fmap, !elem_of_cons. split.
  - intros [([k v] & -> & [-> Hpos]%Hroute)|[Hs|Hs]].
    + apply (exported_connected limit r k). lia.
    + repeat destruct Hs as [->|Hs]; [constructor..|by apply not_elem_of_nil in Hs].
    + destruct (Z.ltb_spec limit (zlen (List r))); [by apply not_elem_of_nil in Hs|].
      apply elem_of_agent_series in Hs as (a & Ha & [[Hh ->]| ->]%elem_of_agent_samples);
        by constructor.
  - intros [k Hk| | | | | | |a Hl Ha Hh|a Hl Ha]; try (right; left; tauto).
    + left. exists (k, Z.of_nat (count (on_route k) (List r))). split; [done|].
      apply Hroute. split; [done|lia].
    + do 2 right. destruct (Z.ltb_spec limit (zlen (List r))); [lia|].
      apply elem_of_agent_series. exists a. split; [done|]. apply elem_of_agent_samples. by left.
    + do 2 right. destruct (Z.ltb_spec limit (zlen (List r))); [lia|].
      apply elem_of_agent_series. exists a. split; [done|]. apply elem_of_agent_samples. by right.
Qed.

(** The counters and the gauges tell one story.  Over any run of the
    handler from an empty fleet (with at least two missed heartbeats allowed
    and a threshold that fits a [time.Duration]), the connects counted less
    the disconnects counted are the sum of the connected gauges a scrape then
    exports, and the gateway gauge stands at the live gateway connections. *)
Theorem counters_match_gauges c l :
  ShardCount c < 2 ^ 32 →
  0 < HeartbeatInterval c → 2 ≤ StaleMissedHeartbeats c →
  HeartbeatInterval c * StaleMissedHeartbeats c ≤ int64_max →
  sys_valid l (sys_init c) →
  let w := sys_run l (sys_init c) in
  let log := log_of w.2 in
  increments "grex_agent_connects_total" [] log - increments "grex_agent_disconnects_total" [] log =
    foldr Z.add 0 (range_routes (StatsConnected (Aggregate (registry w.1)))).*2 ∧
  gauge_level "grex_gateway_connections" log = Z.of_nat (gateways (conns w.1)).
Proof.
  intros Hsh HH HS HM Hv w log.
  assert (wf (registry (sys_init c))) as Hwf by (by apply wf_New).
  assert (wf (registry w.1)) as Hwf' by (by apply sys_run_wf).
  split.
  - destruct (sys_run_ops l (sys_init c)) as [ops Hops].
    pose proof (do_ops_balance ops (registry (sys_init c)) Hwf (threshold_le (cfg (registry (sys_init c))) HH HS HM)) as Hb.
    rewrite Hops in Hb. cbn [fst snd] in Hb. fold w in Hb.
    unfold log. rewrite !(fleet_counter _ w.2) by done.
    rewrite connects_count, disconnects_count, (routes_total (registry w.1)) by apply range_routes_perm.
    rewrite <-online_List by done. assert (online (flat (registry (sys_init c))) = 0%nat) as H0.
    { by apply online_New. }
    lia.
  - pose proof (sys_run_gateways l (sys_init c) Hv) as Hg. fold w in Hg.
    change (gateways (conns (sys_init c))) with 0%nat in Hg.
    unfold gauge_level, log.
    rewrite (count_log is_opened (is_gauge_inc "grex_gateway_connections")) by (by intros [| | | | |[]]).
    rewrite (count_log is_closed (is_gauge_dec "grex_gateway_connections")) by (by intros [| | | | |[]]).
    lia.
Qed.

End claims.

(** ** Witnesses *)

Definition routes_by_key : RouteRange :=
  {| range_routes m := map_to_list m; range_routes_perm m := Permutation_refl _ |}.

#[local] Existing Instance routes_by_key.

Lemma scrape_correct_witness :
  let r := (Report 0 msg1 meta1 (New cfg1)).1 in
  mkSample "grex_agents_connected" ["ws"; "gateway"] (float64 1) ∈ Collect 10 r r ∧
  mkSample "grex_agent_health" [id1] (float64 1) ∈ Collect 10 r r ∧
  NoDup (series <$> Collect 10 r (New cfg1)).
Proof.
  intros r. assert (wf r) as Hwf by (apply (act_wf (ActReport 0 msg1 meta1)); by apply wf_New).
  destruct (scrape_correct 10 r Hwf) as [Hin Hnd].
  split; [|split; [|by apply Hnd, wf_New]]; apply Hin.
  - assert (count (on_route ("ws", "gateway")) (List r) = 1%nat) as Hc by (vm_compute; reflexivity).
    pose proof (exported_connected 10 r ("ws", "gateway")) as H. rewrite Hc in H.
    exact (H Nat.lt_0_1).
  - assert (∃ a, Get r id1 = Some a ∧ InstanceUID a = id1 ∧ HealthReported a = true ∧ Healthy a = true)
      as (a & Ha & Hu & Hh & Hhe).
    { eexists. split; [vm_compute; reflexivity|]. repeat split. }
    pose proof (exported_health 10 r a) as H. rewrite Hu, Hhe in H. apply H.
    + vm_compute. discriminate.
    + rewrite elem_of_List, <-Get_flat, Hu by exact Hwf. exact Ha.
    + exact Hh.
Defined.

Lemma counters_match_gauges_witness :
  let w := sys_run gateway_run (sys_init cfg1) in
  increments "grex_agent_connects_total" [] (log_of w.2) = 1 ∧
  increments "grex_agent_disconnects_total" [] (log_of w.2) = 1 ∧
  foldr Z.add 0 (range_routes (StatsConnected (Aggregate (registry w.1)))).*2 = 0 ∧
  gauge_level "grex_gateway_connections" (log_of w.2) = 1.
Proof.
  intros w. assert (sys_valid gateway_run (sys_init cfg1)) as Hv.
  { vm_compute. split_and!; try done; by eexists. }
  destruct (counters_match_gauges cfg1 gateway_run) as [H1 H2].
  - vm_compute. reflexivity.
  - vm_compute. reflexivity.
  - vm_compute. discriminate.
  - vm_compute. discriminate.
  - exact Hv.
  - fold w in H1, H2.
    assert (increments "grex_agent_connects_total" [] (log_of w.2) = 1) as Hc
      by (vm_compute; reflexivity).
    assert (increments "grex_agent_disconnects_total" [] (log_of w.2) = 1) as Hd
      by (vm_compute; reflexivity).
    rewrite Hc, Hd in H1. split; [exact Hc|]. split; [exact Hd|].
    split; [symmetry; exact H1|]. rewrite H2. vm_compute. reflexivity.
Defined.
