(* ===== verification/Workers.v ===== *)
(** * The two persistence goroutines, from start to shutdown

    [Flusher.Run] of internal/persistence/flush.go, [SessionSnapshotter.Run] of
    session_snapshot.go and [writeWithTimeout] of write.go.  [Flush] has the
    steps of one flush; here a [runner] decides when one starts: on a tick,
    under the context it was given, or, once that is done, for a last time
    under a fresh one, after which it returns.  The select takes either case
    when both are ready.  A write begun under a done context fails; one in
    flight when the context ends may still land, or fail.  The theorems: an
    orderly shutdown leaves nothing behind; a cancellation that interrupts a
    flush, or a tick taken after it, loses what had been drained and was not
    in flight; the last snapshot writes only the rows that are due. *)

From Stdlib Require Import ZArith Lia.
From S2P Require Import Prelude GoLang GoTime Fleet Registry RegistryProps Filter Store Flush Demo.
From S2P Require Import Durable Snapshot Metrics.
Local Open Scope Z_scope.

(** ** Timed writes and the metrics of construction *)

(** [writeWithTimeout]: the write's error, and one observation of how long it
    took, whatever came of it; [metrics] may be nil. *)
Definition writeWithTimeout {A} (metrics : bool) (op : string) (elapsed : Duration)
    (do : option A) : writer MetricOp (option A) :=
  (do, if metrics then ObserveWriteDuration op elapsed else []).

(** What [NewFlusher] and [NewSessionSnapshotter] set. *)
Definition NewFlusher_metrics (metrics : bool) (interval : Duration) : list MetricOp :=
  if metrics then
    SetWriteTimeout "save_agent" interval ++ SetWriteTimeout "soft_delete_agent" interval ++
    SetWriteTimeout "upsert_agent_connection" interval
  else [].

Definition NewSessionSnapshotter_metrics (metrics : bool) (interval : Duration) : list MetricOp :=
  if metrics then SetWriteTimeout "save_session" interval else [].

(** ** Flusher.Run *)

(** Waiting in the select; in [flushOnce], under the context given or the fresh
    one of the last flush; returned. *)
Inductive phase := Waiting | Flushing (final : bool) | Returned.

Record runner := mkRunner {
  rn_flusher : flusher;
  rn_phase : phase;
  rn_done : bool;             (* ctx is cancelled *)
  rn_inflight : nat           (* the tasks that were running then and still are *)
}.

Inductive rinput :=
  | ROp (o : action)          (* the registry, concurrently *)
  | RCancel
  | RTick                     (* case <-ticker.C *)
  | RDone                     (* case <-ctx.Done() *)
  | RNext                     (* the next step of flushOnce *)
  | RFinish (i : nat) (now : Time) (landed : bool).

Section runner.
Context `{PB : Protobuf, UU : UUID, MR : MapRange, PT : PgTime}.

(** Where [Run] is once its flush has no step left. *)
Definition after (final : bool) (f : flusher) : phase :=
  match fl_stage f with
  | Idle => if final then Returned else Waiting
  | _ => Flushing final
  end.

(** The tasks of a stage that hold a slot. *)
Definition running_count (st : stage) : nat :=
  match st with
  | Saving p _ _ => length (running p)
  | Deleting p _ => length (running p)
  | Connecting p => length (running p)
  | Idle | Looking _ _ _ _ => 0
  end.

(** Whether running task [j] began before the context was cancelled: the pool
    puts the tasks it starts in front. *)
Definition in_flight (rn : runner) (j : nat) : bool :=
  (running_count (fl_stage (rn_flusher rn)) <=? j + rn_inflight rn)%nat.

(** A write may land under a context that is not done, or when it was in flight
    as the context ended. *)
Definition may_land (rn : runner) (final : bool) (j : nat) : bool :=
  final || negb (rn_done rn) || in_flight rn j.

Definition runner_step (c : FlusherConfig) (i : rinput) (rn : runner) : option runner :=
  let flush x p k :=
    f ← flush_step c x (rn_flusher rn); Some (mkRunner f (p f) (rn_done rn) k) in
  let k := rn_inflight rn in
  match i, rn_phase rn with
  | ROp o, p => flush (FOp o) (λ _, p) k
  | RCancel, p =>
      Some (mkRunner (rn_flusher rn) p true
              (if rn_done rn then k else running_count (fl_stage (rn_flusher rn))))
  | RTick, Waiting => flush FNext (λ _, Flushing false) k
  | RDone, Waiting => if rn_done rn then flush FNext (λ _, Flushing true) k else None
  | RNext, Flushing final => flush FNext (after final) k
  | RFinish j now landed, Flushing final =>
      flush (FFinish j now (landed && may_land rn final j)) (λ _, Flushing final)
        (if in_flight rn j then pred k else k)
  | _, _ => None
  end.

Fixpoint runner_run (c : FlusherConfig) (l : list rinput) (rn : runner) : option runner :=
  match l with
  | [] => Some rn
  | i :: l => rn ← runner_step c i rn; runner_run c l rn
  end.

Definition runner_init (c : Config) : runner := mkRunner (flush_init c) Waiting false 0.

(** ** Orderly runs *)

(** The input of the flusher a runner's input is. *)
Definition finput_of (i : rinput) : option finput :=
  match i with
  | ROp o => Some (FOp o)
  | RCancel => None
  | RTick | RDone | RNext => Some FNext
  | RFinish j now landed => Some (FFinish j now landed)
  end.

(** A run as an operator hopes for: the context is cancelled between two
    flushes, the select does not take a tick after that, writes land and the
    reports of an agent advance the clock. *)
Fixpoint orderly (c : FlusherConfig) (l : list rinput) (rn : runner) : bool :=
  match l with
  | [] => true
  | i :: l =>
      (match i with
       | RCancel => match rn_phase rn with Waiting => true | _ => false end
       | RTick => negb (rn_done rn)
       | _ => true
       end) &&
      (match finput_of i with Some x => input_ok x (rn_flusher rn) | None => true end) &&
      match runner_step c i rn with Some rn' => orderly c l rn' | None => true end
  end.

(** Of an orderly run: no flush is under a done context, and the phase tells
    whether one is in progress. *)
Definition runner_ok (rn : runner) : Prop :=
  (rn_done rn = true → rn_phase rn ≠ Flushing false) ∧
  (rn_phase rn = Waiting ∨ rn_phase rn = Returned → fl_stage (rn_flusher rn) = Idle) ∧
  fsync (rn_flusher rn).

Lemma flush_next_stage c f f' : flush_step c FNext f = Some f' → fl_stage f = Idle → fl_stage f' ≠ Idle.
Proof. destruct f as [r d db st]. cbn. intros Hn ->. by injection Hn as <-. Qed.

Lemma fop_stage c o f f' : flush_step c (FOp o) f = Some f' → fl_stage f' = fl_stage f.
Proof. cbn [flush_step]. destruct (act o (fl_registry f)) as [r es]. by intros [= <-]. Qed.

Lemma runner_step_ok c i l rn rn' :
  runner_ok rn → orderly c (i :: l) rn = true → runner_step c i rn = Some rn' →
  runner_ok rn' ∧ orderly c l rn' = true.
Proof.
  intros (Hctx & Hidle & Hs) Ho Hstep. cbn [orderly] in Ho. rewrite Hstep in Ho.
  apply andb_true_iff in Ho as [Ho Hl]. apply andb_true_iff in Ho as [Hi Hok]. split; [|exact Hl]. clear Hl.
  destruct rn as [f p d k]. unfold runner_step, runner_ok in *.
  cbn [rn_flusher rn_phase rn_done rn_inflight] in *.
  destruct i as [o| | | | |j now landed]; cbn [finput_of] in Hok.
  - apply bind_Some in Hstep as (f' & Hf & [= <-]). cbn. split_and!; [done| |by eapply flush_step_sync].
    rewrite (fop_stage _ _ _ _ Hf). done.
  - injection Hstep as <-. cbn. split_and!; [|done|done]. intros _. by destruct p.
  - destruct p as [|final|]; [|done|done].
    apply bind_Some in Hstep as (f' & Hf & [= <-]). cbn.
    split_and!; [by destruct d|by intros [?|?]|by eapply flush_step_sync].
  - destruct p as [|final|]; [|done|done]. destruct d; [|done].
    apply bind_Some in Hstep as (f' & Hf & [= <-]). cbn.
    split_and!; [done|by intros [?|?]|by eapply flush_step_sync].
  - destruct p as [|final|]; [done| |done].
    apply bind_Some in Hstep as (f' & Hf & [= <-]). cbn. split_and!; [| |by eapply flush_step_sync].
    + intros Hd. specialize (Hctx Hd). unfold after. destruct final; [|done]. by destruct (fl_stage f').
    + unfold after. by destruct (fl_stage f'), final; intros [?|?].
  - destruct p as [|final|]; [done| |done].
    apply bind_Some in Hstep as (f' & Hf & [= <-]). cbn. split_and!; [done|by intros [?|?]|].
    eapply flush_step_sync; [exact Hs| |exact Hf]. cbn in *.
    rewrite Hok. unfold may_land. cbn. destruct d, final; try done. by destruct (Hctx eq_refl).
Qed.

Lemma runner_run_ok c l rn rn' :
  runner_ok rn → orderly c l rn = true → runner_run c l rn = Some rn' → runner_ok rn'.
Proof.
  revert rn. induction l as [|i l IH]; intros rn Hok Ho; [by intros [= <-]|].
  cbn [runner_run]. intros (rn1 & Hs & Hr)%bind_Some.
  destruct (runner_step_ok c i l rn rn1 Hok Ho Hs) as [Hok1 Ho1]. by apply (IH rn1).
Qed.

Lemma runner_init_ok c : ShardCount c < 2 ^ 32 → runner_ok (runner_init c).
Proof. intros Hc. split_and!; [done|done|exact (sync_init c Hc)]. Qed.

(** The goroutine's own inputs. *)
Definition own_input (i : rinput) : bool :=
  match i with RDone | RNext | RFinish _ _ _ => true | _ => false end.

(** A last flush can always be brought to its end. *)
Lemma final_ends c (now : Time) n f d k :
  fl_stage f ≠ Idle → (work (fl_stage f) ≤ n)%nat →
  ∃ l rn', runner_run c l (mkRunner f (Flushing true) d k) = Some rn' ∧
    orderly c l (mkRunner f (Flushing true) d k) = true ∧ forallb own_input l = true ∧
    (length l ≤ n)%nat ∧ rn_phase rn' = Returned ∧
    fl_registry (rn_flusher rn') = fl_registry f ∧ fl_dirty (rn_flusher rn') = fl_dirty f.
Proof.
  revert f k. induction n as [|n IH]; intros f k Hst Hn.
  { destruct f as [r dirty db []]; simpl in *; by try lia. }
  destruct (flush_progress c f now Hst) as (i & f1 & Hi & Hok & Hf1 & Hcase).
  destruct (flush_step_work c i f f1 Hi Hst Hf1) as (Hlt & Hr & Hd).
  set (ri := match i with FFinish j now' landed => RFinish j now' landed | _ => RNext end).
  set (p1 := match i with FFinish _ _ _ => Flushing true | _ => after true f1 end).
  assert (∃ k1, runner_step c ri (mkRunner f (Flushing true) d k) = Some (mkRunner f1 p1 d k1))
    as [k1 Hs].
  { subst ri p1. destruct Hcase as [->| ->]; unfold runner_step;
      cbn [rn_phase rn_flusher rn_done rn_inflight].
    - rewrite Hf1. by eexists.
    - unfold may_land. cbn [andb orb]. rewrite Hf1. by eexists. }
  assert (own_input ri = true ∧ ∀ l, orderly c l (mkRunner f1 p1 d k1) = true →
    orderly c (ri :: l) (mkRunner f (Flushing true) d k) = true) as [Hown Hord].
  { subst ri. split; [by destruct Hcase as [->| ->]|]. intros l Hl. cbn [orderly]. rewrite Hs, Hl.
    by destruct Hcase as [->| ->]. }
  assert (p1 = Returned ∧ fl_stage f1 = Idle ∨ p1 = Flushing true ∧ fl_stage f1 ≠ Idle) as [[Hp Hi1]|[Hp Hi1]].
  { subst p1. destruct Hcase as [->| ->].
    - unfold after. destruct (fl_stage f1); [by left|right; by split..].
    - right. split; [done|]. clear -Hf1. unfold flush_step, flush_finish in Hf1.
      destruct (fl_stage f); try done; by apply bind_Some in Hf1 as (? & _ & [= <-]). }
  - exists [ri], (mkRunner f1 p1 d k1). cbn [runner_run]. rewrite Hs. cbn [mbind option_bind].
    cbn [forallb]. rewrite Hown.
    split_and!; [done|by apply Hord|done|simpl; lia|done..].
  - rewrite Hp in *. destruct (IH f1 k1 Hi1) as (l & rn' & Hl & Ho & Hf & Hlen & Hret & Hr' & Hd'); [lia|].
    exists (ri :: l), rn'. cbn [runner_run forallb]. rewrite Hs, Hown. cbn [mbind option_bind].
    split_and!; [exact Hl|by apply Hord|exact Hf|simpl; lia|done|congruence|congruence].
Qed.

(** ** The claims *)

(** C4: an orderly shutdown leaves nothing behind.  Whatever the registry does
    meanwhile, when the context is cancelled between two flushes and writes
    land: once [Run] has returned, every agent not marked since its last flush
    began reads back from the database with the facts of the registry; and
    from any state in which it waits with its context done, the last flush
    runs to its end within a bound on what is dirty and leaves every agent in
    sync. *)
Theorem final_flush_catches_up cfg0 c l rn (now : Time) :
  ShardCount cfg0 < 2 ^ 32 →
  orderly c l (runner_init cfg0) = true →
  runner_run c l (runner_init cfg0) = Some rn →
  (rn_phase rn = Returned → ∀ id, fl_dirty (rn_flusher rn) !! id = None →
     in_sync (fl_registry (rn_flusher rn)) (fl_db (rn_flusher rn)) id) ∧
  (rn_phase rn = Waiting → rn_done rn = true →
     ∃ l' rn', runner_run c (RDone :: l') rn = Some rn' ∧ forallb own_input l' = true ∧
       (length l' ≤ 7 * size (fl_dirty (rn_flusher rn)) + 4)%nat ∧
       rn_phase rn' = Returned ∧ fl_registry (rn_flusher rn') = fl_registry (rn_flusher rn) ∧
       ∀ id, in_sync (fl_registry (rn_flusher rn')) (fl_db (rn_flusher rn')) id).
Proof.
  intros Hc Ho Hrun. pose proof (runner_run_ok c l _ rn (runner_init_ok cfg0 Hc) Ho Hrun) as Hok.
  destruct Hok as (Hctx & Hidle & Hs). split.
  - intros Hret id Hd. apply settled_in_sync. apply (sy_settled _ _ _ _ _ _ _ Hs); [done| |set_solver].
    rewrite (Hidle (or_intror Hret)). apply not_elem_of_nil.
  - intros Hw Hd. specialize (Hidle (or_introl Hw)).
    destruct rn as [f p d k]. cbn [rn_flusher rn_phase rn_done] in *. subst p d.
    destruct (flush_step c FNext f) as [f1|] eqn:Hf1.
    2: { exfalso. destruct f as [r dirty db st]. simpl in *. by subst st. }
    assert (fsync f1) as Hs1 by (by apply (flush_step_sync c FNext f)).
    assert (work (fl_stage f1) = (7 * size (fl_dirty f) + 4)%nat ∧ fl_dirty f1 = ∅ ∧
      fl_registry f1 = fl_registry f ∧ fl_stage f1 ≠ Idle) as (Hw1 & Hd1 & Hr1 & Hst1).
    { destruct f as [r dirty db st]. cbn [fl_stage] in Hidle. subst st. injection Hf1 as <-.
      split_and!; [|reflexivity|reflexivity|discriminate]. simpl.
      rewrite length_fmap, range_perm, length_map_to_list. simpl. lia. }
    destruct (final_ends c now _ f1 true k Hst1 (Nat.le_refl _))
      as (l' & rn' & Hl' & Ho' & Hown & Hlen & Hret & Hr' & Hd').
    exists l', rn'. cbn [runner_run runner_step rn_phase rn_done rn_flusher rn_inflight]. rewrite Hf1.
    cbn [mbind option_bind]. rewrite Hw1 in Hlen. split_and!; [exact Hl'|done..|congruence|].
    intros id. apply settled_in_sync.
    assert (runner_ok (mkRunner f1 (Flushing true) true k)) as Hok1.
    { split_and!; [done| |exact Hs1]. by intros [?|?]. }
    destruct (runner_run_ok c l' _ rn' Hok1 Ho' Hl') as (_ & Hidle' & Hs').
    apply (sy_settled _ _ _ _ _ _ _ Hs'); [by rewrite Hd', Hd1| |set_solver].
    rewrite (Hidle' (or_intror Hret)). apply not_elem_of_nil.
Qed.

(** ** A cancelled flush *)

(** The ids whose agents row each running task writes, and those of the tasks
    in flight. *)
Definition running_ids (st : stage) : list (list string) :=
  match st with
  | Saving p _ _ => (λ a, [InstanceUID a]) <$> running p
  | Deleting p _ => running p
  | Connecting p => (λ _, []) <$> running p
  | Idle | Looking _ _ _ _ => []
  end.

Definition in_flight_ids (rn : runner) : list string :=
  let st := fl_stage (rn_flusher rn) in
  concat (drop (running_count st - rn_inflight rn) (running_ids st)).

(** What the database holds of an agent. *)
Definition rows_of (d : DB) (id : string) :
    option agents_row * option session_row * option (gmap string string) :=
  (t_agents d !! id, t_session d !! id, t_config d !! id).

(** No step of the registry notifies [id] along the run. *)
Fixpoint silent (c : FlusherConfig) (id : string) (l : list rinput) (rn : runner) : bool :=
  match l with
  | [] => true
  | i :: l =>
      (match i with
       | ROp o => bool_decide (id ∉ event_id <$> (act o (fl_registry (rn_flusher rn))).2)
       | _ => true
       end) &&
      match runner_step c i rn with Some rn' => silent c id l rn' | None => true end
  end.

Lemma running_ids_length st : length (running_ids st) = running_count st.
Proof. destruct st; simpl; by rewrite ?length_fmap. Qed.

(** The tasks in flight among those left when task [j] ends. *)
Lemma drop_delete {A} (l : list A) (j k : nat) :
  (j < length l)%nat → (k ≤ length l)%nat →
  let k' := if (length l <=? j + k)%nat then pred k else k in
  (k' ≤ length (delete j l))%nat ∧
  ∀ x, x ∈ drop (length (delete j l) - k') (delete j l) → x ∈ drop (length l - k) l.
Proof.
  intros Hj Hk k'. rewrite length_delete by (by apply lookup_lt_is_Some).
  assert (∀ x i, l !! i = Some x → (length l - k ≤ i)%nat → x ∈ drop (length l - k) l) as Hin.
  { intros x i Hx Hi. apply (list_elem_of_lookup_2 _ (i - (length l - k))).
    rewrite lookup_drop, <-Hx. f_equal. lia. }
  unfold k'. destruct (Nat.leb_spec (length l) (j + k)); (split; [lia|]);
    intros x [i Hi]%list_elem_of_lookup; rewrite lookup_drop in Hi;
    match type of Hi with delete _ _ !! ?n = _ =>
      destruct (decide (n < j)%nat);
        [rewrite list_lookup_delete_lt in Hi by done|rewrite list_lookup_delete_ge in Hi by lia];
        (eapply Hin; [exact Hi|lia]) end.
Qed.

Lemma elem_of_concat {A} (l : list (list A)) x : x ∈ concat l ↔ ∃ ys, ys ∈ l ∧ x ∈ ys.
Proof. setoid_rewrite list_elem_of_In. apply in_concat. Qed.

Lemma start_task_front {T} m (p p' : Pool T) :
  start_task m p = Some p' → ∃ t, running p' = t :: running p.
Proof.
  unfold start_task. destruct (waiting p) as [|t w]; [done|]. destruct (_ <? _)%nat; [|done].
  intros [= <-]. by exists t.
Qed.

(** The next step of a flush writes nothing and adds nothing to what is in
    flight. *)
Lemma flush_next_flight c f f' k :
  wf (fl_registry f) → fl_stage f ≠ Idle → flush_next c f = Some f' →
  (k ≤ running_count (fl_stage f))%nat →
  fl_db f' = fl_db f ∧ fl_dirty f' = fl_dirty f ∧ fl_registry f' = fl_registry f ∧
  (k ≤ running_count (fl_stage f'))%nat ∧
  drop (running_count (fl_stage f') - k) (running_ids (fl_stage f')) =
    drop (running_count (fl_stage f) - k) (running_ids (fl_stage f)) ∧
  ∀ id, id ∈ busy (fl_stage f') → id ∈ busy (fl_stage f).
Proof.
  intros Hwf Hst. unfold flush_next, busy. destruct f as [r dirty d st]. simpl in *.
  destruct st as [|[|id ids] tasks ev conn|p ev conn|p conn|p]; [done|..]; simpl.
  - intros [= <-] Hk. simpl. split_and!; [done..|]. rewrite app_nil_r. intros id. set_solver.
  - destruct (Get r id) as [a|] eqn:Ha; intros [= <-] Hk; simpl; split_and!; try done; intros u.
    + rewrite fmap_app. csimpl. rewrite (Get_uid r id a Hwf Ha). set_solver.
    + set_solver.
  - destruct (pool_done p) eqn:Hd.
    + intros [= <-] Hk. simpl. pose proof (pool_done_nil p Hd) as [Hw Hr]%app_eq_nil.
      rewrite Hw, Hr in *. simpl in *. split_and!; [done..|].
      rewrite !app_nil_r, (proj1 (chunk_spec ev defaultBatchSize)). set_solver.
    + intros (p' & Hp & [= <-])%bind_Some Hk. simpl.
      pose proof (start_task_perm _ _ _ Hp) as Hperm. apply start_task_front in Hp as [t Hp].
      split_and!; [done..| | |].
      * rewrite Hp. simpl. lia.
      * rewrite Hp, fmap_cons, length_cons, Nat.sub_succ_l by done. done.
      * intros u. rewrite Hperm. done.
  - destruct (pool_done p) eqn:Hd.
    + intros [= <-] Hk. simpl. pose proof (pool_done_nil p Hd) as [Hw Hr]%app_eq_nil.
      rewrite Hw, Hr in *. simpl in *. split_and!; [done..|]. set_solver.
    + intros (p' & Hp & [= <-])%bind_Some Hk. simpl.
      pose proof (concat_perm _ _ (start_task_perm _ _ _ Hp)) as Hperm.
      apply start_task_front in Hp as [t Hp]. split_and!; [done..| | |].
      * rewrite Hp. simpl. lia.
      * rewrite Hp, length_cons, Nat.sub_succ_l by done. done.
      * intros u. rewrite Hperm. done.
  - destruct (pool_done p) eqn:Hd.
    + intros [= <-] Hk. simpl. pose proof (pool_done_nil p Hd) as [Hw Hr]%app_eq_nil.
      rewrite Hr in *. simpl in *. split_and!; [done..|lia|done|done].
    + intros (p' & Hp & [= <-])%bind_Some Hk. simpl. apply start_task_front in Hp as [t Hp].
      split_and!; [done..| | |done].
      * rewrite Hp. simpl. lia.
      * rewrite Hp, fmap_cons, length_cons, Nat.sub_succ_l by done. done.
Qed.

(** Writes about other agents leave the rows of [id] alone. *)
Lemma save_task_rows landed a d id :
  db_ok d → (landed = true → id ≠ InstanceUID a) → rows_of (save_task landed a d) id = rows_of d id.
Proof.
  intros Hd Hid. destruct landed; [|done]. unfold rows_of.
  change (save_task true a d) with (do_write (WSaveAgent a) d).
  destruct (SaveAgent_other id a d Hd) as (-> & -> & ->); [|done]. intros Heq. by apply Hid.
Qed.

Lemma delete_task_rows now landed ids d id :
  (landed = true → id ∉ ids) → rows_of (delete_task now landed ids d) id = rows_of d id.
Proof.
  intros Hid. unfold delete_task. destruct landed; [|done]. specialize (Hid eq_refl).
  rewrite (SendBatch_total (λ id d, SoftDeleteAgent id now d)). simpl. revert d.
  induction ids as [|u ids IH]; intros d; [done|]. apply not_elem_of_cons in Hid as [Hne Hid]. simpl.
  rewrite (IH Hid). unfold rows_of. destruct (SoftDeleteAgent_other_tables u now d) as [-> ->].
  by rewrite SoftDeleteAgent_lookup, decide_False.
Qed.

Lemma task_ok :
  (∀ landed a d, db_ok d → db_ok (save_task landed a d)) ∧
  (∀ now landed ids d, db_ok d → db_ok (delete_task now landed ids d)) ∧
  (∀ c now landed ids d, db_ok d → db_ok (connection_task c now landed ids d)).
Proof.
  split_and!.
  - intros [] a d Hd; [|done]. exact (do_write_ok (WSaveAgent a) d Hd).
  - intros now [] ids d; [|done]. unfold delete_task.
    rewrite (SendBatch_total (λ id d, SoftDeleteAgent id now d)). simpl.
    revert d. induction ids as [|u ids IH]; intros d Hd; [done|].
    apply IH. exact (do_write_ok (WSoftDelete u now) d Hd).
  - intros c now [] ids d [H1 H2]; [|done].
    destruct (connection_task_tables c now ids d) as (Ha & Hs & Hc). split; by rewrite ?Ha, ?Hs, ?Hc.
Qed.

(** The end of a task, seen by an agent it does not write when it lands. *)
Lemma flush_finish_rows c j now landed f f' :
  flush_finish c j now landed f = Some f' → db_ok (fl_db f) →
  fl_dirty f' = fl_dirty f ∧ fl_registry f' = fl_registry f ∧ db_ok (fl_db f') ∧
  fl_stage f' ≠ Idle ∧ running_ids (fl_stage f') = delete j (running_ids (fl_stage f)) ∧
  (∀ id, id ∈ busy (fl_stage f') → id ∈ busy (fl_stage f)) ∧
  ∃ ids, running_ids (fl_stage f) !! j = Some ids ∧ (∀ id, id ∈ ids → id ∈ busy (fl_stage f)) ∧
    ∀ id, (landed = true → id ∉ ids) → rows_of (fl_db f') id = rows_of (fl_db f) id.
Proof.
  destruct task_ok as (Hsave & Hdel & Hconn). unfold flush_finish, busy. destruct f as [r dirty d st].
  destruct st as [|ids tasks ev conn|p ev conn|p conn|p]; simpl; [done|done|..];
    intros ([t p'] & Hp & [= <-])%bind_Some Hdb; simpl;
    pose proof (finish_task_perm _ _ _ _ Hp) as Hperm;
    pose proof (finish_task_running _ _ _ _ Hp) as Hrun;
    apply bind_Some in Hp as (x & Hx & [= -> <-]); simpl in *.
  - split_and!; [done|done|by apply Hsave|done|by rewrite list_fmap_delete| |].
    + intros u. rewrite Hperm. csimpl. set_solver.
    + exists [InstanceUID t]. rewrite list_lookup_fmap, Hrun. split_and!; [done| |].
      * intros u ->%list_elem_of_singleton. rewrite Hperm. csimpl. set_solver.
      * intros u Hu. apply save_task_rows; [done|]. intros Hl. specialize (Hu Hl).
        by rewrite list_elem_of_singleton in Hu.
  - apply concat_perm in Hperm. simpl in Hperm.
    split_and!; [done|done|by apply Hdel|done|done| |].
    + intros u. rewrite Hperm. set_solver.
    + exists t. split_and!; [done|intros u; rewrite Hperm; set_solver|].
      intros u Hu. by apply delete_task_rows.
  - split_and!; [done|done|by apply Hconn|done|by rewrite list_fmap_delete|done|].
    exists []. rewrite list_lookup_fmap, Hrun. split_and!; [done|by intros u ?%not_elem_of_nil|].
    intros u _. destruct landed; [|done]. unfold rows_of.
    by destruct (connection_task_tables c now t d) as (-> & -> & ->).
Qed.

(** What holds of every reachable runner. *)
Record runner_wf (rn : runner) : Prop := {
  rw_wf : wf (fl_registry (rn_flusher rn));
  rw_db : db_ok (fl_db (rn_flusher rn));
  rw_flight : (rn_inflight rn ≤ running_count (fl_stage (rn_flusher rn)))%nat;
  rw_phase : (∃ final, rn_phase rn = Flushing final) ↔ fl_stage (rn_flusher rn) ≠ Idle;
  rw_done : rn_phase rn = Flushing true → rn_done rn = true
}.

(** What holds of an agent out of the flush's hands once the context is done. *)
Record forgotten (id : string) (rn : runner) : Prop := {
  fg_wf : runner_wf rn;
  fg_done : rn_done rn = true;
  fg_clean : fl_dirty (rn_flusher rn) !! id = None;
  fg_flight : id ∉ in_flight_ids rn;
  fg_final : rn_phase rn = Flushing true → id ∉ busy (fl_stage (rn_flusher rn))
}.

Lemma drain_step c f f' :
  fl_stage f = Idle → flush_step c FNext f = Some f' →
  fl_stage f' = Looking (range (fl_dirty f)).*1 [] [] [] ∧ fl_dirty f' = ∅ ∧
  fl_registry f' = fl_registry f ∧ fl_db f' = fl_db f.
Proof. destruct f as [r dirty d st]. cbn. intros ->. by intros [= <-]. Qed.

Lemma flushing_after final f :
  (∃ b, after final f = Flushing b) ↔ fl_stage f ≠ Idle.
Proof.
  unfold after. destruct (fl_stage f); (split; [|by eauto]); [|done..].
  by destruct final; intros [b ?].
Qed.

Lemma after_true final f : after final f = Flushing true → final = true.
Proof. unfold after. destruct (fl_stage f), final; congruence. Qed.

Lemma waiting_idle rn :
  runner_wf rn → (∀ final, rn_phase rn ≠ Flushing final) → fl_stage (rn_flusher rn) = Idle.
Proof.
  intros Hw Hp. destruct (rw_phase rn Hw) as [_ H].
  destruct (fl_stage (rn_flusher rn)); [done|..]; by destruct (H ltac:(done)) as [final ?%Hp].
Qed.

Lemma fop_step c o f f' :
  flush_step c (FOp o) f = Some f' →
  fl_registry f' = (act o (fl_registry f)).1 ∧
  fl_dirty f' = notify_all (fl_dirty f) (act o (fl_registry f)).2 ∧
  fl_db f' = fl_db f ∧ fl_stage f' = fl_stage f.
Proof. cbn [flush_step]. destruct (act o (fl_registry f)) as [r es]. by intros [= <-]. Qed.

(** The start of a flush, from a runner that waits. *)
Lemma drain_wf c rn f' final :
  runner_wf rn → (∀ b, rn_phase rn ≠ Flushing b) → (final = true → rn_done rn = true) →
  flush_step c FNext (rn_flusher rn) = Some f' →
  runner_wf (mkRunner f' (Flushing final) (rn_done rn) (rn_inflight rn)).
Proof.
  intros Hw Hp Hfin Hf. pose proof (waiting_idle rn Hw Hp) as Hi.
  destruct (drain_step c _ f' Hi Hf) as (Hs & _ & Hr & Hd). destruct Hw as [H1 H2 H3 _ _].
  rewrite Hi in H3. split; cbn; rewrite ?Hs, ?Hr, ?Hd; [done|done|done| |by intros [= ->]; apply Hfin].
  split; [done|by eauto].
Qed.

Lemma runner_step_wf c i rn rn' : runner_wf rn → runner_step c i rn = Some rn' → runner_wf rn'.
Proof.
  intros Hw Hstep. pose proof Hw as [H1 H2 H3 H4 H5]. unfold runner_step in Hstep.
  destruct i as [o| | | | |j now landed].
  - apply bind_Some in Hstep as (f' & (Hr & _ & Hd & Hs)%fop_step & [= <-]).
    split; cbn; rewrite ?Hr, ?Hd, ?Hs; try done. by apply act_wf.
  - injection Hstep as <-. split; cbn; try done. by destruct (rn_done rn).
  - destruct (rn_phase rn) as [|final|] eqn:Hp; [|done|done].
    apply bind_Some in Hstep as (f' & Hf & [= <-]). eapply drain_wf; [done| |done|done]. by rewrite Hp.
  - destruct (rn_phase rn) as [|final|] eqn:Hp; [|done|done].
    destruct (rn_done rn) eqn:Hd; [|done]. apply bind_Some in Hstep as (f' & Hf & [= <-]).
    rewrite <-Hd. eapply drain_wf; [done|by rewrite Hp|by rewrite Hd|done].
  - destruct (rn_phase rn) as [|final|] eqn:Hp; [done| |done].
    apply bind_Some in Hstep as (f' & Hf & [= <-]).
    assert (fl_stage (rn_flusher rn) ≠ Idle) as Hst by (apply H4; eauto).
    destruct (flush_next_flight c _ f' (rn_inflight rn) H1 Hst Hf H3) as (Hd & _ & Hr & Hk & _).
    split; cbn; rewrite ?Hr, ?Hd; [done|done|done|apply flushing_after|].
    intros ->%after_true. by apply H5.
  - destruct (rn_phase rn) as [|final|] eqn:Hp; [done| |done].
    apply bind_Some in Hstep as (f' & Hf & [= <-]). cbn [flush_step] in Hf.
    destruct (flush_finish_rows _ _ _ _ _ f' Hf H2) as (_ & Hr & Hdb & Hst & Hids & _ & ids & Hj & _).
    pose proof (drop_delete (running_ids (fl_stage (rn_flusher rn))) j (rn_inflight rn)) as Hdd.
    rewrite <-Hids, !running_ids_length in Hdd.
    destruct Hdd as [Hk _]; [rewrite <-running_ids_length; by eapply lookup_lt_Some|done|].
    split; cbn; rewrite ?Hr; [done|done|exact Hk|split; eauto|done].
Qed.

Lemma runner_init_wf c : ShardCount c < 2 ^ 32 → runner_wf (runner_init c).
Proof.
  intros Hc. split; cbn; [by apply wf_New|apply empty_DB_ok|done| |done].
  split; [by intros [? ?]|done].
Qed.

Lemma runner_run_wf c l rn rn' : runner_wf rn → runner_run c l rn = Some rn' → runner_wf rn'.
Proof.
  revert rn. induction l as [|i l IH]; intros rn Hw; [by intros [= <-]|].
  cbn [runner_run]. intros (rn1 & Hs & Hr)%bind_Some. apply (IH rn1); [|done]. by eapply runner_step_wf.
Qed.

Lemma forgotten_step c id i rn rn' :
  forgotten id rn →
  (∀ o, i = ROp o → id ∉ event_id <$> (act o (fl_registry (rn_flusher rn))).2) →
  runner_step c i rn = Some rn' →
  forgotten id rn' ∧ rows_of (fl_db (rn_flusher rn')) id = rows_of (fl_db (rn_flusher rn)) id.
Proof.
  intros [Hw Hdone Hclean Hfl Hfin] Hsil Hstep.
  pose proof (runner_step_wf c i rn rn' Hw Hstep) as Hw'.
  pose proof Hw as [H1 H2 H3 H4 H5]. unfold runner_step in Hstep. unfold in_flight_ids in Hfl.
  destruct i as [o| | | | |j now landed].
  - apply bind_Some in Hstep as (f' & (_ & Hdi & Hd & Hs)%fop_step & [= <-]). cbn. rewrite Hd.
    split; [|done]. split; cbn; unfold in_flight_ids; cbn; rewrite ?Hs; try done.
    rewrite Hdi. apply notify_all_dirty. split; [done|by apply Hsil].
  - injection Hstep as <-. split; [|done]. split; cbn; try done.
    unfold in_flight_ids. cbn. by rewrite Hdone.
  - destruct (rn_phase rn) as [|final|] eqn:Hp; [|done|done].
    apply bind_Some in Hstep as (f' & Hf & [= <-]).
    destruct (drain_step c _ f' (waiting_idle rn Hw ltac:(by rewrite Hp)) Hf) as (Hs & Hdi & _ & Hd).
    cbn. rewrite Hd. split; [|done]. split; cbn; [done|done|by rewrite Hdi| |done].
    unfold in_flight_ids. cbn. rewrite Hs. cbn. rewrite drop_nil. apply not_elem_of_nil.
  - destruct (rn_phase rn) as [|final|] eqn:Hp; [|done|done].
    rewrite Hdone in Hstep. apply bind_Some in Hstep as (f' & Hf & [= <-]).
    destruct (drain_step c _ f' (waiting_idle rn Hw ltac:(by rewrite Hp)) Hf) as (Hs & Hdi & _ & Hd).
    cbn. rewrite Hd. split; [|done]. split; cbn; [done|done|by rewrite Hdi| |].
    + unfold in_flight_ids. cbn. rewrite Hs. cbn. rewrite drop_nil. apply not_elem_of_nil.
    + intros _. rewrite Hs. unfold busy. cbn. rewrite app_nil_r.
      intros ([u []] & Hu & Hin%elem_of_range)%list_elem_of_fmap. cbn in Hu. subst u.
      by rewrite Hclean in Hin.
  - destruct (rn_phase rn) as [|final|] eqn:Hp; [done| |done].
    apply bind_Some in Hstep as (f' & Hf & [= <-]).
    assert (fl_stage (rn_flusher rn) ≠ Idle) as Hst by (apply H4; eauto).
    destruct (flush_next_flight c _ f' (rn_inflight rn) H1 Hst Hf H3) as (Hd & Hdi & _ & _ & Hi & Hb).
    cbn. rewrite Hd. split; [|done]. split; cbn; [done|done|by rewrite Hdi| |].
    + unfold in_flight_ids. cbn. by rewrite Hi.
    + intros ->%after_true Hin%Hb. by apply Hfin.
  - destruct (rn_phase rn) as [|final|] eqn:Hp; [done| |done].
    apply bind_Some in Hstep as (f' & Hf & [= <-]). cbn [flush_step] in Hf.
    destruct (flush_finish_rows _ _ _ _ _ f' Hf H2)
      as (Hdi & _ & _ & _ & Hids & Hb & ids & Hj & Hbusy & Hrows).
    pose proof (drop_delete (running_ids (fl_stage (rn_flusher rn))) j (rn_inflight rn)) as Hdd.
    rewrite <-Hids, !running_ids_length in Hdd.
    destruct Hdd as [_ Hdd]; [rewrite <-running_ids_length; by eapply lookup_lt_Some|done|].
    cbn. split.
    + split; cbn; [done|done|by rewrite Hdi| |].
      * unfold in_flight_ids. cbn. intros (l & Hl%Hdd & Hin)%elem_of_concat.
        apply Hfl, elem_of_concat. eauto.
      * intros Hf' Hin%Hb. injection Hf' as ->. by apply Hfin.
    + apply Hrows. unfold may_land, in_flight. rewrite Hdone.
      intros [_ [Hf1|Hf1]%orb_true_iff]%andb_true_iff Hin.
      * rewrite orb_false_r in Hf1. subst final. by apply Hfin, Hbusy.
      * apply Nat.leb_le in Hf1. apply Hfl, elem_of_concat. exists ids. split; [|done].
        apply (list_elem_of_lookup_2 _ (j - (running_count (fl_stage (rn_flusher rn)) - rn_inflight rn))).
        rewrite lookup_drop, <-Hj. f_equal. lia.
Qed.

Lemma forgotten_run c id l rn rn' :
  forgotten id rn → silent c id l rn = true → runner_run c l rn = Some rn' →
  forgotten id rn' ∧ rows_of (fl_db (rn_flusher rn')) id = rows_of (fl_db (rn_flusher rn)) id.
Proof.
  revert rn. induction l as [|i l IH]; intros rn Hf Hs; cbn [runner_run silent] in *; [by intros [= <-]|].
  apply andb_true_iff in Hs as [Hi Hs]. intros (rn1 & Hs1 & Hr)%bind_Some. rewrite Hs1 in Hs.
  destruct (forgotten_step c id i rn rn1 Hf) as [Hf1 <-]; [|done|by apply IH].
  intros o ->. by apply bool_decide_eq_true in Hi.
Qed.

(** C38: cancelling in the middle of a flush loses what it had drained and not
    begun to write.  Take any moment after the context was cancelled and
    before the last flush began, and an agent that is neither marked nor among
    the writes that were in flight at the cancellation: one the interrupted
    flush still had to look up, save or delete, or one a tick taken since has
    drained.  Unless a new notification names the agent, nothing writes its
    agents, session and config rows any more: not the rest of that flush, not
    a later tick, not the last flush, up to the return of [Run] and whichever
    writes land; and it is still unmarked, so nothing will. *)
Theorem cancelled_flush_loses cfg0 c l0 l rn rn' id :
  ShardCount cfg0 < 2 ^ 32 → runner_run c l0 (runner_init cfg0) = Some rn →
  rn_done rn = true → rn_phase rn ≠ Flushing true →
  fl_dirty (rn_flusher rn) !! id = None → id ∉ in_flight_ids rn →
  silent c id l rn = true → runner_run c l rn = Some rn' →
  t_agents (fl_db (rn_flusher rn')) !! id = t_agents (fl_db (rn_flusher rn)) !! id ∧
  t_session (fl_db (rn_flusher rn')) !! id = t_session (fl_db (rn_flusher rn)) !! id ∧
  t_config (fl_db (rn_flusher rn')) !! id = t_config (fl_db (rn_flusher rn)) !! id ∧
  fl_dirty (rn_flusher rn') !! id = None.
Proof.
  intros Hc Hrun0 Hd Hp Hclean Hfl Hs Hrun.
  assert (forgotten id rn) as Hf.
  { split; try done. eapply runner_run_wf; [by apply runner_init_wf|done]. }
  destruct (forgotten_run c id l rn rn' Hf Hs Hrun) as [Hf' Hrows]. injection Hrows as -> -> ->.
  split_and!; [done..|]. apply (fg_clean _ _ Hf').
Qed.

(** ** SessionSnapshotter.Run *)

(** One snapshot per tick, and a last one when the context is done; what else
    writes session rows in between keeps the tables' keys and never takes a row
    back.  A pass is its instant, the registry it lists, and how its chunks
    finish. *)
Record pass := mkPass { ps_now : Time; ps_registry : Registry; ps_order : list (list Agent * bool) }.

(** A pass that works: its registry is sound, its agents have rows and its
    batches land. *)
Definition pass_ok (d : DB) (p : pass) : Prop :=
  wf (ps_registry p) ∧ Forall (λ t, t.2 = true) (ps_order p) ∧
  ∀ a, a ∈ List (ps_registry p) → is_Some (t_agents d !! InstanceUID a).

Definition run_pass (m : Z) (p : pass) (sd sd' : SessionSnapshotter * DB) : Prop :=
  pass_ok sd.2 p ∧ snapshotOnce m (ps_now p) (ps_registry p) (ps_order p) sd sd'.

Inductive SnapshotRun (m : Z) : SessionSnapshotter * DB → list pass → SessionSnapshotter * DB → Prop :=
  | run_done p sd sd' : run_pass m p sd sd' → SnapshotRun m sd [p] sd'
  | run_tick p l sd sd1 sd' :
      run_pass m p sd sd1 → SnapshotRun m sd1 l sd' → SnapshotRun m sd (p :: l) sd'
  | run_env s d d' l sd' :
      newer d d' → db_ok d' → SnapshotRun m (s, d') l sd' → SnapshotRun m (s, d) l sd'.

Lemma sn_ok_newer s d d' : newer d d' → sn_ok s d → sn_ok s d'.
Proof.
  intros Hn [H1 H2 H3]. split; [done|done|]. intros id w Hw.
  destruct (H3 id w Hw) as (row & Hr & Hle). destruct (Hn id row Hr) as (row' & Hr' & Hle').
  exists row'. split; [done|lia].
Qed.

Lemma run_pass_ok m p s d sd' :
  sn_ok s d → db_ok d → run_pass m p (s, d) sd' →
  sn_ok sd'.1 sd'.2 ∧ db_ok sd'.2 ∧ sn_keepalive sd'.1 = sn_keepalive s.
Proof.
  intros Hsn Hdb ((Hwf & Hland & Hrows) & Hsnap).
  destruct (snapshotOnce_lands m _ _ _ s d sd' Hwf Hdb Hsn Hrows Hsnap Hland) as (H1 & H2 & _ & H3 & _).
  done.
Qed.

(** When the snapshotter has returned, what it last wrote is fresh: an agent
    heard from within the keepalive does not read as stale to a sibling for
    one more tick. *)
Lemma SnapshotRun_fresh m s d l sd' disconnectAfter tick eps :
  SnapshotRun m (s, d) l sd' → sn_ok s d → db_ok d →
  (∀ t, t < pg_time t + eps) → 0 ≤ disconnectAfter < int64_max → 0 ≤ tick →
  0 ≤ sn_keepalive s → sn_keepalive s + tick ≤ disconnectAfter →
  ∃ p, last l = Some p ∧ sn_ok sd'.1 sd'.2 ∧
    ∀ a, a ∈ List (ps_registry p) → ps_now p - LastSeen a < sn_keepalive s →
      ∃ b, GetAgent (InstanceUID a) sd'.2 = Some (Some b) ∧
        ∀ t, ps_now p ≤ t → t + eps ≤ ps_now p + tick → StaleConnected b t disconnectAfter = false.
Proof.
  intros Hrun. remember (s, d) as sd eqn:Hsd. revert s d Hsd.
  induction Hrun as [p sd sd' Hp|p l sd sd1 sd' Hp Hrun IH|s0 d0 d' l sd' Hn Hdb' Hrun IH];
    intros s d Hsd Hsn Hdb Heps Hthr Htick Hkpos Hmargin.
  - subst sd. destruct Hp as ((Hwf & Hland & Hrows) & Hsnap). exists p. split; [done|].
    destruct (snapshot_pass_fresh m _ _ _ s d sd' disconnectAfter tick eps Hwf Hdb Hsn Hrows
      Heps Hthr Htick Hkpos Hmargin Hsnap Hland) as (Hsn' & _ & _ & Hf). done.
  - subst sd. destruct sd1 as [s1 d1]. destruct (run_pass_ok m p s d (s1, d1) Hsn Hdb Hp) as (Hsn1 & Hdb1 & Hk).
    cbn [fst snd] in *. rewrite <-Hk in *.
    destruct (IH s1 d1 eq_refl Hsn1 Hdb1 Heps Hthr Htick Hkpos Hmargin) as (q & Hq & Hrest).
    exists q. split; [|exact Hrest]. by destruct l.
  - injection Hsd as -> ->. apply (IH s d' eq_refl); try done. by apply (sn_ok_newer s d).
Qed.

Lemma SaveSession_other a d d' id :
  SaveSession a d = Some d' → id ≠ InstanceUID a → t_session d' !! id = t_session d !! id.
Proof.
  intros Hs Hne. unfold SaveSession, saveSessionUpsert in Hs.
  repeat case_match; simplify_eq; simpl; by rewrite ?lookup_insert_ne.
Qed.

Lemma session_batch_other l d id :
  id ∉ InstanceUID <$> l →
  t_session (SendBatch ((λ a d, SaveSession a d) <$> l) d).2 !! id = t_session d !! id.
Proof.
  intros Hid. unfold SendBatch.
  destruct (run_batch ((λ a d, SaveSession a d) <$> l) d) as [oks [d'|]] eqn:Hrun; [|done]. simpl.
  revert d oks Hrun. induction l as [|a l IH]; intros d oks; csimpl; [by intros [= _ <-]|].
  rewrite fmap_cons, not_elem_of_cons in Hid. destruct Hid as [Hne Hid].
  destruct (SaveSession a d) as [d1|] eqn:Hs; [|done].
  destruct (run_batch _ d1) as [oks1 o] eqn:Hr. intros [= _ ->].
  rewrite (IH Hid d1 oks1 Hr). by apply (SaveSession_other a).
Qed.

(** A snapshot leaves the rows that are not due alone, the last one too: an
    agent whose recorded write is younger than the keepalive keeps the row it
    has, however it has changed since. *)
Theorem snapshot_skips m now r order s d sd' a :
  wf r → sn_ok s d → a ∈ List r → is_due now s a = false →
  snapshotOnce m now r order (s, d) sd' →
  t_session sd'.2 !! InstanceUID a = t_session d !! InstanceUID a.
Proof.
  intros Hwf Hsn Ha Hnot Hsnap. unfold snapshotOnce in Hsnap. cbn [fst snd] in Hsnap.
  destruct (due_spec now r s d Hwf Hsn) as (Hdue & _). destruct (due now r s) as [s1 agents].
  cbn [fst snd] in *. destruct Hsnap as [Horder ->].
  assert (InstanceUID a ∉ InstanceUID <$> concat order.*1) as Hid.
  { rewrite (concat_perm _ _ (runConcurrent_perm m _ _ Horder)), (proj1 (chunk_spec agents defaultBatchSize)).
    rewrite Hdue. intros (b & Hu & [Hb Hin]%list_elem_of_filter)%list_elem_of_fmap.
    assert (a = b) as -> by (by apply (NoDup_fmap_inj InstanceUID (List r)); [apply List_NoDup_uid|..]).
    congruence. }
  clear Horder. clear Hdue Hsn Hnot. revert s1 d Hid. induction order as [|[l landed] order IH]; intros s1 d Hid; [done|].
  rewrite fmap_cons in Hid. cbn [concat fst] in Hid. rewrite fmap_app, not_elem_of_app in Hid.
  destruct Hid as [H1 H2]. cbn [foldl fst snd]. unfold snapshot_task at 2.
  destruct landed; [|by apply IH].
  pose proof (session_batch_other l d (InstanceUID a) H1) as Hb.
  destruct (SendBatch _ d) as [oks d1]. cbn [snd] in Hb. rewrite <-Hb. by apply IH.
Qed.

End runner.

(** ** Concrete runs *)

(** An agent connects, a flush drains and looks it up, and the context is
    cancelled before its save begins. *)
Definition interrupted : list rinput :=
  [ROp (ActReport 5000000 msg1 meta1); RTick; RNext; RNext; RCancel].

(** Every write of the rest would have landed; then the last flush. *)
Definition wound_up : list rinput :=
  [RNext; RFinish 0 0 true; RNext; RNext; RNext; RFinish 0 6000000 true; RNext].

Definition last_flush : list rinput := [RDone; RNext; RNext; RNext; RNext].

Definition runner_at (l : list rinput) : runner :=
  default (runner_init cfg_one) (runner_run one_slot l (runner_init cfg_one)).

Lemma cancelled_flush_loses_witness :
  let rn := runner_at interrupted in
  let rn' := runner_at (interrupted ++ wound_up ++ last_flush) in
  id1 ∈ busy (fl_stage (rn_flusher rn)) ∧
  t_agents (fl_db (rn_flusher rn')) !! id1 = t_agents (fl_db (rn_flusher rn)) !! id1 ∧
  rn_phase rn' = Returned ∧ fl_dirty (rn_flusher rn') = ∅ ∧
  is_Some (Get (fl_registry (rn_flusher rn')) id1) ∧
  GetAgent id1 (fl_db (rn_flusher rn')) = Some None.
Proof.
  intros rn rn'. split; [apply (bool_decide_unpack _); vm_compute; exact I|]. split.
  - apply (cancelled_flush_loses cfg_one one_slot interrupted (wound_up ++ last_flush) rn rn' id1).
    + vm_compute. reflexivity.
    + vm_compute. reflexivity.
    + vm_compute. reflexivity.
    + vm_compute. discriminate.
    + vm_compute. reflexivity.
    + apply (bool_decide_unpack _). vm_compute. exact I.
    + vm_compute. reflexivity.
    + vm_compute. reflexivity.
  - split; [vm_compute; reflexivity|]. split; [vm_compute; reflexivity|].
    split; [vm_compute; eexists; reflexivity|vm_compute; reflexivity].
Defined.

(** A save in flight at the cancellation may land, or fail. *)
Example in_flight_may_land :
  let after b := fl_db (rn_flusher (runner_at
    [ROp (ActReport 5000000 msg1 meta1); RTick; RNext; RNext; RNext; RCancel; RFinish 0 0 b])) in
  (∃ a, GetAgent id1 (after true) = Some (Some a)) ∧ GetAgent id1 (after false) = Some None.
Proof. split; [eexists|]; vm_compute; reflexivity. Qed.

Lemma final_flush_catches_up_witness :
  let rn := runner_at [ROp (ActReport 5000000 msg1 meta1); RCancel] in
  ∃ l' rn', runner_run one_slot (RDone :: l') rn = Some rn' ∧ rn_phase rn' = Returned ∧
    is_Some (Get (fl_registry (rn_flusher rn')) id1) ∧
    in_sync (fl_registry (rn_flusher rn')) (fl_db (rn_flusher rn')) id1.
Proof.
  intros rn.
  destruct (final_flush_catches_up cfg_one one_slot [ROp (ActReport 5000000 msg1 meta1); RCancel] rn 0)
    as [_ H]; [vm_compute; reflexivity..|].
  destruct H as (l' & rn' & Hl & _ & _ & Hret & Hr & Hs); [vm_compute; reflexivity..|].
  exists l', rn'. split; [exact Hl|]. split; [exact Hret|]. split; [|apply Hs].
  rewrite Hr. vm_compute. eexists. reflexivity.
Defined.

(** A snapshotter that wrote the agent a millisecond ago. *)
Definition sn_recent : SessionSnapshotter :=
  foldr recordWritten sn_one agents_one.

Lemma sn_recent_ok : sn_ok sn_recent db_one.
Proof.
  assert (sn_written sn_recent = {[id1 := mkSessionWrite 5000000 0]}) as Hw by (vm_compute; reflexivity).
  split; [vm_compute; split; [discriminate|reflexivity]|..]; intros id w; rewrite Hw;
    intros [<- <-]%lookup_singleton_Some.
  - vm_compute. reflexivity.
  - vm_compute. eexists. split; [reflexivity|discriminate].
Qed.

Lemma snapshot_skips_witness :
  ∃ a sd', snapshotOnce 4 6000000 fleet_one [] (sn_recent, db_one) sd' ∧ a ∈ List fleet_one ∧
    t_session sd'.2 !! InstanceUID a = t_session db_one !! InstanceUID a.
Proof.
  assert (∃ a, List fleet_one = [a] ∧ is_due 6000000 sn_recent a = false) as (a & Ha & Hd).
  { eexists. split; [vm_compute; reflexivity|vm_compute; reflexivity]. }
  assert (a ∈ List fleet_one) as Hin by (rewrite Ha; left).
  set (sd' := ((due 6000000 fleet_one sn_recent).1, db_one)).
  assert (snapshotOnce 4 6000000 fleet_one [] (sn_recent, db_one) sd') as Hsnap.
  { assert (chunk (due 6000000 fleet_one sn_recent).2 defaultBatchSize = []) as Hchunk
      by (vm_compute; reflexivity).
    unfold snapshotOnce, sd'. cbn [fst snd]. revert Hchunk.
    destruct (due 6000000 fleet_one sn_recent) as [s1 l]. cbn [fst snd]. intros ->.
    split; [apply runConcurrent_in_order|reflexivity]. }
  exists a, sd'. split; [exact Hsnap|]. split; [exact Hin|].
  exact (snapshot_skips 4 6000000 fleet_one [] sn_recent db_one sd' a wf_fleet_one sn_recent_ok Hin Hd Hsnap).
Defined.
