(* ===== verification/Purge.v ===== *)
(** * The purge job: soft-deleted rows leave after their retention

    internal/persistence/purge.go.  [Work] is the worker over the database of
    [Store]; [purger] is a database that replicas write while the River client
    of [NewPurgeClient] schedules and works purge jobs.  River (not under src/)
    decides when a job fires, how long it stays queued, whether a failed one is
    tried again and when it is given up: every such schedule is a list of
    [pinput].  The theorems: however late a job runs, no row is removed before
    its retention is over; a job that completes leaves no row behind that was
    due when it fired, and counts what it removed; with River's periodic
    schedule a row is covered by a job at most an hour after its retention,
    which stays queued until it completes or River gives it up. *)

From Stdlib Require Import ZArith Lia.
From S2P Require Import Prelude GoLang Fleet Registry Store Metrics.
Local Open Scope Z_scope.

(** ** The job *)

Definition purgeJobID : string := "purge-evicted-agents".

Record PurgeEvictedAgentsArgs := mkPurgeEvictedAgentsArgs { Before : Time }.

(** [PurgeEvictedAgentsArgs.Kind]. *)
Definition Kind : string := "purge_evicted_agents".

(** What [pool.Exec] came back with: an error before or after the statement
    took effect, or the tag. *)
Inductive Exec := Refused | Unanswered | Answered.

(** [NewPeriodicJob] and its options, as River is given them. *)
Record PeriodicJob := mkPeriodicJob {
  pj_interval : Duration;
  pj_args : Time → PurgeEvictedAgentsArgs;    (* the constructor, by the clock *)
  pj_ID : string;
  pj_RunOnStart : bool
}.

(** River's periodic scheduler: the instants at which a client started at
    [start] fires a job. *)
Class River := { fires : PeriodicJob → Time → nat → Time }.

(** Its documentation: the first firing is at the start with RunOnStart and an
    interval later without it, the next ones an interval apart. *)
Class RiverLaws (R : River) := {
  fires_first j start :
    fires j start 0 = (if pj_RunOnStart j then start else start + pj_interval j);
  fires_next j start k : fires j start (S k) = fires j start k + pj_interval j
}.

(** [NewPurgeClient]'s periodic job. *)
Definition periodicJob (softDeleteDuration : Duration) : PeriodicJob :=
  mkPeriodicJob Hour (λ now, mkPurgeEvictedAgentsArgs (now - softDeleteDuration)) purgeJobID true.

(** ** The worker, and its database *)

Record purger := mkPurger {
  pu_now : Time;
  pu_db : DB;
  pu_queue : list PurgeEvictedAgentsArgs;
  pu_metrics : list MetricOp
}.

#[export] Instance eta_purger : Eta purger := λ p,
  mkPurger (pu_now p) (pu_db p) (pu_queue p) (pu_metrics p).

(** [PClock]: time passes.  [PWrite]: a replica writes an agent table.
    [PFire]: the periodic job fires.  [PWork]: the [i]-th queued job is worked;
    on an error it stays queued.  [PDiscard]: River gives a job up. *)
Inductive pinput :=
  | PClock (elapsed : Duration)
  | PWrite (w : write)
  | PFire
  | PWork (i : nat) (o : Exec)
  | PDiscard (i : nat).

Section purge.
Context `{PT : PgTime}.

(** [PurgeWorker.Work]; [metrics] may be nil. *)
Definition Work (metrics : bool) (o : Exec) (job : PurgeEvictedAgentsArgs) (d : DB) :
    DB * writer MetricOp bool :=
  let '(d', n) := purge (Before job) d in
  match o with
  | Refused => (d, (false, []))
  | Unanswered => (d', (false, []))
  | Answered => (d', (true, if (0 <? n) && metrics then AgentsPurged n else []))
  end.

(** The replicas write what the store offers but a purge, and stamp a soft
    delete with a time that has come; nothing calls [DeleteAgent]. *)
Definition write_allowed (now : Time) (w : write) : bool :=
  match w with
  | WSaveAgent _ | WSaveSession _ => true
  | WSoftDelete _ at_ => at_ <=? now
  | WDelete _ | WPurge _ => false
  end.

Definition purger_step (soft : Duration) (i : pinput) (p : purger) : option purger :=
  match i with
  | PClock elapsed => if 0 <=? elapsed then Some (p <| pu_now := pu_now p + elapsed |>) else None
  | PWrite w =>
      if write_allowed (pu_now p) w then Some (p <| pu_db := do_write w (pu_db p) |>) else None
  | PFire => Some (p <| pu_queue := pu_queue p ++ [pj_args (periodicJob soft) (pu_now p)] |>)
  | PWork i o =>
      job ← pu_queue p !! i;
      let '(d, (ok, es)) := Work true o job (pu_db p) in
      Some (p <| pu_db := d |> <| pu_metrics := pu_metrics p ++ es |>
              <| pu_queue := if ok : bool then delete i (pu_queue p) else pu_queue p |>)
  | PDiscard i => _ ← pu_queue p !! i; Some (p <| pu_queue := delete i (pu_queue p) |>)
  end.

Fixpoint purger_run (soft : Duration) (l : list pinput) (p : purger) : option purger :=
  match l with
  | [] => Some p
  | i :: l => p ← purger_step soft i p; purger_run soft l p
  end.

Definition purger_init (now : Time) : purger := mkPurger now empty_DB [] [].

(** ** What a purge does *)

(** The row was evicted before the cutoff. *)
Definition due (before : Time) (row : agents_row) : Prop :=
  ∃ e, ar_evicted_at row = Some e ∧ e < pg_time before.

Lemma survives_due before row : survives before row = false ↔ due before row.
Proof.
  unfold survives, due. destruct (ar_evicted_at row) as [e|].
  - rewrite negb_false_iff, Z.ltb_lt. split; [by exists e|]. by intros (e' & [= <-] & ?).
  - split; [done|]. by intros (? & ? & _).
Qed.

Lemma purge_spec before d :
  let d' := (purge before d).1 in
  (∀ u row, t_agents d' !! u = Some row ↔ t_agents d !! u = Some row ∧ ¬ due before row) ∧
  (∀ u, t_agents d' !! u = None → t_session d' !! u = None ∧ t_config d' !! u = None) ∧
  (∀ u, is_Some (t_agents d' !! u) →
     t_session d' !! u = t_session d !! u ∧ t_config d' !! u = t_config d !! u).
Proof.
  cbn zeta.
  assert (∀ {A} (m : gmap string A) (keep : gmap string agents_row) u,
    filter (λ p : string * A, is_Some (keep !! p.1)) m !! u =
    if decide (is_Some (keep !! u)) then m !! u else None) as Hkept.
  { intros A m keep u. rewrite map_lookup_filter. destruct (m !! u) as [x|]; simpl; [|by destruct (decide _)].
    destruct (decide (is_Some (keep !! u))) as [Hk|Hk].
    - by rewrite option_guard_True.
    - by rewrite option_guard_False. }
  split_and!.
  - intros u row. destruct (t_agents d !! u) as [row'|] eqn:Ha.
    + rewrite (purge_lookup before d u row' Ha). destruct (survives before row') eqn:E.
      * split; [|by intros [? _]]. intros [= <-]. split; [done|].
        intros Hd. apply survives_due in Hd. by rewrite Hd in E.
      * apply survives_due in E. split; [done|]. by intros [[= <-] Hn].
    + cbn. rewrite map_lookup_filter, Ha. cbn. split; [done|by intros [? _]].
  - intros u. cbn. intros Ha. rewrite !Hkept.
    destruct (decide _) as [Hs|Hs]; [|done]. rewrite Ha in Hs. by apply is_Some_None in Hs.
  - intros u Hs. cbn in *. rewrite !Hkept. by destruct (decide _).
Qed.

(** The number of rows a purge removes is the number that were due. *)
Lemma purge_count before d :
  (purge before d).2 =
  Z.of_nat (size (filter (λ p : string * agents_row, survives before p.2 = false) (t_agents d))).
Proof.
  unfold purge. cbn [snd].
  assert (size (t_agents d) =
    (size (filter (λ p : string * agents_row, survives before p.2 = true) (t_agents d)) +
     size (filter (λ p : string * agents_row, survives before p.2 = false) (t_agents d)))%nat)
    as Hsize; [|lia].
  rewrite <-(map_filter_union_complement
    (λ p : string * agents_row, survives before p.2 = true) (t_agents d)) at 1.
  rewrite map_size_disj_union by apply map_disjoint_filter_complement. f_equal. f_equal.
  apply map_filter_ext. intros u row _. cbn. by destruct (survives before row).
Qed.

(** ** The queue is behind the clock, and an eviction has its soft delete *)

Definition soft_deleted (l : list pinput) (u : string) (e : Time) : Prop :=
  ∃ t, PWrite (WSoftDelete u t) ∈ l ∧ e = pg_time t.

Definition queue_ok (soft : Duration) (p : purger) : Prop :=
  Forall (λ job, Before job ≤ pu_now p - soft) (pu_queue p).

Definition evictions_ok (l : list pinput) (d : DB) : Prop :=
  ∀ u row e, t_agents d !! u = Some row → ar_evicted_at row = Some e → soft_deleted l u e.

Lemma soft_deleted_mono l l' u e : l ⊆ l' → soft_deleted l u e → soft_deleted l' u e.
Proof. intros Hl (t & Ht & He). exists t. split; [by apply Hl|done]. Qed.

Lemma do_write_evictions l w d :
  db_ok d → evictions_ok l d → evictions_ok (l ++ [PWrite w]) (do_write w d).
Proof.
  intros Hok Hev u row e Ha He.
  assert (∀ row', t_agents d !! u = Some row' → ar_evicted_at row' = Some e →
    soft_deleted (l ++ [PWrite w]) u e) as Hold.
  { intros row' Ha' He'. eapply soft_deleted_mono; [|by eapply Hev]. set_solver. }
  destruct w as [a|a|uid t|uid|before]; cbn [do_write] in Ha.
  - destruct (SaveAgent_spec a d Hok) as (d' & Hs & Hag & _). rewrite Hs in Ha. cbn in Ha.
    rewrite Hag in Ha. destruct (decide (InstanceUID a = u)) as [<-|Hne].
    + destruct (t_agents d !! InstanceUID a) as [row'|] eqn:Hr.
      * destruct (ar_updated_at row' <? event_time a).
        -- rewrite lookup_insert_eq in Ha. injection Ha as <-. by apply (Hold row').
        -- apply (Hold row'); [done|]. rewrite Hr in Ha. by injection Ha as <-.
      * rewrite lookup_insert_eq in Ha. injection Ha as <-. done.
    + apply (Hold row); [|done]. destruct (match _ with None => true | _ => _ end); [|done].
      by rewrite lookup_insert_ne in Ha.
  - apply (Hold row); [|done]. unfold SaveSession, saveSessionUpsert in Ha.
    destruct (t_session d !! _); [by destruct (_ <=? _)|by destruct (t_agents d !! InstanceUID a)].
  - unfold SoftDeleteAgent in Ha. destruct (t_agents d !! uid) as [row'|] eqn:Hr; [|by apply (Hold row)].
    destruct (ar_evicted_at row') eqn:Hr'; [by apply (Hold row)|]. cbn in Ha.
    destruct (decide (uid = u)) as [<-|Hne].
    + rewrite lookup_insert_eq in Ha. injection Ha as <-. cbn in He. injection He as <-.
      exists t. split; [set_solver|done].
    + rewrite lookup_insert_ne in Ha by done. by apply (Hold row).
  - cbn in Ha. apply lookup_delete_Some in Ha as [_ Ha]. by apply (Hold row).
  - apply purge_spec in Ha as [Ha _]. by apply (Hold row).
Qed.

Definition purger_ok (soft : Duration) (l : list pinput) (p : purger) : Prop :=
  queue_ok soft p ∧ evictions_ok l (pu_db p) ∧ db_ok (pu_db p).

Lemma Work_db metrics o job d :
  (Work metrics o job d).1 = d ∧ o = Refused ∨
  (Work metrics o job d).1 = (purge (Before job) d).1 ∧ o ≠ Refused.
Proof. unfold Work. destruct (purge (Before job) d) as [d' n]. destruct o; [by left|by right..]. Qed.

Lemma Work_evictions metrics o job l d :
  evictions_ok l d → evictions_ok l (Work metrics o job d).1.
Proof.
  intros Hev. destruct (Work_db metrics o job d) as [[-> _]|[-> _]]; [done|].
  intros u row e Ha He. apply purge_spec in Ha as [Ha _]. by apply (Hev u row e).
Qed.

Lemma Work_ok metrics o job d : db_ok d → db_ok (Work metrics o job d).1.
Proof.
  intros Hok. destruct (Work_db metrics o job d) as [[-> _]|[-> _]]; [done|].
  by apply (do_write_ok (WPurge (Before job))).
Qed.

Lemma purger_work_step soft i o p p' :
  purger_step soft (PWork i o) p = Some p' →
  ∃ job, pu_queue p !! i = Some job ∧ pu_now p' = pu_now p ∧
    pu_db p' = (Work true o job (pu_db p)).1 ∧
    pu_metrics p' = pu_metrics p ++ (Work true o job (pu_db p)).2.2 ∧
    pu_queue p' = if (Work true o job (pu_db p)).2.1 then delete i (pu_queue p) else pu_queue p.
Proof.
  cbn [purger_step]. intros Hs. apply bind_Some in Hs as (job & Hj & Hs). exists job.
  destruct (Work true o job (pu_db p)) as [d [ok es]]. by injection Hs as <-.
Qed.

Lemma purger_step_ok soft i l p p' :
  purger_ok soft l p → purger_step soft i p = Some p' → purger_ok soft (l ++ [i]) p'.
Proof.
  intros (Hq & Hev & Hok) Hs.
  assert (evictions_ok (l ++ [i]) (pu_db p)) as Hev'.
  { intros u row e Ha He. eapply soft_deleted_mono; [|by eapply Hev]. set_solver. }
  unfold purger_ok, queue_ok in *. destruct i as [dt|w| |i o|i].
  - cbn in Hs. destruct (0 <=? dt) eqn:E; [|done]. apply Z.leb_le in E. injection Hs as <-. cbn.
    split_and!; [|done|done]. eapply Forall_impl; [exact Hq|]. cbn. unfold Time, Duration in *. lia.
  - cbn in Hs. destruct (write_allowed (pu_now p) w) eqn:E; [|done]. injection Hs as <-. cbn.
    split_and!; [done|by apply do_write_evictions|by apply do_write_ok].
  - injection Hs as <-. cbn. split_and!; [|done|done].
    apply Forall_app. split; [exact Hq|]. constructor; [cbn; lia|done].
  - apply purger_work_step in Hs as (job & Hj & Hn & Hd & _ & Hqu). rewrite Hn, Hd, Hqu.
    split_and!; [|by apply Work_evictions|by apply Work_ok].
    destruct (Work true o job (pu_db p)).2.1; [by apply Forall_delete|done].
  - cbn in Hs. apply bind_Some in Hs as (job & Hj & [= <-]). cbn.
    split_and!; [by apply Forall_delete|done|done].
Qed.

Lemma purger_run_ok soft l0 l p p' :
  purger_ok soft l0 p → purger_run soft l p = Some p' → purger_ok soft (l0 ++ l) p'.
Proof.
  revert l0 p. induction l as [|i l IH]; intros l0 p Hok Hr.
  - injection Hr as <-. by rewrite app_nil_r.
  - cbn in Hr. apply bind_Some in Hr as (q & Hs & Hr).
    rewrite (app_assoc l0 [i] l : l0 ++ i :: l = _).
    by eapply IH; [eapply purger_step_ok|].
Qed.

Lemma purger_init_ok soft now : purger_ok soft [] (purger_init now).
Proof.
  split_and!; [by constructor| |exact empty_DB_ok].
  intros u row e. cbn. by rewrite lookup_empty.
Qed.

(** No write a replica makes removes a row. *)
Lemma do_write_keeps now w u d :
  write_allowed now w = true → db_ok d → is_Some (t_agents d !! u) →
  is_Some (t_agents (do_write w d) !! u).
Proof.
  intros Hw Hok Ha. destruct w as [a|a|uid t|uid|before]; try done; cbn.
  - destruct (SaveAgent_spec a _ Hok) as (d' & -> & Hag & _). cbn. rewrite Hag.
    destruct (match _ with None => true | _ => _ end); [|done].
    apply lookup_insert_is_Some'. by right.
  - unfold SaveSession, saveSessionUpsert.
    destruct (t_session d !! _); [by destruct (_ <=? _)|].
    by destruct (t_agents d !! InstanceUID a).
  - unfold SoftDeleteAgent. destruct (t_agents d !! uid) as [row'|]; [|done].
    destruct (ar_evicted_at row'); [done|]. cbn. apply lookup_insert_is_Some'. by right.
Qed.

(** A step that removes a row is the work of a job that came due. *)
Lemma purger_step_removes soft l i p p' u row :
  purger_ok soft l p → purger_step soft i p = Some p' →
  t_agents (pu_db p) !! u = Some row → t_agents (pu_db p') !! u = None →
  (∃ j o, i = PWork j o) ∧
  ∃ e, ar_evicted_at row = Some e ∧ e < pg_time (pu_now p - soft).
Proof.
  intros (Hq & _ & Hok) Hs Ha Ha'. destruct i as [dt|w| |i o|i].
  - cbn in Hs. destruct (0 <=? dt); [|done]. injection Hs as <-. cbn in Ha'. by rewrite Ha in Ha'.
  - cbn in Hs. destruct (write_allowed (pu_now p) w) eqn:E; [|done]. injection Hs as <-. cbn in Ha'.
    destruct (do_write_keeps _ w u _ E Hok) as [x Hx]; [by rewrite Ha|]. by rewrite Ha' in Hx.
  - injection Hs as <-. cbn in Ha'. by rewrite Ha in Ha'.
  - split; [by eexists _, _|].
    apply purger_work_step in Hs as (job & Hj & _ & Hd & _). rewrite Hd in Ha'.
    destruct (Work_db true o job (pu_db p)) as [[Hdb _]|[Hdb _]]; rewrite Hdb in Ha';
      [by rewrite Ha in Ha'|].
    rewrite (purge_lookup _ _ u row Ha) in Ha'. destruct (survives (Before job) row) eqn:E; [done|].
    apply survives_due in E as (e & He & Hlt). exists e. split; [done|].
    assert (Before job ≤ pu_now p - soft) as Hb by (by eapply Forall_lookup_1 in Hq).
    pose proof (pg_time_mono _ _ Hb). unfold Time in *. lia.
  - cbn in Hs. apply bind_Some in Hs as (job & Hj & [= <-]). cbn in Ha'. by rewrite Ha in Ha'.
Qed.

(** A cutoff in the past of the column is one in the past of the clock. *)
Lemma pg_time_lt t u : pg_time t < pg_time u → t < u.
Proof. intros Hlt. destruct (Z.lt_ge_cases t u) as [?|Hge]; [done|]. pose proof (pg_time_mono _ _ Hge). lia. Qed.

(** ** The schedule *)

Context {R : River} {RL : RiverLaws R}.

Lemma fires_nth soft start k :
  fires (periodicJob soft) start k = start + Z.of_nat k * Hour.
Proof.
  induction k as [|k IH]; [rewrite fires_first; cbn; lia|].
  rewrite fires_next, IH. cbn [periodicJob pj_interval]. lia.
Qed.

(** The first firing from [T] on. *)
Lemma fires_from soft start T :
  ∃ k, T ≤ fires (periodicJob soft) start k < Z.max (T + Hour) (start + 1).
Proof.
  assert (Hour = 3600 * 10 ^ 9) as HH by (vm_compute; reflexivity).
  destruct (Z.le_gt_cases T start) as [Hle|Hgt].
  - exists 0%nat. rewrite fires_nth. lia.
  - exists (Z.to_nat ((T - start + Hour - 1) / Hour)). rewrite fires_nth.
    pose proof (Z.div_mod (T - start + Hour - 1) Hour ltac:(lia)) as Hd.
    pose proof (Z.mod_pos_bound (T - start + Hour - 1) Hour ltac:(lia)) as Hm.
    assert (0 ≤ (T - start + Hour - 1) / Hour) by (apply Z.div_pos; lia).
    rewrite Z2Nat.id by done. nia.
Qed.

Lemma queued_last {A} (l : list A) x : x ∈ l ++ [x].
Proof. apply elem_of_app. right. by left. Qed.

(** No row was evicted before [cutoff]. *)
Definition swept (cutoff : Time) (p : purger) : Prop :=
  ∀ u row, t_agents (pu_db p) !! u = Some row → ¬ due cutoff row.

(** River gives up a job with these arguments. *)
Definition given_up (job : PurgeEvictedAgentsArgs) (i : pinput) (p : purger) : Prop :=
  ∃ k, i = PDiscard k ∧ pu_queue p !! k = Some job.

Lemma purger_step_queued soft job i p p' :
  job ∈ pu_queue p → purger_step soft i p = Some p' →
  job ∈ pu_queue p' ∨ swept (Before job) p' ∨ given_up job i p.
Proof.
  intros Hj Hs. destruct i as [dt|w| |i o|i].
  - cbn in Hs. destruct (0 <=? dt); [|done]. injection Hs as <-. by left.
  - cbn in Hs. destruct (write_allowed (pu_now p) w); [|done]. injection Hs as <-. by left.
  - injection Hs as <-. left. cbn. set_solver.
  - apply purger_work_step in Hs as (job' & Hj' & _ & Hd & _ & Hq). rewrite Hq.
    unfold Work in *. destruct (purge (Before job') (pu_db p)) as [d n] eqn:E.
    destruct o; [by left|by left|]. cbn in *.
    rewrite <-(take_drop_middle _ _ _ Hj') in Hj.
    apply elem_of_app in Hj as [Hj|[->|Hj]%elem_of_cons].
    + left. rewrite delete_take_drop. set_solver.
    + right. left. intros u row. rewrite Hd. pose proof (purge_spec (Before job') (pu_db p)) as [Hp _].
      rewrite E in Hp. cbn in Hp. intros Ha. by apply Hp in Ha as [_ ?].
    + left. rewrite delete_take_drop. set_solver.
  - cbn in Hs. apply bind_Some in Hs as (job' & Hj' & [= <-]). cbn.
    rewrite <-(take_drop_middle _ _ _ Hj') in Hj.
    apply elem_of_app in Hj as [Hj|[->|Hj]%elem_of_cons]; [left|right; right; by exists i|left];
      rewrite delete_take_drop; set_solver.
Qed.

Lemma purger_run_queued soft job l p p' :
  job ∈ pu_queue p → purger_run soft l p = Some p' →
  job ∈ pu_queue p' ∨
  ∃ l1 l2 q, l = l1 ++ l2 ∧ purger_run soft l1 p = Some q ∧
    (swept (Before job) q ∨ ∃ i, head l2 = Some i ∧ given_up job i q).
Proof.
  revert p. induction l as [|i l IH]; intros p Hj Hr.
  - injection Hr as <-. by left.
  - cbn in Hr. apply bind_Some in Hr as (q & Hs & Hr).
    destruct (purger_step_queued soft job i p q Hj Hs) as [Hq|[Hq|Hq]].
    + destruct (IH q Hq Hr) as [?|(l1 & l2 & q' & -> & Hr' & Hsw)]; [by left|right].
      exists (i :: l1), l2, q'. split_and!; [done| |done]. cbn. by rewrite Hs.
    + right. exists [i], l, q. split_and!; [done| |by left]. cbn. by rewrite Hs.
    + right. exists [], (i :: l), p. split_and!; [done|done|]. right. by exists i.
Qed.

(** ** Properties *)

(** C18: retention.  Replicas save, refresh and soft-delete agents while purge
    jobs fire, wait, are tried again and are given up in any order.  Whenever a
    step removes a row, it is the work of a purge job; the row had been
    soft-deleted at some instant t, and by then more than the retention period
    had passed since t: an agent that was never soft-deleted, or was less than
    soft_delete_duration ago, keeps its row, whatever the lateness of the job
    and the precision of the column. *)
Theorem purge_respects_retention soft now l p i p' u row :
  purger_run soft l (purger_init now) = Some p →
  purger_step soft i p = Some p' →
  t_agents (pu_db p) !! u = Some row → t_agents (pu_db p') !! u = None →
  (∃ j o, i = PWork j o) ∧
  ∃ t, PWrite (WSoftDelete u t) ∈ l ∧ ar_evicted_at row = Some (pg_time t) ∧ t + soft < pu_now p.
Proof.
  intros Hr Hs Ha Ha'.
  pose proof (purger_run_ok soft [] l _ _ (purger_init_ok soft now) Hr) as Hok.
  destruct (purger_step_removes soft _ i p p' u row Hok Hs Ha Ha') as [Hi (e & He & Hlt)].
  split; [done|]. destruct Hok as (_ & Hev & _).
  destruct (Hev u row e Ha He) as (t & Ht & ->). exists t. split_and!; [done..|].
  apply pg_time_lt in Hlt. unfold Time, Duration in *. lia.
Qed.

(** What the worker does with a job.  When the statement takes effect, the
    agents left are exactly those not soft-deleted before the job's cutoff,
    with their session and configuration as they were, and a removed agent's
    session and configuration are gone too; a later worker of the same job
    finds nothing more to remove.  Answered, the counter goes up by the number
    of agents removed, and not at all when there are none or without metrics; an
    error leaves the counter alone, and either the database too or a purge that
    was not reported. *)
Theorem Work_functional metrics o job d :
  db_ok d →
  let n := size (filter (λ p : string * agents_row, survives (Before job) p.2 = false) (t_agents d)) in
  let '(d', (ok, es)) := Work metrics o job d in
  db_ok d' ∧ (ok = true ↔ o = Answered) ∧ (o = Refused → d' = d) ∧
  es = (if ok && metrics && (0 <? Z.of_nat n) then AgentsPurged (Z.of_nat n) else []) ∧
  (o ≠ Refused →
    (∀ u row, t_agents d' !! u = Some row ↔ t_agents d !! u = Some row ∧ ¬ due (Before job) row) ∧
    (∀ u, is_Some (t_agents d' !! u) → GetAgent u d' = GetAgent u d) ∧
    (∀ u, t_agents d' !! u = None → t_session d' !! u = None ∧ t_config d' !! u = None) ∧
    (purge (Before job) d').2 = 0).
Proof.
  intros Hok n. pose proof (Work_ok metrics o job d Hok) as Hok'.
  pose proof (Work_db metrics o job d) as Hdb. pose proof (purge_count (Before job) d) as Hn.
  pose proof (purge_spec (Before job) d) as (Hp1 & Hp2 & Hp3).
  unfold Work in *. destruct (purge (Before job) d) as [dp k] eqn:Ep. cbn [fst snd] in *.
  fold n in Hn. subst k.
  assert ((∀ u, is_Some (t_agents dp !! u) → GetAgent u dp = GetAgent u d) ∧
          (purge (Before job) dp).2 = 0) as [Hg Hz].
  { split.
    - intros u [row Hu]. destruct (Hp3 u) as [Hse Hc]; [by eexists|].
      apply GetAgent_ext; [|done..]. rewrite Hu. symmetry. by apply Hp1.
    - rewrite purge_count. apply (f_equal Z.of_nat (y := 0%nat)), map_size_empty_iff, map_empty.
      intros u. apply map_lookup_filter_None. right. intros row Hu. cbn. rewrite survives_due.
      by apply Hp1 in Hu as [_ ?]. }
  destruct o; cbn [andb]; (split_and!; [done|done|done||by intros|..]); try done.
  - by rewrite andb_comm.
Qed.

(** C24: what is due goes, or River gave up.  Take a row soft-deleted at t and
    an instant T more than the retention period later, as the column tells them
    apart: the client fires a purge job from T on, within the hour, or when it
    starts if that is later.  From then on, over every schedule, the job is
    queued, however often it fails, until one of two things happens: a worker
    completes it, and at that moment no row evicted at t, or at any other
    instant due by then, is left; or River gives the job up. *)
Theorem purge_completes soft start t T :
  pg_time t < pg_time (T - soft) →
  ∃ k, let fired := fires (periodicJob soft) start k in
    let job := mkPurgeEvictedAgentsArgs (fired - soft) in
    T ≤ fired ≤ Z.max (T + Hour) start ∧
    ∀ p l p', pu_now p = fired → purger_run soft (PFire :: l) p = Some p' →
      job ∈ pu_queue p' ∨
      ∃ l1 l2 q, l = l1 ++ l2 ∧ purger_run soft (PFire :: l1) p = Some q ∧
        ((∀ u row e, t_agents (pu_db q) !! u = Some row → e ≤ pg_time t → ar_evicted_at row ≠ Some e) ∨
         ∃ i l3, l2 = PDiscard i :: l3 ∧ pu_queue q !! i = Some job).
Proof.
  intros Hlt. destruct (fires_from soft start T) as [k Hk]. exists k. cbn zeta.
  set (fired := fires (periodicJob soft) start k) in *. split; [unfold Time, Duration in *; lia|].
  intros p l p' Hn Hr. cbn [purger_run mbind option_bind purger_step] in Hr. rewrite Hn in Hr.
  set (p1 := p <| pu_queue := _ |>) in Hr.
  assert (pj_args (periodicJob soft) fired ∈ pu_queue p1) as Hin by apply queued_last.
  destruct (purger_run_queued soft _ l p1 p' Hin Hr)
    as [?|(l1 & l2 & q & -> & Hq & Hsw)]; [by left|right].
  exists l1, l2, q. split_and!; [done|cbn; by rewrite Hn|].
  destruct Hsw as [Hsw|(x & Hx & i & -> & Hi)].
  - left. intros u row e Ha He Hev. apply (Hsw u row Ha). exists e. split; [done|].
    assert (T - soft ≤ Before (pj_args (periodicJob soft) fired)) as Hb
      by (cbn; unfold Time, Duration in *; lia).
    pose proof (pg_time_mono _ _ Hb). unfold Time in *. lia.
  - right. destruct l2 as [|y l3]; [done|]. injection Hx as ->. by exists i, l3.
Qed.

End purge.

(** ** A run *)

(** The schedule, as River computes it. *)
#[export] Instance hourly : River := {|
  fires j start k :=
    (if pj_RunOnStart j then start else start + pj_interval j) + Z.of_nat k * pj_interval j
|}.

#[export] Instance hourly_laws : RiverLaws hourly.
Proof.
  split; intros; cbn [fires hourly].
  - by rewrite Z.mul_0_l, Z.add_0_r.
  - rewrite Nat2Z.inj_succ, Z.mul_succ_l. apply Z.add_assoc.
Qed.

(** The agent is saved and soft-deleted at [7000]; the job fires a second
    later, waits two more behind a failure, and is worked. *)
Definition purge_run (o : Exec) : list pinput :=
  [PWrite (WSaveAgent (agent_at 5000 true)); PWrite (WSoftDelete "a" 7000); PClock Second; PFire;
   PClock Second; PWork 0 Refused; PClock Second; PWork 0 o].

Definition purge_at (n : nat) : purger :=
  default (purger_init 0) (purger_run Second (take n (purge_run Answered)) (purger_init 10000)).

Example purge_respects_retention_witness :
  is_Some (t_agents (pu_db (purge_at 7)) !! "a") ∧ t_agents (pu_db (purge_at 8)) !! "a" = None ∧
  ∃ t, PWrite (WSoftDelete "a" t) ∈ take 7 (purge_run Answered) ∧ t + Second < 10000 + 3 * Second.
Proof.
  assert (purger_run Second (take 7 (purge_run Answered)) (purger_init 10000) = Some (purge_at 7)) as E
    by (vm_compute; reflexivity).
  assert (purger_step Second (PWork 0 Answered) (purge_at 7) = Some (purge_at 8)) as E'
    by (vm_compute; reflexivity).
  assert (is_Some (t_agents (pu_db (purge_at 7)) !! "a")) as [row Ha]
    by (eexists; vm_compute; reflexivity).
  assert (t_agents (pu_db (purge_at 8)) !! "a" = None) as Ha' by (vm_compute; reflexivity).
  destruct (purge_respects_retention Second 10000 _ _ _ _ "a" row E E' Ha Ha')
    as (_ & t & Ht & _ & Hlt).
  split; [exact (mk_is_Some _ _ Ha)|]. split; [exact Ha'|]. exists t. split; [exact Ht|].
  assert (pu_now (purge_at 7) = 10000 + 3 * Second) as Hn by (vm_compute; reflexivity).
  rewrite Hn in Hlt. exact Hlt.
Defined.

Example Work_functional_witness :
  let d := SoftDeleteAgent "a" 7000 one_agent in
  let '(d', (ok, es)) := Work true Answered (mkPurgeEvictedAgentsArgs 8000) d in
  ok = true ∧ es = AgentsPurged 1 ∧ GetAgent "a" d' = Some None.
Proof.
  assert (db_ok (SoftDeleteAgent "a" 7000 one_agent)) as Hok
    by apply (do_write_ok (WSoftDelete "a" 7000)), one_agent_ok.
  pose proof (Work_functional true Answered (mkPurgeEvictedAgentsArgs 8000) _ Hok) as Hw.
  cbv zeta in Hw |- *. destruct (Work _ _ _ _) as [d' [ok es]] eqn:E.
  destruct Hw as (_ & Hok1 & _ & Hes & Hrest). assert (ok = true) as -> by by apply Hok1.
  split_and!; [done|rewrite Hes; vm_compute; reflexivity|].
  destruct Hrest as (Hrows & _); [done|]. unfold GetAgent.
  destruct (t_agents d' !! "a") as [row|] eqn:Ha; [|done]. exfalso.
  apply Hrows in Ha as [Ha Hnd]. apply Hnd. exists 7000. revert Ha. vm_compute. intros [= <-]. done.
Defined.

Example purge_completes_witness :
  pg_time 7000 < pg_time (3 * Second - Second) ∧
  ∃ k, 3 * Second ≤ fires (periodicJob Second) 0 k ≤ 3 * Second + Hour ∧
    ∀ p p', pu_now p = fires (periodicJob Second) 0 k →
      purger_run Second [PFire; PWork 0 Unanswered] p = Some p' →
      mkPurgeEvictedAgentsArgs (pu_now p - Second) ∈ pu_queue p' ∨
      ∃ l1 l2 q, [PWork 0 Unanswered] = l1 ++ l2 ∧ purger_run Second (PFire :: l1) p = Some q ∧
        ∀ row, t_agents (pu_db q) !! "a" = Some row → ar_evicted_at row ≠ Some 7000.
Proof.
  assert (pg_time 7000 < pg_time (3 * Second - Second)) as Hlt by by vm_compute.
  split; [exact Hlt|]. destruct (purge_completes Second 0 7000 (3 * Second) Hlt) as (k & Hk & Hp).
  exists k. split; [by rewrite Z.max_l in Hk by by vm_compute|]. intros p p' Hn Hr. rewrite Hn.
  destruct (Hp p [PWork 0 Unanswered] p' Hn Hr)
    as [Hin|(l1 & l2 & q & Hl & Hr' & [Hsw|(i & l3 & Hl2 & _)])]; [by left|right|exfalso].
  - exists l1, l2, q. split_and!; [done..|]. intros row Ha. by apply (Hsw "a" row 7000 Ha).
  - subst l2. by destruct l1 as [|? [|]].
Defined.
