(* ===== verification/Registration.v ===== *)
(** * The Prometheus registries: what is registered, and what may be reported

    internal/metrics/metrics.go ([NewRegistry], [NewInfoGauge], [NewEvents],
    [FleetCollector.Describe]), internal/metrics/http.go,
    internal/persistence/pool_collector.go and the registrations of
    cmd/grex/main.go, in the order they happen.  client_golang is third-party
    code: [Prometheus] is a registry that promises to accept collectors whose
    descriptors are well formed and fresh, and MustRegister panics ([None])
    otherwise; WithLabelValues and MustNewConstMetric panic unless given one
    valid UTF-8 value per variable label.  The theorems: a start registers
    everything, no notification and no scrape can make the client panic, and
    the series of the event counters are bounded by the configuration. *)

From Stdlib Require Import Ascii ZArith Lia.
From Stdlib Require Import SpecFloat.
From S2P Require Import Prelude GoLang GoParse GoUrl GoTime Fleet Registry RegistryProps Demo.
From S2P Require Import Auth Config OpAMP Api UI Metrics.
Local Open Scope Z_scope.

(** ** Descriptors and vectors *)

Record Desc := mkDesc {
  fqName : string;
  help : string;
  variableLabels : list string;
  constLabels : list (string * string)
}.

#[export] Instance Desc_eq_dec : EqDecision Desc.
Proof. solve_decision. Defined.

Inductive Kind := CounterKind | GaugeKind | HistogramKind.

#[export] Instance Kind_eq_dec : EqDecision Kind.
Proof. solve_decision. Defined.

(** A metric, or a vector of them when it has variable labels. *)
Record Vec := mkVec { v_Kind : Kind; v_Desc : Desc }.

Definition NewCounter name help : Vec := mkVec CounterKind (mkDesc name help [] []).
Definition NewGauge name help : Vec := mkVec GaugeKind (mkDesc name help [] []).
Definition NewCounterVec name help labels : Vec := mkVec CounterKind (mkDesc name help labels []).
Definition NewGaugeVec name help labels : Vec := mkVec GaugeKind (mkDesc name help labels []).
Definition NewHistogramVec name help labels : Vec :=
  mkVec HistogramKind (mkDesc name help labels []).

(** The characters of metric and label names. *)
Definition name_char (colon : bool) (c : ascii) : bool :=
  let n := N_of_ascii c in
  ((97 <=? n)%N && (n <=? 122)%N) || ((65 <=? n)%N && (n <=? 90)%N) ||
  bool_decide (n = 95%N) || (colon && bool_decide (n = 58%N)).

Definition valid_name (colon : bool) (s : string) : bool :=
  match s with
  | EmptyString => false
  | String c s' =>
      name_char colon c &&
      string_forallb (λ c, name_char colon c || bool_decide (is_Some (digit_value c))) s'
  end.

(** Labels starting with two underscores are reserved. *)
Definition valid_label (s : string) : bool := valid_name false s && negb (HasPrefix s "__").

Definition valid_desc (d : Desc) : Prop :=
  valid_name true (fqName d) = true ∧
  Forall (λ l, valid_label l = true) (variableLabels d ++ (constLabels d).*1) ∧
  NoDup (variableLabels d ++ (constLabels d).*1) ∧
  Forall (λ v, ValidString v = true) (constLabels d).*2.

#[export] Instance valid_desc_dec d : Decision (valid_desc d).
Proof. unfold valid_desc. apply _. Defined.

(** A collector describes the metrics it exports. *)
Class Collector (C : Type) := Describe : C → list Desc.

#[export] Instance vec_collector : Collector Vec := λ v, [v_Desc v].

(** What the client promises of a registry: it starts empty and registers a
    collector whose descriptors are valid and named like none it holds. *)
Class Prometheus (R : Type) := {
  prometheus_NewRegistry : R;
  registered : R → list Desc;
  Register : list Desc → R → option R;
  GoCollector : list Desc;
  ProcessCollector : list Desc;
  NewRegistry_empty : registered prometheus_NewRegistry = [];
  Register_fresh ds r :
    Forall valid_desc ds → NoDup (fqName <$> registered r ++ ds) →
    ∃ r', Register ds r = Some r' ∧ registered r' = registered r ++ ds;
  runtime_valid : Forall valid_desc (GoCollector ++ ProcessCollector);
  runtime_distinct : NoDup (fqName <$> GoCollector ++ ProcessCollector);
  runtime_names : Forall (λ d, HasPrefix (fqName d) "grex_" = false) (GoCollector ++ ProcessCollector)
}.

(** ** Events *)

Definition agentConnects : Vec := NewCounter "grex_agent_connects_total" "Agent connect transitions.".
Definition agentDisconnects : Vec :=
  NewCounter "grex_agent_disconnects_total" "Agent disconnect transitions.".
Definition agentsEvicted : Vec :=
  NewCounter "grex_agents_evicted_total" "Agents evicted after missing the check-in threshold.".
Definition agentsPurged : Vec :=
  NewCounter "grex_agents_purged_total"
    "Soft-deleted agent rows permanently removed by the retention purge job.".
Definition reports : Vec :=
  NewCounterVec "grex_agent_reports_total" "Agent reports received, by kind." ["type"].
Definition missingAttributes : Vec :=
  NewCounterVec "grex_agent_missing_attributes_total"
    "Required AgentDescription attributes reported missing, by key." ["attribute"].
Definition reservedAttributeConflicts : Vec :=
  NewCounterVec "grex_agent_reserved_attribute_conflicts_total"
    "AgentDescription attributes reported that collide with a well-known read API filter field, by key."
    ["attribute"].
Definition messages : Vec := NewCounter "grex_opamp_messages_total" "OpAMP messages processed.".
Definition messageErrors : Vec :=
  NewCounter "grex_opamp_message_errors_total" "OpAMP messages that failed to read or decode.".
Definition gatewayConnects : Vec :=
  NewCounterVec "grex_gateway_connects_total"
    "Gateway per-agent connect delegations answered, by result." ["result"].
Definition gatewayConnections : Vec :=
  NewGauge "grex_gateway_connections" "Open connections that have sent a gateway connect message.".
Definition authDenied : Vec :=
  NewCounterVec "grex_auth_denied_total"
    "mTLS requests to the UI or telemetry listener denied, by reason." ["reason"].
Definition authAllowed : Vec :=
  NewCounterVec "grex_auth_allowed_total"
    "mTLS requests to the UI or telemetry listener allowed, by resolved role." ["role"].
Definition listStoreFallbackErrors : Vec :=
  NewCounterVec "grex_list_agents_store_fallback_errors_total"
    "Fleet-wide list requests where the database merge failed and only local registry data was served, by surface."
    ["surface"].
Definition writeDuration : Vec :=
  NewHistogramVec "grex_persistence_write_duration_seconds"
    "Persistence write duration in seconds, by operation (save_agent, soft_delete_agent, save_session). Recorded on every attempt, success or timeout."
    ["op"].
Definition writeTimeout : Vec :=
  NewGaugeVec "grex_persistence_write_timeout_seconds"
    "Configured timeout for a persistence write operation, by operation. Compare against grex_persistence_write_duration_seconds: an average/percentile approaching or crossing this line signals DB, network, or load trouble before writes actually start failing."
    ["op"].

(** The two groups of [NewEvents]: on the server's registry and the fleet's. *)
Definition server_events : list Vec :=
  [messages; messageErrors; authDenied; authAllowed; listStoreFallbackErrors].

Definition fleet_events_vecs : list Vec :=
  [agentConnects; agentDisconnects; agentsEvicted; agentsPurged;
   reports; missingAttributes; reservedAttributeConflicts;
   gatewayConnects; gatewayConnections; writeDuration; writeTimeout].

Definition Events : list Vec := server_events ++ fleet_events_vecs.

(** ** The collectors *)

Definition descAgentsConnected : Desc :=
  mkDesc "grex_agents_connected" "Agents currently connected." ["transport"; "via"] [].
Definition descAgentsDisconnected : Desc :=
  mkDesc "grex_agents_disconnected" "Agents retained but not currently connected." [] [].
Definition descAgentsNoncompliant : Desc :=
  mkDesc "grex_agents_noncompliant" "Agents missing at least one required attribute." [] [].
Definition descAgentsSupervisorManaged : Desc :=
  mkDesc "grex_agents_supervisor_managed"
    "Agents that declared the OpAMP Supervisor's opamp.managed_by attribute." [] [].
Definition descAgentsAwaitingFullState : Desc :=
  mkDesc "grex_agents_awaiting_full_state" "Agents that have not yet reported their description." [] [].
Definition descFleetSize : Desc :=
  mkDesc "grex_fleet_size" "Total agents registered, regardless of the per-agent series cap." [] [].
Definition descAgentSeriesCapped : Desc :=
  mkDesc "grex_agent_series_capped"
    "Whether per-agent series are currently omitted because the fleet exceeds metrics.per_agent_series_limit."
    [] [].
Definition descAgentHealth : Desc :=
  mkDesc "grex_agent_health" "Agent health as reported: 1 healthy, 0 unhealthy." ["instance_uid"] [].
Definition descAgentLastSeen : Desc :=
  mkDesc "grex_agent_last_seen_timestamp_seconds" "Unix time of the agent's last check-in."
    ["instance_uid"] [].

(** A [FleetCollector] describes the same metrics over any registry. *)
Record FleetCollector := NewFleetCollector { fc_registry : Registry; fc_perAgentLimit : Z }.

#[export] Instance fleet_collector : Collector FleetCollector := λ _,
  [descAgentsConnected; descAgentsDisconnected; descAgentsNoncompliant;
   descAgentsSupervisorManaged; descAgentsAwaitingFullState; descFleetSize;
   descAgentSeriesCapped; descAgentHealth; descAgentLastSeen].

(** pgxpool's statistics, read when a scrape collects. *)
Record PoolStat := mkPoolStat { AcquiredConns : Z; MaxConns : Z }.

Definition descPoolAcquiredConns : Desc :=
  mkDesc "grex_persistence_pool_acquired_conns"
    "Connections currently acquired (in use) from the persistence connection pool." [] [].
Definition descPoolMaxConns : Desc :=
  mkDesc "grex_persistence_pool_max_conns" "Configured maximum size of the persistence connection pool."
    [] [].

Record PoolCollector := NewPoolCollector { pc_pool : PoolStat }.

#[export] Instance pool_collector : Collector PoolCollector := λ _,
  [descPoolAcquiredConns; descPoolMaxConns].

Definition PoolCollector_Collect (c : PoolCollector) : list Sample :=
  [mkSample (fqName descPoolAcquiredConns) [] (float64 (AcquiredConns (pc_pool c)));
   mkSample (fqName descPoolMaxConns) [] (float64 (MaxConns (pc_pool c)))].

(** ** HTTP metrics *)

Record HTTPMetrics := mkHTTPMetrics { requests : Vec; duration : Vec }.

Definition http_metrics : HTTPMetrics :=
  mkHTTPMetrics
    (NewCounterVec "grex_api_requests_total" "API requests, by route, method, and status code."
       ["route"; "code"; "method"])
    (NewHistogramVec "grex_api_request_duration_seconds"
       "API request duration in seconds, by route, method, and status code."
       ["route"; "code"; "method"]).

(** [MustCurryWith]: the label must be one of the vector's. *)
Definition MustCurryWith (label : string) (v : Vec) : option (list string) :=
  if bool_decide (label ∈ variableLabels (v_Desc v))
  then Some (filter (λ l, l ≠ label) (variableLabels (v_Desc v))) else None.

(** promhttp partitions by status code and method only; other labels panic. *)
Definition promhttp_labels (labels : list string) : bool :=
  bool_decide (NoDup labels) && forallb (λ l, bool_decide (l ∈ ["code"; "method"])) labels.

(** Promhttp's rendering of a status code and of a method. *)
Class PromHTTP := { prom_code : Z → string; prom_method : string → string }.

(** [Instrument]: [None] panics when the route is mounted; otherwise a handler
    that counts, then times, what the wrapped one served.  [elapsed] is how
    long it took. *)
Definition Instrument `{PromHTTP} {Req Resp} (method : Req → string) (code : Resp → Z)
    (elapsed : Req → Duration) (h : HTTPMetrics) (route : string)
    (next : Req → writer MetricOp Resp) : option (Req → writer MetricOp Resp) :=
  counter ← MustCurryWith "route" (requests h);
  timer ← MustCurryWith "route" (duration h);
  if promhttp_labels counter && promhttp_labels timer then
    Some (λ req,
      let '(resp, ops) := next req in
      let labels := [route; prom_code (code resp); prom_method (method req)] in
      (resp, ops ++
        [CounterInc (fqName (v_Desc (requests h))) labels;
         Observe (fqName (v_Desc (duration h))) labels (duration_in Second (elapsed req))]))
  else None.

(** ** What cmd/grex registers *)

Definition FormatBool (b : bool) : string := if b then "true" else "false".

Definition info_desc (name help : string) (labels : list (string * string)) : Desc :=
  mkDesc name help [] labels.

Definition build_info (build : BuildInfo) (go_version : string) : Desc :=
  info_desc "grex_build_info" "Build information."
    [("version", bi_Version build); ("commit", bi_Commit build); ("go_version", go_version)].

Definition config_info (c : Config.Config) : Desc :=
  info_desc "grex_config_info" "Non-secret configuration values in effect."
    [("log_level", Level (c_Log c));
     ("log_format", Format (c_Log c));
     ("opamp_tls_enabled", FormatBool (bool_decide (CertFile (c_OpAMPTLS c) ≠ "")));
     ("opamp_mtls_enabled", FormatBool (bool_decide (ClientCAFile (c_OpAMPTLS c) ≠ "")));
     ("ui_tls_enabled", FormatBool (bool_decide (CertFile (c_UITLS c) ≠ "")));
     ("ui_mtls_enabled", FormatBool (bool_decide (ClientCAFile (c_UITLS c) ≠ "")));
     ("telemetry_tls_enabled", FormatBool (bool_decide (CertFile (c_TelemetryTLS c) ≠ "")));
     ("telemetry_mtls_enabled", FormatBool (bool_decide (ClientCAFile (c_TelemetryTLS c) ≠ "")));
     ("auth_default_role", DefaultRole (c_Auth c));
     ("heartbeat_interval", duration_String (f_HeartbeatInterval (c_Fleet c)));
     ("stale_missed_heartbeats", Itoa (f_StaleMissedHeartbeats (c_Fleet c)));
     ("per_agent_series_limit", Itoa (PerAgentSeriesLimit (c_Metrics c)))].

Section registration.
Context `{PR : Prometheus R}.

(** [MustRegister] of several collectors: one at a time, panicking at the
    first that is refused. *)
Fixpoint MustRegister (cs : list (list Desc)) (r : R) : option R :=
  match cs with
  | [] => Some r
  | c :: cs => r ← Register c r; MustRegister cs r
  end.

Definition NewRegistry : option R :=
  MustRegister [GoCollector; ProcessCollector] prometheus_NewRegistry.

(** [NewInfoGauge]: registered, and set to 1. *)
Definition NewInfoGauge (d : Desc) (reg : R) : option (R * Sample) :=
  r ← MustRegister [[d]] reg;
  Some (r, mkSample (fqName d) (constLabels d).*2 (float64 1)).

Definition NewEvents (server fleet : R) : option (R * R) :=
  server ← MustRegister (Describe <$> server_events) server;
  fleet ← MustRegister (Describe <$> fleet_events_vecs) fleet;
  Some (server, fleet).

Definition NewHTTPMetrics (reg : R) : option (R * HTTPMetrics) :=
  r ← MustRegister [Describe (requests http_metrics); Describe (duration http_metrics)] reg;
  Some (r, http_metrics).

(** The registrations of [run], in its order; the pool's only with a
    database. *)
Definition register_all (build : BuildInfo) (go_version : string) (c : Config.Config)
    (pool : option PoolStat) (fleet : Registry) : option (R * R) :=
  serverMetrics ← NewRegistry;
  let fleetMetrics := prometheus_NewRegistry in
  info ← NewInfoGauge (build_info build go_version) serverMetrics;
  info ← NewInfoGauge (config_info c) info.1;
  events ← NewEvents info.1 fleetMetrics;
  fleetMetrics ← match pool with
    | Some stat => MustRegister [Describe (NewPoolCollector stat)] events.2
    | None => Some events.2
    end;
  fleetMetrics ← MustRegister
    [Describe (NewFleetCollector fleet (PerAgentSeriesLimit (c_Metrics c)))] fleetMetrics;
  http ← NewHTTPMetrics events.1;
  Some (http.1, fleetMetrics).

End registration.

(** ** What may be reported *)

Definition op_kind (o : MetricOp) : Kind :=
  match o with
  | CounterInc _ _ | CounterAdd _ _ => CounterKind
  | GaugeInc _ | GaugeDec _ | GaugeSet _ _ _ => GaugeKind
  | Observe _ _ _ => HistogramKind
  end.

(** The series an operation moves, with its kind. *)
Abbreviation Series := (Kind * string * list string)%type.

Definition op_series (o : MetricOp) : Series :=
  match o with
  | CounterInc n ls | GaugeSet n ls _ | Observe n ls _ => (op_kind o, n, ls)
  | CounterAdd n _ | GaugeInc n | GaugeDec n => (op_kind o, n, [])
  end.

Definition vec_series (v : Vec) (values : list string) : Series :=
  (v_Kind v, fqName (v_Desc v), values).

(** The client's conditions on label values: one per variable label, valid. *)
Definition label_values_ok (d : Desc) (values : list string) : bool :=
  bool_decide (length values = length (variableLabels d)) && forallb ValidString values.

(** A series of one of the vectors, of its kind, that cannot panic. *)
Definition series_accepted (vs : list Vec) (s : Series) : bool :=
  existsb (λ v, bool_decide (vec_series v s.2 = s) && label_values_ok (v_Desc v) s.2) vs.

Definition op_accepted (vs : list Vec) (o : MetricOp) : bool := series_accepted vs (op_series o).

(** A constant metric of one of the descriptors. *)
Definition sample_described (ds : list Desc) (s : Sample) : bool :=
  existsb (λ d, bool_decide (fqName d = s_Name s) &&
                bool_decide (length (s_Labels s) = length (variableLabels d))) ds.

(** The kinds of report. *)
Definition report_kinds : list string := ["status"; "health"; "package_statuses"; "effective_config"].

(** Every series the handler and the registry can move under a configuration. *)
Definition event_series (c : Registry.Config) : list Series :=
  ((λ v, vec_series v []) <$>
     [agentConnects; agentDisconnects; agentsEvicted; messages; messageErrors; gatewayConnections]) ++
  ((λ k, vec_series reports [k]) <$> report_kinds) ++
  ((λ r, vec_series gatewayConnects [r]) <$> ["accepted"; "rejected"]) ++
  ((λ k, vec_series reservedAttributeConflicts [k]) <$> ReservedAttributeKeys) ++
  ((λ k, vec_series missingAttributes [k]) <$> RequiredAttributes c).

(** A notification whose labels come from fixed lists and the configuration. *)
Definition event_bounded (c : Registry.Config) (e : Event) : Prop :=
  match e with
  | ReportReceived _ kind => kind ∈ report_kinds
  | MissingAttribute _ key => key ∈ RequiredAttributes c
  | ReservedAttributeConflict _ key => key ∈ ReservedAttributeKeys
  | AgentConnected _ | AgentDisconnected _ | AgentEvicted _ => True
  end.

(** ** Lemmas: the labels of notifications *)

Lemma Forall_bind {E A B} (P : E → Prop) (m : writer E A) (k : A → writer E B) :
  Forall P m.2 → Forall P (k m.1).2 → Forall P (m ≫= k).2.
Proof. intros. rewrite snd_bind. by apply Forall_app. Qed.

Lemma Forall_emit {E} (P : E → Prop) (e : E) : P e → Forall P (emit e).2.
Proof. intros. by repeat constructor. Qed.

Section bounded.
Context `{PB : Protobuf, UU : UUID, MR : MapRange}.

Lemma emit_if_bounded c b (es : list Event) :
  Forall (event_bounded c) es →
  Forall (event_bounded c) (if (b : bool) then emit_all es else (mret tt : writer Event unit)).2.
Proof. intros. by destruct b; [|constructor]. Qed.

Lemma check_bounded c agent :
  Forall (event_bounded c) (checkRequiredAttributes c agent).2 ∧
  Forall (event_bounded c) (checkReservedAttributeConflicts agent).2.
Proof.
  split; apply Forall_bind; try (by constructor); apply emit_if_bounded, Forall_fmap, Forall_forall;
    intros key [_ Hkey]%list_elem_of_filter; exact Hkey.
Qed.

Lemma report_bounded c now id msg meta entry :
  Forall (event_bounded c) (report_agent c now id msg meta entry).2.
Proof.
  unfold report_agent. cbv zeta.
  apply Forall_bind; [case_match; [by apply Forall_emit|constructor]|].
  apply Forall_bind; [|apply Forall_bind; [|apply Forall_bind]].
  - unfold report_description. case_match; [|constructor].
    apply Forall_bind; [by apply Forall_emit; left|].
    apply Forall_bind; [by apply (check_bounded c _)|by apply (check_bounded c _)].
  - unfold report_health. case_match; [|constructor].
    apply Forall_bind; [by apply Forall_emit; right; left|constructor].
  - unfold report_packages. case_match; [constructor|].
    apply Forall_bind; [by apply Forall_emit; do 2 right; left|constructor].
  - unfold report_config. case_match; [constructor|].
    apply Forall_bind; [by apply Forall_emit; do 3 right; left|constructor].
Qed.

Lemma do_op_bounded o r : Forall (event_bounded (cfg r)) (do_op o r).2.
Proof.
  destruct o as [now msg meta|id b|now]; cbn [do_op].
  - unfold Report. case_match; [|constructor]. cbv zeta.
    apply Forall_bind; [apply report_bounded|constructor].
  - unfold SetConnected. cbv zeta. case_match; [|constructor]. 
    apply Forall_bind; [|constructor]. unfold setConnected_agent.
    apply Forall_bind; [repeat case_match; by repeat constructor|constructor].
  - apply Forall_bind; [|constructor]. rewrite Sweep_events. apply Forall_forall.
    intros e ([id a] & He & _)%list_elem_of_bind. unfold sweep_agent in He.
    revert He. cbn. repeat case_match; cbn; set_solver.
Qed.

Lemma do_op_cfg o r : cfg (do_op o r).1 = cfg r.
Proof.
  destruct o as [now msg meta|id b|now]; cbn [do_op].
  - apply (act_cfg (ActReport now msg meta)).
  - apply (act_cfg (ActSetConnected id b)).
  - rewrite fst_bind. apply Sweep_cfg.
Qed.

Lemma do_ops_bounded l r : Forall (event_bounded (cfg r)) (do_ops l r).2.
Proof.
  revert r. induction l as [|o l IH]; intros r; [constructor|].
  cbn [do_ops]. apply Forall_bind; [apply do_op_bounded|]. rewrite <-(do_op_cfg o r). apply IH.
Qed.

End bounded.

(** ** Lemmas: registering *)

(** Names of the program's own metrics start with "grex_". *)
Definition own (d : Desc) : bool := HasPrefix (fqName d) "grex_".

Section registering.
Context `{PR : Prometheus R}.

Lemma MustRegister_fresh (cs : list (list Desc)) (r : R) :
  Forall valid_desc (mjoin cs) → NoDup (fqName <$> registered r ++ mjoin cs) →
  ∃ r', MustRegister cs r = Some r' ∧ registered r' = registered r ++ mjoin cs.
Proof.
  revert r. induction cs as [|ds cs IH]; intros r; cbn [MustRegister mjoin list_join].
  - exists r. by rewrite app_nil_r.
  - fold (mjoin cs). intros [Hds Hcs]%Forall_app Hnd. rewrite app_assoc in Hnd.
    assert (NoDup (fqName <$> registered r ++ ds)) as Hnd1.
    { rewrite fmap_app in Hnd. by apply NoDup_app in Hnd as [? _]. }
    destruct (Register_fresh ds r Hds Hnd1) as (r1 & -> & Hr1).
    rewrite <-Hr1 in Hnd. destruct (IH r1 Hcs Hnd) as (r2 & Hr & Hr2).
    exists r2. cbn [mbind option_bind]. split; [exact Hr|]. by rewrite Hr2, Hr1, app_assoc.
Qed.

Lemma MustRegister_app (cs cs' : list (list Desc)) (r : R) :
  MustRegister (cs ++ cs') r = MustRegister cs r ≫= MustRegister cs'.
Proof.
  revert r. induction cs as [|ds cs IH]; intros r; [done|]. cbn [app MustRegister].
  destruct (Register ds r) as [r'|]; [|done]. cbn [mbind option_bind]. apply IH.
Qed.

(** The program's metrics and the runtime's never clash. *)
Lemma runtime_fresh (ds : list Desc) :
  Forall (λ d, own d = true) ds → NoDup (fqName <$> ds) →
  NoDup (fqName <$> (GoCollector ++ ProcessCollector) ++ ds).
Proof.
  intros Hown Hnd. rewrite fmap_app. apply NoDup_app. split_and!; [apply runtime_distinct| |done].
  intros n (d & -> & Hd)%list_elem_of_fmap (d' & Hn & Hd')%list_elem_of_fmap.
  pose proof runtime_names as Hr. rewrite Forall_forall in Hr, Hown.
  specialize (Hr d Hd). specialize (Hown d' Hd'). unfold own in Hown. rewrite <-Hn in Hown.
  by rewrite Hr in Hown.
Qed.

End registering.

(** What is registered on each side. *)
Definition server_descs (build : BuildInfo) (go_version : string) (c : Config.Config) : list Desc :=
  [build_info build go_version; config_info c] ++ (v_Desc <$> server_events) ++
  [v_Desc (requests http_metrics); v_Desc (duration http_metrics)].

Definition fleet_descs (pool : bool) (c : Config.Config) (fleet : Registry) : list Desc :=
  (v_Desc <$> fleet_events_vecs) ++
  (if pool then [descPoolAcquiredConns; descPoolMaxConns] else []) ++
  Describe (NewFleetCollector fleet (PerAgentSeriesLimit (c_Metrics c))).

Lemma server_names build go c :
  fqName <$> server_descs build go c = fqName <$> server_descs (mkBuildInfo "" "") "" defaults.
Proof. reflexivity. Qed.

Lemma server_distinct build go c :
  Forall (λ d, own d = true) (server_descs build go c) ∧ NoDup (fqName <$> server_descs build go c).
Proof.
  split; [repeat constructor|]. rewrite server_names. apply (bool_decide_unpack _).
  vm_compute. exact I.
Qed.

Lemma info_valid (d : Desc) :
  valid_name true (fqName d) = true → variableLabels d = [] →
  forallb valid_label (constLabels d).*1 && bool_decide (NoDup (constLabels d).*1) = true →
  Forall (λ v, ValidString v = true) (constLabels d).*2 → valid_desc d.
Proof.
  intros Hn Hv [Hl Hd]%andb_true_iff Hs. apply bool_decide_eq_true in Hd.
  unfold valid_desc. rewrite Hv. split_and!; [done| |done..].
  apply Forall_forall. intros l Hin. by apply (proj1 (forallb_forall _ _) Hl), list_elem_of_In.
Qed.

Lemma FormatBool_valid b : ValidString (FormatBool b) = true.
Proof. by destruct b. Qed.

(** The strings the labels of the info gauges copy. *)
Definition info_strings (build : BuildInfo) (go_version : string) (c : Config.Config) : list string :=
  [bi_Version build; bi_Commit build; go_version; Level (c_Log c); Format (c_Log c);
   DefaultRole (c_Auth c)].

Lemma server_valid build go c :
  Forall (λ s, ValidString s = true) (info_strings build go c) →
  Forall valid_desc (server_descs build go c).
Proof.
  intros Hs. unfold info_strings in Hs. rewrite !Forall_cons in Hs.
  destruct Hs as (Hv & Hc & Hg & Hl & Hf & Hr & _).
  unfold server_descs. apply Forall_app. split.
  - apply Forall_cons_2; [|apply Forall_cons_2; [|constructor]];
      (apply info_valid; [vm_compute; reflexivity|reflexivity|vm_compute; reflexivity|]);
      repeat (apply Forall_cons_2 || apply Forall_nil_2); cbn [snd];
      first [done|apply FormatBool_valid|apply duration_String_valid|apply Itoa_valid].
  - apply (bool_decide_unpack _). vm_compute. exact I.
Qed.

Lemma fleet_descs_valid pool c r :
  Forall valid_desc (fleet_descs pool c r) ∧ NoDup (fqName <$> fleet_descs pool c r).
Proof. destruct pool; split; apply (bool_decide_unpack _); vm_compute; exact I. Qed.

(** The registrations of one side, as one call. *)
Definition server_side `{Prometheus R} (build : BuildInfo) (go_version : string) (c : Config.Config) :
    list (list Desc) :=
  [GoCollector; ProcessCollector] ++ [[build_info build go_version]] ++ [[config_info c]] ++
  (Describe <$> server_events) ++
  [Describe (requests http_metrics); Describe (duration http_metrics)].

Definition fleet_side (pool : option PoolStat) (c : Config.Config) (fleet : Registry) :
    list (list Desc) :=
  (Describe <$> fleet_events_vecs) ++
  match pool with Some stat => [Describe (NewPoolCollector stat)] | None => [] end ++
  [Describe (NewFleetCollector fleet (PerAgentSeriesLimit (c_Metrics c)))].

Lemma server_side_join `{PR : Prometheus R} build go c :
  mjoin (server_side build go c) = (GoCollector ++ ProcessCollector) ++ server_descs build go c.
Proof. unfold server_side. cbn -[app]. by rewrite <-!app_assoc. Qed.

Lemma fleet_side_join pool c fleet :
  mjoin (fleet_side pool c fleet) = fleet_descs (bool_decide (is_Some pool)) c fleet.
Proof. by destruct pool. Qed.

Lemma register_sides `{PR : Prometheus R} build go c pool fleet (s f : R) :
  MustRegister (server_side build go c) prometheus_NewRegistry = Some s →
  MustRegister (fleet_side pool c fleet) prometheus_NewRegistry = Some f →
  register_all build go c pool fleet = Some (s, f).
Proof.
  unfold server_side, fleet_side, register_all, NewRegistry, NewInfoGauge, NewEvents, NewHTTPMetrics.
  rewrite !MustRegister_app. intros (s0 & -> & Hs)%bind_Some. cbn [mbind option_bind].
  rewrite !MustRegister_app in Hs. apply bind_Some in Hs as (s1 & -> & Hs). cbn [mbind option_bind fst].
  rewrite !MustRegister_app in Hs. apply bind_Some in Hs as (s2 & -> & Hs). cbn [mbind option_bind fst].
  rewrite !MustRegister_app in Hs. apply bind_Some in Hs as (s3 & -> & Hs). cbn [mbind option_bind fst snd].
  intros (f1 & -> & Hf)%bind_Some. cbn [mbind option_bind fst snd].
  rewrite MustRegister_app in Hf. apply bind_Some in Hf as (f2 & Hp & Hf).
  assert (match pool with
    | Some stat => MustRegister [Describe (NewPoolCollector stat)] f1 | None => Some f1 end = Some f2) as ->
    by (destruct pool; exact Hp).
  cbn [mbind option_bind fst snd]. rewrite Hf. cbn [mbind option_bind fst snd]. by rewrite Hs.
Qed.

(** ** Lemmas: what is reported *)

Lemma event_series_accepted c :
  Forall (λ k, ValidString k = true) (RequiredAttributes c) →
  Forall (λ s, series_accepted Events s = true) (event_series c).
Proof.
  intros Hk. unfold event_series. rewrite !app_assoc. apply Forall_app. split.
  - apply (bool_decide_unpack _). vm_compute. exact I.
  - apply Forall_fmap, (Forall_impl _ _ _ Hk). intros k Hv.
    change (series_accepted Events (vec_series missingAttributes [k]) = true).
    apply existsb_exists. exists missingAttributes. split; [cbn; tauto|].
    rewrite bool_decide_eq_true_2 by reflexivity. unfold label_values_ok, vec_series.
    cbn [snd forallb]. by rewrite Hv.
Qed.

Lemma event_series_in c v k (ks : list string) :
  (v, ks) ∈ [(reports, report_kinds); (gatewayConnects, ["accepted"; "rejected"]);
    (reservedAttributeConflicts, ReservedAttributeKeys); (missingAttributes, RequiredAttributes c)] →
  k ∈ ks → vec_series v [k] ∈ event_series c.
Proof.
  intros Hv Hk. unfold event_series. rewrite !elem_of_app. right.
  apply (list_elem_of_fmap_2 (λ k, vec_series v [k])) in Hk.
  rewrite !elem_of_cons, elem_of_nil in Hv.
  destruct Hv as [Hv|[Hv|[Hv|[Hv|[]]]]]; injection Hv as -> ->; tauto.
Qed.

Lemma event_series_plain c v :
  v ∈ [agentConnects; agentDisconnects; agentsEvicted; messages; messageErrors; gatewayConnections] →
  vec_series v [] ∈ event_series c.
Proof.
  intros Hv. unfold event_series. apply elem_of_app. left.
  by apply (list_elem_of_fmap_2 (λ v, vec_series v [])).
Qed.

(** The operations of a bounded notification move the configuration's series. *)
Lemma metric_bounded c (m : Metric) :
  match m with Fleet_ e => event_bounded c e | _ => True end →
  Forall (λ o, op_series o ∈ event_series c) (metric_ops m).
Proof.
  intros Hm.
  destruct m as [| |acc| | |[id|id|id|id kind|id key|id key]]; apply Forall_singleton;
    [ apply (event_series_plain c messages) | apply (event_series_plain c messageErrors)
    | apply (event_series_in c gatewayConnects _ ["accepted"; "rejected"]); [|destruct acc]
    | apply (event_series_plain c gatewayConnections) | apply (event_series_plain c gatewayConnections)
    | apply (event_series_plain c agentConnects) | apply (event_series_plain c agentDisconnects)
    | apply (event_series_plain c agentsEvicted)
    | apply (event_series_in c reports _ report_kinds); [|exact Hm]
    | apply (event_series_in c missingAttributes _ (RequiredAttributes c)); [|exact Hm]
    | apply (event_series_in c reservedAttributeConflicts _ ReservedAttributeKeys); [|exact Hm] ];
    rewrite ?elem_of_cons; auto 8.
Qed.

Lemma first_in {A} (P : A → Prop) l x : first P l x → x ∈ l.
Proof. intros (l1 & l2 & -> & _). apply elem_of_app. right. left. Qed.

Lemma ResolveRole_among id rules dflt : ResolveRole id rules dflt ∈ dflt :: (r_Role <$> rules).
Proof.
  destruct (ResolveRole_role_of id rules dflt) as [r Hr|r _ Hr|]; [..|left];
    right; apply list_elem_of_fmap_2, (first_in _ _ _ Hr).
Qed.

(** One valid value per label of a registered vector is accepted. *)
Lemma series_accepted_in vs v values :
  v ∈ vs → length values = length (variableLabels (v_Desc v)) →
  Forall (λ k, ValidString k = true) values →
  series_accepted vs (vec_series v values) = true.
Proof.
  intros Hv Hl Hk. apply existsb_exists. exists v. split; [by apply list_elem_of_In|].
  rewrite bool_decide_eq_true_2 by reflexivity. unfold label_values_ok, vec_series. cbn [snd].
  rewrite bool_decide_eq_true_2 by exact Hl. apply forallb_forall. rewrite Forall_forall in Hk.
  intros k Hin%list_elem_of_In. by apply Hk.
Qed.

Lemma label_accepted v k :
  v ∈ Events → length (variableLabels (v_Desc v)) = 1%nat → ValidString k = true →
  series_accepted Events (vec_series v [k]) = true.
Proof. intros Hv Hl Hk. apply series_accepted_in; [done|done|by constructor]. Qed.

(** ** The claims *)

Section claims.
Context `{PB : Protobuf, UU : UUID, MR : MapRange, GJ : GatewayJSON, WI : Wire, RR : RouteRange}.

(** C27: a start registers everything.  Whatever the configuration, and with or
    without a database, no registration of [run] can panic: when the strings
    copied into labels are valid UTF-8, the two registries hold exactly the
    runtime's metrics, the information gauges, the event counters, the HTTP
    metrics, the pool's and the fleet's, with distinct names on each. *)
Theorem registration_succeeds `{PR : Prometheus R} build go_version c pool fleet :
  Forall (λ s, ValidString s = true) (info_strings build go_version c) →
  ∃ server fleet_reg : R,
    register_all build go_version c pool fleet = Some (server, fleet_reg) ∧
    registered server = GoCollector ++ ProcessCollector ++ server_descs build go_version c ∧
    registered fleet_reg = fleet_descs (bool_decide (is_Some pool)) c fleet ∧
    NoDup (fqName <$> registered server) ∧ NoDup (fqName <$> registered fleet_reg).
Proof.
  intros Hs. destruct (server_distinct build go_version c) as [Hown Hsn].
  destruct (fleet_descs_valid (bool_decide (is_Some pool)) c fleet) as [Hfv Hfn].
  destruct (MustRegister_fresh (server_side build go_version c) prometheus_NewRegistry)
    as (s & Hserver & Hs').
  { rewrite server_side_join. apply Forall_app. split; [apply runtime_valid|by apply server_valid]. }
  { rewrite NewRegistry_empty, server_side_join. by apply runtime_fresh. }
  destruct (MustRegister_fresh (fleet_side pool c fleet) prometheus_NewRegistry) as (f & Hfleet & Hf').
  { by rewrite fleet_side_join. }
  { by rewrite NewRegistry_empty, fleet_side_join. }
  rewrite NewRegistry_empty, server_side_join in Hs'. rewrite NewRegistry_empty, fleet_side_join in Hf'.
  exists s, f. split_and!; [by apply register_sides|rewrite Hs'; by rewrite <-app_assoc|exact Hf'| |].
  - rewrite Hs'. by apply runtime_fresh.
  - by rewrite Hf'.
Qed.

(** C28: no notification can make the client panic, and the fleet cannot blow up
    the number of event series.  Over any run of the handler, with valid UTF-8
    required attributes, every operation is one of [NewEvents]' metrics with one
    valid value per label, and moves one of the series the configuration fixes:
    sixteen and one per required attribute, however many agents report. *)
Theorem event_series_bounded c l :
  Forall (λ k, ValidString k = true) (RequiredAttributes c) →
  let log := log_of (sys_run l (sys_init c)).2 in
  Forall (λ o, op_accepted Events o = true ∧ op_series o ∈ event_series c) log ∧
  length (event_series c) = (16 + length (RequiredAttributes c))%nat.
Proof.
  intros Hk log. split; [|unfold event_series; rewrite !length_app, !length_fmap; reflexivity].
  pose proof (event_series_accepted c Hk) as Hacc. rewrite Forall_forall in Hacc.
  apply Forall_forall. intros o (m & Ho & Hm)%list_elem_of_bind.
  assert (match m with Fleet_ e => event_bounded c e | _ => True end) as Hb.
  { destruct m as [| | | | |e]; try exact I.
    destruct (sys_run_ops l (sys_init c)) as [ops Hops].
    pose proof (do_ops_bounded ops (Registry.New c)) as Hb.
    change (registry (sys_init c)) with (Registry.New c) in Hops. rewrite Hops in Hb.
    rewrite Forall_forall in Hb. apply Hb, list_elem_of_omap. by exists (Fleet_ e). }
  apply (metric_bounded c) in Hb. rewrite Forall_forall in Hb. specialize (Hb o Ho).
  split; [by apply Hacc|done].
Qed.

(** Nor can the other hooks: the gate's metrics when the roles of the rules
    are valid UTF-8, those of the two lists, of the purge job, and of a write
    under any valid name. *)
Theorem hooks_accepted rules dflt req surface n op d :
  Forall (λ s, ValidString s = true) (dflt :: (r_Role <$> rules)) →
  ValidString op = true → surface ∈ ["api"; "ui"] →
  Forall (λ o, op_accepted Events o = true)
    (log_of (requireSPIFFERole rules dflt req).2 ++ metric_ops (ListStoreFallbackFailed surface) ++
     AgentsPurged n ++ ObserveWriteDuration op d ++ SetWriteTimeout op d).
Proof.
  intros Hr Hop Hsf. rewrite Forall_forall in Hr. rewrite !Forall_app. split_and!.
  - unfold requireSPIFFERole. repeat case_match; apply Forall_singleton;
      try (apply (label_accepted authDenied); [cbn; set_solver|reflexivity|reflexivity]).
    + destruct s; (apply (label_accepted authDenied); [cbn; set_solver|reflexivity|reflexivity]).
    + apply (label_accepted authAllowed); [cbn; set_solver|reflexivity|]. apply Hr, ResolveRole_among.
  - apply Forall_singleton, (label_accepted listStoreFallbackErrors); [cbn; set_solver|reflexivity|].
    rewrite !elem_of_cons, elem_of_nil in Hsf. by destruct Hsf as [->|[->|[]]].
  - by apply Forall_singleton.
  - apply Forall_singleton, (label_accepted writeDuration); [cbn; set_solver|reflexivity|done].
  - apply Forall_singleton, (label_accepted writeTimeout); [cbn; set_solver|reflexivity|done].
Qed.

(** A scrape cannot make the client panic either.  Every sample the two
    collectors send, of any registry states and pool statistics, carries the
    name of a described metric and one value per variable label. *)
Theorem samples_described limit r r' stat s :
  s ∈ Collect limit r r' ++ PoolCollector_Collect (NewPoolCollector stat) →
  sample_described (Describe (NewFleetCollector r limit) ++ Describe (NewPoolCollector stat)) s = true.
Proof.
  unfold Collect, PoolCollector_Collect. cbv zeta. rewrite !elem_of_app, list_elem_of_fmap, !elem_of_cons.
  intros [[([k v] & -> & _)|[Hs|Hs]]|Hs].
  - reflexivity.
  - repeat destruct Hs as [->|Hs]; [reflexivity..|by apply not_elem_of_nil in Hs].
  - case_match; [by apply not_elem_of_nil in Hs|].
    apply elem_of_agent_series in Hs as (a & Ha & [[Hh ->]| ->]%elem_of_agent_samples); reflexivity.
  - repeat destruct Hs as [->|Hs]; [reflexivity..|by apply not_elem_of_nil in Hs].
Qed.

End claims.

(** ** Witnesses *)

(** A registry that holds its descriptors and checks what the client checks. *)
Definition go_desc : Desc := mkDesc "go_goroutines" "Number of goroutines that currently exist." [] [].
Definition process_desc : Desc :=
  mkDesc "process_cpu_seconds_total" "Total user and system CPU time spent in seconds." [] [].

Program Definition list_registry : Prometheus (list Desc) := {|
  prometheus_NewRegistry := [];
  registered r := r;
  Register ds r := if decide (Forall valid_desc ds ∧ NoDup (fqName <$> r ++ ds))
                   then Some (r ++ ds) else None;
  GoCollector := [go_desc];
  ProcessCollector := [process_desc]
|}.
Next Obligation. done. Qed.
Next Obligation. intros ds r Hv Hn. exists (r ++ ds). by rewrite decide_True. Qed.
Next Obligation. apply (bool_decide_unpack _). vm_compute. exact I. Qed.
Next Obligation. apply (bool_decide_unpack _). vm_compute. exact I. Qed.
Next Obligation. repeat constructor. Qed.

#[local] Existing Instance list_registry.

Lemma registration_succeeds_witness :
  Forall (λ s, ValidString s = true) (info_strings (mkBuildInfo "1.2.3" "abc") "go1.24" defaults) ∧
  ∃ s f : list Desc, register_all (mkBuildInfo "1.2.3" "abc") "go1.24" defaults
    (Some (mkPoolStat 1 4)) (Registry.New cfg1) = Some (s, f) ∧ go_desc ∈ s ∧ NoDup (fqName <$> f).
Proof.
  assert (Forall (λ s, ValidString s = true) (info_strings (mkBuildInfo "1.2.3" "abc") "go1.24" defaults))
    as Hs by repeat constructor.
  split; [exact Hs|].
  destruct (registration_succeeds (mkBuildInfo "1.2.3" "abc") "go1.24" defaults
    (Some (mkPoolStat 1 4)) (Registry.New cfg1) Hs) as (s & f & H & Hreg & _ & _ & Hf).
  exists s, f. split; [exact H|]. split; [|exact Hf].
  change (registered s) with s in Hreg. rewrite Hreg. left.
Defined.

Lemma event_series_bounded_witness :
  let log := log_of (sys_run gateway_run (sys_init cfg1)).2 in
  (length log = 16)%nat ∧ Forall (λ o, op_accepted Events o = true) log ∧
  length (event_series cfg1) = 18%nat.
Proof.
  intros log. split; [vm_compute; reflexivity|].
  destruct (event_series_bounded cfg1 gateway_run) as [H1 H2]; [repeat constructor|].
  split; [|exact H2]. eapply Forall_impl; [exact H1|]. by intros o [? _].
Defined.

Lemma hooks_accepted_witness :
  Forall (λ o, op_accepted Events o = true)
    (log_of (requireSPIFFERole [mkRoleRule "exact" "spiffe://a/b" "admin"] "none" (mkRequest None)).2 ++
     metric_ops (ListStoreFallbackFailed "ui") ++ AgentsPurged 3 ++
     ObserveWriteDuration "save_agent" Second ++ SetWriteTimeout "save_agent" Second).
Proof.
  apply hooks_accepted; [repeat constructor|reflexivity|right; left].
Defined.

Lemma samples_described_witness :
  let s := mkSample "grex_fleet_size" [] (float64 0) in
  let r := Registry.New cfg1 in
  s ∈ Collect (RR := routes_by_key) 10 r r ∧
  sample_described (Describe (NewFleetCollector r 10) ++ Describe (NewPoolCollector (mkPoolStat 0 4))) s = true.
Proof.
  intros s r. assert (s ∈ Collect (RR := routes_by_key) 10 r r) as Hs.
  { apply (list_elem_of_lookup_2 _ 4%nat). vm_compute. reflexivity. }
  split; [exact Hs|].
  apply (samples_described (RR := routes_by_key) 10 r r (mkPoolStat 0 4) s).
  apply elem_of_app. left. exact Hs.
Defined.
