(* ===== verification/Mux.v ===== *)
(** * http.ServeMux: method patterns, wildcards and precedence

    The routing of Go's standard library as cmd/grex uses it on the UI
    listener: patterns "METHOD /seg/{name}/...", a trailing slash for a subtree,
    "{$}" for the path that ends there.  [parsePattern] reads them,
    [Handle] refuses one that conflicts with a registered pattern (a panic),
    [matchPath] walks the routing tree, given as the patterns' remainders below
    the node, and [ServeHTTP] cleans the path, redirects a subtree's root, and
    answers 404 or 405.  Hosts and the multi wildcard "{name...}" are not used
    by the program and not modelled. *)

From Stdlib Require Import Ascii ZArith Lia.
From S2P Require Import Prelude GoLang GoParse GoUrl.
Local Open Scope Z_scope.

(** ** Paths *)

(** [url.PathUnescape]; [None] is an [EscapeError]. *)
Fixpoint PathUnescape (s : string) : option string :=
  match s with
  | EmptyString => Some EmptyString
  | String c s' =>
      if bool_decide (c = "%"%char) then
        match s' with
        | String h (String l rest) =>
            h ← unhex h; l ← unhex l; r ← PathUnescape rest;
            Some (String (ascii_of_N (16 * h + l)) r)
        | _ => None
        end
      else r ← PathUnescape s'; Some (String c r)
  end.

(** The mux keeps what it cannot unescape. *)
Definition pathUnescape (s : string) : string := default s (PathUnescape s).

(** The elements [path.Clean] keeps of a rooted path, innermost first. *)
Fixpoint clean_elems (kept : list string) (elems : list string) : list string :=
  match elems with
  | [] => kept
  | e :: elems =>
      if bool_decide (e = "") || bool_decide (e = ".") then clean_elems kept elems
      else if bool_decide (e = "..") then clean_elems (tail kept) elems
      else clean_elems (e :: kept) elems
  end.

(** [cleanPath]: rooted and clean, a trailing slash kept. *)
Definition cleanPath (p : string) : string :=
  if bool_decide (p = "") then "/" else
  let p := if HasPrefix p "/" then p else String "/" p in
  let np := String "/" (string_join "/" (rev (clean_elems [] (split_byte "/" p)))) in
  if HasSuffix p "/" && negb (bool_decide (np = "/")) then String.app np "/" else np.

(** Repeated [firstSegment]: unescaped segments, "/" for a trailing slash. *)
Fixpoint segments_of (elems : list string) : list string :=
  match elems with
  | [] => []
  | [e] => if bool_decide (e = "") then ["/"] else [pathUnescape e]
  | e :: elems => pathUnescape e :: segments_of elems
  end.

(** Of a path that starts with a slash. *)
Definition segments (path : string) : list string := segments_of (tail (split_byte "/" path)).

(** ** Patterns *)

Inductive segment := Lit (s : string) | Wild (name : string) | Multi.

#[export] Instance segment_eq_dec : EqDecision segment.
Proof. solve_decision. Defined.

Record pattern := mkPattern { p_method : string; p_segs : list segment }.

(** A wildcard's name: an identifier. *)
Definition isValidWildcardName (s : string) : bool :=
  match s with
  | EmptyString => false
  | String c _ => negb (is_digit c) && string_forallb (λ c, is_digit c ||
      let n := N_of_ascii c in
      ((97 <=? n)%N && (n <=? 122)%N) || ((65 <=? n)%N && (n <=? 90)%N) || bool_decide (n = 95%N)) s
  end.

(** One element of a pattern's path; [last] has no slash behind it. *)
Definition parse_elem (e : string) (last : bool) : option segment :=
  if bool_decide (e = "") then if last then Some Multi else None
  else match index_byte "{" e with
       | None => Some (Lit (pathUnescape e))
       | Some (S _) => None
       | Some O =>
           if negb (HasSuffix e "}") then None else
           let name := String.substring 1 (String.length e - 2) e in
           if bool_decide (name = "$") then if last then Some (Lit "/") else None
           else if isValidWildcardName name then Some (Wild name) else None
       end.

Fixpoint parse_elems (elems : list string) : option (list segment) :=
  match elems with
  | [] => Some []
  | [e] => s ← parse_elem e true; Some [s]
  | e :: elems => s ← parse_elem e false; segs ← parse_elems elems; Some (s :: segs)
  end.

Definition wild_names (segs : list segment) : list string :=
  omap (λ s, match s with Wild n => Some n | _ => None end) segs.

(** [parsePattern]; [None] is an error, on which [Handle] panics. *)
Definition parsePattern (s : string) : option pattern :=
  let '(method, rest) := default ("", s) (string_Cut " " s) in
  if bool_decide (method ≠ "") && bool_decide (rest ≠ cleanPath rest) then None
  else if negb (HasPrefix rest "/") then None
  else
    segs ← parse_elems (tail (split_byte "/" rest));
    if bool_decide (NoDup (wild_names segs)) then Some (mkPattern method segs) else None.

(** ** Conflicts *)

Inductive relationship := equivalent | moreGeneral | moreSpecific | disjoint | overlaps.

Definition combineRelationships (r1 r2 : relationship) : relationship :=
  match r1, r2 with
  | equivalent, _ => r2
  | disjoint, _ => disjoint
  | overlaps, disjoint => disjoint
  | overlaps, _ => overlaps
  | moreGeneral, equivalent => moreGeneral
  | moreGeneral, moreSpecific => overlaps
  | moreSpecific, equivalent => moreSpecific
  | moreSpecific, moreGeneral => overlaps
  | _, _ => r2
  end.

Definition compareMethods (m1 m2 : string) : relationship :=
  if bool_decide (m1 = m2) then equivalent
  else if bool_decide (m1 = "") then moreGeneral
  else if bool_decide (m2 = "") then moreSpecific
  else if bool_decide (m1 = "GET") && bool_decide (m2 = "HEAD") then moreGeneral
  else if bool_decide (m2 = "GET") && bool_decide (m1 = "HEAD") then moreSpecific
  else disjoint.

Definition compareSegments (s1 s2 : segment) : relationship :=
  match s1, s2 with
  | Multi, Multi => equivalent
  | Multi, _ => moreGeneral
  | _, Multi => moreSpecific
  | Wild _, Wild _ => equivalent
  | Wild _, Lit s => if bool_decide (s = "/") then disjoint else moreGeneral
  | Lit s, Wild _ => if bool_decide (s = "/") then disjoint else moreSpecific
  | Lit s, Lit s' => if bool_decide (s = s') then equivalent else disjoint
  end.

Definition is_multi (segs : list segment) : bool := bool_decide (last segs = Some Multi).

Fixpoint compare_segs (rel : relationship) (multi1 multi2 : bool) (s1 s2 : list segment) : relationship :=
  match s1, s2 with
  | [], [] => rel
  | [], _ => if multi1 then combineRelationships rel moreGeneral else disjoint
  | _, [] => if multi2 then combineRelationships rel moreSpecific else disjoint
  | x1 :: s1, x2 :: s2 =>
      compare_segs (combineRelationships rel (compareSegments x1 x2)) multi1 multi2 s1 s2
  end.

Definition comparePaths (s1 s2 : list segment) : relationship :=
  if bool_decide (length s1 ≠ length s2) && negb (is_multi s1) && negb (is_multi s2)
  then disjoint else compare_segs equivalent (is_multi s1) (is_multi s2) s1 s2.

Definition conflictsWith (p1 p2 : pattern) : bool :=
  let rel := combineRelationships (compareMethods (p_method p1) (p_method p2))
               (comparePaths (p_segs p1) (p_segs p2)) in
  match rel with equivalent | overlaps => true | _ => false end.

(** ** The mux *)

Section mux.
Context {H : Type}.

Abbreviation ServeMux := (list (pattern * H)).

(** [Handle]; [None] is a panic. *)
Definition Handle (s : string) (h : H) (m : ServeMux) : option ServeMux :=
  p ← parsePattern s;
  if existsb (λ q, conflictsWith q.1 p) m then None else Some (m ++ [(p, h)]).

Fixpoint HandleAll (routes : list (string * H)) (m : ServeMux) : option ServeMux :=
  match routes with
  | [] => Some m
  | (s, h) :: routes => m ← Handle s h m; HandleAll routes m
  end.

(** The children of a node: what remains of each pattern below the edge. *)
Abbreviation node A := (list (list segment * A)).

Definition literal_child {A} (seg : string) (n : node A) : node A :=
  omap (λ p, match p.1 with
             | Lit s :: rest => if bool_decide (s = seg) then Some (rest, p.2) else None
             | _ => None
             end) n.

Definition wild_child {A} (n : node A) : node A :=
  omap (λ p, match p.1 with Wild _ :: rest => Some (rest, p.2) | _ => None end) n.

Definition leaf {A} (n : node A) : option A :=
  head (omap (λ p, match p.1 with [] => Some p.2 | _ => None end) n).

Definition multi_child {A} (n : node A) : option A :=
  head (omap (λ p, match p.1 with [Multi] => Some p.2 | _ => None end) n).

Definition orElse {A} (x y : option A) : option A :=
  match x with Some _ => x | None => y end.

(** [matchPath], with the segments the wildcards matched. *)
Fixpoint matchPath {A} (n : node A) (segs : list string) (matches : list string) :
    option (A * list string) :=
  match segs with
  | [] => h ← leaf n; Some (h, matches)
  | seg :: rest =>
      orElse (matchPath (literal_child seg n) rest matches)
     (orElse (if bool_decide (seg ≠ "/") then matchPath (wild_child n) rest (matches ++ [seg]) else None)
             (h ← multi_child n; Some (h, matches)))
  end.

(** The patterns of one method, each with itself as payload. *)
Definition method_child (method : string) (m : ServeMux) : node (pattern * H) :=
  omap (λ q, if bool_decide (p_method q.1 = method) then Some (p_segs q.1, q) else None) m.

(** [matchMethodAndPath]: the method, GET for HEAD, then any method. *)
Definition tree_match (m : ServeMux) (method path : string) : option (pattern * H * list string) :=
  let segs := segments path in
  orElse (matchPath (method_child method m) segs [])
 (orElse (if bool_decide (method = "HEAD") then matchPath (method_child "GET" m) segs [] else None)
         (if bool_decide (method = "") then None else matchPath (method_child "" m) segs [])).

Definition count_slashes (s : string) : Z := zlen (split_byte "/" s) - 1.

(** [exactMatch]. *)
Definition exactMatch (r : option (pattern * H * list string)) (path : string) : bool :=
  match r with
  | None => false
  | Some (p, _, _) =>
      if negb (is_multi (p_segs p)) then true
      else if negb (HasSuffix path "/") then false
      else bool_decide (zlen (p_segs p) = count_slashes path)
  end.

(** [matchingMethods]: those whose patterns match the path, or the path as a
    subtree; HEAD with GET. *)
Definition matches_with (m : ServeMux) (path method : string) : bool :=
  bool_decide (method ≠ "") &&
  (bool_decide (is_Some (matchPath (method_child method m) (segments path) [])) ||
   (negb (HasSuffix path "/") &&
    bool_decide (is_Some (matchPath (method_child method m) (segments (String.app path "/")) [])))).

Definition matchingMethods `{GoSort} (m : ServeMux) (path : string) : list string :=
  let ms := filter (λ x, matches_with m path x = true) (remove_dups ((λ q, p_method q.1) <$> m)) in
  slices_Sort (if bool_decide ("GET" ∈ ms) && negb (bool_decide ("HEAD" ∈ ms))
               then "HEAD" :: ms else ms).

(** What the mux does with a request: a redirect to a path, a handler with the
    wildcards' values, 405 with the allowed methods, or 404. *)
Inductive routed :=
  | Redirect (path : string)
  | Routed (p : pattern) (h : H) (matches : list string)
  | MethodNotAllowed (allow : list string)
  | NotFound.

(** [findHandler], of a request's method and escaped path. *)
Definition findHandler `{GoSort} (m : ServeMux) (method escapedPath : string) : routed :=
  let path := if bool_decide (method = "CONNECT") then escapedPath else cleanPath escapedPath in
  let r := tree_match m method path in
  let subtree := String.app path "/" in
  if negb (exactMatch r path) && negb (HasSuffix path "/") && exactMatch (tree_match m method subtree) subtree
  then Redirect (String.app (cleanPath (pathUnescape escapedPath)) "/")
  else if bool_decide (path ≠ escapedPath) then Redirect path
  else match r with
       | Some (p, h, matches) => Routed p h matches
       | None =>
           match matchingMethods m path with
           | [] => NotFound
           | allow => MethodNotAllowed allow
           end
       end.

(** [r.PathValue(name)]. *)
Fixpoint pathValue (segs : list segment) (matches : list string) (name : string) : string :=
  match segs, matches with
  | Wild n :: segs, v :: matches => if bool_decide (n = name) then v else pathValue segs matches name
  | Wild _ :: _, [] => ""
  | _ :: segs, _ => pathValue segs matches name
  | [], _ => ""
  end.

Definition PathValue (p : pattern) (matches : list string) (name : string) : string :=
  pathValue (p_segs p) matches name.

End mux.

(** ** When a pattern matches *)

(** A pattern's segments match a path's, its wildcards binding the values. *)
Inductive seg_match : list segment → list string → list string → Prop :=
  | seg_match_nil : seg_match [] [] []
  | seg_match_lit s p l vs : seg_match p l vs → seg_match (Lit s :: p) (s :: l) vs
  | seg_match_wild n v p l vs : v ≠ "/" → seg_match p l vs → seg_match (Wild n :: p) (v :: l) (v :: vs)
  | seg_match_multi s l : seg_match [Multi] (s :: l) [].

(** A pattern accepts a method: its own, HEAD for GET, any without one. *)
Definition accepts (p : pattern) (method : string) : Prop :=
  p_method p = method ∨ (p_method p = "GET" ∧ method = "HEAD") ∨ p_method p = "".

(** Patterns no path matches two of. *)
Definition disjoint_paths (ps : list (list segment)) : Prop :=
  ∀ i j s1 s2, ps !! i = Some s1 → ps !! j = Some s2 → i ≠ j → comparePaths s1 s2 = disjoint.

(** ** Lemmas: the tree *)

Lemma orElse_Some {A} (x y : option A) a :
  orElse x y = Some a ↔ x = Some a ∨ x = None ∧ y = Some a.
Proof. destruct x; simpl; naive_solver. Qed.

Lemma orElse_is_Some {A} (x y : option A) : is_Some (orElse x y) ↔ is_Some x ∨ is_Some y.
Proof.
  destruct x as [a|]; simpl; split; [by left|by intros _; eexists|by right|].
  intros [[? [=]]|H]; exact H.
Qed.

Lemma head_omap_Some {A B} (f : A → option B) l b :
  head (omap f l) = Some b → ∃ a, a ∈ l ∧ f a = Some b.
Proof. intros Hb%head_Some_elem_of. by apply list_elem_of_omap. Qed.

Lemma head_omap_is_Some {A B} (f : A → option B) l a b :
  a ∈ l → f a = Some b → is_Some (head (omap f l)).
Proof.
  intros Ha Hb. assert (b ∈ omap f l) as Hin by (apply list_elem_of_omap; eauto).
  destruct (omap f l); [by apply not_elem_of_nil in Hin|by eexists].
Qed.

Section tree.
Context {A : Type}.
Implicit Types n : list (list segment * A).

Lemma literal_child_in n seg p h :
  (p, h) ∈ literal_child seg n ↔ (Lit seg :: p, h) ∈ n.
Proof.
  unfold literal_child. rewrite list_elem_of_omap. split.
  - intros ([segs h'] & Hin & Hs). simpl in Hs. repeat case_match; simplify_eq.
    by apply bool_decide_eq_true in H1 as ->.
  - intros Hin. exists (Lit seg :: p, h). split; [done|]. simpl. by rewrite bool_decide_eq_true_2.
Qed.

Lemma wild_child_in n p h : (p, h) ∈ wild_child n ↔ ∃ name, (Wild name :: p, h) ∈ n.
Proof.
  unfold wild_child. rewrite list_elem_of_omap. split.
  - intros ([segs h'] & Hin & Hs). simpl in Hs. repeat case_match; simplify_eq. eauto.
  - intros [name Hin]. by exists (Wild name :: p, h).
Qed.

Lemma leaf_Some n h : leaf n = Some h → ([], h) ∈ n.
Proof.
  intros ([segs h'] & Hin & Hs)%head_omap_Some. simpl in Hs. by destruct segs; simplify_eq.
Qed.

Lemma multi_child_Some n h : multi_child n = Some h → ([Multi], h) ∈ n.
Proof.
  intros ([segs h'] & Hin & Hs)%head_omap_Some. simpl in Hs. by repeat case_match; simplify_eq.
Qed.

(** What the walk finds matches. *)
Lemma matchPath_sound n segs ms h ms' :
  matchPath n segs ms = Some (h, ms') →
  ∃ p vs, (p, h) ∈ n ∧ seg_match p segs vs ∧ ms' = ms ++ vs.
Proof.
  revert n ms. induction segs as [|seg segs IH]; intros n ms; cbn [matchPath].
  - intros (h' & Hl%leaf_Some & [= -> ->])%bind_Some. exists [], []. rewrite app_nil_r.
    split_and!; [done|constructor|done].
  - intros [Hl|[_ [Hw|[_ Hm]]%orElse_Some]]%orElse_Some.
    + apply IH in Hl as (p & vs & Hin%literal_child_in & Hp & ->).
      exists (Lit seg :: p), vs. split_and!; [done|by constructor|done].
    + case_bool_decide as Hne; [|done].
      apply IH in Hw as (p & vs & [name Hin]%wild_child_in & Hp & ->).
      exists (Wild name :: p), (seg :: vs). rewrite <-app_assoc.
      split_and!; [done|by constructor|done].
    + apply bind_Some in Hm as (h' & Hm%multi_child_Some & [= -> ->]).
      exists [Multi], []. rewrite app_nil_r. split_and!; [done|constructor|done].
Qed.

(** And it finds something whenever a pattern matches. *)
Lemma matchPath_complete n segs ms p h vs :
  (p, h) ∈ n → seg_match p segs vs → is_Some (matchPath n segs ms).
Proof.
  intros Hin Hp. revert n ms Hin. induction Hp as [|s p l vs Hp IH|name v p l vs Hne Hp IH|s l];
    intros n ms Hin; cbn [matchPath].
  - destruct (head_omap_is_Some (λ p : list segment * A, match p.1 with [] => Some p.2 | _ => None end)
      n ([], h) h Hin eq_refl) as [h' Hh]. unfold leaf. rewrite Hh. by eexists.
  - apply orElse_is_Some. left. apply IH. by apply literal_child_in.
  - apply orElse_is_Some. right. apply orElse_is_Some. left.
    rewrite bool_decide_eq_true_2 by done. apply IH. apply wild_child_in. eauto.
  - apply orElse_is_Some. right. apply orElse_is_Some. right.
    destruct (head_omap_is_Some (λ p : list segment * A, match p.1 with [Multi] => Some p.2 | _ => None end)
      n ([Multi], h) h Hin eq_refl) as [h' Hh]. unfold multi_child. rewrite Hh. by eexists.
Qed.

End tree.

(** ** Lemmas: disjoint patterns *)

Lemma combine_not_disjoint r1 r2 :
  r1 ≠ disjoint → r2 ≠ disjoint → combineRelationships r1 r2 ≠ disjoint.
Proof. by destruct r1, r2. Qed.

Lemma combine_disjoint r : combineRelationships disjoint r = disjoint.
Proof. done. Qed.

Lemma is_multi_cons x segs : segs ≠ [] → is_multi (x :: segs) = is_multi segs.
Proof. intros Hne. unfold is_multi. by destruct segs. Qed.

(** Two patterns that match one path are never found disjoint, wherever the
    comparison of a longer pair has got to. *)
Lemma compare_segs_match s1 s2 l vs1 vs2 rel m1 m2 :
  seg_match s1 l vs1 → seg_match s2 l vs2 → rel ≠ disjoint →
  (is_multi s1 = true → m1 = true) → (is_multi s2 = true → m2 = true) →
  compare_segs rel m1 m2 s1 s2 ≠ disjoint.
Proof.
  intros H1. revert s2 vs2 rel.
  induction H1 as [|s p l vs H1 IH|n v p l vs Hne H1 IH|s l]; intros s2 vs2 rel H2 Hrel Hm1 Hm2.
  - by inversion H2; subst.
  - assert (p ≠ [] → is_multi p = true → m1 = true) as Hm1'.
    { intros Hp Hm. apply Hm1. by rewrite is_multi_cons. }
    inversion H2 as [|s' p' l' vs' H2'|n' v' p' l' vs' Hne' H2'|s' l']; subst; cbn [compare_segs compareSegments].
    + rewrite bool_decide_eq_true_2 by done.
      apply (IH p' vs2); [done|by apply combine_not_disjoint| |].
      * destruct p; [done|]. by apply Hm1'.
      * destruct p'; [done|]. intros Hm. apply Hm2. by rewrite is_multi_cons.
    + rewrite bool_decide_eq_false_2 by done.
      apply (IH p' vs'); [done|by apply combine_not_disjoint| |].
      * destruct p; [done|]. by apply Hm1'.
      * destruct p'; [done|]. intros Hm. apply Hm2. by rewrite is_multi_cons.
    + pose proof (combine_not_disjoint rel moreSpecific Hrel ltac:(done)) as Hr.
      destruct p; [done|]. rewrite (Hm2 eq_refl). by apply combine_not_disjoint.
  - assert (p ≠ [] → is_multi p = true → m1 = true) as Hm1'.
    { intros Hp Hm. apply Hm1. by rewrite is_multi_cons. }
    inversion H2 as [|s' p' l' vs' H2'|n' v' p' l' vs' Hne' H2'|s' l']; subst; cbn [compare_segs compareSegments].
    + rewrite bool_decide_eq_false_2 by done.
      apply (IH p' vs2); [done|by apply combine_not_disjoint| |].
      * destruct p; [done|]. by apply Hm1'.
      * destruct p'; [done|]. intros Hm. apply Hm2. by rewrite is_multi_cons.
    + apply (IH p' vs'); [done|by apply combine_not_disjoint| |].
      * destruct p; [done|]. by apply Hm1'.
      * destruct p'; [done|]. intros Hm. apply Hm2. by rewrite is_multi_cons.
    + pose proof (combine_not_disjoint rel moreSpecific Hrel ltac:(done)) as Hr.
      destruct p; [done|]. rewrite (Hm2 eq_refl). by apply combine_not_disjoint.
  - inversion H2 as [|s' p' l' vs' H2'|n' v' p' l' vs' Hne' H2'|s' l']; subst; cbn [compare_segs compareSegments].
    + pose proof (combine_not_disjoint rel moreGeneral Hrel ltac:(done)) as Hr.
      destruct p'; [done|]. rewrite (Hm1 eq_refl). by apply combine_not_disjoint.
    + pose proof (combine_not_disjoint rel moreGeneral Hrel ltac:(done)) as Hr.
      destruct p'; [done|]. rewrite (Hm1 eq_refl). by apply combine_not_disjoint.
    + by apply combine_not_disjoint.
Qed.

Lemma seg_match_length p l vs : seg_match p l vs → is_multi p = false → length p = length l.
Proof.
  induction 1 as [|s p l vs H IH|n v p l vs Hne H IH|s l]; intros Hm; simpl; [done|..|done];
    f_equal; (destruct p; [by inversion H|by apply IH]).
Qed.

(** No path matches two disjoint patterns. *)
Lemma disjoint_match s1 s2 l vs1 vs2 :
  comparePaths s1 s2 = disjoint → seg_match s1 l vs1 → ¬ seg_match s2 l vs2.
Proof.
  intros Hd H1 H2. unfold comparePaths in Hd. case_match eqn:Hl.
  - apply andb_true_iff in Hl as [[Hne Hm1]%andb_true_iff Hm2].
    apply bool_decide_eq_true in Hne. apply negb_true_iff in Hm1, Hm2.
    apply seg_match_length in H1, H2; [congruence|done..].
  - revert Hd. by apply (compare_segs_match s1 s2 l vs1 vs2).
Qed.

Lemma seg_match_unique p l vs vs' : seg_match p l vs → seg_match p l vs' → vs = vs'.
Proof.
  intros H. revert vs'. induction H as [|s p l vs H IH|n v p l vs Hne H IH|s l]; intros vs' H';
    inversion H'; subst; [done|by apply IH|f_equal; by apply IH|done].
Qed.

(** ** Lemmas: the mux *)

Section mux_lemmas.
Context {H : Type}.
Implicit Types m : list (pattern * H).

Lemma method_child_in method m segs q :
  (segs, q) ∈ method_child method m ↔ q ∈ m ∧ p_method q.1 = method ∧ segs = p_segs q.1.
Proof.
  unfold method_child. rewrite list_elem_of_omap. split.
  - intros (q' & Hin & Hq). case_bool_decide; simplify_eq. done.
  - intros (Hin & Hm & ->). exists q. split; [done|]. by rewrite bool_decide_eq_true_2.
Qed.

Lemma method_child_match method m path q ms :
  matchPath (method_child method m) (segments path) [] = Some (q, ms) →
  q ∈ m ∧ p_method q.1 = method ∧ seg_match (p_segs q.1) (segments path) ms.
Proof.
  intros (p & vs & (Hin & Hm & ->)%method_child_in & Hp & ->)%matchPath_sound. done.
Qed.

Lemma method_child_complete method m path q ms :
  q ∈ m → p_method q.1 = method → seg_match (p_segs q.1) (segments path) ms →
  is_Some (matchPath (method_child method m) (segments path) []).
Proof.
  intros Hin Hm Hs. eapply matchPath_complete; [|exact Hs]. by apply method_child_in.
Qed.

(** On disjoint patterns the tree finds the one that matches. *)
Lemma tree_match_iff m method path q ms :
  disjoint_paths ((λ q, p_segs q.1) <$> m) → method ≠ "" →
  tree_match m method path = Some (q, ms) ↔
    q ∈ m ∧ accepts q.1 method ∧ seg_match (p_segs q.1) (segments path) ms.
Proof.
  intros Hd Hne.
  assert (∀ q ms, tree_match m method path = Some (q, ms) →
    q ∈ m ∧ accepts q.1 method ∧ seg_match (p_segs q.1) (segments path) ms) as Hsound.
  { clear q ms. intros q ms. unfold tree_match, accepts.
    intros [Hl|[_ [Hg|[_ He]]%orElse_Some]]%orElse_Some.
    - apply method_child_match in Hl as (? & ? & ?). eauto.
    - case_bool_decide; [|done]. apply method_child_match in Hg as (? & ? & ?). eauto 6.
    - case_bool_decide; [done|]. apply method_child_match in He as (? & ? & ?). eauto 6. }
  split; [apply Hsound|]. intros (Hin & Hacc & Hs).
  assert (is_Some (tree_match m method path)) as [[q' ms'] Hq'].
  { unfold tree_match. rewrite !orElse_is_Some. destruct Hacc as [Hm|[[Hm ->]|Hm]].
    - left. by eapply method_child_complete.
    - right. left. rewrite bool_decide_eq_true_2 by done. by eapply method_child_complete.
    - right. right. rewrite bool_decide_eq_false_2 by done. by eapply method_child_complete. }
  rewrite Hq'. destruct (Hsound q' ms' Hq') as (Hin' & _ & Hs').
  apply list_elem_of_lookup_1 in Hin as [i Hi], Hin' as [j Hj].
  destruct (decide (i = j)) as [->|Hij].
  - simplify_eq. f_equal. f_equal. by eapply seg_match_unique.
  - exfalso. refine (disjoint_match _ _ _ _ _ (Hd i j _ _ _ _ Hij) Hs Hs');
      by rewrite list_lookup_fmap, ?Hi, ?Hj.
Qed.

Lemma matches_with_true m path method :
  matches_with m path method = true ↔
    method ≠ "" ∧ ∃ q ms, q ∈ m ∧ p_method q.1 = method ∧
      (seg_match (p_segs q.1) (segments path) ms ∨
       HasSuffix path "/" = false ∧ seg_match (p_segs q.1) (segments (String.app path "/")) ms).
Proof.
  unfold matches_with.
  rewrite andb_true_iff, orb_true_iff, andb_true_iff, !bool_decide_eq_true, negb_true_iff. split.
  - intros [Hm [[[q ms] (? & ? & ?)%method_child_match]|[Hs [[q ms] (? & ? & ?)%method_child_match]]]];
      (split; [done|]); exists q, ms; tauto.
  - intros (Hm & q & ms & Hin & Hq & [Hs|[Hx Hs]]); (split; [done|]).
    + left. by eapply method_child_complete.
    + right. split; [done|]. by eapply method_child_complete.
Qed.

(** The methods a 405 announces. *)
Lemma elem_of_matchingMethods `{GoSort} m path method :
  method ∈ matchingMethods m path ↔
    matches_with m path method = true ∨
    (method = "HEAD" ∧ matches_with m path "GET" = true).
Proof.
  assert (∀ x, x ∈ filter (λ x, matches_with m path x = true) (remove_dups ((λ q, p_method q.1) <$> m))
    ↔ matches_with m path x = true) as Hin.
  { intros x. rewrite list_elem_of_filter, elem_of_remove_dups, list_elem_of_fmap. split; [tauto|].
    intros Hx. split; [done|]. apply matches_with_true in Hx as (_ & q & ms & Hq & <- & _). eauto. }
  unfold matchingMethods, slices_Sort. rewrite SortFunc_perm.
  case_match eqn:Hb.
  - apply andb_true_iff in Hb as [Hg%bool_decide_eq_true _]. rewrite Hin in Hg.
    rewrite elem_of_cons, Hin. tauto.
  - rewrite Hin. split; [tauto|]. intros [Hx|[-> Hx]]; [done|].
    apply andb_false_iff in Hb as [Hg%bool_decide_eq_false|Hh].
    + by rewrite Hin in Hg.
    + apply negb_false_iff, bool_decide_eq_true in Hh. by rewrite Hin in Hh.
Qed.

End mux_lemmas.

(** ** Lemmas: rooted paths *)

Lemma prefix_one c s : String.prefix (String c "") s = match s with String d _ => bool_decide (c = d) | _ => false end.
Proof.
  destruct s as [|d s]; [done|]. simpl. destruct (ascii_dec c d) as [->|Hne].
  - rewrite bool_decide_eq_true_2 by done. by destruct s.
  - by rewrite bool_decide_eq_false_2.
Qed.

(** Ending in a slash, from the front. *)
Fixpoint ends_slash (s : string) : bool :=
  match s with
  | EmptyString => false
  | String c EmptyString => bool_decide (c = "/"%char)
  | String _ s' => ends_slash s'
  end.

Lemma HasSuffix_slash s : HasSuffix s "/" = ends_slash s.
Proof.
  unfold HasSuffix. change (string_rev "/") with "/". unfold string_rev.
  assert (∀ acc, String.prefix "/" (string_rev_app s acc) =
    match s with EmptyString => String.prefix "/" acc | _ => ends_slash s end) as H.
  { induction s as [|c s IH]; intros acc; [done|]. cbn [string_rev_app ends_slash]. rewrite IH.
    destruct s; [|done]. rewrite prefix_one. apply bool_decide_ext. naive_solver. }
  rewrite H. by destruct s.
Qed.

Lemma split_byte_cons sep s : ∃ p ps, split_byte sep s = p :: ps.
Proof.
  induction s as [|c s (p & ps & IH)]; simpl; [eauto|]. rewrite IH. case_bool_decide; eauto.
Qed.

Lemma split_byte_slash s : split_byte "/" (String.app s "/") = split_byte "/" s ++ [""].
Proof.
  induction s as [|c s IH]; [done|].
  change (split_byte "/" (String.app (String c s) "/")) with (split_byte "/" (String c (String.app s "/"))).
  cbn [split_byte]. rewrite IH. case_bool_decide; [done|].
  destruct (split_byte_cons "/" s) as (p & ps & ->). done.
Qed.

(** The last element of a path is empty exactly when it ends in a slash. *)
Lemma last_split s : s ≠ "" → last (split_byte "/" s) = Some "" ↔ ends_slash s = true.
Proof.
  induction s as [|c s IH]; [done|]. intros _. cbn [split_byte ends_slash].
  destruct s as [|d s].
  - cbn [split_byte]. case_bool_decide; simpl; naive_solver.
  - specialize (IH ltac:(done)). rewrite <-IH.
    destruct (split_byte_cons "/" (String d s)) as (p & ps & Hs). rewrite Hs in *.
    case_bool_decide as Hc; [by rewrite last_cons_cons|].
    destruct ps as [|p' ps]; [|by rewrite !last_cons_cons]. simpl.
    split; [done|]. intros [= ->]. exfalso. cbn [split_byte] in Hs.
    destruct (split_byte_cons "/" s) as (q & qs & Hq). rewrite Hq in Hs.
    by case_bool_decide.
Qed.

(** A rooted path: its elements, and its segments. *)
Lemma rooted_split path : HasPrefix path "/" = true →
  ∃ rest, path = String "/" rest ∧ split_byte "/" path = "" :: split_byte "/" rest.
Proof.
  unfold HasPrefix. rewrite prefix_one. destruct path as [|c rest]; [done|].
  intros <-%bool_decide_eq_true. exists rest. by split.
Qed.

Lemma segments_of_length l : length (segments_of l) = length l.
Proof.
  induction l as [|e [|e' l] IH]; [done|simpl; by case_bool_decide|].
  change (S (length (segments_of (e' :: l))) = S (length (e' :: l))). by rewrite IH.
Qed.

Lemma segments_of_snoc l : last l ≠ Some "" → segments_of (l ++ [""]) = segments_of l ++ ["/"].
Proof.
  induction l as [|e [|e' l] IH]; intros Hl; [done| |].
  - simpl in *. by rewrite bool_decide_eq_false_2 by naive_solver.
  - rewrite last_cons_cons in Hl.
    change (pathUnescape e :: segments_of ((e' :: l) ++ [""]) = pathUnescape e :: (segments_of (e' :: l) ++ ["/"])).
    by rewrite IH.
Qed.

Lemma segments_length path : HasPrefix path "/" = true → zlen (segments path) = count_slashes path.
Proof.
  intros (rest & -> & Hs)%rooted_split. unfold segments, count_slashes. rewrite Hs.
  cbn [tail]. rewrite segments_of_length. simpl. lia.
Qed.

Lemma segments_nonempty path : HasPrefix path "/" = true → segments path ≠ [].
Proof.
  intros (rest & -> & Hs)%rooted_split. unfold segments. rewrite Hs. cbn [tail].
  destruct (split_byte_cons "/" rest) as (p & ps & ->). intros Hn.
  pose proof (segments_of_length (p :: ps)) as Hl. by rewrite Hn in Hl.
Qed.

Lemma segments_subtree path :
  HasPrefix path "/" = true → HasSuffix path "/" = false →
  segments (String.app path "/") = segments path ++ ["/"].
Proof.
  intros (rest & -> & Hs)%rooted_split Hsuf. unfold segments. rewrite split_byte_slash, Hs. cbn [tail app].
  apply segments_of_snoc. rewrite HasSuffix_slash in Hsuf. intros Hl.
  destruct rest as [|c rest]; [discriminate Hsuf|].
  change (ends_slash (String c rest) = false) in Hsuf.
  apply last_split in Hl; [congruence|done].
Qed.

(** A pattern that is not a subtree matches a trailing slash only literally. *)
Lemma seg_match_slash p l vs :
  seg_match p (l ++ ["/"]) vs → is_multi p = false → last p = Some (Lit "/").
Proof.
  revert p vs. induction l as [|s l IH]; intros p vs Hm Hp.
  - inversion Hm as [|s' p' l' vs' H' |n v p' l' vs' Hne H'|]; subst; [|done|done]. by inversion H'; subst.
  - assert (∀ x p', p = x :: p' → p' ≠ [] → is_multi p' = false ∧ last p = last p') as Hc.
    { intros x p' -> Hne. rewrite is_multi_cons in Hp by done. split; [done|]. by destruct p'. }
    inversion Hm as [|s' p' l' vs' H' |n v p' l' vs' Hne H'|]; subst; [..|done];
      (assert (p' ≠ []) as Hne' by (intros ->; inversion H'; by destruct l));
      (destruct (Hc _ _ eq_refl Hne') as [H1 ->]); by eapply IH.
Qed.

Lemma HasSuffix_app_slash s : HasSuffix (String.app s "/") "/" = true.
Proof.
  rewrite HasSuffix_slash. induction s as [|c s IH]; [done|].
  change (ends_slash (String c (String.app s "/")) = true).
  destruct s; [done|exact IH].
Qed.

Lemma HasPrefix_app_slash s : HasPrefix s "/" = true → HasPrefix (String.app s "/") "/" = true.
Proof. intros (rest & -> & _)%rooted_split. unfold HasPrefix. rewrite prefix_one. reflexivity. Qed.

(** ** Order does not matter *)

(** Routing depends on the set of registered patterns only, as long as no path
    matches two of them. *)
Lemma tree_match_perm {H} (m m' : list (pattern * H)) method path :
  m ≡ₚ m' → disjoint_paths ((λ q, p_segs q.1) <$> m) → disjoint_paths ((λ q, p_segs q.1) <$> m') →
  method ≠ "" → tree_match m method path = tree_match m' method path.
Proof.
  intros Hp Hd Hd' Hne. apply option_eq. intros [q ms].
  by rewrite !tree_match_iff, Hp.
Qed.

Lemma matches_with_perm {H} (m m' : list (pattern * H)) path method :
  m ≡ₚ m' → matches_with m path method = matches_with m' path method.
Proof.
  intros Hp. apply eq_bool_prop_intro. rewrite !Is_true_true, !matches_with_true.
  by setoid_rewrite Hp.
Qed.

Lemma matchingMethods_perm `{GoSort} {A} (m m' : list (pattern * A)) path :
  m ≡ₚ m' → matchingMethods m path = matchingMethods m' path.
Proof.
  intros Hp. unfold matchingMethods.
  set (ms := filter _ _). set (ms' := filter _ (remove_dups (_ <$> m'))).
  assert (ms ≡ₚ ms') as Hms.
  { apply NoDup_Permutation; [apply NoDup_filter, NoDup_remove_dups..|].
    intros x. subst ms ms'. rewrite !list_elem_of_filter, !elem_of_remove_dups.
    by rewrite (matches_with_perm m m'), Hp. }
  rewrite (bool_decide_ext ("GET" ∈ ms) ("GET" ∈ ms')), (bool_decide_ext ("HEAD" ∈ ms) ("HEAD" ∈ ms'))
    by (by rewrite Hms).
  apply slices_Sort_perm_eq. case_match; by rewrite Hms.
Qed.

Lemma findHandler_perm `{GoSort} {A} (m m' : list (pattern * A)) method path :
  m ≡ₚ m' → disjoint_paths ((λ q, p_segs q.1) <$> m) → disjoint_paths ((λ q, p_segs q.1) <$> m') →
  method ≠ "" → findHandler m method path = findHandler m' method path.
Proof.
  intros Hp Hd Hd' Hne. unfold findHandler.
  by rewrite !(tree_match_perm m m'), (matchingMethods_perm m m').
Qed.
