(* ===== verification/Routes.v ===== *)
(** * The UI listener's routes

    [Mount] of internal/api/handler.go and of internal/ui/ui.go and
    [mountRiverUI] of cmd/grex/main.go, on one [Mux], with the API's handlers
    instrumented as [Registration] models it.  A request then has one answer,
    [dispatch]: the mux's, a handler's of [Api] or [UI], a static file or a
    River page.  The embedded files and riverui are third-party; their answers
    are arguments.  The theorems: mounting never panics, in either order; a
    request reaches the handler the table of routes says, with the identifier
    of its path; the mux answers 405 exactly for other methods on known paths;
    only API routes are instrumented, under fixed labels; and the gate stands
    before all of it. *)

From Stdlib Require Import Ascii ZArith Lia.
From S2P Require Import Prelude GoLang GoParse GoUrl GoTime Fleet Registry RegistryProps Demo.
From S2P Require Import Auth Config Server Filter Api UiLinks UI Metrics Registration Mux.
Local Open Scope Z_scope.

(** ** Requests and answers *)

Record Request := mkRequest {
  q_Method : string;
  q_Path : string;              (* escaped *)
  q_RawQuery : string;
  q_Body : string
}.

(** [r.URL.Query()]. *)
Definition q_Query (r : Request) : url_Values := ParseQuery (q_RawQuery r).

Inductive answer :=
  | ApiAnswer (a : Api.response)
  | PageAnswer (a : ui_response)
  | StaticAnswer (status : Z)
  | RiverAnswer (status : Z)
  | MuxRedirect (path : string)
  | MuxNotAllowed (allow : list string)
  | MuxNotFound.

(** The status written. *)
Definition status_code (a : answer) : Z :=
  match a with
  | ApiAnswer (Api.Error s _) => s
  | ApiAnswer (JobCreated _) => 201
  | ApiAnswer _ => 200
  | PageAnswer (Html s _) | PageAnswer (TextError s _) | StaticAnswer s | RiverAnswer s => s
  | MuxRedirect _ => 307
  | MuxNotAllowed _ => 405
  | MuxNotFound => 404
  end.

(** The wildcard's value comes with the request. *)
Definition Handler : Type := Request * (string → string) → writer MetricOp answer.

(** ** Package api: Handler *)

(** [store] and [jobs] are absent without a database, [metrics] may be nil. *)
Record ApiHandler := mkApiHandler {
  api_startedAt : Time;
  api_list : option (option (list Agent));              (* store.ListAgents *)
  api_get : option (string → option (option Agent));    (* store.GetAgent *)
  api_metrics : bool;
  api_jobs : option (Job → option Job)                  (* jobs.CreateJob *)
}.

(** [New]: a zero start is now. *)
Definition NewApi (now : Time) (startedAt : Time) (list : option (option (list Agent)))
    (get : option (string → option (option Agent))) (metrics : bool)
    (jobs : option (Job → option Job)) : ApiHandler :=
  mkApiHandler (if IsZero startedAt then now else startedAt) list get metrics jobs.

(** What a hook reports: nothing to [noopMetrics]. *)
Definition hooked {A} (metrics : bool) (w : writer ApiMetric A) : writer MetricOp A :=
  (w.1, if metrics then log_of w.2 else []).

Section routes.
Context `{PB : Protobuf, UU : UUID, MR : MapRange, GS : GoSort, RE : Regexp, UN : Unicode,
          TM : Templates, PH : PromHTTP}
        (bits : CapabilityBits) (build : BuildInfo) (decode : string → option createJobRequest).

(** What a request finds: the clock, the registry, how long its handler takes,
    what the file server and River's pages answer. *)
Context (now : Time) (r : Registry) (elapsed : Duration).
Context (static : string → Z) (river : Request → Z).

(** [Mount] of package api, with or without a wrapper. *)
Definition api_routes (h : ApiHandler) (wrap : string → Handler → option Handler) :
    option (list (string * Handler)) :=
  agents ← wrap "/api/agents" (λ q,
    hooked (api_metrics h) (a ← listAgents bits now (api_list h) (q_Query q.1) r; mret (ApiAnswer a)));
  agent ← wrap "/api/agents/{id}" (λ q,
    mret (ApiAnswer (getAgent bits now (api_get h) (q.2 "id") r)));
  status ← wrap "/api/status" (λ q, mret (ApiAnswer (status now (api_startedAt h) r)));
  keys ← wrap "/api/attributes" (λ q, mret (ApiAnswer (listAttributeKeys (q_Query q.1) r)));
  values ← wrap "/api/attributes/values" (λ q,
    mret (ApiAnswer (listAttributeValues (q_Query q.1) r)));
  jobs ← wrap "/api/jobs" (λ q, mret (ApiAnswer (createJob decode (api_jobs h) (q_Body q.1))));
  Some [("GET /api/agents", agents);
        ("GET /api/agents/{id}", agent);
        ("GET /api/status", status);
        ("GET /api/attributes", keys);
        ("GET /api/attributes/values", values);
        ("POST /api/jobs", jobs)].

(** No wrapper, and the HTTP metrics'. *)
Definition no_wrap : string → Handler → option Handler := λ _ f, Some f.

Definition instrumented (h : HTTPMetrics) : string → Handler → option Handler :=
  Instrument (λ q, q_Method q.1) status_code (λ _, elapsed) h.

(** [Mount] of package ui; the page's store is the API's. *)
Definition ui_routes (h : UI.Handler) (a : ApiHandler) : list (string * Handler) :=
  let page (w : ui_response) : writer MetricOp answer := mret (PageAnswer w) in
  let counted (w : writer ApiMetric ui_response) : writer MetricOp answer :=
    hooked (api_metrics a) (p ← w; mret (PageAnswer p)) in
  [("GET /static/", λ q, mret (StaticAnswer (static (q_Path q.1))));
   ("GET /{$}", λ q, counted (fleetPage bits h now (api_list a) (q_Query q.1) r));
   ("GET /partials/agents", λ q, counted (fleetPartial bits h now (api_list a) (q_Query q.1) r));
   ("GET /agents/{id}", λ q, page (agentPage bits h now (api_get a) (q.2 "id") r));
   ("GET /partials/agents/{id}", λ q, page (agentPartial bits h now (api_get a) (q.2 "id") r));
   ("GET /status", λ q, page (statusPage build h now r));
   ("GET /partials/status", λ q, page (statusPartial build h now r))].

(** [mountRiverUI]; only with a database. *)
Definition river_routes (db : bool) : list (string * Handler) :=
  if db then [("/riverui/", λ q, mret (RiverAnswer (river q.1)))] else [].

(** The mux [run] serves: [None] is a panic. *)
Definition uiMux (a : ApiHandler) (h : UI.Handler) (db : bool) (metrics : HTTPMetrics) :
    option (list (pattern * Handler)) :=
  api ← api_routes a (instrumented metrics);
  m ← HandleAll api [];
  m ← HandleAll (ui_routes h a) m;
  HandleAll (river_routes db) m.

(** One request through the mux. *)
Definition dispatch (m : list (pattern * Handler)) (q : Request) : writer MetricOp answer :=
  match findHandler m (q_Method q) (q_Path q) with
  | Redirect path => mret (MuxRedirect path)
  | Routed p h matches => h (q, PathValue p matches)
  | MethodNotAllowed allow => mret (MuxNotAllowed allow)
  | Mux.NotFound => mret MuxNotFound
  end.

End routes.

(** ** The table of routes *)

(** What a request is for. *)
Inductive target :=
  | TListAgents | TGetAgent (id : string) | TStatus | TKeys | TValues | TCreateJob
  | TStatic
  | TFleet | TFleetPartial | TAgent (id : string) | TAgentPartial (id : string)
  | TStatusPage | TStatusPartial
  | TRiver.

(** A GET, or the HEAD Go answers with it. *)
Definition is_get (method : string) : Prop := method = "GET" ∨ method = "HEAD".

(** Method and segments of the path, to target.  An identifier is one segment,
    and a subtree is what lies below its slash. *)
Inductive routed_to (db : bool) (method : string) : list string → target → Prop :=
  | to_list : is_get method → routed_to db method ["api"; "agents"] TListAgents
  | to_get id : is_get method → id ≠ "/" → routed_to db method ["api"; "agents"; id] (TGetAgent id)
  | to_status : is_get method → routed_to db method ["api"; "status"] TStatus
  | to_keys : is_get method → routed_to db method ["api"; "attributes"] TKeys
  | to_values : is_get method → routed_to db method ["api"; "attributes"; "values"] TValues
  | to_jobs : method = "POST" → routed_to db method ["api"; "jobs"] TCreateJob
  | to_static s l : is_get method → routed_to db method ("static" :: s :: l) TStatic
  | to_fleet : is_get method → routed_to db method ["/"] TFleet
  | to_fleet_partial : is_get method → routed_to db method ["partials"; "agents"] TFleetPartial
  | to_agent id : is_get method → id ≠ "/" → routed_to db method ["agents"; id] (TAgent id)
  | to_agent_partial id :
      is_get method → id ≠ "/" → routed_to db method ["partials"; "agents"; id] (TAgentPartial id)
  | to_status_page : is_get method → routed_to db method ["status"] TStatusPage
  | to_status_partial : is_get method → routed_to db method ["partials"; "status"] TStatusPartial
  | to_river s l : db = true → routed_to db method ("riverui" :: s :: l) TRiver.

(** The subtrees whose root redirects. *)
Inductive subtree_root (db : bool) (method : string) : list string → Prop :=
  | root_static : is_get method → subtree_root db method ["static"]
  | root_river : db = true → subtree_root db method ["riverui"].

(** The route label of an instrumented target. *)
Definition api_label (t : target) : option string :=
  match t with
  | TListAgents => Some "/api/agents"
  | TGetAgent _ => Some "/api/agents/{id}"
  | TStatus => Some "/api/status"
  | TKeys => Some "/api/attributes"
  | TValues => Some "/api/attributes/values"
  | TCreateJob => Some "/api/jobs"
  | _ => None
  end.

(** Inverts a match of an explicit pattern. *)
Ltac inv_match :=
  repeat match goal with
  | H : seg_match (_ :: _) _ _ |- _ => inversion H; clear H; subst
  | H : seg_match [] _ _ |- _ => inversion H; clear H; subst
  end.

Section table.
Context `{PB : Protobuf, UU : UUID, MR : MapRange, GS : GoSort, RE : Regexp, UN : Unicode,
          TM : Templates, PH : PromHTTP}
        (bits : CapabilityBits) (build : BuildInfo) (decode : string → option createJobRequest)
        (now : Time) (r : Registry) (elapsed : Duration)
        (static : string → Z) (river : Request → Z).

(** The handler behind a target, uninstrumented. *)
Definition handle (a : ApiHandler) (h : UI.Handler) (t : target) (q : Request) :
    writer MetricOp answer :=
  match t with
  | TListAgents => hooked (api_metrics a)
      (x ← listAgents bits now (api_list a) (q_Query q) r; mret (ApiAnswer x))
  | TGetAgent id => mret (ApiAnswer (getAgent bits now (api_get a) id r))
  | TStatus => mret (ApiAnswer (status now (api_startedAt a) r))
  | TKeys => mret (ApiAnswer (listAttributeKeys (q_Query q) r))
  | TValues => mret (ApiAnswer (listAttributeValues (q_Query q) r))
  | TCreateJob => mret (ApiAnswer (createJob decode (api_jobs a) (q_Body q)))
  | TStatic => mret (StaticAnswer (static (q_Path q)))
  | TFleet => hooked (api_metrics a)
      (x ← fleetPage bits h now (api_list a) (q_Query q) r; mret (PageAnswer x))
  | TFleetPartial => hooked (api_metrics a)
      (x ← fleetPartial bits h now (api_list a) (q_Query q) r; mret (PageAnswer x))
  | TAgent id => mret (PageAnswer (agentPage bits h now (api_get a) id r))
  | TAgentPartial id => mret (PageAnswer (agentPartial bits h now (api_get a) id r))
  | TStatusPage => mret (PageAnswer (statusPage build h now r))
  | TStatusPartial => mret (PageAnswer (statusPartial build h now r))
  | TRiver => mret (RiverAnswer (river q))
  end.

(** The operations of the HTTP metrics for one request. *)
Definition http_ops (route : string) (code : Z) (method : string) : list MetricOp :=
  let labels := [route; prom_code code; prom_method method] in
  [CounterInc "grex_api_requests_total" labels;
   Observe "grex_api_request_duration_seconds" labels (duration_in Second elapsed)].

(** An API target is counted and timed under its label. *)
Definition serve_target (a : ApiHandler) (h : UI.Handler) (t : target) (q : Request) :
    writer MetricOp answer :=
  let w := handle a h t q in
  match api_label t with
  | Some route => (w.1, w.2 ++ http_ops route (status_code w.1) (q_Method q))
  | None => w
  end.

(** The patterns, each with the target of the values its wildcards took. *)
Definition table (db : bool) : list (pattern * (list string → target)) :=
  let id (vs : list string) := default "" (head vs) in
  [(mkPattern "GET" [Lit "api"; Lit "agents"], λ _, TListAgents);
   (mkPattern "GET" [Lit "api"; Lit "agents"; Wild "id"], λ vs, TGetAgent (id vs));
   (mkPattern "GET" [Lit "api"; Lit "status"], λ _, TStatus);
   (mkPattern "GET" [Lit "api"; Lit "attributes"], λ _, TKeys);
   (mkPattern "GET" [Lit "api"; Lit "attributes"; Lit "values"], λ _, TValues);
   (mkPattern "POST" [Lit "api"; Lit "jobs"], λ _, TCreateJob);
   (mkPattern "GET" [Lit "static"; Multi], λ _, TStatic);
   (mkPattern "GET" [Lit "/"], λ _, TFleet);
   (mkPattern "GET" [Lit "partials"; Lit "agents"], λ _, TFleetPartial);
   (mkPattern "GET" [Lit "agents"; Wild "id"], λ vs, TAgent (id vs));
   (mkPattern "GET" [Lit "partials"; Lit "agents"; Wild "id"], λ vs, TAgentPartial (id vs));
   (mkPattern "GET" [Lit "status"], λ _, TStatusPage);
   (mkPattern "GET" [Lit "partials"; Lit "status"], λ _, TStatusPartial)] ++
  (if db then [(mkPattern "" [Lit "riverui"; Multi], λ _, TRiver)] else []).

(** ** Lemmas: mounting *)

(** [HandleAll] on the patterns alone. *)
Fixpoint mount_patterns (routes : list string) (ps : list pattern) : option (list pattern) :=
  match routes with
  | [] => Some ps
  | s :: routes =>
      p ← parsePattern s;
      if existsb (λ q, conflictsWith q p) ps then None else mount_patterns routes (ps ++ [p])
  end.

Lemma existsb_fmap {A B} (f : A → B) P (l : list A) : existsb P (f <$> l) = existsb (λ x, P (f x)) l.
Proof. induction l as [|x l IH]; [done|]. csimpl. by rewrite IH. Qed.

Lemma zip_app_one {A B} (l : list A) (k : list B) x y :
  length l = length k → zip (l ++ [x]) (k ++ [y]) = zip l k ++ [(x, y)].
Proof. intros Hl. by rewrite zip_with_app. Qed.

Lemma HandleAll_patterns {H} (routes : list (string * H)) ps hs ps' :
  length ps = length hs → mount_patterns routes.*1 ps = Some ps' →
  HandleAll routes (zip ps hs) = Some (zip ps' (hs ++ routes.*2)) ∧
  length ps' = length (hs ++ routes.*2).
Proof.
  revert ps hs. induction routes as [|[s h] routes IH]; intros ps hs Hl; csimpl.
  - intros [= <-]. by rewrite app_nil_r.
  - intros (p & Hp & Hm)%bind_Some. unfold Handle. rewrite Hp. cbn [mbind option_bind].
    rewrite <-(existsb_fmap fst (λ q, conflictsWith q p)), fst_zip by lia.
    destruct (existsb _ ps); [done|]. cbn [mbind option_bind].
    rewrite <-zip_app_one by done. destruct (IH (ps ++ [p]) (hs ++ [h])) as [H1 H2];
      [rewrite !length_app; simpl; lia|exact Hm|].
    rewrite <-app_assoc in H1, H2. by split.
Qed.

Lemma HandleAll_app {H} (l l' : list (string * H)) m :
  HandleAll (l ++ l') m = HandleAll l m ≫= HandleAll l'.
Proof.
  revert m. induction l as [|[s x] l IH]; intros m; [done|]. cbn [app HandleAll].
  destruct (Handle s x m) as [m'|]; [|done]. cbn [mbind option_bind]. apply IH.
Qed.

Lemma HandleAll_app3 {H} (l1 l2 l3 : list (string * H)) m :
  HandleAll (l1 ++ l2 ++ l3) m = (m ← HandleAll l1 m; m ← HandleAll l2 m; HandleAll l3 m).
Proof.
  rewrite HandleAll_app. destruct (HandleAll l1 m) as [m1|]; [|done]. cbn [mbind option_bind].
  apply HandleAll_app.
Qed.

Lemma HandleAll_omap {H} (l : list (string * H)) m m' :
  HandleAll l m = Some m' → m' = m ++ omap (λ sh, p ← parsePattern sh.1; Some (p, sh.2)) l.
Proof.
  revert m. induction l as [|[s x] l IH]; intros m; [intros [= <-]; by rewrite app_nil_r|].
  cbn [HandleAll]. unfold Handle. intros (m1 & (p & Hp & Hm1)%bind_Some & Hl)%bind_Some.
  case_match; [done|]. simplify_eq. csimpl. rewrite Hp. cbn [mbind option_bind].
  rewrite (IH _ Hl). by rewrite <-app_assoc.
Qed.

Lemma segs_zip {H} (ps : list pattern) (hs : list H) :
  length ps = length hs → (λ q, p_segs q.1) <$> zip ps hs = p_segs <$> ps.
Proof.
  intros Hl. transitivity (p_segs <$> (zip ps hs).*1); [by rewrite <-list_fmap_compose|].
  by rewrite fst_zip by lia.
Qed.

(** The mux is the table, with its handlers. *)
Lemma uiMux_table a h db :
  ∃ hs, uiMux bits build decode now r elapsed static river a h db http_metrics =
          Some (zip (table db).*1 hs) ∧
    Forall2 (λ (pf : pattern * (list string → target)) (hd : Handler),
      ∀ vs segs q, seg_match (p_segs pf.1) segs vs →
        hd (q, PathValue pf.1 vs) = serve_target a h (pf.2 vs) q) (table db) hs.
Proof.
  unfold uiMux. destruct (api_routes _ _ _ _ _ _) as [api|] eqn:Hapi; [|discriminate Hapi].
  injection Hapi as <-. cbn [mbind option_bind].
  match goal with |- context [HandleAll ?l []] => set (api := l) end.
  assert (mount_patterns (api.*1 ++ (ui_routes bits build now r static h a).*1 ++ (river_routes river db).*1) []
    = Some (table db).*1) as Hm by (destruct db; vm_compute; reflexivity).
  set (ui := ui_routes bits build now r static h a) in *. set (rv := river_routes river db) in *.
  assert ((api ++ ui ++ rv).*1 = api.*1 ++ ui.*1 ++ rv.*1) as Happ by (by rewrite !fmap_app).
  rewrite <-Happ in Hm.
  destruct (HandleAll_patterns (api ++ ui ++ rv) [] [] _ eq_refl Hm) as [Hall _].
  exists (api ++ ui ++ rv).*2. split.
  - change (zip [] []) with (@nil (pattern * Handler)) in Hall.
    rewrite !HandleAll_app in Hall. etrans; [|exact Hall].
    destruct (HandleAll api []) as [m1|]; [|done]. cbn [mbind option_bind]. by rewrite HandleAll_app.
  - subst api ui rv. clear. destruct db;
      (repeat (apply Forall2_cons_2; [intros vs segs q Hm; cbn [p_segs fst] in Hm; inv_match; reflexivity|]); apply Forall2_nil_2).
Qed.

(** ** Lemmas: the table *)

(** A decision for [disjoint_paths]. *)
Fixpoint disjoint_all (l : list (list segment)) : bool :=
  match l with
  | [] => true
  | s :: l => forallb (λ s', match comparePaths s s', comparePaths s' s with
                             | disjoint, disjoint => true | _, _ => false end) l && disjoint_all l
  end.

Lemma disjoint_all_paths l : disjoint_all l = true → disjoint_paths l.
Proof.
  induction l as [|s l IH]; intros Hl i j s1 s2 H1 H2 Hij; [by rewrite lookup_nil in H1|].
  cbn [disjoint_all] in Hl. apply andb_true_iff in Hl as [Hs Hl].
  assert (∀ s', s' ∈ l → comparePaths s s' = disjoint ∧ comparePaths s' s = disjoint) as Hd.
  { intros s' Hin%list_elem_of_In. pose proof (proj1 (forallb_forall _ _) Hs s' Hin) as Hc.
    simpl in Hc. by repeat case_match. }
  destruct i as [|i], j as [|j]; simpl in H1, H2; simplify_eq.
  - apply Hd. by eapply list_elem_of_lookup_2.
  - apply Hd. by eapply list_elem_of_lookup_2.
  - apply (IH Hl i j); [done|done|congruence].
Qed.

Lemma table_disjoint db : disjoint_paths (p_segs <$> (table db).*1).
Proof. apply disjoint_all_paths. by destruct db; vm_compute. Qed.

Lemma accepts_get segs method : accepts (mkPattern "GET" segs) method ↔ is_get method.
Proof. unfold accepts, is_get. cbn [p_method]. split; [intros [?|[[_ ?]|[=]]]|intros [?|?]]; auto. Qed.

(** The table of routes is what its patterns match. *)
Lemma table_routed db p f method segs vs :
  (p, f) ∈ table db → accepts p method → seg_match (p_segs p) segs vs → routed_to db method segs (f vs).
Proof.
  unfold table. rewrite elem_of_app, !elem_of_cons, elem_of_nil.
  intros [Hin|Hin] Hacc Hm.
  - repeat destruct Hin as [Hin|Hin]; try (by destruct Hin);
      injection Hin as -> ->; try apply accepts_get in Hacc; cbn [p_segs] in Hm; inv_match; try (by constructor).
    constructor. unfold accepts in Hacc. cbn [p_method] in Hacc. naive_solver.
  - destruct db; [|by apply not_elem_of_nil in Hin].
    apply list_elem_of_singleton in Hin. injection Hin as -> ->. cbn [p_segs] in Hm. inv_match. by constructor.
Qed.

Lemma routed_table db method segs t :
  routed_to db method segs t →
  ∃ i p f vs, table db !! i = Some (p, f) ∧ accepts p method ∧ seg_match (p_segs p) segs vs ∧ t = f vs.
Proof.
  destruct 1 as [H|id H Hne|H|H|H|H|s l H|H|H|id H Hne|id H Hne|H|H|s l ->];
    [exists 0%nat|exists 1%nat|exists 2%nat|exists 3%nat|exists 4%nat|exists 5%nat|exists 6%nat
    |exists 7%nat|exists 8%nat|exists 9%nat|exists 10%nat|exists 11%nat|exists 12%nat|exists 13%nat];
    eexists _, _, _; (split_and!; [reflexivity| | |]);
    try (apply accepts_get; exact H);
    try (repeat first [apply seg_match_nil|apply seg_match_lit|apply seg_match_multi
                      |apply seg_match_wild; [exact Hne|]]);
    try reflexivity.
  - by left.
  - by right; right.
Qed.

(** [tree_match] on the mux. *)
Definition mux_of (db : bool) (hs : list Handler) : list (pattern * Handler) := zip (table db).*1 hs.

Lemma mux_of_segs db hs : length hs = length (table db) →
  (λ q, p_segs q.1) <$> mux_of db hs = p_segs <$> (table db).*1.
Proof.
  intros Hl. unfold mux_of. apply segs_zip. rewrite length_fmap. by symmetry.
Qed.

Section found.
Context (a : ApiHandler) (h : UI.Handler) (db : bool) (hs : list Handler).
Hypothesis Hhs : Forall2 (λ (pf : pattern * (list string → target)) (hd : Handler),
  ∀ vs segs q, seg_match (p_segs pf.1) segs vs →
    hd (q, PathValue pf.1 vs) = serve_target a h (pf.2 vs) q) (table db) hs.

Lemma mux_disjoint : disjoint_paths ((λ q, p_segs q.1) <$> mux_of db hs).
Proof. rewrite mux_of_segs; [apply table_disjoint|]. symmetry. by eapply Forall2_length. Qed.

Lemma mux_row p hd : (p, hd) ∈ mux_of db hs →
  ∃ f, (p, f) ∈ table db ∧
    ∀ vs segs q, seg_match (p_segs p) segs vs → hd (q, PathValue p vs) = serve_target a h (f vs) q.
Proof.
  intros [i Hi]%list_elem_of_lookup_1. unfold mux_of in Hi.
  apply lookup_zip_Some in Hi as [Hp Hd]. rewrite list_lookup_fmap in Hp.
  apply fmap_Some in Hp as ([p' f] & Hf & ->). exists f. split; [by eapply list_elem_of_lookup_2|].
  by apply (Forall2_lookup_lr _ _ _ _ _ _ Hhs Hf Hd).
Qed.

Lemma row_mux i p f : table db !! i = Some (p, f) →
  ∃ hd, (p, hd) ∈ mux_of db hs ∧
    ∀ vs segs q, seg_match (p_segs p) segs vs → hd (q, PathValue p vs) = serve_target a h (f vs) q.
Proof.
  intros Hi. destruct (Forall2_lookup_l _ _ _ _ _ Hhs Hi) as (hd & Hd & Hserve). exists hd.
  split; [|exact Hserve].
  apply (list_elem_of_lookup_2 _ i). apply lookup_zip_Some. by rewrite list_lookup_fmap, Hi.
Qed.

(** A path with a target is matched by a handler that serves it. *)
Lemma tree_match_routed method path t :
  method ≠ "" → routed_to db method (segments path) t →
  ∃ p f hd vs, tree_match (mux_of db hs) method path = Some (p, hd, vs) ∧
    seg_match (p_segs p) (segments path) vs ∧ (p, f) ∈ table db ∧
    ∀ q, hd (q, PathValue p vs) = serve_target a h t q.
Proof.
  intros Hne (i & p & f & vs & Hi & Hacc & Hm & ->)%routed_table.
  destruct (row_mux i p f Hi) as (hd & Hin & Hserve). exists p, f, hd, vs.
  split; [by apply tree_match_iff; [apply mux_disjoint|..]|]. split; [done|].
  split; [by eapply list_elem_of_lookup_2|]. intros q. by eapply Hserve.
Qed.

(** And what the tree finds has a target. *)
Lemma tree_match_target method path p hd vs :
  method ≠ "" → tree_match (mux_of db hs) method path = Some (p, hd, vs) →
  ∃ t, routed_to db method (segments path) t.
Proof.
  intros Hne (Hin & Hacc & Hm)%tree_match_iff; [|apply mux_disjoint|done].
  destruct (mux_row p hd Hin) as (f & Hf & _). exists (f vs). by eapply table_routed.
Qed.

(** The only patterns that match below a path are the two subtrees. *)
Lemma row_exact p f vs l :
  (p, f) ∈ table db → seg_match (p_segs p) (l ++ ["/"]) vs → l ≠ [] →
  is_multi (p_segs p) = true ∧ (length (p_segs p) = S (length l) → ∃ s, l = [s] ∧ p_segs p = [Lit s; Multi] ∧
    (s = "static" ∧ p_method p = "GET" ∨ s = "riverui" ∧ p_method p = "" ∧ db = true)).
Proof.
  intros Hin Hm Hl. destruct (is_multi (p_segs p)) eqn:Hmu.
  - split; [done|]. intros Hlen. revert Hin. unfold table. rewrite elem_of_app, !elem_of_cons, elem_of_nil.
    intros [Hin|Hin].
    + repeat destruct Hin as [Hin|Hin]; try (by destruct Hin); injection Hin as -> ->; try discriminate Hmu.
      destruct l as [|s [|s' l]]; simpl in Hlen; [done| |lia]. cbn in Hm. inv_match. eauto 8.
    + destruct db; [|by apply not_elem_of_nil in Hin].
      apply list_elem_of_singleton in Hin. injection Hin as -> ->.
      destruct l as [|s [|s' l]]; simpl in Hlen; [done| |lia]. cbn in Hm. inv_match. eauto 8.
  - exfalso. pose proof (seg_match_slash _ _ _ Hm Hmu) as Hlast.
    pose proof (seg_match_length _ _ _ Hm Hmu) as Hlen. revert Hin Hlast Hlen.
    unfold table. rewrite elem_of_app, !elem_of_cons, elem_of_nil. intros [Hin|Hin] Hlast Hlen.
    + repeat destruct Hin as [Hin|Hin]; try (by destruct Hin); injection Hin as -> ->; try discriminate Hlast.
      rewrite length_app in Hlen. destruct l; [done|]. simpl in Hlen. lia.
    + destruct db; [|by apply not_elem_of_nil in Hin].
      apply list_elem_of_singleton in Hin. injection Hin as -> ->. discriminate Hmu.
Qed.

Lemma row_multi p f : (p, f) ∈ table db → is_multi (p_segs p) = true → length (p_segs p) = 2%nat.
Proof.
  unfold table. rewrite elem_of_app, !elem_of_cons, elem_of_nil. intros [Hin|Hin] Hmu.
  - repeat destruct Hin as [Hin|Hin]; try (by destruct Hin); injection Hin as -> ->; by try discriminate Hmu.
  - destruct db; [|by apply not_elem_of_nil in Hin].
    apply list_elem_of_singleton in Hin. by injection Hin as -> ->.
Qed.

Lemma exact_subtree method path :
  method ≠ "" → HasPrefix path "/" = true → HasSuffix path "/" = false →
  exactMatch (tree_match (mux_of db hs) method (String.app path "/")) (String.app path "/") = true ↔
  subtree_root db method (segments path).
Proof.
  intros Hne Hpre Hsuf. pose proof (segments_subtree path Hpre Hsuf) as Hseg.
  pose proof (segments_length _ (HasPrefix_app_slash path Hpre)) as Hlen. rewrite Hseg, length_app in Hlen. simpl in Hlen.
  pose proof (HasSuffix_app_slash path) as Hs.
  split.
  - destruct (tree_match _ _ _) as [[[p hd] vs]|] eqn:Ht; [|done].
    apply tree_match_iff in Ht as (Hin & Hacc & Hm); [|apply mux_disjoint|done].
    destruct (mux_row p hd Hin) as (f & Hf & _). cbn [fst] in Hm, Hacc. rewrite Hseg in Hm.
    destruct (row_exact p f vs (segments path) Hf Hm (segments_nonempty _ Hpre)) as [Hmu Hone].
    cbn [exactMatch]. rewrite Hmu, Hs. cbn [negb]. intros Hex%bool_decide_eq_true.
    destruct Hone as (s & -> & Hp & [[-> Hpm]|(-> & Hpm & Hdb)]); [lia| |].
    + constructor. destruct p as [pm ps]. simpl in Hpm, Hacc. rewrite Hpm in Hacc.
      by eapply accepts_get.
    + by constructor.
  - intros Hroot.
    assert (∃ t, routed_to db method (segments (String.app path "/")) t ∧ (t = TStatic ∨ t = TRiver)) as (t & Ht & Ht').
    { rewrite Hseg. destruct Hroot as [Hg|Hdb]; eexists; (split; [constructor; exact Hg || exact Hdb|]); auto. }
    destruct (tree_match_routed method _ t Hne Ht) as (p & f & hd & vs & -> & Hm & Hf & _).
    cbn [exactMatch]. rewrite Hs. cbn [negb]. rewrite Hseg in Hm.
    destruct (row_exact p f vs (segments path) Hf Hm (segments_nonempty _ Hpre)) as [Hmu _].
    rewrite Hmu. cbn [negb]. apply bool_decide_eq_true. rewrite (row_multi p f Hf Hmu), <-Hlen.
    by destruct Hroot.
Qed.

(** A target's own subtree is never redirected to. *)
Lemma routed_not_root method segs t :
  routed_to db method segs t → ¬ subtree_root db method segs.
Proof. intros Ht Hr. destruct Hr; inversion Ht. Qed.

(** The methods the mux knows for a path, or for the path as a subtree. *)
Definition known (path : string) (method : string) : Prop :=
  method ∈ ["GET"; "POST"; "HEAD"] ∧
  ((∃ t, t ≠ TRiver ∧ routed_to db method (segments path) t) ∨
   (HasSuffix path "/" = false ∧ subtree_root false method (segments path))).

(** A row has no method only on the way to River. *)
Lemma row_method p f vs : (p, f) ∈ table db →
  (p_method p = "" ∧ f vs = TRiver) ∨ (p_method p ∈ ["GET"; "POST"] ∧ f vs ≠ TRiver).
Proof.
  unfold table. rewrite elem_of_app, !elem_of_cons, elem_of_nil. intros [Hin|Hin].
  - right. repeat destruct Hin as [Hin|Hin]; try (by destruct Hin); injection Hin as -> ->;
      (split; [simpl; set_solver|done]).
  - left. destruct db; [|by apply not_elem_of_nil in Hin].
    apply list_elem_of_singleton in Hin. by injection Hin as -> ->.
Qed.

Lemma row_subtree p f vs segs :
  (p, f) ∈ table db → seg_match (p_segs p) (segs ++ ["/"]) vs → segs ≠ [] → p_method p ≠ "" →
  (p_method p = "GET" ∧ segs = ["static"]) ∨ seg_match (p_segs p) segs [].
Proof.
  intros Hf Hm Hl Hne. destruct (row_exact p f vs segs Hf Hm Hl) as [Hmu Hone].
  rewrite (row_multi p f Hf Hmu) in Hone. destruct segs as [|s [|s' segs]]; [done| |].
  - destruct (Hone eq_refl) as (s0 & [= ->] & _ & [[-> ->]|(_ & ? & _)]); [by left|done].
  - right. revert Hf Hm Hmu. clear. unfold table. rewrite elem_of_app, !elem_of_cons, elem_of_nil.
    intros [Hin|Hin] Hm Hmu.
    + repeat destruct Hin as [Hin|Hin]; try (by destruct Hin); injection Hin as -> ->; try discriminate Hmu.
      cbn in Hm. inv_match. repeat constructor.
    + destruct db; [|by apply not_elem_of_nil in Hin].
      apply list_elem_of_singleton in Hin. injection Hin as -> ->. cbn in Hm. inv_match. repeat constructor.
Qed.

Lemma matches_with_table path method :
  HasPrefix path "/" = true → method ≠ "HEAD" →
  matches_with (mux_of db hs) path method = true ↔ known path method.
Proof.
  intros Hpre Hhead. rewrite matches_with_true. unfold known. split.
  - intros (Hne & [p hd] & ms & Hin & Hpm & Hm). cbn [fst] in *.
    destruct (mux_row p hd Hin) as (f & Hf & _).
    destruct (row_method p f ms Hf) as [[? _]|[Hgp Hnr]]; [congruence|]. rewrite Hpm in Hgp.
    split; [set_solver|]. assert (accepts p method) as Hacc by (by left).
    destruct Hm as [Hm|[Hs Hm]]; [left; exists (f ms); split; [done|by eapply table_routed]|].
    rewrite (segments_subtree path Hpre Hs) in Hm.
    destruct (row_subtree p f ms (segments path) Hf Hm (segments_nonempty _ Hpre)) as [[Hg Hst]|Hm'];
      [congruence| |].
    + right. split; [done|]. rewrite Hst. constructor. left. congruence.
    + left. exists (f []). split; [|by eapply table_routed].
      destruct (row_method p f [] Hf) as [[? _]|[_ ?]]; [congruence|done].
  - intros [Hmem Hk]. assert (method ≠ "") as Hne by (intros ->; set_solver). split; [done|].
    destruct Hk as [(t & Hnr & (i & p & f & vs & Hi & Hacc & Hm & ->)%routed_table)|[Hs Hroot]].
    + destruct (row_mux i p f Hi) as (hd & Hin & _). exists (p, hd), vs. split_and!; [done| |by left].
      apply list_elem_of_lookup_2 in Hi. destruct Hacc as [?|[[_ ?]|Hpm]]; [done|done|].
      destruct (row_method p f vs Hi) as [[_ ?]|[Hgp _]]; [done|]. rewrite Hpm in Hgp. set_solver.
    + assert (method = "GET" ∧ segments path = ["static"]) as [-> Hst].
      { inversion Hroot as [[Hg|Hg]|]; subst; [split; done|done|done]. }
      destruct (row_mux 6 _ _ eq_refl) as (hd & Hin & _). eexists (_, hd), []. split; [exact Hin|].
      split; [reflexivity|]. right. split; [done|].
      rewrite (segments_subtree path Hpre Hs), Hst. repeat constructor.
Qed.

Lemma known_head path : known path "HEAD" ↔ known path "GET".
Proof.
  assert (∀ m m' segs t, is_get m → is_get m' → routed_to db m segs t → routed_to db m' segs t) as Hr.
  { intros m m' segs t Hm Hm' Ht. inversion Ht; subst; try (by constructor).
    destruct Hm; subst; discriminate. }
  assert (is_get "GET" ∧ is_get "HEAD") as [Hg Hh] by (split; [by left|by right]).
  unfold known. split; intros [_ Hk]; (split; [set_solver|]);
    (destruct Hk as [(t & ? & ?)|[? Hroot]]; [left; eauto|right; split; [done|]]);
    inversion Hroot; subst; try done; by constructor.
Qed.

Lemma allow_known path x :
  HasPrefix path "/" = true → x ∈ matchingMethods (mux_of db hs) path ↔ known path x.
Proof.
  intros Hpre. rewrite elem_of_matchingMethods.
  destruct (decide (x = "HEAD")) as [->|Hx].
  - rewrite (matches_with_table path "GET"), known_head by done. split; [|by right].
    intros [Hm|[_ ?]]; [|done]. exfalso.
    apply matches_with_true in Hm as (_ & [p hd] & ms & Hin & Hpm & _). cbn [fst] in Hpm.
    destruct (mux_row p hd Hin) as (f & Hf & _).
    destruct (row_method p f ms Hf) as [[Hp _]|[Hgp _]]; rewrite Hpm in *; [done|set_solver].
  - rewrite (matches_with_table path x) by done. naive_solver.
Qed.

(** One request through the mux. *)
Lemma dispatch_found q :
  q_Method q ≠ "" → q_Method q ≠ "CONNECT" → cleanPath (q_Path q) = q_Path q →
  HasPrefix (q_Path q) "/" = true →
  (∀ t, routed_to db (q_Method q) (segments (q_Path q)) t →
     dispatch (mux_of db hs) q = serve_target a h t q) ∧
  (subtree_root db (q_Method q) (segments (q_Path q)) → HasSuffix (q_Path q) "/" = false →
     dispatch (mux_of db hs) q =
       mret (MuxRedirect (String.app (cleanPath (pathUnescape (q_Path q))) "/"))) ∧
  ((∀ t, ¬ routed_to db (q_Method q) (segments (q_Path q)) t) →
   (HasSuffix (q_Path q) "/" = true ∨ ¬ subtree_root db (q_Method q) (segments (q_Path q))) →
     dispatch (mux_of db hs) q =
       mret (match matchingMethods (mux_of db hs) (q_Path q) with
             | [] => MuxNotFound | allow => MuxNotAllowed allow end)).
Proof.
  intros Hne Hcon Hclean Hpre. unfold dispatch, findHandler.
  rewrite bool_decide_eq_false_2 by done. rewrite Hclean. cbv zeta.
  rewrite (bool_decide_eq_false_2 (q_Path q ≠ q_Path q)) by (intros Hx; by apply Hx).
  set (path := q_Path q) in *. set (method := q_Method q) in *.
  assert (∀ b, (b = false ∨ HasSuffix path "/" = true ∨ ¬ subtree_root db method (segments path)) →
    b && negb (HasSuffix path "/") && exactMatch (tree_match (mux_of db hs) method (String.app path "/")) (String.app path "/") = false) as Hno.
  { intros b Hb. destruct b, (HasSuffix path "/") eqn:Hs; try done. simpl.
    apply not_true_is_false. rewrite exact_subtree by done. destruct Hb as [?|[?|?]]; done. }
  split_and!.
  - intros t Ht. rewrite Hno by (right; right; by eapply routed_not_root).
    destruct (tree_match_routed method path t Hne Ht) as (p & f & hd & vs & -> & _ & _ & Hserve).
    apply Hserve.
  - intros Hroot Hs. assert (exactMatch (tree_match (mux_of db hs) method path) path = false) as ->.
    { destruct (tree_match (mux_of db hs) method path) as [[[p hd] vs]|] eqn:Ht; [|reflexivity].
      apply tree_match_target in Ht as [t Ht]; [|done]. by apply routed_not_root in Ht. }
    rewrite Hs. cbn [negb andb]. rewrite (proj2 (exact_subtree method path Hne Hpre Hs) Hroot).
    reflexivity.
  - intros Hnone Hroot. rewrite Hno by tauto.
    destruct (tree_match (mux_of db hs) method path) as [[[p hd] vs]|] eqn:Ht.
    { apply tree_match_target in Ht as [t Ht]; [|done]. by apply Hnone in Ht. }
    by destruct (matchingMethods _ _).
Qed.

End found.

(** ** The claims *)

(** C13: the UI listener routes as the table says, and mounting cannot panic.
    For every request of a known method on a rooted path: an unclean path is
    redirected; a path with a target is answered by that target's handler, with
    the identifier the path holds, and counted if it is the API's; the roots of
    the two subtrees are redirected below themselves; and for the rest the mux
    answers 405 with exactly the methods the path is known under, or 404 when
    there is none. *)
Theorem dispatch_correct a h db q :
  q_Method q ≠ "" → q_Method q ≠ "CONNECT" → HasPrefix (q_Path q) "/" = true →
  ∃ m, uiMux bits build decode now r elapsed static river a h db http_metrics = Some m ∧
  let segs := segments (q_Path q) in
  let method := q_Method q in
  (cleanPath (q_Path q) ≠ q_Path q → ∃ path, dispatch m q = mret (MuxRedirect path)) ∧
  (cleanPath (q_Path q) = q_Path q →
   (∀ t, routed_to db method segs t → dispatch m q = serve_target a h t q) ∧
   (subtree_root db method segs → HasSuffix (q_Path q) "/" = false →
      dispatch m q = mret (MuxRedirect (String.app (cleanPath (pathUnescape (q_Path q))) "/"))) ∧
   ((∀ t, ¬ routed_to db method segs t) →
    (HasSuffix (q_Path q) "/" = true ∨ ¬ subtree_root db method segs) →
      (dispatch m q = mret MuxNotFound ∧ ∀ x, ¬ known db (q_Path q) x) ∨
      (∃ allow, dispatch m q = mret (MuxNotAllowed allow) ∧ allow ≠ [] ∧
         ∀ x, x ∈ allow ↔ known db (q_Path q) x))).
Proof.
  intros Hne Hcon Hpre. destruct (uiMux_table a h db) as (hs & Hmux & Hhs).
  exists (mux_of db hs). split; [exact Hmux|]. intros segs method. split.
  - intros Hun. unfold dispatch, findHandler. rewrite bool_decide_eq_false_2 by done. cbv zeta.
    destruct (_ && exactMatch _ _); [by eexists|]. rewrite bool_decide_eq_true_2 by done. by eexists.
  - intros Hclean. destruct (dispatch_found a h db hs Hhs q Hne Hcon Hclean Hpre) as (H1 & H2 & H3).
    split_and!; [exact H1|exact H2|]. intros Hnone Hroot. specialize (H3 Hnone Hroot).
    pose proof (λ x, allow_known a h db hs Hhs (q_Path q) x Hpre) as Hk.
    destruct (matchingMethods (mux_of db hs) (q_Path q)) as [|x0 l]; [left|right; exists (x0 :: l)].
    + split; [exact H3|]. intros x Hx%Hk. by apply not_elem_of_nil in Hx.
    + split; [exact H3|]. split; [done|exact Hk].
Qed.

(** The order of the mounts is immaterial: the pages registered first, then
    the API, then River, mount as well and answer every request alike. *)
Theorem mount_order a h db q :
  q_Method q ≠ "" →
  ∃ m m', uiMux bits build decode now r elapsed static river a h db http_metrics = Some m ∧
    (api ← api_routes bits decode now r a (instrumented elapsed http_metrics);
     HandleAll (ui_routes bits build now r static h a ++ api ++ river_routes river db) []) = Some m' ∧
    dispatch m q = dispatch m' q.
Proof.
  intros Hne. destruct (uiMux_table a h db) as (hs & Hmux & Hhs).
  pose proof (mux_disjoint a h db hs Hhs) as Hd. fold (mux_of db hs) in Hmux.
  exists (mux_of db hs). revert Hmux. unfold uiMux.
  destruct (api_routes _ _ _ _ _ _) as [api|] eqn:Hapi; [|discriminate Hapi].
  cbn [mbind option_bind]. rewrite <-HandleAll_app3. intros Hm.
  set (ui := ui_routes bits build now r static h a) in *. set (rv := river_routes river db) in *.
  set (ps' := (drop 6 (take 13 (table db)) ++ take 6 (table db) ++ drop 13 (table db)).*1).
  assert (mount_patterns (ui ++ api ++ rv).*1 [] = Some ps') as Hps.
  { injection Hapi as <-. destruct db; vm_compute; reflexivity. }
  assert (disjoint_all (p_segs <$> ps') = true) as Hdis by (destruct db; vm_compute; reflexivity).
  clearbody ps' ui rv. clear Hapi.
  destruct (HandleAll_patterns (ui ++ api ++ rv) [] [] ps' eq_refl Hps) as [Hall Hlen].
  change (zip [] []) with (@nil (pattern * Handler)) in Hall.
  eexists. split; [exact Hm|]. split; [exact Hall|].
  unfold dispatch. erewrite findHandler_perm; [reflexivity|..].
  - rewrite (HandleAll_omap _ _ _ Hm), (HandleAll_omap _ _ _ Hall). cbn [app].
    apply omap_Permutation. rewrite !app_assoc. apply Permutation_app_tail, Permutation_app_comm.
  - exact Hd.
  - rewrite segs_zip by exact Hlen. by apply disjoint_all_paths.
  - exact Hne.
Qed.

Lemma dispatch_cases a h db hs q :
  Forall2 (λ (pf : pattern * (list string → target)) (hd : Handler),
    ∀ vs segs q, seg_match (p_segs pf.1) segs vs →
      hd (q, PathValue pf.1 vs) = serve_target a h (pf.2 vs) q) (table db) hs →
  q_Method q ≠ "" → q_Method q ≠ "CONNECT" →
  (cleanPath (q_Path q) = q_Path q ∧ ∃ t, routed_to db (q_Method q) (segments (q_Path q)) t) ∨
  (dispatch (mux_of db hs) q).2 = [].
Proof.
  intros Hhs Hne Hcon. unfold dispatch, findHandler. rewrite (bool_decide_eq_false_2 (_ = "CONNECT")) by done.
  cbv zeta. destruct (_ && exactMatch _ _); [by right|].
  case_bool_decide as Hc; [by right|].
  destruct (tree_match (mux_of db hs) (q_Method q) (cleanPath (q_Path q))) as [[[p hd] vs]|] eqn:Ht.
  - left. split; [done|]. rewrite Hc in Ht. by eapply tree_match_target.
  - right. by destruct (matchingMethods _ _).
Qed.

(** An operation on one of the HTTP metrics. *)
Definition is_http (o : MetricOp) : Prop :=
  (op_series o).1.2 ∈ ["grex_api_requests_total"; "grex_api_request_duration_seconds"].

#[export] Instance is_http_dec o : Decision (is_http o).
Proof. unfold is_http. apply _. Defined.

Lemma hooked_quiet {A} (b : bool) (w : writer ApiMetric A) : filter is_http (hooked b w).2 = [].
Proof.
  apply list_filter_none. intros o Ho. unfold hooked in Ho. simpl in Ho.
  destruct b; [|by apply not_elem_of_nil in Ho]. unfold log_of in Ho.
  apply list_elem_of_bind in Ho as ([s] & Ho & _). apply list_elem_of_singleton in Ho as ->.
  by apply (bool_decide_unpack _).
Qed.

Lemma handle_quiet a h t q : filter is_http (handle a h t q).2 = [].
Proof. destruct t; first [apply hooked_quiet|reflexivity]. Qed.

Lemma http_ops_accepted route code method :
  ValidString route = true → ValidString (prom_code code) = true →
  ValidString (prom_method method) = true →
  Forall (λ o, op_accepted [requests http_metrics; Registration.duration http_metrics] o = true)
    (http_ops route code method).
Proof.
  intros Hr Hc Hm. unfold http_ops.
  apply Forall_cons_2; [|apply Forall_singleton].
  - apply (series_accepted_in _ (requests http_metrics)); [left|reflexivity|by repeat constructor].
  - apply (series_accepted_in _ (Registration.duration http_metrics));
      [right; left|reflexivity|by repeat constructor].
Qed.

(** Requests are counted where they are the API's, under its routes.  A
    request the table sends to an API handler is counted once and timed once,
    under that route's pattern, the status it was answered with and its method,
    and neither can make the client panic when promhttp's renderings are valid
    UTF-8; any other request leaves the HTTP metrics alone.  So there are six
    route labels, whatever paths are asked for. *)
Theorem api_requests_counted a h db q m :
  uiMux bits build decode now r elapsed static river a h db http_metrics = Some m →
  q_Method q ≠ "" → q_Method q ≠ "CONNECT" → HasPrefix (q_Path q) "/" = true →
  let w := dispatch m q in
  (∀ t route, cleanPath (q_Path q) = q_Path q →
     routed_to db (q_Method q) (segments (q_Path q)) t → api_label t = Some route →
     filter is_http w.2 = http_ops route (status_code w.1) (q_Method q) ∧
     (ValidString (prom_code (status_code w.1)) = true → ValidString (prom_method (q_Method q)) = true →
      Forall (λ o, op_accepted [requests http_metrics; Registration.duration http_metrics] o = true)
        (filter is_http w.2))) ∧
  ((∀ t route, cleanPath (q_Path q) = q_Path q →
      routed_to db (q_Method q) (segments (q_Path q)) t → api_label t ≠ Some route) →
   filter is_http w.2 = []).
Proof.
  intros Hm Hne Hcon Hpre w.
  destruct (dispatch_correct a h db q Hne Hcon Hpre) as (m' & Hm' & Hun & Hclean).
  rewrite Hm in Hm'. injection Hm' as <-.
  split.
  - intros t route Hc Ht Hl. destruct (Hclean Hc) as (Hs & _). subst w. rewrite (Hs t Ht).
    unfold serve_target. rewrite Hl. cbn [fst snd].
    rewrite filter_app, handle_quiet. cbn [app].
    set (ops := http_ops _ _ _).
    assert (filter is_http ops = ops) as ->.
    { apply list_filter_all. intros o Ho. subst ops. unfold http_ops in Ho.
      rewrite !elem_of_cons, elem_of_nil in Ho.
      destruct Ho as [->|[->|[]]]; by apply (bool_decide_unpack _). }
    split; [reflexivity|]. intros Hcode Hmeth. subst ops. apply http_ops_accepted; [|exact Hcode|exact Hmeth].
    destruct t; try discriminate Hl; injection Hl as <-; reflexivity.
  - intros Hnone. destruct (uiMux_table a h db) as (hs & Hmux & Hhs). fold (mux_of db hs) in Hmux.
    rewrite Hm in Hmux. injection Hmux as ->.
    destruct (dispatch_cases a h db hs q Hhs Hne Hcon) as [[Hc [t Ht]]|Hq]; [|subst w; by rewrite Hq].
    destruct (Hclean Hc) as (Hs & _). subst w. rewrite (Hs t Ht). specialize (Hnone t).
    unfold serve_target. destruct (api_label t) as [route|]; [|apply handle_quiet].
    by destruct (Hnone route Hc Ht).
Qed.

End table.

(** ** Witnesses *)

#[local] Instance templates1 : Templates := λ name _, Some name.
#[local] Instance promhttp1 : PromHTTP := {| prom_code := Itoa; prom_method := λ m, m |}.

Definition reg_one : Registry := (Report 0 msg1 meta1 (Registry.New cfg1)).1.
Definition api1 : ApiHandler := NewApi 5 time_zero None None true None.
Definition ui1 : UI.Handler := UI.New (UI.mkConfig 0) 5 5.
Definition get_one : Request := mkRequest "GET" (String.app "/api/agents/" id1) "" "".
Definition delete_status : Request := mkRequest "DELETE" "/status" "" "".

Definition mux1 (db : bool) : option (list (pattern * Handler)) :=
  uiMux bits1 (mkBuildInfo "dev" "none") (λ _, None) 5 reg_one Second (λ _, 200) (λ _, 200)
    api1 ui1 db http_metrics.

Lemma dispatch_correct_witness :
  ∃ m, mux1 true = Some m ∧
    status_code (dispatch m get_one).1 = 200 ∧ length (dispatch m get_one).2 = 2%nat ∧
    (dispatch m delete_status).1 = MuxNotAllowed ["GET"; "HEAD"].
Proof.
  destruct (dispatch_correct bits1 (mkBuildInfo "dev" "none") (λ _, None) 5 reg_one Second
    (λ _, 200) (λ _, 200) api1 ui1 true get_one) as (m & Hm & _ & Hclean);
    [discriminate|discriminate|reflexivity|].
  exists m. split; [exact Hm|].
  destruct (Hclean ltac:(vm_compute; reflexivity)) as (Hs & _).
  rewrite (Hs (TGetAgent id1)).
  - split; [vm_compute; reflexivity|]. split; [vm_compute; reflexivity|].
    injection Hm as <-. vm_compute. reflexivity.
  - assert (segments (q_Path get_one) = ["api"; "agents"; id1]) as -> by (vm_compute; reflexivity).
    constructor; [left; reflexivity|discriminate].
Defined.

Lemma mount_order_witness :
  ∃ m m', mux1 false = Some m ∧ dispatch m delete_status = dispatch m' delete_status.
Proof.
  destruct (mount_order bits1 (mkBuildInfo "dev" "none") (λ _, None) 5 reg_one Second
    (λ _, 200) (λ _, 200) api1 ui1 false delete_status) as (m & m' & Hm & _ & H); [discriminate|].
  exists m, m'. split; [exact Hm|exact H].
Defined.

Lemma api_requests_counted_witness :
  ∃ m, mux1 false = Some m ∧
    filter is_http (dispatch m get_one).2 =
      http_ops Second "/api/agents/{id}" 200 "GET" ∧
    filter is_http (dispatch m delete_status).2 = [].
Proof.
  destruct (mux1 false) as [m|] eqn:Hm; [|discriminate Hm]. exists m. split; [reflexivity|].
  destruct (api_requests_counted bits1 (mkBuildInfo "dev" "none") (λ _, None) 5 reg_one Second
    (λ _, 200) (λ _, 200) api1 ui1 false get_one m Hm) as [H _]; [discriminate|discriminate|reflexivity|].
  destruct (H (TGetAgent id1) "/api/agents/{id}") as [Hops _].
  - vm_compute. reflexivity.
  - assert (segments (q_Path get_one) = ["api"; "agents"; id1]) as -> by (vm_compute; reflexivity).
    constructor; [left; reflexivity|discriminate].
  - reflexivity.
  - split.
    + rewrite Hops. injection Hm as <-. vm_compute. reflexivity.
    + injection Hm as <-. vm_compute. reflexivity.
Defined.
