(* ===== verification/Answers.v ===== *)
(** * From the wire to the client

    The composition of the registry, the tables, the API and its JSON: what the
    agents of a fleet can hold, given messages as the wire carries them and a
    clock as Go reads it, is something every answer can carry.  A body that the
    encoder refuses is an empty 200 ([ApiJson.writeJSON]), so the theorem says
    that the program has none. *)

From Stdlib Require Import ZArith Lia.
From S2P Require Import Prelude GoLang GoUrl GoTime Json JsonTime JsonStruct Fleet FleetJson.
From S2P Require Import UI Registration Mux Routes Filter Paginate Api ApiJson Store Jobs.
From S2P Require Import Registry RegistryProps Demo.
Local Open Scope Z_scope.

(** ** What the wire carries *)

(** A clock reads what UnixNano can express; the counter and the capabilities
    of a message are uint64. *)
Definition wire_action (a : action) : Prop :=
  match a with
  | ActReport now msg _ => is_int64 now ∧ is_uint64 (m_SequenceNum msg) ∧ is_uint64 (m_Capabilities msg)
  | _ => True
  end.

(** An agent within those ranges, its instants up to [m]. *)
Record wire (m : Z) (a : Agent) : Prop := {
  wire_seq : is_uint64 (SequenceNum a);
  wire_caps : is_uint64 (AgentCapabilities a);
  wire_start : HealthStartTime a = time_zero ∨ near m (HealthStartTime a);
  wire_status : HealthStatusTime a = time_zero ∨ near m (HealthStatusTime a);
  wire_first : near m (FirstSeen a);
  wire_last : near m (LastSeen a)
}.

Lemma near_weaken m n t : m ≤ n → near m t → near n t.
Proof. unfold near. lia. Qed.

Lemma near_int64 t : is_int64 t ↔ near 0 t.
Proof. unfold near, is_int64. lia. Qed.

Lemma wire_weaken m n a : m ≤ n → wire m a → wire n a.
Proof.
  intros Hmn [H1 H2 H3 H4 H5 H6].
  split; [done|done|destruct H3; eauto using near_weaken|destruct H4; eauto using near_weaken|..];
    by eapply near_weaken.
Qed.

(** A view shows the same ranges. *)
Lemma wire_view `{Unicode} bits a : wire 1000 a → view_ok (DetailView bits a) ∧ view_ok (SummaryView bits a).
Proof. intros [H1 H2 H3 H4 H5 H6]. split; split; unfold instant; auto. Qed.

(** ** The registry *)

Section registry.
Context `{PB : Protobuf, UU : UUID, MR : MapRange}.

Definition wire_map (s : Shard) : Prop := map_Forall (λ _ a, wire 0 a) s.

Lemma report_health_wire id h a : wire 0 a → wire 0 (report_health id h a).1.
Proof.
  intros [H1 H2 H3 H4 H5 H6]. destruct h as [h|]; [|done].
  unfold report_health. autorewrite with grex_rw. cbn [fst mret writer_ret].
  do 2 case_bool_decide; split; cbn; try done; right; apply near_int64; unfold time_UnixNano; apply int64_range.
Qed.

(** Of the description, the packages and the configuration nothing is bounded. *)
Lemma report_description_same c id d a :
  let a' := (report_description c id d a).1 in
  SequenceNum a' = SequenceNum a ∧ AgentCapabilities a' = AgentCapabilities a ∧
  HealthStartTime a' = HealthStartTime a ∧ HealthStatusTime a' = HealthStatusTime a ∧
  FirstSeen a' = FirstSeen a ∧ LastSeen a' = LastSeen a.
Proof.
  destruct d as [d|]; [|done]. unfold report_description, checkRequiredAttributes, checkReservedAttributeConflicts.
  autorewrite with grex_rw. done.
Qed.

Lemma report_agent_wire c now id msg meta entry :
  wire_action (ActReport now msg meta) → (∀ a, entry = Some a → wire 0 a) →
  wire 0 (report_agent c now id msg meta entry).1.
Proof.
  intros (Hn & Hs & Hc) He. unfold report_agent. rewrite !fst_bind.
  assert (∀ a, wire 0 a → wire 0 (report_config id (m_EffectiveConfig msg) a).1) as Hconf.
  { intros a [H1 H2 H3 H4 H5 H6]. unfold report_config. case_bool_decide; split; done. }
  assert (∀ a, wire 0 a → wire 0 (report_packages id (m_PackageStatuses msg) a).1) as Hpk.
  { intros a [H1 H2 H3 H4 H5 H6]. unfold report_packages. case_bool_decide; split; done. }
  apply Hconf, Hpk, report_health_wire.
  match goal with |- wire 0 (report_description _ _ _ ?x).1 => assert (wire 0 x) as Hx end.
  - assert (is_uint64 0) as H0 by (by vm_compute).
    destruct entry as [a|]; [destruct (He a eq_refl) as [H1 H2 H3 H4 H5 H6]|];
      case_bool_decide; split; cbn; try done; try (by apply near_int64); by left.
  - match goal with |- wire 0 (report_description _ _ ?d ?x).1 =>
      destruct (report_description_same c id d x) as (E1 & E2 & E3 & E4 & E5 & E6) end.
    destruct Hx as [H1 H2 H3 H4 H5 H6]. by split; rewrite ?E1, ?E2, ?E3, ?E4, ?E5, ?E6.
Qed.

Lemma spec_act_wire c shard a m m' es :
  wire_action a → wire_map m → spec_act c shard a m m' es → wire_map m'.
Proof.
  intros Ha Hm. destruct a as [now msg meta|id b|i now]; cbn [spec_act].
  - destruct (uuid_FromBytes _) as [id|]; [|by intros [-> _]]. intros [-> _].
    apply map_Forall_insert_2; [|done]. apply report_agent_wire; [done|]. intros a. by apply Hm.
  - destruct (m !! id) as [a|] eqn:E; [|by intros [-> _]]. intros [-> _].
    apply map_Forall_insert_2; [|done]. destruct (Hm _ _ E) as [H1 H2 H3 H4 H5 H6].
    unfold setConnected_agent. rewrite fst_bind. by split.
  - intros [-> _] id a'. unfold spec_sweep. rewrite map_lookup_imap.
    destruct (m !! id) as [a|] eqn:E; [|done]. cbn. pose proof (Hm _ _ E) as [H1 H2 H3 H4 H5 H6].
    case_bool_decide; [|intros [= <-]; by split].
    unfold sweep_agent. autorewrite with grex_rw. destruct (evictAfter c <? _); [done|].
    destruct (_ && _); intros [= <-]; by split.
Qed.

Lemma acts_wire l r :
  wf r → Forall wire_action l → wire_map (flat r) → wire_map (flat (acts l r).1).
Proof.
  revert r. induction l as [|a l IH]; intros r Hwf Hl Hr; [done|].
  apply Forall_cons in Hl as [Ha Hl]. cbn [acts]. rewrite fst_bind.
  apply IH; [by apply act_wf|done|]. by eapply spec_act_wire, act_refines.
Qed.

(** What a replica can hold at some time. *)
Definition held_agent (a : Agent) : Prop :=
  ∃ c l, ShardCount c < 2 ^ 32 ∧ Forall wire_action l ∧ a ∈ List (acts l (New c)).1.

Lemma acts_List c l a :
  ShardCount c < 2 ^ 32 → Forall wire_action l → a ∈ List (acts l (New c)).1 → wire 0 a.
Proof.
  intros Hc Hl Ha. pose proof (wf_New c Hc) as Hwf.
  apply (elem_of_List _ _ (acts_wf l _ Hwf)) in Ha. revert Ha.
  apply (acts_wire l (New c) Hwf Hl). rewrite flat_New. apply map_Forall_empty.
Qed.

End registry.

(** ** The tables *)

(** A timestamptz keeps microseconds. *)
Class PgPrecise (PT : PgTime) := pg_near t : Z.abs (pg_time t - t) < 1000.

Record wire_row (r : agents_row) : Prop := {
  wr_first : near 1000 (ar_first_seen r);
  wr_last : near 1000 (ar_last_seen r);
  wr_start t : ar_health_start_time r = Some t → near 1000 t;
  wr_status t : ar_health_status_time r = Some t → near 1000 t
}.

Section tables.
Context `{PB : Protobuf, UU : UUID, MR : MapRange, PT : PgTime, PP : !PgPrecise PT}.

Lemma pg_wire t : near 0 t → near 1000 (pg_time t).
Proof. pose proof (pg_near t). unfold near, Time in *. lia. Qed.

Lemma nullTime_wire t u : t = time_zero ∨ near 0 t → nullTime t = Some u → near 1000 u.
Proof.
  unfold nullTime, IsZero. case_bool_decide; [done|]. intros [?|Ht] [= <-]; [done|by apply pg_wire].
Qed.

Lemma agents_values_wire a : wire 0 a → wire_row (agents_values a).
Proof.
  intros [H1 H2 H3 H4 H5 H6].
  split; cbn; [by apply pg_wire..|intros t; by apply nullTime_wire|intros t; by apply nullTime_wire].
Qed.

Lemma upsert_agents_wire a d :
  wire 0 a → map_Forall (λ _, wire_row) (t_agents d) →
  map_Forall (λ _, wire_row) (t_agents (upsert_agents a d).1).
Proof.
  intros Ha Hd. pose proof (agents_values_wire a Ha) as Hv. unfold upsert_agents.
  destruct (t_agents d !! InstanceUID a) as [row|] eqn:E.
  - destruct (_ <? _); [|done]. cbn. apply map_Forall_insert_2; [|done].
    destruct (Hd _ _ E) as [R1 _ _ _], Hv as [V1 V2 V3 V4]. by split.
  - cbn. by apply map_Forall_insert_2.
Qed.

Lemma saveSession_agents a d d' : saveSessionUpsert a d = Some d' → t_agents d' = t_agents d.
Proof.
  unfold saveSessionUpsert.
  destruct (t_session d !! _); [destruct (_ <=? _)|destruct (t_agents d !! _)]; naive_solver.
Qed.

(** What a replica writes: the agents it held, evictions at its clock. *)
Definition wire_write (w : write) : Prop :=
  match w with WSaveAgent a | WSaveSession a => held_agent a | _ => True end.

Lemma do_write_wire w d :
  wire_write w → map_Forall (λ _, wire_row) (t_agents d) →
  map_Forall (λ _, wire_row) (t_agents (do_write w d)).
Proof.
  intros Hw Hd. destruct w as [a|a|uid t|uid|before]; cbn [do_write wire_write] in *.
  - destruct Hw as (c & l & Hc & Hl & Ha). pose proof (acts_List c l a Hc Hl Ha) as Hwire.
    pose proof (upsert_agents_wire a d Hwire Hd) as Hu. unfold SaveAgent.
    destruct (upsert_agents a d) as [d1 b]. cbn [fst] in Hu.
    destruct (saveSessionUpsert a d1) as [d2|] eqn:E; [|done]. cbn.
    apply saveSession_agents in E. rewrite <-E in Hu. by destruct b.
  - unfold SaveSession. destruct (saveSessionUpsert a d) as [d2|] eqn:E; [|done]. cbn.
    by rewrite (saveSession_agents a d d2 E).
  - unfold SoftDeleteAgent. destruct (t_agents d !! uid) as [row|] eqn:E; [|done].
    destruct (ar_evicted_at row); [done|]. cbn. apply map_Forall_insert_2; [|done].
    destruct (Hd _ _ E) as [R1 R2 R3 R4]. by split.
  - cbn. by apply map_Forall_delete.
  - cbn. intros u row [Hr _]%map_lookup_filter_Some. by apply (Hd u).
Qed.

Lemma do_writes_wire ws d :
  Forall wire_write ws → map_Forall (λ _, wire_row) (t_agents d) →
  map_Forall (λ _, wire_row) (t_agents (do_writes ws d)).
Proof.
  intros Hws. revert d. unfold do_writes.
  induction Hws as [|w ws Hw _ IH]; intros d Hd; [done|]. cbn. by apply IH, do_write_wire.
Qed.

Lemma uint64_range z : is_uint64 (uint64 z).
Proof. unfold is_uint64, uint64. apply Z.mod_pos_bound. lia. Qed.

Lemma GetAgent_wire d u a :
  map_Forall (λ _, wire_row) (t_agents d) → GetAgent u d = Some (Some a) → wire 1000 a.
Proof.
  unfold GetAgent. intros Hd. destruct (t_agents d !! u) as [row|] eqn:E; [|done].
  destruct (Hd _ _ E) as [R1 R2 R3 R4]. unfold scan_uid, scanAgent.
  destruct (t_session d !! u) as [s|]; [|done]. cbn. intros [= <-].
  split; cbn; try apply uint64_range; try done.
  - destruct (ar_health_start_time row); eauto.
  - destruct (ar_health_status_time row); eauto.
Qed.

End tables.

(** ** A client *)

Definition read_fleetStats (j : json) : option fleetStats :=
  t ← as_int (field "total" j); c ← as_int (field "connected" j); d ← as_int (field "disconnected" j);
  h ← as_int (field "healthy" j); u ← as_int (field "unhealthy" j);
  n ← as_int (field "health_unknown" j); w ← as_int (field "awaiting_full_state" j);
  Some (mkFleetStats_ t c d h u n w).

(** The client finds in the document what the handler answered. *)
Definition client_reads (resp : response) (j : json) : Prop :=
  match resp with
  | Error _ _ => True
  | ListOk body => read_listResponse j = Some body
  | DetailOk v => read_AgentView j = Some v
  | StatusOk s => read_time (field "started_at" j) = Some (sr_StartedAt s) ∧
      as_int (field "uptime_seconds" j) = Some (sr_UptimeSeconds s) ∧
      field "fleet" j ≫= read_fleetStats = Some (sr_Fleet s)
  | KeysOk keys => as_list (field "keys" j) = Some keys
  | ValuesOk key values => as_string (field "key" j) = Some key ∧ as_list (field "values" j) = Some values
  | JobCreated job => as_string (field "id" j) = Some (job_ID job) ∧
      as_string (field "filter" j) = Some (job_Filter job) ∧
      as_string (field "action" j) = Some (job_Action job) ∧
      as_string (field "status" j) = Some (job_Status job) ∧
      as_string (field "submitted_by" j) = Some (job_SubmittedBy job) ∧
      read_time (field "created_at" j) = Some (job_CreatedAt job)
  end.

(** A response the encoder takes, and a decoder and the client after it. *)
Definition readable `{LO : Location} (build : BuildInfo) (go_version : string) (resp : response) : Prop :=
  match document build go_version resp with
  | None => ∃ code message, resp = Error code message
  | Some j => Decode (writeJSON (Some j)) = Some (sanitize j) ∧
      (doc_valid j = true → ∃ j', Decode (writeJSON (Some j)) = Some j' ∧ client_reads resp j')
  end.

Definition utc : Location := {| zone_offset _ := 0 |}.

Lemma utc_laws : LocationLaws utc.
Proof. by split. Qed.

Section answers.
Context `{PB : Protobuf, UU : UUID, MR : MapRange, GS : GoSort, RE : Regexp, UN : Unicode,
          TM : Templates, PH : PromHTTP} {PT : PgTime} {PP : PgPrecise PT}
        {LO : Location} {LL : LocationLaws LO}.
Context (bits : CapabilityBits) (build : BuildInfo) (go_version : string).

Lemma readable_doc resp j n :
  document build go_version resp = Some j → fits n j → n ≤ maxNestingDepth → client_reads resp j →
  readable build go_version resp.
Proof.
  intros Hj Hf Hn Hc. unfold readable. rewrite Hj. pose proof (Decode_fits n j Hf Hn) as Hd.
  split; [exact Hd|]. intros Hv. exists (sanitize j). split; [exact Hd|]. by rewrite sanitize_id.
Qed.

Lemma readable_list body : list_ok body → readable build go_version (ListOk body).
Proof. intros Hb. destruct (list_json body Hb) as (j & Hj & Hr & Hf). by apply (readable_doc _ j 5). Qed.

Lemma readable_detail v : view_ok v → readable build go_version (DetailOk v).
Proof.
  intros Hv. destruct (read_AgentView_json v Hv) as (j & Hj & Hr). apply (readable_doc _ j 3); [done| |done|done].
  by apply (AgentView_fits v); [apply Hv..|].
Qed.

Lemma as_strings l : as_list (Some (JArray (JString <$> l))) = Some l.
Proof. cbn. induction l as [|s l IH]; [done|]. cbn. by rewrite IH. Qed.

Lemma readable_keys keys : readable build go_version (KeysOk keys).
Proof.
  apply (readable_doc _ (keys_json keys) 3); [done| |done|].
  - unfold keys_json. fits.
  - unfold client_reads, keys_json. rewrite field_obj by reflexivity. apply as_strings.
Qed.

Lemma readable_values key values : readable build go_version (ValuesOk key values).
Proof.
  apply (readable_doc _ (values_json key values) 3); [done| |done|].
  - unfold values_json. fits.
  - unfold client_reads, values_json. rewrite !field_obj by reflexivity. split; [done|apply as_strings].
Qed.

(** The counts of a fleet that fits the memory. *)
Definition stats_ok (s : fleetStats) : Prop :=
  Forall is_int64 [fs_Total s; fs_Connected s; fs_Disconnected s; fs_Healthy s; fs_Unhealthy s;
                   fs_HealthUnknown s; fs_AwaitingFullState s].

Lemma read_fleetStats_json s : stats_ok s → read_fleetStats (fleetStats_json s) = Some s.
Proof.
  unfold stats_ok. rewrite !Forall_cons. intros (H1 & H2 & H3 & H4 & H5 & H6 & H7 & _).
  unfold read_fleetStats, fleetStats_json. rewrite !field_obj by reflexivity.
  cbn [assoc String.eqb Ascii.eqb Bool.eqb mbind option_bind id].
  rewrite !as_JInt by (by apply int64_fits). by destruct s.
Qed.

Lemma fits_weaken m n j : m ≤ n → fits m j → fits n j.
Proof. intros Hmn [Hok Hd]. split; [done|]. by etrans. Qed.

Lemma count_le {A} (P : A → bool) l : (count P l ≤ length l)%nat.
Proof. unfold count. apply length_filter. Qed.

Lemma status_stats r :
  zlen (List r) ≤ int64_max →
  stats_ok (foldl status_agent (mkFleetStats_ (zlen (List r)) 0 0 0 0 0 0) (List r)).
Proof.
  intros Hl. pose proof (status_foldl (List r) (mkFleetStats_ (zlen (List r)) 0 0 0 0 0 0))
    as (H1 & H2 & H3 & H4 & H5 & H6 & H7).
  unfold stats_ok. rewrite H1, H2, H3, H4, H5, H6, H7. cbn.
  repeat constructor; unfold int64_min; try lia;
    match goal with |- _ ≤ int64_max => etrans; [|exact Hl]; cbn; apply inj_le, count_le end.
Qed.

Lemma MarshalText_UTC t : instant t → ∃ s, MarshalText 0 t = Some s ∧ parse_RFC3339Nano s = Some t.
Proof.
  intros Ht. destruct (Time_json_instant (LO := utc) (LL := utc_laws) t Ht) as (s & Hs & Hp).
  exists s. split; [|done]. unfold Time_json, offset_of in Hs. apply fmap_Some in Hs as (s' & Hs & [= ->]).
  destruct (IsZero t); exact Hs.
Qed.

Lemma readable_status now startedAt r :
  instant startedAt → zlen (List r) ≤ int64_max → is_int64 (uptime_seconds (time_Sub now startedAt)) →
  readable build go_version (status now startedAt r).
Proof.
  intros Ht Hl Hu. destruct (MarshalText_UTC startedAt Ht) as (s & Hs & Hp).
  pose proof (status_stats r Hl) as Hst. unfold status. cbv zeta.
  set (stats := foldl status_agent _ _) in *. clearbody stats.
  pose proof (read_fleetStats_json stats Hst) as Hr.
  assert (fits 1 (fleetStats_json stats)) as Hf.
  { unfold stats_ok in Hst. rewrite !Forall_cons in Hst. destruct Hst as (H1 & H2 & H3 & H4 & H5 & H6 & H7 & _).
    unfold fleetStats_json. fits; by apply int64_fits. }
  eapply (readable_doc _ _ 3); [|  |done|].
  - cbn [document]. unfold statusResponse_json. cbn [sr_StartedAt]. rewrite Hs. reflexivity.
  - fits; [by apply int64_fits|]. by apply (fits_weaken 1).
  - unfold client_reads. rewrite !field_obj by reflexivity.
    cbn [assoc String.eqb Ascii.eqb Bool.eqb mbind option_bind id read_time sr_StartedAt sr_UptimeSeconds sr_Fleet].
    rewrite Hp, Hr, as_JInt by (by apply int64_fits). done.
Qed.

(** *** The list *)

Lemma StaleConnected_wire n a (b : bool) : wire n a → wire n (if b then a <| Connected := false |> else a).
Proof. intros [H1 H2 H3 H4 H5 H6]. destruct b; by split. Qed.

Lemma fleet_view_wire now rows r :
  (∀ a, a ∈ List r → wire 1000 a) → (∀ a, a ∈ rows → wire 1000 a) →
  let m := (fleet_view now (Some (Some rows)) r).1.1 in
  (∀ a, a ∈ m → wire 1000 a) ∧ (length m ≤ length (List r) + length rows)%nat.
Proof.
  intros Hr Hrows. cbn. unfold MergeAgents. split.
  - intros a [Ha|(x & Hx & (_ & _ & ->)%merge_db_Some)%list_elem_of_omap]%elem_of_app; [by apply Hr|].
    by apply StaleConnected_wire, Hrows.
  - rewrite (Stdlib.Lists.List.length_app (List r)). apply Nat.add_le_mono_l. induction rows as [|x rows IH]; [done|].
    cbn. assert (length (omap (merge_db (InstanceUID <$> List r) now (DisconnectThreshold (cfg r))) rows) ≤
      length rows)%nat by (apply IH; intros; apply Hrows; by right).
    destruct (merge_db _ _ _ x); cbn; lia.
Qed.

Lemma Atoi_int64 s n : Atoi s = Some n → is_int64 n.
Proof. unfold Atoi. intros (z & _ & H)%bind_Some. case_bool_decide; by simplify_eq. Qed.

Lemma parsePagination_int64 q limit offset :
  parsePagination q = inr (limit, offset) → is_int64 limit ∧ is_int64 offset.
Proof.
  intros Hp. pose proof (parsePagination_bounds q limit offset Hp) as [Hl Ho].
  unfold maxLimit in Hl. split; [unfold is_int64, int64_min, int64_max; lia|].
  unfold parsePagination in Hp.
  destruct (if bool_decide (query_Get q "limit" = "") then _ else _) as [lim|]; [|done].
  case_bool_decide; [by simplify_eq|]. destruct (Atoi (query_Get q "offset")) as [n|] eqn:E; [|done].
  apply Atoi_int64 in E. destruct (n <? 0); by simplify_eq.
Qed.

Lemma readable_listAgents now rows q r :
  wf r → NoDup (InstanceUID <$> rows) →
  (∀ a, a ∈ List r → wire 1000 a) → (∀ a, a ∈ rows → wire 1000 a) →
  zlen (List r) + zlen rows ≤ int64_max →
  readable build go_version (listAgents bits now (Some (Some rows)) q r).1.
Proof.
  intros Hwf Hnd Hr Hrows Hlen.
  assert (∀ code msg, readable build go_version (Error code msg)) as Herr by (intros; by do 2 eexists).
  unfold listAgents. destruct (parsePagination q) as [e|[limit offset]] eqn:Hp; [apply Herr|].
  destruct (ParseFilters q) as [e|fs]; [apply Herr|]. rewrite fst_bind.
  pose proof (fleet_view_wire now rows r Hr Hrows) as [Hm Hml].
  pose proof (fleet_view_NoDup now (Some (Some rows)) r Hwf) as Hndv.
  destruct (fleet_view now (Some (Some rows)) r).1 as [m partial]. cbn [fst snd mret writer_ret] in *.
  rewrite MatchingAgents_filter. set (agents := filter _ m).
  assert (NoDup (InstanceUID <$> agents)) as Hna by (apply NoDup_uid_filter, Hndv; intros ? [= <-]; done).
  pose proof (parsePagination_bounds q limit offset Hp) as [Hl Ho].
  pose proof (parsePagination_int64 q limit offset Hp) as [Hli Hoi].
  apply readable_list. split; cbn [lr_Agents lr_Total lr_Limit lr_Offset]; [|  |done|done].
  - rewrite list_page_spec by (done || lia). apply Forall_fmap, Forall_take, Forall_drop, Forall_forall.
    intros a Ha. cbn. apply wire_view, Hm. unfold sortByInstanceUID in Ha. rewrite SortFunc_perm in Ha.
    by apply list_elem_of_filter in Ha as [_ Ha].
  - assert (length agents ≤ length m)%nat by apply length_filter.
    unfold is_int64, int64_min. unfold int64_max in *. lia.
Qed.

Lemma readable_getAgent now store uid r :
  wf r → (∀ a, a ∈ List r → wire 1000 a) → (∀ a, store uid = Some (Some a) → wire 1000 a) →
  readable build go_version (getAgent bits now (Some store) uid r).
Proof.
  intros Hwf Hr Hs.
  assert (∀ code msg, readable build go_version (Error code msg)) as Herr by (intros; by do 2 eexists).
  unfold getAgent. case_bool_decide; [apply Herr|].
  destruct (Get r uid) as [a|] eqn:Hg.
  - apply readable_detail, wire_view, Hr, elem_of_List; [done|].
    rewrite Get_flat in Hg by done. by rewrite (ok_uid _ _ _ (flat_ok r uid a Hwf Hg)).
  - destruct (store uid) as [[a|]|]; [|apply Herr..]. case_bool_decide; [apply Herr|].
    by apply readable_detail, wire_view, StaleConnected_wire, Hs.
Qed.

(** A value of a document fits one level below it, and is as valid. *)
Lemma member_inside k m j n :
  member k m = Some j → fits n (JObject m) → doc_valid (JObject m) = true →
  fits (n - 1) j ∧ doc_valid j = true.
Proof.
  unfold member. intros ([k' j'] & Hf & Hj)%fmap_Some [Hok Hd] Hv. cbn in Hj. subst j'.
  apply List.find_some in Hf as [Hin _]. revert Hin Hok Hd Hv. cbn.
  induction m as [|[k1 j1] m IH]; [done|]. cbn. intros [[= -> ->]|Hin] [H1 H2] Hd Hv.
  - apply andb_true_iff in Hv as [[_ Hv]%andb_true_iff _]. split; [|done]. split; [done|]. lia.
  - apply andb_true_iff in Hv as [_ Hv]. apply IH; [done|done|lia|done].
Qed.

(** [createJob] over the database: drawn [id], [created] its clock. *)
Definition create (id : string) (created : Time) (d : DB) (job : Job) : option Job :=
  fst <$> CreateJob id created job d.

Lemma readable_job jid created d m n :
  near 1000 (pg_time created) → fits n (JObject m) → n ≤ maxNestingDepth → doc_valid (JObject m) = true →
  NoDup ((foldName ∘ fst) <$> m) →
  readable build go_version (createJob decode_createJobRequest (Some (create jid created d)) (Encode (JObject m))).
Proof.
  intros Hc Hf Hn Hv Hnd. unfold createJob. rewrite (decode_request m n) by done. unfold request_of.
  assert (∀ code msg, readable build go_version (Error code msg)) as Herr by (intros; by do 2 eexists).
  destruct (text_of (member "filter" m)) as [f|]; [|apply Herr].
  destruct (text_of (member "action" m)) as [a|]; [|apply Herr].
  destruct (text_of (member "submitted_by" m)) as [s|]; [|apply Herr].
  cbn [mbind option_bind req_Filter req_Action req_SubmittedBy].
  do 3 (case_bool_decide; [apply Herr|]).
  unfold create, CreateJob. cbn [new_job job_ActionConfig req_ActionConfig].
  case_bool_decide; [apply Herr|]. cbn [fmap option_fmap option_map fst].
  set (text := if bool_decide (raw_of _ = "") then _ else _).
  assert (∃ j, Unmarshal text = Some j ∧ fits (Z.max 2 n - 1) j) as (j & Hj & Hfj).
  { destruct (member "action_config" m) as [j|] eqn:E; cbn [raw_of] in text.
    - destruct (member_inside _ _ _ _ E Hf Hv) as [[Hok Hd] Hvj].
      pose proof (Unmarshal_Marshal j Hok ltac:(lia)) as Hu. rewrite sanitize_id in Hu by done.
      exists j. split; [|split; [done|lia]]. subst text. rewrite bool_decide_eq_false_2; [done|].
      intros He. rewrite He in Hu. by vm_compute in Hu.
    - exists (JObject []). split; [reflexivity|]. split; [done|]. cbn. lia. }
  clearbody text. destruct (Time_json_instant (pg_time created)) as (ts & Hts & Hp); [by right|].
  assert (maxNestingDepth = 10000) as Hmax by done.
  eapply (readable_doc _ _ (Z.max 2 n)); [| |lia|].
  - cbn [document]. unfold jobResponse_json. cbn -[Unmarshal Time_json]. rewrite Hj, Hts. reflexivity.
  - fits; exact Hfj.
  - unfold client_reads. rewrite !field_obj by reflexivity.
    cbn [assoc String.eqb Ascii.eqb Bool.eqb mbind option_bind id read_time]. by rewrite Hp.
Qed.

(** ** The claim *)

(** A body for POST /api/jobs as an encoder writes it. *)
Definition encoded_body (body : string) : Prop :=
  ∃ m n, body = Encode (JObject m) ∧ fits n (JObject m) ∧ n ≤ maxNestingDepth ∧
    doc_valid (JObject m) = true ∧ NoDup ((foldName ∘ fst) <$> m).

(** C14: no answer of the API is empty.  Let a replica have handled any messages
    the wire can carry, with connects, disconnects and sweeps between them, and
    let the database hold what such replicas wrote, evicted, deleted and purged
    in any order.  Whatever the API is then asked, a refused request is refused
    with its message and every other answer is a document the encoder takes, the
    decoder gives back, and a client (strings being UTF-8) finds the handler's
    answer in: the agents of the page with every field, the detail, the status,
    the attributes, the created job. *)
Theorem answers_readable c l ws boot startedAt now metrics jid created h static river t q :
  ShardCount c < 2 ^ 32 → Forall wire_action l → Forall wire_write ws →
  let r := (acts l (New c)).1 in
  let d := do_writes ws empty_DB in
  let a := NewApi boot startedAt (Some (ListAgents d)) (Some (λ uid, GetAgent uid d)) metrics
             (Some (create jid created d)) in
  Z.of_nat (size (flat r)) + Z.of_nat (size (t_agents d)) ≤ int64_max →
  is_int64 boot → is_int64 created → instant startedAt →
  is_int64 (uptime_seconds (time_Sub now (api_startedAt a))) →
  is_Some (api_label t) → (t = TCreateJob → encoded_body (q_Body q)) →
  ∃ resp, (handle bits build decode_createJobRequest now r static river a h t q).1 = ApiAnswer resp ∧
    readable build go_version resp.
Proof.
  intros Hc Hl Hws r d a Hsize Hboot Hcreated Hstart Hup Ht Hbody.
  assert (wf r) as Hwf by (apply acts_wf, wf_New, Hc).
  assert (∀ x, x ∈ List r → wire 1000 x) as Hr.
  { intros x Hx. apply (wire_weaken 0); [done|]. by apply (acts_List c l). }
  assert (map_Forall (λ _, wire_row) (t_agents d)) as Hd by (by apply do_writes_wire, map_Forall_empty).
  assert (db_ok d) as Hdok by apply do_writes_ok, empty_DB_ok.
  destruct (ListAgents_spec d Hdok) as (rows & Hrows & Hdom & Hnd & Hget).
  assert (zlen (List r) = Z.of_nat (size (flat r))) as Hlr.
  { rewrite (List_perm r Hwf), length_fmap, length_map_to_list. done. }
  assert (zlen rows = Z.of_nat (size (t_agents d))) as Hld.
  { rewrite <-(length_fmap InstanceUID rows), <-(size_dom (D := gset string)), <-(size_list_to_set (C := gset string)) by done.
    do 2 f_equal. apply set_eq. intros u. rewrite elem_of_list_to_set, elem_of_dom. apply Hdom. }
  destruct t; cbn [api_label] in Ht; try (by destruct Ht); cbn [handle].
  - eexists. split; [unfold hooked; cbn [fst]; rewrite fst_bind; reflexivity|].
    cbn [a NewApi api_list]. rewrite Hrows. apply readable_listAgents; [done..| |lia].
    intros x Hx. exact (GetAgent_wire d _ x Hd (Hget x Hx)).
  - eexists. split; [reflexivity|]. apply readable_getAgent; [done..|].
    intros x. by apply GetAgent_wire.
  - eexists. split; [reflexivity|]. apply readable_status; [|lia|done].
    subst a. cbn. destruct (IsZero startedAt); [|done]. right. unfold near. unfold is_int64 in Hboot. lia.
  - eexists. split; [reflexivity|]. apply readable_keys.
  - eexists. split; [reflexivity|]. unfold listAttributeValues.
    case_bool_decide; [by do 2 eexists|apply readable_values].
  - destruct (Hbody eq_refl) as (m & n & -> & Hf & Hn & Hv & Hk).
    eexists. split; [reflexivity|]. cbn [a NewApi api_jobs]. apply (readable_job jid created d m n); try done.
    by apply pg_wire, near_int64.
Qed.

End answers.

(** ** Witness *)

#[export] Instance micro_precise : PgPrecise micro.
Proof. intros t. cbn. pose proof (Z.mod_pos_bound t 1000). pose proof (Z.div_mod t 1000). lia. Qed.

#[local] Instance templates2 : Templates := λ name _, Some name.

(** One agent here, one that a sibling stored. *)
Definition here : list action := [ActReport 5000 msg1 meta1; ActSetConnected id1 false].
Definition there : list action :=
  [ActReport 6000 (mkAgentToServer "0123456789abcdeg" 7 3 None None ∅ ∅ None) meta1].
Definition stored_there : list write := WSaveAgent <$> List (acts there (New cfg1)).1.

Lemma there_held a : a ∈ List (acts there (New cfg1)).1 → held_agent a.
Proof.
  intros Ha. exists cfg1, there. split; [vm_compute; reflexivity|]. split; [|exact Ha].
  constructor; [|constructor]. by vm_compute.
Qed.

Example answers_readable_witness :
  let r := (acts here (New cfg1)).1 in let d := do_writes stored_there empty_DB in
  let a := NewApi 5 time_zero (Some (ListAgents d)) (Some (λ uid, GetAgent uid d)) true
             (Some (create "j" 9000 d)) in
  let answer := (handle bits1 (mkBuildInfo "dev" "none") decode_createJobRequest 7000 r (λ _, 200) (λ _, 200)
                   a (UI.New (UI.mkConfig 0) 5 5) TListAgents (mkRequest "GET" "/api/agents" "" "")).1 in
  status_code answer = 200 ∧ ∃ body, answer = ApiAnswer (ListOk body) ∧ lr_Total body = 2 ∧
    readable (mkBuildInfo "dev" "none") "go1.26" (ListOk body).
Proof.
  intros r d a answer.
  destruct (answers_readable bits1 (mkBuildInfo "dev" "none") "go1.26" cfg1 here stored_there 5 time_zero 7000
    true "j" 9000 (UI.New (UI.mkConfig 0) 5 5) (λ _, 200) (λ _, 200) TListAgents
    (mkRequest "GET" "/api/agents" "" "")) as (resp & Hresp & Hread).
  - vm_compute. reflexivity.
  - repeat constructor; by vm_compute.
  - unfold stored_there. apply Forall_fmap, Forall_forall. exact there_held.
  - vm_compute. discriminate.
  - split; by vm_compute.
  - split; by vm_compute.
  - by left.
  - split; vm_compute; discriminate.
  - by eexists.
  - discriminate.
  - change (answer = ApiAnswer resp) in Hresp.
    assert (match answer with ApiAnswer (ListOk body) => lr_Total body =? 2 | _ => false end = true) as H
      by (vm_compute; reflexivity).
    rewrite Hresp in H |- *. destruct resp as [|body|v|s|ks|k vs|job]; try discriminate H.
    split; [reflexivity|]. exists body. split_and!; [done|by apply Z.eqb_eq|exact Hread].
Defined.
