(* ===== verification/Synth.v ===== *)
(** * Package synth: the synthetic load generator

    internal/synth/synth.go and run.go.  A configuration is validated, each
    agent connects, optionally restarts once, and stops, and the results are
    folded into a report.  What an agent meets is an argument ([Attempt], one
    per connection, and whether the restart time is reached); the operations on
    its opamp-go clients are recorded in order ([ClientOp]).  net/url.Parse is
    a parameter that gives the scheme of a URL it accepts, and so are the
    certificate files.  The theorems: the report's figures and percentiles, and
    that no client outlives its agent. *)

From Stdlib Require Import ZArith Lia.
From S2P Require Import Prelude GoLang.
Local Open Scope Z_scope.

(** ** Configuration *)

Record Config := mkConfig {
  ServerURL : string;
  Agents : Z;
  RampPerSec : Z;
  Heartbeat : Duration;
  RunDuration : Duration;
  RestartAfter : Duration;
  ServiceName : string;
  CertFile : string;
  KeyFile : string;
  CAFile : string
}.

#[export] Instance eta_Config : Eta Config := λ c,
  mkConfig (ServerURL c) (Agents c) (RampPerSec c) (Heartbeat c) (RunDuration c)
    (RestartAfter c) (ServiceName c) (CertFile c) (KeyFile c) (CAFile c).

(** [url.Parse]: the scheme of an accepted URL, in lower case. *)
Class URLParse := url_Scheme : string → option string.

Definition transportWS : string := "ws".
Definition transportHTTP : string := "http".

Definition transport `{URLParse} (c : Config) : string :=
  match url_Scheme (ServerURL c) with
  | Some scheme =>
      if bool_decide (scheme ∈ ["ws"; "wss"]) then transportWS
      else if bool_decide (scheme ∈ ["http"; "https"]) then transportHTTP
      else ""
  | None => ""
  end.

(** The first problem, if any. *)
Definition Validate `{URLParse} (c : Config) : option string :=
  if bool_decide (ServerURL c = "") then Some "server url must be set"
  else if bool_decide (transport c = "")
  then Some "server url scheme must be ws, wss, http, or https"
  else if Agents c <? 1 then Some "agents must be at least 1"
  else if RampPerSec c <? 0 then Some "ramp must be zero or positive"
  else if Heartbeat c <=? 0 then Some "heartbeat must be positive"
  else if RunDuration c <=? 0 then Some "duration must be positive"
  else if (RestartAfter c <? 0) || ((0 <? RestartAfter c) && (RunDuration c <=? RestartAfter c))
  then Some "restart-after must be zero or less than duration"
  else if negb (Bool.eqb (bool_decide (CertFile c = "")) (bool_decide (KeyFile c = "")))
  then Some "cert and key must be set together"
  else None.

(** The files [tlsConfig] reads: a CA's text and whether it holds a
    certificate, and a loadable key pair. *)
Class CertFiles := {
  ReadFile : string → option string;
  AppendCertsFromPEM : string → bool;
  LoadX509KeyPair : string → string → bool
}.

(** The parts of the [tls.Config] that are set; [None] is a plaintext run. *)
Record TLSConfig := mkTLSConfig { RootCAs : option string; ClientCert : option (string * string) }.

Definition tlsConfig `{CertFiles} (c : Config) : string + option TLSConfig :=
  if bool_decide (CertFile c = "") && bool_decide (CAFile c = "") then inr None
  else
    match (if bool_decide (CAFile c ≠ "") then
             match ReadFile (CAFile c) with
             | None => inl "read ca"
             | Some pem =>
                 if negb (AppendCertsFromPEM pem) then inl "ca file has no certificates"
                 else inr (Some pem)
             end
           else inr None) with
    | inl e => inl e
    | inr roots =>
        if bool_decide (CertFile c ≠ "") then
          if negb (LoadX509KeyPair (CertFile c) (KeyFile c)) then inl "load client cert"
          else inr (Some (mkTLSConfig roots (Some (CertFile c, KeyFile c))))
        else inr (Some (mkTLSConfig roots None))
    end.

(** ** One agent *)

Record Result := mkResult {
  InstanceUID : string;
  Connected : bool;
  ConnectLatency : Duration;
  Restarted : bool;
  RestartLatency : Duration;
  Err : option string
}.

#[export] Instance eta_Result : Eta Result := λ r,
  mkResult (InstanceUID r) (Connected r) (ConnectLatency r) (Restarted r)
    (RestartLatency r) (Err r).

(** How one connection goes: the client refuses its description or health, or
    fails to start, or connects after some time, or the context ends first. *)
Inductive Attempt :=
  | SetAgentDescriptionFails (e : string)
  | SetHealthFails (e : string)
  | StartFails (e : string)
  | Connects (latency : Duration)
  | TimesOut.

(** Operations on client number [i]: [c.Start] returned, [c.Stop] is called. *)
Inductive ClientOp := Started (i : nat) | Stopped (i : nat).

Definition stop (i : nat) : writer ClientOp unit := emit (Stopped i).

(** [connect]: an error, or the latency of client [i]. *)
Definition connect (i : nat) (o : Attempt) : writer ClientOp (string + Duration) :=
  match o with
  | SetAgentDescriptionFails e | SetHealthFails e | StartFails e => mret (inl e)
  | Connects latency => _ ← emit (Started i); mret (inr latency)
  | TimesOut => _ ← emit (Started i); _ ← stop i; mret (inl "connect timed out before deadline")
  end.

(** [runAgent]: [restart] is whether a restart time is set, [reached] whether
    [sleepUntil] reached it; the deferred stop runs on every return past the
    first connection, on the client current by then. *)
Definition runAgent (uid : string) (restart : bool) (first : Attempt) (reached : bool)
    (second : Attempt) : writer ClientOp Result :=
  let res := mkResult uid false 0 false 0 None in
  r ← connect 0 first;
  match r with
  | inl err => mret (res <| Err := Some err |>)
  | inr latency =>
      let res := res <| Connected := true |> <| ConnectLatency := latency |> in
      if restart then
        if negb reached then _ ← stop 0; mret res
        else
          _ ← stop 0;
          r ← connect 1 second;
          match r with
          | inl rerr => _ ← stop 0; mret (res <| Err := Some rerr |>)
          | inr rlatency =>
              _ ← stop 1;
              mret (res <| Restarted := true |> <| RestartLatency := rlatency |>)
          end
      else _ ← stop 0; mret res
  end.

(** ** The report *)

Record Report := mkReport {
  Total : Z;
  r_Connected : Z;
  Failed : Z;
  r_Restarted : Z;
  ConnectP50 : Duration;
  ConnectP99 : Duration;
  ConnectMax : Duration;
  Errors : gmap string Z
}.

#[export] Instance eta_Report : Eta Report := λ r,
  mkReport (Total r) (r_Connected r) (Failed r) (r_Restarted r) (ConnectP50 r)
    (ConnectP99 r) (ConnectMax r) (Errors r).

(** Nearest rank, in a sorted slice. *)
Definition percentile (sorted : list Duration) (p : Z) : Duration :=
  if bool_decide (length sorted = 0%nat) then 0 else
  let rank := Z.quot (int64 (int64 (p * zlen sorted) + 99)) 100 in
  let rank := if rank <? 1 then 1 else rank in
  let rank := if zlen sorted <? rank then zlen sorted else rank in
  default 0 (sorted !! Z.to_nat (rank - 1)).

(** The loop's body: the report and the latencies so far. *)
Definition summarize_result (s : Report * list Duration) (res : Result) : Report * list Duration :=
  let '(r, latencies) := s in
  let '(r, latencies) :=
    if Connected res then
      (r <| r_Connected := r_Connected r + 1 |>, latencies ++ [ConnectLatency res])
    else
      let r := r <| Failed := Failed r + 1 |> in
      (match Err res with
       | Some e => r <| Errors := <[e := default 0 (Errors r !! e) + 1]> (Errors r) |>
       | None => r
       end, latencies) in
  ((if Restarted res then r <| r_Restarted := r_Restarted r + 1 |> else r), latencies).

Definition duration_cmp (a b : Duration) : Z := if a <? b then -1 else if b <? a then 1 else 0.

Definition Summarize `{GoSort} (results : list Result) : Report :=
  let r := mkReport (zlen results) 0 0 0 0 0 0 ∅ in
  let '(r, latencies) := foldl summarize_result (r, []) results in
  if (0 <? zlen latencies) then
    let latencies := SortFunc duration_cmp latencies in
    r <| ConnectP50 := percentile latencies 50 |>
      <| ConnectP99 := percentile latencies 99 |>
      <| ConnectMax := default 0 (latencies !! (length latencies - 1)%nat) |>
  else r.

(** What agent [i] meets: its uid, its attempts, and the restart's wait. *)
Record Fate := mkFate { f_uid : string; f_first : Attempt; f_reached : bool; f_second : Attempt }.

(** [Run]: an error, or the report over every agent.  The ramp spaces the
    starts and changes nothing else. *)
Definition Run `{URLParse, CertFiles, GoSort} (c : Config) (fates : nat → Fate) : string + Report :=
  match Validate c with
  | Some e => inl e
  | None =>
      match tlsConfig c with
      | inl e => inl e
      | inr _ =>
          let results := (λ i, let f := fates i in
            (runAgent (f_uid f) (0 <? RestartAfter c) (f_first f) (f_reached f) (f_second f)).1)
            <$> seq 0 (Z.to_nat (Agents c)) in
          inr (Summarize results)
      end
  end.

(** ** Lemmas: sorted latencies *)

Lemma duration_cmp_le a b : cmp_le duration_cmp a b ↔ a ≤ b.
Proof. unfold cmp_le, duration_cmp. destruct (Z.ltb_spec a b), (Z.ltb_spec b a); lia. Qed.

Lemma duration_cmp_order : cmp_order duration_cmp.
Proof.
  split; [intros a b|intros a b c]; rewrite !duration_cmp_le; lia.
Qed.

Lemma count_all {A} (P : A → bool) l : (∀ x, x ∈ l → P x = true) → count P l = length l.
Proof.
  induction l as [|x l IH]; intros Hl; [done|]. rewrite count_cons, Hl, IH by
    (try intros y Hy; try apply Hl; by repeat constructor). done.
Qed.

Lemma count_none {A} (P : A → bool) l : (∀ x, x ∈ l → P x = false) → count P l = 0%nat.
Proof.
  induction l as [|x l IH]; intros Hl; [done|]. rewrite count_cons, Hl, IH by
    (try intros y Hy; try apply Hl; by repeat constructor). done.
Qed.

(** In a sorted list, what precedes [v] is at most [v] and what is below [v]
    precedes it. *)
Lemma sorted_split l1 v l2 :
  StronglySorted Z.le (l1 ++ v :: l2) →
  (length l1 < count (λ x, (x <=? v)%Z) (l1 ++ v :: l2) ∧
   count (λ x, (x <? v)%Z) (l1 ++ v :: l2) ≤ length l1)%nat.
Proof.
  rewrite StronglySorted_app, StronglySorted_cons. intros (H12 & _ & Hv & _).
  rewrite !count_app, !count_cons, Z.leb_refl, Z.ltb_irrefl. split.
  - rewrite (count_all (λ x, x <=? v) l1); [lia|].
    intros x Hx. apply Z.leb_le, H12; [done|by left].
  - rewrite (count_none (λ x, x <? v) l2).
    + unfold count. pose proof (length_filter (λ x, (x <? v) = true) l1). lia.
    + intros x Hx. apply Z.ltb_ge. rewrite Forall_forall in Hv. by apply Hv.
Qed.

(** The nearest rank: the least value with [p] percent of the list at or below
    it. *)
Lemma percentile_rank (l : list Duration) p :
  StronglySorted Z.le l → l ≠ [] → 1 ≤ p ≤ 100 → p * zlen l + 99 ≤ int64_max →
  let v := percentile l p in
  v ∈ l ∧ p * zlen l ≤ 100 * Z.of_nat (count (λ x, x <=? v) l) ∧
  100 * Z.of_nat (count (λ x, x <? v) l) < p * zlen l.
Proof.
  unfold percentile, Duration in *.
  intros Hs Hne Hp Hm. assert (0 < zlen l) as Hlen by (destruct l; [done|simpl; lia]).
  rewrite bool_decide_eq_false_2 by lia.
  rewrite (int64_id (p * zlen l)), int64_id by (unfold is_int64, int64_min, int64_max in *; nia).
  rewrite Z.quot_div_nonneg by nia. set (rank := (p * zlen l + 99) / 100).
  pose proof (Z.div_mod (p * zlen l + 99) 100 ltac:(lia)) as Hdiv. fold rank in Hdiv.
  pose proof (Z.mod_pos_bound (p * zlen l + 99) 100 ltac:(lia)) as Hmod.
  assert (1 ≤ rank ≤ zlen l) as Hrank by nia. cbv zeta.
  destruct (Z.ltb_spec rank 1); [lia|]. destruct (Z.ltb_spec (zlen l) rank); [lia|].
  destruct (lookup_lt_is_Some_2 l (Z.to_nat (rank - 1)) ltac:(lia)) as [v Hv].
  rewrite Hv. cbn [default from_option id]. unfold default, from_option, id.
  pose proof (list_elem_of_split_length _ _ _ Hv) as (l1 & l2 & Hl & Hl1).
  split; [by eapply list_elem_of_lookup_2|].
  rewrite Hl in Hs. destruct (sorted_split l1 v l2 Hs) as [H1 H2]. rewrite <-Hl in H1, H2. nia.
Qed.

Lemma last_sorted_max (l : list Duration) :
  StronglySorted Z.le l → l ≠ [] →
  let m := default 0 (l !! (length l - 1)%nat) in m ∈ l ∧ ∀ x, x ∈ l → x ≤ m.
Proof.
  intros Hs Hne. destruct l as [|y l _] using rev_ind; [done|].
  rewrite length_app, Nat.add_sub, list_lookup_middle by done. simpl.
  split; [apply elem_of_app; right; by left|]. intros x Hx.
  apply StronglySorted_app in Hs as (H & _). apply elem_of_app in Hx as [Hx|Hx].
  - apply H; [done|by left].
  - apply list_elem_of_singleton in Hx. subst. apply Z.le_refl.
Qed.

(** ** Lemmas: the fold *)

Definition failed_with (e : string) (res : Result) : bool :=
  negb (Connected res) && bool_decide (Err res = Some e).

Lemma summarize_fold l r lat :
  let s := foldl summarize_result (r, lat) l in
  Total s.1 = Total r ∧
  r_Connected s.1 = r_Connected r + Z.of_nat (count Connected l) ∧
  Failed s.1 = Failed r + Z.of_nat (count (λ x, negb (Connected x)) l) ∧
  r_Restarted s.1 = r_Restarted r + Z.of_nat (count Restarted l) ∧
  (∀ e, default 0 (Errors s.1 !! e) = default 0 (Errors r !! e) + Z.of_nat (count (failed_with e) l)) ∧
  (ConnectP50 s.1, ConnectP99 s.1, ConnectMax s.1) = (ConnectP50 r, ConnectP99 r, ConnectMax r) ∧
  s.2 = lat ++ (ConnectLatency <$> filter (λ x, Connected x = true) l).
Proof.
  revert r lat. induction l as [|x l IH]; intros r lat.
  - cbn [foldl fst snd]. rewrite !count_nil, app_nil_r. split_and!; try lia; [|done..].
    intros e. rewrite count_nil. lia.
  - cbv zeta. cbn [foldl]. destruct (summarize_result (r, lat) x) as [r' lat'] eqn:Hx.
    destruct (IH r' lat') as (-> & -> & -> & -> & He & -> & ->).
    rewrite !count_cons, filter_cons. unfold summarize_result in Hx.
    assert (∀ e, count (failed_with e) (x :: l) =
      ((if failed_with e x then 1 else 0) + count (failed_with e) l)%nat) as Hc
      by (intros e; apply count_cons).
    setoid_rewrite He. setoid_rewrite Hc. unfold failed_with.
    destruct (Connected x), (Restarted x), (Err x) as [e0|]; injection Hx as <- <-; simpl;
      split_and!; try lia; try done; try (by rewrite ?fmap_cons, <-?app_assoc);
      intros e; simpl; try lia;
      try (destruct (decide (e0 = e)) as [->|Hne];
        [rewrite lookup_insert_eq, bool_decide_eq_true_2 by done
        |rewrite lookup_insert_ne, bool_decide_eq_false_2 by (done || congruence)]; simpl; lia).
Qed.

(** ** Clients in a trace *)

(** The clients started and not stopped, most recent first. *)
Fixpoint running (ops : list ClientOp) (live : list nat) : list nat :=
  match ops with
  | [] => live
  | Started i :: ops => running ops (i :: live)
  | Stopped i :: ops => running ops (filter (λ j, j ≠ i) live)
  end.

(** ** The claims *)

Section claims.
Context `{GS : GoSort}.

(** What a percentile of the report means for the latencies it is taken of. *)
Definition nearest_rank (l : list Duration) (p : Z) (v : Duration) : Prop :=
  v ∈ l ∧ p * zlen l ≤ 100 * Z.of_nat (count (λ x, x <=? v) l) ∧
  100 * Z.of_nat (count (λ x, x <? v) l) < p * zlen l.

(** A greater percentage ranks no lower. *)
Lemma rank_mono l p q u v :
  p ≤ q → nearest_rank l p u → nearest_rank l q v → u ≤ v.
Proof.
  intros Hpq (_ & _ & Hu) (_ & Hv & _). destruct (Z.le_gt_cases u v) as [|Hlt]; [done|].
  assert (count (λ x, (x <=? v)%Z) l ≤ count (λ x, (x <? u)%Z) l)%nat.
  { clear Hu Hv. induction l as [|x l IH]; [done|]. rewrite !count_cons.
    destruct (Z.leb_spec x v), (Z.ltb_spec x u); lia. }
  nia.
Qed.

(** The report of a run.  Every agent is counted once, as connected or as
    failed; failures are counted by message; when some agent connected, p50
    and p99 are connect latencies of the nearest rank (at least p percent of
    the latencies are at or below it, fewer are strictly below), the maximum
    is the greatest, and p50 <= p99 <= max; otherwise all three are zero. *)
Theorem Summarize_correct results :
  99 * zlen results + 99 ≤ int64_max →
  let rep := Summarize results in
  let l := ConnectLatency <$> filter (λ x, Connected x = true) results in
  Total rep = zlen results ∧ Total rep = r_Connected rep + Failed rep ∧
  r_Connected rep = zlen l ∧
  r_Restarted rep = Z.of_nat (count Restarted results) ∧
  (∀ e, default 0 (Errors rep !! e) = Z.of_nat (count (failed_with e) results)) ∧
  (l = [] → (ConnectP50 rep, ConnectP99 rep, ConnectMax rep) = (0, 0, 0)) ∧
  (l ≠ [] → nearest_rank l 50 (ConnectP50 rep) ∧ nearest_rank l 99 (ConnectP99 rep) ∧
    ConnectMax rep ∈ l ∧ (∀ x, x ∈ l → x ≤ ConnectMax rep) ∧
    ConnectP50 rep ≤ ConnectP99 rep ≤ ConnectMax rep).
Proof.
  intros Hm rep l. unfold rep, Summarize.
  set (r0 := mkReport (zlen results) 0 0 0 0 0 0 ∅).
  destruct (summarize_fold results r0 []) as (Ht & Hc & Hf & Hr & He & Hp & Hl).
  destruct (foldl summarize_result (r0, []) results) as [r lat].
  cbn [fst snd app] in Ht, Hc, Hf, Hr, He, Hp, Hl. fold l in Hl. subst lat.
  change (Total r0) with (zlen results) in Ht. change (r_Connected r0) with 0 in Hc.
  change (Failed r0) with 0 in Hf. change (r_Restarted r0) with 0 in Hr.
  change (ConnectP50 r0, ConnectP99 r0, ConnectMax r0) with (0, 0, 0) in Hp.
  assert (∀ e, default 0 (Errors r !! e) = Z.of_nat (count (failed_with e) results)) as He0.
  { intros e. rewrite He. change (Errors r0) with (∅ : gmap string Z). by rewrite lookup_empty. }
  assert (zlen l = Z.of_nat (count Connected results)) as Hlc by (unfold l; by rewrite length_fmap).
  pose proof (count_negb Connected results) as Hsplit.
  set (s := SortFunc duration_cmp l).
  assert (s ≡ₚ l) as Hs by apply SortFunc_perm.
  destruct (Z.ltb_spec 0 (zlen l)) as [Hpos|Hzero]; simpl.
  - split_and!; [lia|lia|lia|lia|exact He0|by intros ->|]. intros Hne.
    assert (StronglySorted Z.le s) as Hsort.
    { eapply StronglySorted_weaken; [|apply SortFunc_sorted, duration_cmp_order].
      intros a b H. by apply duration_cmp_le. }
    assert (s ≠ []) as Hsne by (intros Hnil; rewrite Hnil in Hs; by apply Permutation_nil_l in Hs).
    assert (zlen s = zlen l) as Hlen by (by rewrite Hs).
    assert (∀ P : Duration → bool, count P s = count P l) as Hcnt by (intros P; by rewrite Hs).
    assert (∀ p, 1 ≤ p ≤ 99 → nearest_rank l p (percentile s p)) as Hrank.
    { intros p Hpp. destruct (percentile_rank s p) as (H1 & H2 & H3); [done|done|lia|nia|].
      unfold nearest_rank. rewrite <-Hlen, <-!Hcnt. split; [|done].
      by apply (elem_of_Permutation_proper (percentile s p) s l Hs). }
    destruct (last_sorted_max s Hsort Hsne) as [Hin Hmax].
    apply (elem_of_Permutation_proper _ s l Hs) in Hin.
    split_and!; [by apply Hrank; lia|by apply Hrank; lia|exact Hin| | |].
    + intros x Hx. by apply Hmax, (elem_of_Permutation_proper x s l Hs).
    + apply (rank_mono l 50 99); [lia|by apply Hrank; lia|by apply Hrank; lia].
    + apply Hmax, (elem_of_Permutation_proper _ s l Hs). by apply Hrank; lia.
  - split_and!; [lia|lia|lia|lia|exact He0|by intros _; injection Hp as -> -> ->|].
    intros Hne. destruct l; [done|]. cbn [length] in Hzero. lia.
Qed.

(** No synthetic agent leaks a client.  Whatever its connections meet, at
    most one of its clients is running at any time and none is left running
    when it returns; it counts as restarted only if it connected and met no
    error. *)
Theorem runAgent_stops_clients uid restart first reached second :
  let w := runAgent uid restart first reached second in
  running w.2 [] = [] ∧
  (∀ n, (length (running (take n w.2) []) ≤ 1)%nat) ∧
  (Restarted w.1 = true → Connected w.1 = true ∧ Err w.1 = None) ∧
  (Connected w.1 = false → is_Some (Err w.1)).
Proof.
  cbv zeta. unfold runAgent.
  destruct first, restart, reached, second; simpl; (split; [reflexivity|]);
    (split; [|split; intros; try done; eauto]);
    intros n; do 6 (destruct n as [|n]; [simpl; lia|]); simpl; lia.
Qed.

(** A run that starts reports every agent. *)
Theorem Run_reports_all `{URLParse, CertFiles} c fates rep :
  Run c fates = inr rep → 99 * Agents c + 99 ≤ int64_max →
  Validate c = None ∧ Total rep = Agents c ∧ Total rep = r_Connected rep + Failed rep.
Proof.
  unfold Run. destruct (Validate c) eqn:Hv; [done|].
  destruct (tlsConfig c); [done|]. intros [= <-] Hm.
  assert (1 ≤ Agents c) as Ha.
  { unfold Validate in Hv. destruct (bool_decide _); [done|]. destruct (bool_decide _); [done|].
    destruct (Z.ltb_spec (Agents c) 1); [done|lia]. }
  match goal with |- context [Summarize ?rs] => set (results := rs) end.
  assert (zlen results = Agents c) as Hlen.
  { unfold results. rewrite length_fmap, length_seq. lia. }
  destruct (summarize_fold results (mkReport (zlen results) 0 0 0 0 0 0 ∅) [])
    as (Ht & Hc & Hf & _).
  pose proof (count_negb Connected results).
  unfold Summarize. destruct (foldl summarize_result _ results) as [r lat].
  cbn [fst snd Total r_Connected Failed] in *. destruct (0 <? zlen lat); simpl; split_and!; lia || done.
Qed.

(** A reconnection that fails disappears from the report: the agent's
    result carries the error, but the agent is counted as connected, so no
    failure and no error message is reported. *)
Theorem failed_restart_unreported uid latency e :
  let w := runAgent uid true (Connects latency) true (StartFails e) in
  Err w.1 = Some e ∧
  Failed (Summarize [w.1]) = 0 ∧ Errors (Summarize [w.1]) = ∅ ∧ r_Restarted (Summarize [w.1]) = 0.
Proof. done. Qed.

End claims.

(** ** Witnesses *)

Definition results3 : list Result :=
  [mkResult "a" true 10 false 0 None; mkResult "b" true 100 true 5 None;
   mkResult "c" true 20 false 0 None; mkResult "d" false 0 false 0 (Some "dial timeout")].

Lemma Summarize_correct_witness :
  let GS := merge_GoSort in
  let rep := Summarize results3 in
  (ConnectP50 rep, ConnectP99 rep, ConnectMax rep) = (20, 100, 100) ∧
  Total rep = r_Connected rep + Failed rep.
Proof.
  intros GS rep. split; [vm_compute; reflexivity|].
  destruct (Summarize_correct results3) as (_ & H & _); [vm_compute; discriminate|exact H].
Defined.
