(* ===== verification/SynthMain.v ===== *)
(** * cmd/grex-synth: the flags, the run and the printed report

    cmd/grex-synth/main.go over [GoFlag] and [Synth], and the one flag of
    cmd/grex/main.go.  The theorems: what any command line means, and that the
    printed report accounts for every agent. *)

From Stdlib Require Import Ascii ZArith Lia.
From S2P Require Import Prelude GoLang GoParse GoUrl GoTime GoFlag Synth.
Local Open Scope Z_scope.

(** ** Flags *)

Definition string_var {C} (name : string) (put : string → C → C) : Flag C :=
  mkFlag name (λ v c, Some (put v c)).
Definition int_var {C} (name : string) (put : Z → C → C) : Flag C :=
  mkFlag name (λ v c, n ← ParseInt0 v; Some (put n c)).
Definition duration_var {C} (name : string) (put : Duration → C → C) : Flag C :=
  mkFlag name (λ v c, d ← ParseDuration v; Some (put d c)).

(** grex's own flag, and the path [run] takes from its arguments. *)
Definition grex_flags : list (Flag string) := [string_var "config" (λ v _, v)].

Definition grex_args (args : list string) : FlagError + string :=
  match Parse grex_flags args "config.yaml" with inl e => inl e | inr (path, _) => inr path end.

Definition synth_flags : list (Flag Config) :=
  [string_var "url" (λ v c, c <| ServerURL := v |>);
   int_var "agents" (λ n c, c <| Agents := n |>);
   int_var "ramp" (λ n c, c <| RampPerSec := n |>);
   duration_var "heartbeat" (λ d c, c <| Heartbeat := d |>);
   duration_var "duration" (λ d c, c <| RunDuration := d |>);
   duration_var "restart-after" (λ d c, c <| RestartAfter := d |>);
   string_var "service-name" (λ v c, c <| ServiceName := v |>);
   string_var "cert" (λ v c, c <| CertFile := v |>);
   string_var "key" (λ v c, c <| KeyFile := v |>);
   string_var "ca" (λ v c, c <| CAFile := v |>)].

(** The variables as the flags' definitions leave them. *)
Definition default_config : Config :=
  mkConfig "" 1 0 (30 * Second) Minute 0 "otelcol-contrib" "" "" "".

Inductive ConfigError := FlagsError (e : FlagError) | Invalid (e : string).

Definition parseConfig `{URLParse} (args : list string) : ConfigError + Config :=
  match Parse synth_flags args default_config with
  | inl e => inl (FlagsError e)
  | inr (cfg, _) => match Validate cfg with Some e => inl (Invalid e) | None => inr cfg end
  end.

(** ** The report *)

(** Width five, padded with blanks: "%5d". *)
Definition pad5 (n : Z) : string :=
  let s := Itoa n in
  String.app (concat_strings (replicate (5 - String.length s) " ")) s.

Definition line (l : list string) : string := concat_strings (l ++ [String "010" ""]).

Definition error_line (p : string * Z) : string := line ["  "; pad5 p.2; "  "; p.1].

(** [printReport]; the errors in the map's order. *)
Definition printReport `{MapRange} (r : Report) : string :=
  concat_strings
    ([line ["── synth report ──"];
      line ["agents:     "; Itoa (Total r)];
      line ["connected:  "; Itoa (r_Connected r)];
      line ["failed:     "; Itoa (Failed r)];
      line ["restarted:  "; Itoa (r_Restarted r)];
      line ["connect p50/p99/max: "; duration_String (ConnectP50 r); " / ";
            duration_String (ConnectP99 r); " / "; duration_String (ConnectMax r)]] ++
     (if bool_decide (Errors r = ∅) then [] else
      line ["errors:"] :: (error_line <$> range (Errors r)))).

(** [run]: what is printed, or the error [main] exits with. *)
Definition synth_run `{URLParse, CertFiles, GoSort, MapRange} (args : list string)
    (fates : nat → Fate) : ConfigError + string :=
  match parseConfig args with
  | inl e => inl e
  | inr cfg =>
      match Run cfg fates with
      | inl e => inl (Invalid e)
      | inr report => inr (printReport report)
      end
  end.

(** ** What a command line means *)

(** The last value given under a name, read; the default without one. *)
Definition read {A} (parse : string → option A) (name : string) (d : A) (l : list given) : A :=
  default d (last (g_value <$> filter (λ g, g_name g = name) l) ≫= parse).

Definition string_names : list string := ["url"; "service-name"; "cert"; "key"; "ca"].
Definition int_names : list string := ["agents"; "ramp"].
Definition duration_names : list string := ["heartbeat"; "duration"; "restart-after"].

(** One of the flags, with a value it takes. *)
Definition accepted (g : given) : Prop :=
  g_name g ∈ string_names ∨
  g_name g ∈ int_names ∧ is_Some (ParseInt0 (g_value g)) ∨
  g_name g ∈ duration_names ∧ is_Some (ParseDuration (g_value g)).

#[export] Instance accepted_dec g : Decision (accepted g).
Proof. unfold accepted. apply _. Defined.

(** The configuration a list of flags describes, over [d]. *)
Definition described (d : Config) (l : list given) : Config :=
  mkConfig (read Some "url" (ServerURL d) l) (read ParseInt0 "agents" (Agents d) l)
    (read ParseInt0 "ramp" (RampPerSec d) l) (read ParseDuration "heartbeat" (Heartbeat d) l)
    (read ParseDuration "duration" (RunDuration d) l)
    (read ParseDuration "restart-after" (RestartAfter d) l)
    (read Some "service-name" (ServiceName d) l) (read Some "cert" (CertFile d) l)
    (read Some "key" (KeyFile d) l) (read Some "ca" (CAFile d) l).

Lemma read_cons_eq {A} (parse : string → option A) name d x g l :
  g_name g = name → parse (g_value g) = Some x →
  Forall (λ g, g_name g = name → is_Some (parse (g_value g))) l →
  read parse name d (g :: l) = read parse name x l.
Proof.
  intros Hg Hx Hl. unfold read. rewrite filter_cons_True by done. cbn [fmap list_fmap].
  destruct (last (g_value <$> filter (λ g, g_name g = name) l)) as [v|] eqn:E.
  - rewrite last_cons, E. cbn. apply last_Some_elem_of, list_elem_of_fmap in E as (g' & -> & Hin).
    apply list_elem_of_filter in Hin as [Hn Hin]. rewrite Forall_forall in Hl.
    destruct (Hl g' Hin Hn) as [y Hy]. by rewrite Hy.
  - rewrite last_cons, E. cbn. by rewrite Hx.
Qed.

Lemma read_cons_ne {A} (parse : string → option A) name d g l :
  g_name g ≠ name → read parse name d (g :: l) = read parse name d l.
Proof. intros Hg. unfold read. by rewrite filter_cons_False. Qed.

(** A name has one type. *)
Lemma names_apart :
  Forall (λ n, n ∉ int_names ++ duration_names) string_names ∧
  Forall (λ n, n ∉ duration_names) int_names.
Proof. split; apply (bool_decide_unpack _); vm_compute; exact I. Qed.

(** What an accepted value of a typed flag parses to. *)
Lemma accepted_int g : accepted g → g_name g ∈ int_names → is_Some (ParseInt0 (g_value g)).
Proof.
  destruct names_apart as [Hs Hi]. rewrite Forall_forall in Hs, Hi.
  intros [H|[[_ H]|[H _]]] Hn; [|done|]; exfalso; [apply (Hs _ H), elem_of_app; by left|by apply (Hi _ Hn)].
Qed.

Lemma accepted_duration g :
  accepted g → g_name g ∈ duration_names → is_Some (ParseDuration (g_value g)).
Proof.
  destruct names_apart as [Hs Hi]. rewrite Forall_forall in Hs, Hi.
  intros [H|[[H _]|[_ H]]] Hn; [| |done]; exfalso; [apply (Hs _ H), elem_of_app; by right|by apply (Hi _ H)].
Qed.

(** The names of the flags. *)
Lemma synth_flags_names : fl_name <$> synth_flags =
  ["url"; "agents"; "ramp"; "heartbeat"; "duration"; "restart-after"; "service-name"; "cert"; "key"; "ca"].
Proof. reflexivity. Qed.

Lemma accepted_name g : accepted g → g_name g ∈ fl_name <$> synth_flags.
Proof.
  assert (Forall (λ n, n ∈ fl_name <$> synth_flags) (string_names ++ int_names ++ duration_names)) as H
    by (apply (bool_decide_unpack _); vm_compute; exact I).
  rewrite Forall_forall in H. intros Hg. apply H. rewrite !elem_of_app.
  destruct Hg as [?|[[? _]|[? _]]]; auto.
Qed.

Lemma find_flag_None {C} (formal : list (Flag C)) name :
  find_flag formal name = None ↔ name ∉ fl_name <$> formal.
Proof.
  unfold find_flag. induction formal as [|f formal IH]; [by split; [intros _; apply not_elem_of_nil|]|].
  rewrite fmap_cons, not_elem_of_cons. destruct (decide (fl_name f = name)) as [He|Hne].
  - rewrite filter_cons_True by done. split; [done|]. intros [Hn _]. congruence.
  - rewrite filter_cons_False by done. rewrite IH. split; [intros ?; split; congruence|by intros []].
Qed.

(** A flag that is not accepted is unknown or has a value that does not
    parse. *)
Definition refused (g : given) : FlagError :=
  if bool_decide (g_name g ∈ fl_name <$> synth_flags) then InvalidValue (g_value g) (g_name g)
  else undefined (g_name g).

Lemma find_flag_in {C} (formal : list (Flag C)) f :
  NoDup (fl_name <$> formal) → f ∈ formal → find_flag formal (fl_name f) = Some f.
Proof.
  intros Hnd Hf. unfold find_flag. induction formal as [|g formal IH]; [by apply not_elem_of_nil in Hf|].
  rewrite fmap_cons in Hnd. apply NoDup_cons in Hnd as [Hn Hnd].
  apply elem_of_cons in Hf as [->|Hf]; [by rewrite filter_cons_True|].
  rewrite filter_cons_False; [by apply IH|]. intros He. apply Hn. rewrite He. by apply list_elem_of_fmap_2.
Qed.

Lemma synth_flags_NoDup : NoDup (fl_name <$> synth_flags).
Proof. rewrite synth_flags_names. apply (bool_decide_unpack _). vm_compute. exact I. Qed.

(** Later accepted values of a name parse. *)
Lemma accepted_values l :
  Forall accepted l →
  (∀ n, Forall (λ g, g_name g = n → is_Some (Some (g_value g))) l) ∧
  (∀ n, n ∈ int_names → Forall (λ g, g_name g = n → is_Some (ParseInt0 (g_value g))) l) ∧
  (∀ n, n ∈ duration_names → Forall (λ g, g_name g = n → is_Some (ParseDuration (g_value g))) l).
Proof.
  intros Hl. split_and!; intros n; [|intros Hn..]; apply (Forall_impl _ _ _ Hl); intros g Hg He.
  - done.
  - apply (accepted_int g Hg). by rewrite He.
  - apply (accepted_duration g Hg). by rewrite He.
Qed.

(** Writing one accepted flag. *)
Lemma assign_accepted g c :
  accepted g → ∃ c', assign synth_flags [g] c = inr c' ∧
    ∀ l, Forall accepted l → described c' l = described c (g :: l).
Proof.
  intros Hg. pose proof (accepted_name _ Hg) as Hn.
  pose proof (accepted_int _ Hg) as Hint. pose proof (accepted_duration _ Hg) as Hdur.
  destruct g as [name value double joined]. cbn [g_name g_value] in *.
  apply list_elem_of_fmap in Hn as (f & -> & Hf). cbn [assign g_name g_value].
  rewrite (find_flag_in _ _ synth_flags_NoDup Hf). unfold synth_flags in Hf.
  repeat (apply elem_of_cons in Hf as [->|Hf]); [..|by apply not_elem_of_nil in Hf].
  all: unfold string_var, int_var, duration_var in *; cbn [fl_name] in *.
  2-3: destruct Hint as [n Hv]; [by repeat constructor|].
  4-6: destruct Hdur as [n Hv]; [by repeat constructor|].
  2-6: unfold set_flag; cbn [fl_Set]; rewrite Hv; cbn [mbind option_bind].
  all: eexists; split; [reflexivity|]; intros l Hl.
  all: destruct (accepted_values l Hl) as (Ht & Hi & Hd); unfold described;
    destruct c as [c1 c2 c3 c4 c5 c6 c7 c8 c9 c10]; cbn -[read]; f_equal; symmetry;
    first [by apply read_cons_ne
          |apply read_cons_eq; first [reflexivity|done|apply Ht|apply Hi; by repeat constructor
                                     |apply Hd; by repeat constructor]].
Qed.

Lemma assign_all l c :
  Forall accepted l → assign synth_flags l c = inr (described c l).
Proof.
  intros Hl. revert c. induction Hl as [|g l Hg Hl IH]; intros c; [by destruct c|].
  destruct (assign_accepted g c Hg) as (c' & Ha & Hd). rewrite <-(Hd l Hl), <-IH.
  cbn [assign] in *. destruct (find_flag synth_flags (g_name g)); [|done].
  destruct (set_flag _ _ c) as [|c1]; [done|]. by injection Ha as ->.
Qed.

(** And one that is not. *)
Lemma assign_refused g c : ¬ accepted g → assign synth_flags [g] c = inl (refused g).
Proof.
  intros Hg. unfold refused. destruct g as [name value double joined]. cbn [assign g_name g_value] in *.
  case_bool_decide as Hn.
  - apply list_elem_of_fmap in Hn as (f & -> & Hf).
    rewrite (find_flag_in _ _ synth_flags_NoDup Hf). unfold synth_flags in Hf.
    repeat (apply elem_of_cons in Hf as [->|Hf]); [..|by apply not_elem_of_nil in Hf].
    all: unfold string_var, int_var, duration_var, set_flag in *; cbn [fl_name fl_Set] in *.
    1,7-10: exfalso; apply Hg; unfold accepted; cbn [g_name g_value]; left; by repeat constructor.
    1-2: destruct (ParseInt0 value) eqn:Hv; [|done]; exfalso; apply Hg; unfold accepted; cbn [g_name g_value]; right; left;
      split; [by repeat constructor|by rewrite Hv].
    all: destruct (ParseDuration value) eqn:Hv; [|done]; exfalso; apply Hg; unfold accepted; cbn [g_name g_value]; right; right;
      split; [by repeat constructor|by rewrite Hv].
  - by rewrite (proj2 (find_flag_None synth_flags name) Hn).
Qed.

#[export] Instance writable_dec name : Decision (writable name).
Proof. unfold writable. apply _. Defined.

Lemma flags_writable : Forall writable (fl_name <$> synth_flags).
Proof. apply (bool_decide_unpack _). vm_compute. exact I. Qed.

Lemma accepted_writable l : Forall accepted l → Forall (λ g, writable (g_name g)) l.
Proof.
  intros Hl. apply (Forall_impl _ _ _ Hl). intros g Hg.
  pose proof flags_writable as Hw. rewrite Forall_forall in Hw. apply Hw, (accepted_name g Hg).
Qed.

(** ** The claims *)

(** What a grex-synth command line means.  Let it start with flags that are
    known and take their values, each written with one dash or two, joined to
    its value or not.  When the flags end there, the configuration has for
    every variable the last value given, or the default, and is accepted as
    validation says, whatever follows; an unknown flag or a bad value next is
    the error, whatever follows; and so is a known flag at the end without a
    value. *)
Theorem parseConfig_correct `{URLParse} l g (double : bool) name rest :
  Forall accepted l →
  (ends_flags rest →
     let c := described default_config l in
     parseConfig ((l ≫= render) ++ rest) =
       match Validate c with Some e => inl (Invalid e) | None => inr c end) ∧
  (¬ accepted g → writable (g_name g) →
     parseConfig ((l ≫= render) ++ render g ++ rest) = inl (FlagsError (refused g))) ∧
  (name ∈ fl_name <$> synth_flags →
     parseConfig ((l ≫= render) ++ [String.app (if double then "--" else "-") name]) =
       inl (FlagsError (NeedsArgument name))).
Proof.
  intros Hl. unfold parseConfig. rewrite !Parse_render, assign_all by (done || by apply accepted_writable).
  split_and!.
  - intros Hr. cbv zeta. by destruct (Parse_ends synth_flags rest (described default_config l) Hr) as [left ->].
  - intros Hg Hw. by rewrite Parse_given, assign_refused by done.
  - intros Hn. pose proof flags_writable as Hw. rewrite Forall_forall in Hw.
    rewrite Parse_dangling; [done|by apply Hw|]. apply list_elem_of_fmap in Hn as (f & -> & Hf).
    rewrite (find_flag_in _ _ synth_flags_NoDup Hf). by eexists.
Qed.

(** The printed report's error section has a line for each message the report
    counts, once, and none when there is no error. *)
Theorem printReport_errors `{MapRange} r :
  ∃ head tail, printReport r = concat_strings (head ++ tail) ∧ length head = 6%nat ∧
    (Errors r = ∅ → tail = []) ∧
    (Errors r ≠ ∅ → ∃ ps, tail = line ["errors:"] :: (error_line <$> ps) ∧ ps ≡ₚ map_to_list (Errors r)).
Proof.
  unfold printReport. eexists _, _. split; [reflexivity|]. split; [done|]. case_bool_decide as He.
  - by split.
  - split; [done|]. intros _. eexists. split; [reflexivity|]. apply range_perm.
Qed.

(** ** Witnesses *)

#[export] Instance url_scheme1 : URLParse := λ s,
  match string_Cut ":" s with Some (scheme, _) => Some scheme | None => None end.

Definition given1 : list given :=
  [mkGiven "url" "ws://grex:4320/v1/opamp" false false; mkGiven "agents" "0x10" true true;
   mkGiven "duration" "90s" false true; mkGiven "agents" "1_000" false false].

Example parseConfig_correct_witness :
  let c := mkConfig "ws://grex:4320/v1/opamp" 1000 0 (30 * Second) (90 * Second) 0 "otelcol-contrib" "" "" "" in
  (given1 ≫= render) = ["-url"; "ws://grex:4320/v1/opamp"; "--agents=0x10"; "-duration=90s"; "-agents"; "1_000"] ∧
  parseConfig ((given1 ≫= render) ++ ["left"; "-over"]) = inr c ∧
  parseConfig ((given1 ≫= render) ++ ["-ramp"; "fast"]) = inl (FlagsError (InvalidValue "fast" "ramp")) ∧
  parseConfig ((given1 ≫= render) ++ ["--ca"]) = inl (FlagsError (NeedsArgument "ca")).
Proof.
  assert (Forall accepted given1) as Hl by (apply (bool_decide_unpack _); vm_compute; exact I).
  split_and!; [reflexivity|..].
  - rewrite (proj1 (parseConfig_correct given1 (mkGiven "" "" true true) true "" ["left"; "-over"] Hl));
      [vm_compute; reflexivity|by left].
  - refine (proj1 (proj2 (parseConfig_correct given1 (mkGiven "ramp" "fast" false false) true "" [] Hl)) _ _).
    + apply (bool_decide_unpack _). vm_compute. exact I.
    + apply (bool_decide_unpack _). vm_compute. exact I.
  - refine (proj2 (proj2 (parseConfig_correct given1 (mkGiven "" "" true true) true "ca" [] Hl)) _).
    apply (bool_decide_unpack _). vm_compute. exact I.
Defined.

Example grex_args_ok :
  grex_args [] = inr "config.yaml" ∧ grex_args ["--config=/etc/grex.yaml"] = inr "/etc/grex.yaml" ∧
  grex_args ["-h"] = inl ErrHelp ∧ grex_args ["-listen"; "x"] = inl (NotDefined "listen").
Proof. by split_and!. Qed.
