(* ===== verification/SynthAgents.v ===== *)
(** * What a synthetic agent is to grex

    The client internal/synth/run.go configures for an agent ([connect],
    [agentDescription]) and what the registry makes of it.  The opamp-go client
    is third-party code: [OpAMPClient] is the first message it sends, of which
    its documentation promises the fields that were set.  The theorem composes
    the generator with the registry and with job targeting: a synthetic fleet
    is indistinguishable from supervised collectors. *)

From Stdlib Require Import ZArith Lia.
From S2P Require Import Prelude GoLang Synth Fleet Registry RegistryProps Demo OpAMP Filter Api.
Local Open Scope Z_scope.

(** ** The client *)

Definition supervisorManagedBy : string := "opentelemetry-opampsupervisor".

Definition agentCapabilities (bits : CapabilityBits) : Z :=
  Z.lor (Z.lor (bit_ReportsStatus bits) (bit_ReportsHealth bits)) (bit_AcceptsRestartCommand bits).

Definition stringKV (key value : string) : KeyValue := mkKeyValue key (StringValue value).

Definition agentDescription (c : Synth.Config) : AgentDescription :=
  let name := ServiceName c in
  let name := if bool_decide (name = "") then "otelcol-contrib" else name in
  mkAgentDescription [stringKV "service.name" name] [stringKV "opamp.managed_by" supervisorManagedBy].

(** The health [connect] sets; both times are the clock's, as it is read. *)
Definition client_health (started status : Time) : ComponentHealth :=
  mkComponentHealth true "" "" (uint64 started) (uint64 status).

(** [clienttypes.StartSettings], and those of [connect]. *)
Record StartSettings := mkStartSettings {
  OpAMPServerURL : string;
  st_TLSConfig : option TLSConfig;
  st_InstanceUid : string;
  st_Capabilities : Z;
  HeartbeatInterval : Duration
}.

Definition client_settings (bits : CapabilityBits) (c : Synth.Config) (tlsConf : option TLSConfig)
    (uid : string) : StartSettings :=
  mkStartSettings (ServerURL c) tlsConf uid (agentCapabilities bits) (Heartbeat c).

(** The first message of a client that was given a description and a health
    and started. *)
Class OpAMPClient := {
  first_message : StartSettings → AgentDescription → ComponentHealth → AgentToServer;
  first_uid s d h : m_InstanceUid (first_message s d h) = st_InstanceUid s;
  first_capabilities s d h : m_Capabilities (first_message s d h) = st_Capabilities s;
  first_description s d h : m_AgentDescription (first_message s d h) = Some d;
  first_health s d h : m_Health (first_message s d h) = Some h
}.

(** The protocol's bits: distinct powers of two below the 64th. *)
Definition bits_of (b : CapabilityBits) : list Z :=
  [bit_ReportsStatus b; bit_AcceptsRemoteConfig b; bit_ReportsEffectiveConfig b; bit_AcceptsPackages b;
   bit_ReportsPackageStatuses b; bit_ReportsOwnTraces b; bit_ReportsOwnMetrics b; bit_ReportsOwnLogs b;
   bit_AcceptsOpAMPConnectionSettings b; bit_AcceptsOtherConnectionSettings b;
   bit_AcceptsRestartCommand b; bit_ReportsHealth b; bit_ReportsRemoteConfig b; bit_ReportsHeartbeat b;
   bit_ReportsAvailableComponents b; bit_ReportsConnectionSettingsStatus b].

Definition bits_ok (b : CapabilityBits) : Prop :=
  NoDup (bits_of b) ∧ Forall (λ x, ∃ k, 0 ≤ k < 63 ∧ x = 2 ^ k) (bits_of b).

(** ** Capabilities *)

Lemma land_pow2 x k : 0 ≤ k → Z.land x (2 ^ k) = 0 ↔ Z.testbit x k = false.
Proof.
  intros Hk. split.
  - intros H. pose proof (Z.land_spec x (2 ^ k) k) as Hb.
    rewrite H, Z.bits_0, Z.pow2_bits_true, andb_true_r in Hb by done. done.
  - intros H. apply Z.bits_inj'. intros i Hi. rewrite Z.land_spec, Z.bits_0.
    destruct (decide (k = i)) as [->|Hne]; [by rewrite H|].
    by rewrite Z.pow2_bits_false, andb_false_r.
Qed.

Lemma three_bits bits :
  bit_ReportsStatus bits ∈ bits_of bits ∧ bit_ReportsHealth bits ∈ bits_of bits ∧
  bit_AcceptsRestartCommand bits ∈ bits_of bits.
Proof. unfold bits_of. rewrite !elem_of_cons. tauto. Qed.

(** A bit of the protocol is set exactly when it is one of the three. *)
Lemma agentCapabilities_bit bits b :
  bits_ok bits → b ∈ bits_of bits →
  negb (bool_decide (Z.land (agentCapabilities bits) (uint64 b) = 0)) =
  bool_decide (b ∈ [bit_ReportsStatus bits; bit_ReportsHealth bits; bit_AcceptsRestartCommand bits]).
Proof.
  intros [_ Hp] Hb. rewrite Forall_forall in Hp.
  destruct (Hp b Hb) as (k & Hk & ->).
  destruct (three_bits bits) as (H1 & H2 & H3).
  destruct (Hp _ H1) as (k1 & Hk1 & E1), (Hp _ H2) as (k2 & Hk2 & E2), (Hp _ H3) as (k3 & Hk3 & E3).
  unfold agentCapabilities. rewrite E1, E2, E3.
  unfold uint64. rewrite Z.mod_small by (split; [lia|apply Z.pow_lt_mono_r; lia]).
  assert (∀ i, 0 ≤ i → Z.testbit (2 ^ i) k = bool_decide (2 ^ k = 2 ^ i)) as Hbit.
  { intros i Hi. case_bool_decide as He.
    - apply Z.pow_inj_r in He as ->; [|lia..]. by apply Z.pow2_bits_true.
    - apply Z.pow2_bits_false. by intros ->. }
  rewrite (bool_decide_ext _ _ (land_pow2 _ k (proj1 Hk))), !Z.lor_spec, !Hbit by lia.
  rewrite (bool_decide_ext (2 ^ k ∈ _) (2 ^ k = 2 ^ k1 ∨ 2 ^ k = 2 ^ k2 ∨ 2 ^ k = 2 ^ k3)) by
    (rewrite !elem_of_cons, elem_of_nil; tauto).
  rewrite !bool_decide_or.
  by destruct (bool_decide (2 ^ k = 2 ^ k1)), (bool_decide (2 ^ k = 2 ^ k2)), (bool_decide (2 ^ k = 2 ^ k3)).
Qed.

(** Three flags and no other. *)
Lemma synthetic_flags bits a :
  bits_ok bits → AgentCapabilities a = agentCapabilities bits →
  DecodedCapabilities bits a =
    mkCapabilities true false false false false false false false false false true true false false false
      false.
Proof.
  intros Hok Ha. unfold DecodedCapabilities. rewrite Ha.
  rewrite !(agentCapabilities_bit bits) by (done || (unfold bits_of; rewrite !elem_of_cons; tauto)).
  destruct Hok as [Hnd _]. destruct bits as [b1 b2 b3 b4 b5 b6 b7 b8 b9 b10 b11 b12 b13 b14 b15 b16].
  unfold bits_of in Hnd. cbn in *. rewrite !NoDup_cons, !not_elem_of_cons in Hnd. destruct_and? Hnd.
  f_equal; first [apply bool_decide_eq_true_2; rewrite !elem_of_cons; tauto
    |apply bool_decide_eq_false_2; rewrite !not_elem_of_cons; split_and!;
     [first [assumption|by apply not_eq_sym]..|apply not_elem_of_nil]].
Qed.

Lemma agentCapabilities_nonzero bits : bits_ok bits → agentCapabilities bits ≠ 0.
Proof.
  intros Hok H0. pose proof (agentCapabilities_bit bits (bit_ReportsStatus bits) Hok) as Hb.
  rewrite H0, Z.land_0_l in Hb. rewrite bool_decide_eq_true_2, (bool_decide_eq_true_2 (_ ∈ _)) in Hb
    by (done || (rewrite !elem_of_cons; tauto)).
  by specialize (Hb (proj1 (three_bits bits))).
Qed.

(** ** A synthetic fleet *)

Section fleet.
Context `{PB : Protobuf, UU : UUID, MR : MapRange, GS : GoSort, OC : OpAMPClient}.
Context (bits : CapabilityBits) (c : Synth.Config) (tlsConf : option TLSConfig).

(** One agent's connection: the clock at grex, its uid as it is sent and as it
    is rendered, what grex sees of the peer, and the clocks of its health. *)
Record connection := mkConnection {
  cn_now : Time;
  cn_raw : string;
  cn_id : string;
  cn_meta : ConnMeta;
  cn_started : Time;
  cn_status : Time
}.

Definition message_of (cn : connection) : AgentToServer :=
  first_message (client_settings bits c tlsConf (cn_raw cn)) (agentDescription c)
    (client_health (cn_started cn) (cn_status cn)).

(** The first messages arrive, one after the other. *)
Definition arrive (r : Registry) (l : list connection) : Registry :=
  foldl (λ r cn, (Report (cn_now cn) (message_of cn) (cn_meta cn) r).1) r l.

Definition service_name : string :=
  if bool_decide (ServiceName c = "") then "otelcol-contrib" else ServiceName c.

(** A collector under a supervisor, as far as grex can tell. *)
Record looks_real (cfg : Config) (cn : connection) (a : Agent) : Prop := {
  real_uid : InstanceUID a = cn_id cn;
  real_live : Connected a = true ∧ LastSeen a = cn_now cn ∧ Conn a = cn_meta cn;
  real_health : HealthReported a = true ∧ Healthy a = true;
  real_described : DescriptionReported a = true ∧ Attr a "service.name" = service_name;
  real_managed : SupervisorManaged a = true;
  real_flags : DecodedCapabilities bits a =
    mkCapabilities true false false false false false false false false false true true false false false
      false;
  real_missing : MissingAttributes a =
    filter (λ k, k ∉ ["service.name"; "opamp.managed_by"]) (RequiredAttributes cfg);
  real_conflicts : ReservedAttributeConflicts a = []
}.

Lemma attrs_single k v : attrsToMap [stringKV k v] = {[k := v]}.
Proof. unfold attrsToMap, stringKV. cbn. by rewrite insert_empty. Qed.

(** From the fields a report writes. *)
Lemma looks_real_intro cfg cn a :
  let ids : gmap string string := {["service.name" := service_name]} in
  let nids : gmap string string := {["opamp.managed_by" := supervisorManagedBy]} in
  bits_ok bits →
  InstanceUID a = cn_id cn → Connected a = true → LastSeen a = cn_now cn → Conn a = cn_meta cn →
  HealthReported a = true → Healthy a = true → DescriptionReported a = true →
  Identifying a = ids → NonIdentifying a = nids → AgentCapabilities a = agentCapabilities bits →
  MissingAttributes a = filter (λ key, ids !! key = None ∧ nids !! key = None) (RequiredAttributes cfg) →
  ReservedAttributeConflicts a =
    filter (λ key, is_Some (ids !! key) ∨ is_Some (nids !! key)) ReservedAttributeKeys →
  looks_real cfg cn a.
Proof.
  intros ids nids Hbits Hu Hc Hl Hm Hr Hh Hd Hi Hn Hcap Hmiss Hconf. split; [exact Hu|by split_and!|by split_and!|..].
  - split; [done|]. unfold Attr. rewrite Hi. unfold ids. by rewrite lookup_singleton_eq.
  - unfold SupervisorManaged, Attr. rewrite Hi, Hn. unfold ids, nids.
    rewrite lookup_singleton_ne by done. by rewrite lookup_singleton_eq.
  - by apply synthetic_flags.
  - rewrite Hmiss. apply list_filter_iff. intros k. unfold ids, nids.
    rewrite !lookup_singleton_None, !not_elem_of_cons. split.
    + intros [H1 H2]. split_and!; [congruence..|apply not_elem_of_nil].
    + intros (H1 & H2 & _). split; congruence.
  - rewrite Hconf. unfold ids, nids. vm_compute. reflexivity.
Qed.

(** What the first message makes of an entry, new or not. *)
Lemma report_synthetic cfg cn entry :
  bits_ok bits →
  (∀ a, entry = Some a → InstanceUID a = cn_id cn) →
  looks_real cfg cn
    (report_agent cfg (cn_now cn) (cn_id cn) (message_of cn) (cn_meta cn) entry).1.
Proof.
  intros Hbits Hentry. set (m := message_of cn).
  assert (m_Capabilities m = agentCapabilities bits ∧ m_AgentDescription m = Some (agentDescription c) ∧
    m_Health m = Some (client_health (cn_started cn) (cn_status cn))) as (Hc & Hd & Hh).
  { unfold m, message_of. by rewrite first_capabilities, first_description, first_health. }
  rewrite report_agent_fst, report_config_fst, report_packages_fst, report_health_fst,
    report_description_fst, Hc, Hd, Hh.
  rewrite (bool_decide_eq_true_2 (agentCapabilities bits ≠ 0)) by by apply agentCapabilities_nonzero.
  set (old := default _ entry).
  assert (InstanceUID old = cn_id cn) as Hold by (destruct entry as [a|]; [by apply Hentry|done]).
  clearbody old m. unfold described.
  assert (attrsToMap (IdentifyingAttributes (agentDescription c)) = {["service.name" := service_name]} ∧
    attrsToMap (NonIdentifyingAttributes (agentDescription c)) = {["opamp.managed_by" := supervisorManagedBy]})
    as [Hi Hn] by (unfold agentDescription, service_name; cbn [IdentifyingAttributes NonIdentifyingAttributes];
                   by rewrite !attrs_single).
  rewrite Hi, Hn. destruct (bool_decide (m_PackageStatuses m = ∅)), (bool_decide (m_EffectiveConfig m = ∅)).
  all: apply looks_real_intro; [exact Hbits|exact Hold|reflexivity..].
Qed.

Lemma arrive_spec l r :
  bits_ok bits → wf r → (∀ cn, cn ∈ l → uuid_FromBytes (cn_raw cn) = Some (cn_id cn)) →
  NoDup (cn_id <$> l) →
  wf (arrive r l) ∧ cfg (arrive r l) = cfg r ∧
  (∀ cn, cn ∈ l → ∃ a, flat (arrive r l) !! cn_id cn = Some a ∧ looks_real (cfg r) cn a) ∧
  (∀ id, id ∉ cn_id <$> l → flat (arrive r l) !! id = flat r !! id).
Proof.
  intros Hbits. revert r. induction l as [|cn l IH]; intros r Hwf Hid Hnd.
  { split_and!; [done|done| |done]. intros cn Hcn. by apply not_elem_of_nil in Hcn. }
  rewrite fmap_cons in *. apply NoDup_cons in Hnd as [Hcn Hnd]. cbn [arrive foldl].
  assert (uuid_FromBytes (m_InstanceUid (message_of cn)) = Some (cn_id cn)) as Hraw.
  { unfold message_of. rewrite first_uid. apply Hid. by left. }
  destruct (Report_flat (cn_now cn) (message_of cn) (cn_meta cn) r (cn_id cn) Hwf Hraw) as [Hf _].
  pose proof (act_wf (ActReport (cn_now cn) (message_of cn) (cn_meta cn)) r Hwf) as Hwf'.
  destruct (act_cfg (ActReport (cn_now cn) (message_of cn) (cn_meta cn)) r) as [Hcfg _].
  cbn [act] in Hwf', Hcfg. set (r' := (Report _ _ _ r).1) in *.
  destruct (IH r' Hwf') as (Hw & Hc & Hin & Hout); [intros cn' H; apply Hid; by right|done|].
  fold (arrive r' l). rewrite Hcfg in *. split_and!; [done|done| |].
  - intros cn' [->|Hin']%elem_of_cons; [|by apply Hin].
    rewrite (Hout _ Hcn), Hf, lookup_insert_eq. eexists. split; [done|]. apply report_synthetic; [done|].
    intros a Ha. by apply (Get_uid r).
  - intros id [Hne Hn]%not_elem_of_cons. rewrite (Hout id Hn), Hf. by rewrite lookup_insert_ne.
Qed.

(** C12: a synthetic fleet is a fleet.  Let agents of one configuration connect
    to an empty grex with distinct uids, and send the first message opamp-go
    sends.  Then grex holds exactly these agents; each is connected, healthy
    and described, under the configured service name, with the three declared
    capabilities and no others, misses exactly the required attributes other
    than service.name and opamp.managed_by, and is not asked for its full state
    again; and a job that matches them targets every one and rejects none. *)
Theorem synthetic_fleet_looks_real cfg0 l :
  bits_ok bits → ShardCount cfg0 < 2 ^ 32 →
  (∀ cn, cn ∈ l → uuid_FromBytes (cn_raw cn) = Some (cn_id cn)) → NoDup (cn_id <$> l) →
  let r := arrive (New cfg0) l in
  InstanceUID <$> List r ≡ₚ cn_id <$> l ∧
  (∀ cn, cn ∈ l → needsFullState (message_of cn) r = false ∧
     ∃ a, a ∈ List r ∧ Get r (cn_id cn) = Some a ∧ looks_real cfg0 cn a) ∧
  (PartitionJobTargets (List r)).1 ≡ₚ cn_id <$> l ∧ (PartitionJobTargets (List r)).2 = [].
Proof.
  intros Hbits Hsh Hid Hnd r. pose proof (wf_New cfg0 Hsh) as Hwf0.
  destruct (arrive_spec l (New cfg0) Hbits Hwf0 Hid Hnd) as (Hwf & _ & Hin & Hout). fold r in Hwf, Hin, Hout.
  change (cfg (New cfg0)) with cfg0 in Hin.
  rewrite flat_New in Hout.
  assert (∀ a, a ∈ List r → ∃ cn, cn ∈ l ∧ InstanceUID a = cn_id cn ∧ looks_real cfg0 cn a) as Hreal.
  { intros a Ha. apply (elem_of_List r a Hwf) in Ha.
    destruct (decide (InstanceUID a ∈ cn_id <$> l)) as [Hl|Hl]; [|by rewrite (Hout _ Hl) in Ha].
    apply list_elem_of_fmap in Hl as (cn & Hu & Hcn). exists cn. split_and!; [done|done|].
    destruct (Hin cn Hcn) as (a' & Ha' & Hlr). rewrite <-Hu, Ha in Ha'. by injection Ha' as ->. }
  assert (InstanceUID <$> List r ≡ₚ cn_id <$> l) as Hperm.
  { apply NoDup_Permutation; [by apply List_NoDup_uid|done|]. intros u. rewrite !list_elem_of_fmap. split.
    - intros (a & -> & Ha). destruct (Hreal a Ha) as (cn & Hcn & Hu & _). by exists cn.
    - intros (cn & -> & Hcn). destruct (Hin cn Hcn) as (a & Ha & Hlr). exists a.
      rewrite (elem_of_List r a Hwf), (real_uid _ _ _ Hlr). by rewrite Ha. }
  assert (∀ a, a ∈ List r → SupervisorManaged a = true) as Hman.
  { intros a Ha. destruct (Hreal a Ha) as (cn & _ & _ & Hlr). exact (real_managed _ _ _ Hlr). }
  rewrite PartitionJobTargets_correct. cbn [fst snd].
  rewrite list_filter_all by exact Hman. rewrite list_filter_none by (intros a Ha; by rewrite (Hman a Ha)).
  split_and!; [done| |done|done].
  intros cn Hcn. destruct (Hin cn Hcn) as (a & Ha & Hlr). rewrite <-Get_flat in Ha by done. split.
  - unfold needsFullState, message_of. rewrite first_uid. cbn [st_InstanceUid client_settings].
    rewrite (Hid cn Hcn), Ha. by rewrite (proj1 (real_described _ _ _ Hlr)).
  - exists a. split_and!; [|done|done]. rewrite (elem_of_List r a Hwf), (real_uid _ _ _ Hlr).
    by rewrite <-Get_flat.
Qed.

End fleet.

(** ** Witness *)

(** A client that sends what was set, and nothing else. *)
#[export] Instance plain_client : OpAMPClient.
Proof.
  refine {| first_message s d h :=
    mkAgentToServer (st_InstanceUid s) 0 (st_Capabilities s) (Some d) (Some h) ∅ ∅ None |};
    by intros.
Defined.

Definition synth1 : Synth.Config :=
  Synth.mkConfig "ws://grex:4320/v1/opamp" 2 0 (30 * Second) (90 * Second) 0 "" "" "" "".

Definition connections1 : list connection :=
  [mkConnection 5 raw1 id1 meta1 1 2;
   mkConnection 9 "0123456789abcdeg" "30313233-3435-3637-3839-616263646567" meta1 3 4].

Example synthetic_fleet_looks_real_witness :
  let r := arrive bits1 synth1 None (New cfg1) connections1 in
  InstanceUID <$> List r ≡ₚ [id1; "30313233-3435-3637-3839-616263646567"] ∧
  (PartitionJobTargets (List r)).2 = [] ∧
  ∃ a, Get r id1 = Some a ∧ MissingAttributes a = ["team"] ∧ Attr a "service.name" = "otelcol-contrib".
Proof.
  intros r.
  destruct (synthetic_fleet_looks_real bits1 synth1 None cfg1 connections1) as (Hp & Hl & _ & Hr).
  - split; [apply (bool_decide_unpack _); vm_compute; exact I|].
    apply Forall_forall. intros x Hx. unfold bits_of, bits1 in Hx. cbn in Hx.
    repeat (apply elem_of_cons in Hx as [->|Hx]); [..|by apply not_elem_of_nil in Hx].
    all: match goal with |- ∃ k, _ ∧ ?n = _ => exists (Z.log2 n) end; by vm_compute.
  - vm_compute. reflexivity.
  - intros cn Hcn. unfold connections1 in Hcn.
    repeat (apply elem_of_cons in Hcn as [->|Hcn]); [..|by apply not_elem_of_nil in Hcn]; reflexivity.
  - apply (bool_decide_unpack _). vm_compute. exact I.
  - split_and!; [exact Hp|exact Hr|].
    destruct (Hl (mkConnection 5 raw1 id1 meta1 1 2)) as (_ & a & _ & Hg & Hlr); [by left|].
    exists a. split; [exact Hg|]. destruct Hlr as [_ _ _ [_ Hs] _ _ Hm _]. rewrite Hm, Hs.
    split; vm_compute; reflexivity.
Defined.
