(* ===== verification/TestSupport.v ===== *)
(** * The support packages of the tests

    internal/testcert/testcert.go mints certificates and
    internal/persistence/testdb/testdb.go starts a migrated Postgres.  The
    crypto, the file system, docker and the driver are arguments; what the
    packages do with them is here.  The theorems: a minted client passes the
    role gate as its URI says, over files a server's TLS configuration is
    served from; and a database is handed out only once it is ready, with every
    migration applied in order, after a bounded wait. *)

From Stdlib Require Import Ascii ZArith Lia.
From S2P Require Import Prelude GoLang GoParse GoUrl GoTime Auth Config Server.
Local Open Scope Z_scope.

(** A test that goes on, or one stopped by [tb.Fatal] or [t.Skip], over what it
    has changed. *)
Inductive outcome (A : Type) := Value (x : A) | Fatal | Skipped.
Arguments Value {A}.
Arguments Fatal {A}.
Arguments Skipped {A}.

Definition test (W A : Type) : Type := W → outcome A * W.

#[export] Instance test_ret W : MRet (test W) := λ A x w, (Value x, w).

#[export] Instance test_bind W : MBind (test W) := λ A B k m w,
  match m w with
  | (Value x, w) => k x w
  | (Fatal, w) => (Fatal, w)
  | (Skipped, w) => (Skipped, w)
  end.

(** [if err != nil { tb.Fatal(err) }]. *)
Definition must {W A} (m : W → option A * W) : test W A := λ w,
  match m w with (Some x, w) => (Value x, w) | (None, w) => (Fatal, w) end.

Lemma test_bind_Value {W A B} (m : test W A) (k : A → test W B) w y w' :
  (m ≫= k) w = (Value y, w') ↔ ∃ x w1, m w = (Value x, w1) ∧ k x w1 = (Value y, w').
Proof.
  unfold mbind, test_bind. destruct (m w) as [[x| |] w1]; naive_solver.
Qed.

Lemma test_bind_step {W A B} (m : test W A) (k : A → test W B) w x w1 :
  m w = (Value x, w1) → (m ≫= k) w = k x w1.
Proof. unfold mbind, test_bind. by intros ->. Qed.

Lemma test_bind_Fatal {W A B} (m : test W A) (k : A → test W B) w w1 :
  m w = (Fatal, w1) → (m ≫= k) w = (Fatal, w1).
Proof. unfold mbind, test_bind. by intros ->. Qed.

Lemma test_bind_Skipped {W A B} (m : test W A) (k : A → test W B) w w1 :
  m w = (Skipped, w1) → (m ≫= k) w = (Skipped, w1).
Proof. unfold mbind, test_bind. by intros ->. Qed.

Ltac step H := etrans; [apply test_bind_step; exact H|].

Lemma must_Value {W A} (m : W → option A * W) w x w' :
  must m w = (Value x, w') ↔ m w = (Some x, w').
Proof. unfold must. destruct (m w) as [[y|] w1]; naive_solver. Qed.

(** ** Package testcert *)

Module Testcert.

Inductive KeyUsage := CertSign | DigitalSignature.
Inductive ExtKeyUsage := ServerAuth | ClientAuth.

#[export] Instance ExtKeyUsage_eq_dec : EqDecision ExtKeyUsage.
Proof. solve_decision. Defined.

(** What the package fills in of an x509.Certificate. *)
Record Template := mkTemplate {
  SerialNumber : Z;
  CommonName : string;
  NotBefore : Time;
  NotAfter : Time;
  IsCA : bool;
  tm_KeyUsage : KeyUsage;
  tm_ExtKeyUsage : list ExtKeyUsage;
  IPAddresses : list string;
  tm_URIs : list URL;
  BasicConstraintsValid : bool
}.

(** A PEM block. *)
Record pem (B : Type) := Block { pem_Type : string; pem_Bytes : B }.
Arguments Block {B}.
Arguments pem_Type {B}.
Arguments pem_Bytes {B}.

Section testcert.
(** The world, private keys, encoded bytes, parsed certificates and pairs. *)
Context {W K B X P : Type}.

(** What the standard library does: a key, a file, a certificate signed by the
    last argument for the key before it, ... *)
Record ops := mkOps {
  op_generateKey : W → option K * W;
  op_writeFile : string → pem B → W → option unit * W;
  op_createCertificate : Template → option X → K → K → W → option B * W;
  op_parseCertificate : B → option X;
  op_marshalECPrivateKey : K → option B;
  op_x509KeyPair : pem B → pem B → option P
}.

(** [genDeps]: [None] is a nil hook. *)
Record genDeps := mkGenDeps {
  generateKey : option (W → option K * W);
  writeFile : option (string → pem B → W → option unit * W);
  createCertificate : option (Template → option X → K → K → W → option B * W);
  parseCertificate : option (B → option X);
  marshalECPrivateKey : option (K → option B);
  x509KeyPair : option (pem B → pem B → option P)
}.

Definition no_deps : genDeps := mkGenDeps None None None None None None.

Definition withDefaults (std : ops) (d : genDeps) : ops :=
  mkOps (default (op_generateKey std) (generateKey d))
    (default (op_writeFile std) (writeFile d))
    (default (op_createCertificate std) (createCertificate d))
    (default (op_parseCertificate std) (parseCertificate d))
    (default (op_marshalECPrivateKey std) (marshalECPrivateKey d))
    (default (op_x509KeyPair std) (x509KeyPair d)).

Record Certs := mkCerts {
  CAFile : string;
  CAPool : list X;
  ServerCertFile : string;
  ServerKeyFile : string;
  ClientTLSCert : P;
  ClientCertFile : string;
  caCert : X;
  caKey : K
}.

(** A pure step that can fail. *)
Definition pure {A} (o : option A) : W → option A * W := λ w, (o, w).

(** The clock and the test's directory. *)
Context (std : ops) (clock : W → Time * W) (dir : string).

Definition now : test W Time := λ w, let '(t, w) := clock w in (Value t, w).

(** [issueCert]. *)
Definition issueCert (deps : ops) (ca : X) (cakey : K) (name : string) (extUsage : ExtKeyUsage)
    (ips : list string) (uris : list URL) : test W (pem B * pem B) :=
  key ← must (op_generateKey deps);
  t1 ← now; t2 ← now; t3 ← now;
  let tmpl := mkTemplate t1 name (t2 - Hour) (t3 + Hour) false DigitalSignature [extUsage] ips uris false in
  der ← must (op_createCertificate deps tmpl (Some ca) key cakey);
  keyDER ← must (pure (op_marshalECPrivateKey deps key));
  mret (Block "CERTIFICATE" der, Block "EC PRIVATE KEY" keyDER).

Definition path (name : string) : string := String.app dir (String "/"%char name).

Definition write (deps : ops) (name : string) (data : pem B) : test W string :=
  _ ← must (op_writeFile deps (path name) data); mret (path name).

(** [gen]; the CA's certificate is its own parent. *)
Definition gen (d : genDeps) : test W Certs :=
  let deps := withDefaults std d in
  caKey ← must (op_generateKey deps);
  t1 ← now; t2 ← now;
  let caTmpl := mkTemplate 1 "grex test CA" (t1 - Hour) (t2 + Hour) true CertSign [] [] [] true in
  caDER ← must (op_createCertificate deps caTmpl None caKey caKey);
  caCert ← must (pure (op_parseCertificate deps caDER));
  server ← issueCert deps caCert caKey "grex" ServerAuth ["127.0.0.1"] [];
  client ← issueCert deps caCert caKey "otelcol" ClientAuth [] [];
  clientTLSCert ← must (pure (op_x509KeyPair deps client.1 client.2));
  caFile ← write deps "ca.pem" (Block "CERTIFICATE" caDER);
  serverFile ← write deps "server.pem" server.1;
  serverKeyFile ← write deps "server-key.pem" server.2;
  clientFile ← write deps "client.pem" client.1;
  mret (mkCerts caFile [caCert] serverFile serverKeyFile clientTLSCert clientFile caCert caKey).

Definition Gen : test W Certs := gen no_deps.

Definition IssueClient (c : Certs) (name : string) (uris : list URL) : test W P :=
  let deps := withDefaults std no_deps in
  client ← issueCert deps (caCert c) (caKey c) name ClientAuth [] uris;
  must (pure (op_x509KeyPair deps client.1 client.2)).

(** *** What the tests rely on *)

(** What a certificate, a key, a pair and a file are, to whom it matters. *)
Class Crypto (Pub : Type) := {
  x_Template : X → Template;
  x_Key : X → Pub;
  x_Signer : X → Pub;
  pub : K → Pub;
  leaf : P → X;
  file : W → string → option (pem B);
  created t parent k ck w der w' :
    op_createCertificate std t parent k ck w = (Some der, w') →
    ∃ x, op_parseCertificate std der = Some x ∧ x_Template x = t ∧ x_Key x = pub k ∧ x_Signer x = pub ck;
  paired der kd p :
    op_x509KeyPair std (Block "CERTIFICATE" der) (Block "EC PRIVATE KEY" kd) = Some p →
    op_parseCertificate std der = Some (leaf p);
  matching der kd x k :
    op_parseCertificate std der = Some x → op_marshalECPrivateKey std k = Some kd → x_Key x = pub k →
    is_Some (op_x509KeyPair std (Block "CERTIFICATE" der) (Block "EC PRIVATE KEY" kd));
  written f b w w' : op_writeFile std f b w = (Some tt, w') →
    file w' f = Some b ∧ ∀ g, g ≠ f → file w' g = file w g
}.

Context {Pub : Type} {CR : Crypto Pub}.

(** An issued certificate: what was asked for, signed by the CA's key, with the
    key that goes with it. *)
Definition issued (ck : K) (name : string) (usage : ExtKeyUsage) (ips : list string) (uris : list URL)
    (x : X) : Prop :=
  x_Signer x = pub ck ∧ CommonName (x_Template x) = name ∧ tm_ExtKeyUsage (x_Template x) = [usage] ∧
  IPAddresses (x_Template x) = ips ∧ tm_URIs (x_Template x) = uris ∧ IsCA (x_Template x) = false.

Lemma now_Value w t w' : now w = (Value t, w') ↔ clock w = (t, w').
Proof. unfold now. destruct (clock w); naive_solver. Qed.

Lemma issueCert_spec ca ck name usage ips uris w c kp w' :
  issueCert (withDefaults std no_deps) ca ck name usage ips uris w = (Value (c, kp), w') →
  ∃ der kd x k, c = Block "CERTIFICATE" der ∧ kp = Block "EC PRIVATE KEY" kd ∧
    op_parseCertificate std der = Some x ∧ op_marshalECPrivateKey std k = Some kd ∧ x_Key x = pub k ∧
    issued ck name usage ips uris x.
Proof.
  unfold issueCert. intros H.
  apply test_bind_Value in H as (k & w1 & _ & H).
  apply test_bind_Value in H as (t1 & w2 & _ & H). apply test_bind_Value in H as (t2 & w3 & _ & H).
  apply test_bind_Value in H as (t3 & w4 & _ & H).
  apply test_bind_Value in H as (der & w5 & Hder%must_Value & H).
  apply test_bind_Value in H as (kd & w6 & Hkd%must_Value & H). injection H as <- <- <-.
  cbn in Hder, Hkd. apply created in Hder as (x & Hx & Ht & Hk & Hs). injection Hkd as Hkd _.
  exists der, kd, x, k. unfold issued. rewrite Ht. by split_and!.
Qed.

(** The TLS material of a server whose files are the world's. *)
Definition net_of (w : W) : Net := mkNet (λ _, true)
  (λ c k, match file w c, file w k with
          | Some c, Some k => bool_decide (is_Some (op_x509KeyPair std c k)) | _, _ => false end)
  (λ f, bool_decide (is_Some (file w f)))
  (λ f, match file w f with
        | Some b => bool_decide (is_Some (op_parseCertificate std (pem_Bytes b))) | None => false end)
  (λ _, true).

(** The peer the gate sees. *)
Definition presented (p : P) : Request := mkRequest (Some [mkCertificate (tm_URIs (x_Template (leaf p)))]).

Lemma path_inj a b : path a = path b → a = b.
Proof.
  unfold path. induction dir as [|ch s IH]; cbn; intros H; [by injection H|]. apply IH. by injection H.
Qed.

(** Machines on which nothing fails. *)
Record works : Prop := {
  keys_work w : ∃ k w', op_generateKey std w = (Some k, w');
  files_work f b w : ∃ w', op_writeFile std f b w = (Some tt, w');
  creating_works t parent k ck w : ∃ der w', op_createCertificate std t parent k ck w = (Some der, w');
  marshalling_works k : is_Some (op_marshalECPrivateKey std k)
}.

Lemma issueCert_works ca ck name usage ips uris w :
  works → ∃ der kd x k w',
    issueCert (withDefaults std no_deps) ca ck name usage ips uris w =
      (Value (Block "CERTIFICATE" der, Block "EC PRIVATE KEY" kd), w') ∧
    op_parseCertificate std der = Some x ∧ op_marshalECPrivateKey std k = Some kd ∧ x_Key x = pub k ∧
    issued ck name usage ips uris x.
Proof.
  intros [Hk _ Hc Hm].
  assert (∃ c kp w', issueCert (withDefaults std no_deps) ca ck name usage ips uris w = (Value (c, kp), w'))
    as (c & kp & w' & H).
  { unfold issueCert, mbind, test_bind, must, now, pure. cbn.
    destruct (Hk w) as (k & w1 & ->). destruct (clock w1) as [t1 w2], (clock w2) as [t2 w3], (clock w3) as [t3 w4].
    destruct (Hc (mkTemplate t1 name (t2 - Hour) (t3 + Hour) false DigitalSignature [usage] ips uris false)
      (Some ca) k ck w4) as (der & w5 & ->).
    destruct (Hm k) as [kd ->]. by do 3 eexists. }
  destruct (issueCert_spec _ _ _ _ _ _ _ _ _ _ H) as (der & kd & x & k & -> & -> & Hx & Hkd & Hkey & Hi).
  by exists der, kd, x, k, w'.
Qed.

(** A pair of an issued certificate with its key. *)
Lemma pair_issued der kd x k :
  op_parseCertificate std der = Some x → op_marshalECPrivateKey std k = Some kd → x_Key x = pub k →
  ∃ p, op_x509KeyPair std (Block "CERTIFICATE" der) (Block "EC PRIVATE KEY" kd) = Some p ∧ leaf p = x.
Proof.
  intros Hx Hkd Hk. destruct (matching der kd x k Hx Hkd Hk) as [p Hp]. exists p. split; [done|].
  apply paired in Hp. congruence.
Qed.

(** Writing four files of different names. *)
Lemma write_works name b w :
  works → ∃ w', write (withDefaults std no_deps) name b w = (Value (path name), w') ∧
    file w' (path name) = Some b ∧ ∀ other, other ≠ name → file w' (path other) = file w (path other).
Proof.
  intros [_ Hf _ _]. destruct (Hf (path name) b w) as [w' Hw]. exists w'.
  destruct (written _ _ _ _ Hw) as [H1 H2]. split_and!; [|done|].
  - unfold write, mbind, test_bind, must. cbn. by rewrite Hw.
  - intros other Hne. apply H2. by intros ?%path_inj.
Qed.

Lemma gen_works w :
  works → ∃ c w1, Gen w = (Value c, w1) ∧
    (∃ caDER, file w1 (CAFile c) = Some (Block "CERTIFICATE" caDER) ∧
       op_parseCertificate std caDER = Some (caCert c)) ∧
    (∃ der kd p, file w1 (ServerCertFile c) = Some (Block "CERTIFICATE" der) ∧
       file w1 (ServerKeyFile c) = Some (Block "EC PRIVATE KEY" kd) ∧
       op_x509KeyPair std (Block "CERTIFICATE" der) (Block "EC PRIVATE KEY" kd) = Some p ∧
       issued (caKey c) "grex" ServerAuth ["127.0.0.1"] [] (leaf p)) ∧
    issued (caKey c) "otelcol" ClientAuth [] [] (leaf (ClientTLSCert c)) ∧
    x_Key (caCert c) = pub (caKey c) ∧ x_Signer (caCert c) = pub (caKey c) ∧
    IsCA (x_Template (caCert c)) = true ∧ tm_KeyUsage (x_Template (caCert c)) = CertSign ∧ CAPool c = [caCert c] ∧
    CAFile c ≠ "" ∧ ServerCertFile c ≠ "".
Proof.
  intros Hw. pose proof Hw as [Hk _ Hc _]. unfold Gen, gen.
  destruct (Hk w) as (k & w1 & Hk1). destruct (clock w1) as [t1 w2] eqn:C1, (clock w2) as [t2 w3] eqn:C2.
  set (tmpl := mkTemplate 1 "grex test CA" (t1 - Hour) (t2 + Hour) true CertSign [] [] [] true).
  destruct (Hc tmpl None k k w3) as (caDER & w4 & Hca).
  destruct (created _ _ _ _ _ _ _ Hca) as (ca & Hpca & Htm & Hkey & Hsig).
  destruct (issueCert_works ca k "grex" ServerAuth ["127.0.0.1"] [] w4 Hw)
    as (sder & skd & sx & sk & w5 & Hs & Hsx & Hskd & Hsk & Hsi).
  destruct (issueCert_works ca k "otelcol" ClientAuth [] [] w5 Hw)
    as (cder & ckd & cx & ck & w6 & Hcl & Hcx & Hckd & Hck & Hci).
  destruct (pair_issued sder skd sx sk Hsx Hskd Hsk) as (sp & Hsp & <-).
  destruct (pair_issued cder ckd cx ck Hcx Hckd Hck) as (cp & Hcp & <-).
  destruct (write_works "ca.pem" (Block "CERTIFICATE" caDER) w6 Hw) as (w7 & Hw7 & F7 & _).
  destruct (write_works "server.pem" (Block "CERTIFICATE" sder) w7 Hw) as (w8 & Hw8 & F8 & O8).
  destruct (write_works "server-key.pem" (Block "EC PRIVATE KEY" skd) w8 Hw) as (w9 & Hw9 & F9 & O9).
  destruct (write_works "client.pem" (Block "CERTIFICATE" cder) w9 Hw) as (w10 & Hw10 & F10 & O10).
  exists (mkCerts (path "ca.pem") [ca] (path "server.pem") (path "server-key.pem") cp (path "client.pem") ca k), w10.
  assert (∀ name, path name ≠ "") as Hpath by (intros name; unfold path; by destruct dir).
  split.
  { step (proj2 (must_Value (op_generateKey std) _ _ _) Hk1).
    step (proj2 (now_Value _ _ _) C1). step (proj2 (now_Value _ _ _) C2).
    step (proj2 (must_Value (op_createCertificate std tmpl None k k) _ _ _) Hca).
    step (proj2 (must_Value (pure (op_parseCertificate std caDER)) w4 ca w4) (f_equal (λ o, (o, w4)) Hpca)).
    step Hs. step Hcl.
    step (proj2 (must_Value (pure (op_x509KeyPair std _ _)) w6 cp w6) (f_equal (λ o, (o, w6)) Hcp)).
    step Hw7. step Hw8. step Hw9. step Hw10. reflexivity. }
  cbn [CAFile caCert ServerCertFile ServerKeyFile caKey ClientTLSCert CAPool].
  rewrite Htm. split_and!; try done.
  - exists caDER. split; [|done]. rewrite O10, O9, O8 by done. done.
  - exists sder, skd, sp. split_and!; [|by rewrite O10|done|done]. rewrite O10, O9 by done. done.
Qed.

(** A hook that always fails stops [gen], whatever the others do. *)
Definition failing_hooks : list genDeps :=
  [mkGenDeps (Some (λ w, (None, w))) None None None None None;
   mkGenDeps None (Some (λ _ _ w, (None, w))) None None None None;
   mkGenDeps None None (Some (λ _ _ _ _ w, (None, w))) None None None;
   mkGenDeps None None None (Some (λ _, None)) None None;
   mkGenDeps None None None None (Some (λ _, None)) None;
   mkGenDeps None None None None None (Some (λ _ _, None))].

Lemma gen_stops d w : d ∈ failing_hooks → ∀ c w', gen d w ≠ (Value c, w').
Proof.
  intros Hd c w' H. unfold gen in H.
  apply test_bind_Value in H as (k & w1 & Hk%must_Value & H).
  apply test_bind_Value in H as (t1 & w2 & _ & H). apply test_bind_Value in H as (t2 & w3 & _ & H).
  apply test_bind_Value in H as (caDER & w4 & Hc%must_Value & H).
  apply test_bind_Value in H as (ca & w5 & Hp%must_Value & H).
  apply test_bind_Value in H as (server & w6 & Hs & H).
  apply test_bind_Value in H as (client & w7 & _ & H).
  apply test_bind_Value in H as (pair & w8 & Hpair%must_Value & H).
  apply test_bind_Value in H as (f & w9 & Hf & _).
  unfold issueCert in Hs.
  apply test_bind_Value in Hs as (? & ? & _ & Hs). apply test_bind_Value in Hs as (? & ? & _ & Hs).
  apply test_bind_Value in Hs as (? & ? & _ & Hs). apply test_bind_Value in Hs as (? & ? & _ & Hs).
  apply test_bind_Value in Hs as (? & ? & _ & Hs). apply test_bind_Value in Hs as (? & ? & Hm%must_Value & _).
  unfold write in Hf. apply test_bind_Value in Hf as (? & ? & Hf%must_Value & _).
  unfold failing_hooks in Hd.
  repeat (apply elem_of_cons in Hd as [->|Hd]); [..|by apply not_elem_of_nil in Hd];
    cbn in Hk, Hc, Hp, Hpair, Hf, Hm; unfold pure in *; discriminate.
Qed.

(** C26: the certificates of the tests are what the server and its gate take
    them for.  On a machine where nothing fails and whose crypto is sound,
    [Gen] succeeds: the files are TLS material a server's listener accepts, of a
    certificate for 127.0.0.1 signed by the minted authority; its client has no
    identity and the gate refuses it by that reason; and [IssueClient] succeeds
    with a client of the same authority that carries the URIs asked for, so
    that one SPIFFE URI is the identity the gate serves, in the role the rules
    give it.  A hook that fails stops [Gen] instead. *)
Theorem minted_clients_pass w auth :
  works →
  (∃ c w1, Gen w = (Value c, w1) ∧
    listenerTLSConfig (net_of w1) (mkTLS (ServerCertFile c) (ServerKeyFile c) (CAFile c)) auth =
      inr (Some (mkTlsConfig true auth)) ∧
    CAPool c = [caCert c] ∧ IsCA (x_Template (caCert c)) = true ∧ x_Key (caCert c) = pub (caKey c) ∧
    issued (caKey c) "otelcol" ClientAuth [] [] (leaf (ClientTLSCert c)) ∧
    (∀ rules dflt, requireSPIFFERole rules dflt (presented (ClientTLSCert c)) =
       (Forbidden, [AuthDenied "no_uri_san"])) ∧
    ∀ name uris w2, ∃ p w3, IssueClient c name uris w2 = (Value p, w3) ∧
      issued (caKey c) name ClientAuth [] uris (leaf p) ∧
      ∀ rules dflt domain p', let id := mkID domain p' in let role := ResolveRole id rules dflt in
        uris = [mkURL "spiffe" domain p'] → domain ≠ "" → p' ≠ "" → role ≠ "" → role ≠ "none" →
        requireSPIFFERole rules dflt (presented p) = (Serve (mkRequestIdentity id role), [AuthAllowed role])) ∧
  ∀ d, d ∈ failing_hooks → ∀ c w', gen d w ≠ (Value c, w').
Proof.
  intros Hw. split; [|by intros d Hd; apply gen_stops].
  destruct (gen_works w Hw) as (c & w1 & Hg & (caDER & F1 & P1) & (der & kd & sp & F2 & F3 & P2 & _) & Hcl &
    Hkey & _ & Hca & _ & Hpool & Hne & Hne').
  exists c, w1. split_and!; try done.
  - unfold listenerTLSConfig. cbn [Config.CertFile Config.KeyFile Config.ClientCAFile].
    rewrite bool_decide_eq_false_2 by done. cbn [net_of LoadX509KeyPair ReadClientCA AppendCertsFromPEM].
    rewrite F2, F3, F1, P2, bool_decide_eq_true_2 by done. cbn [negb].
    rewrite bool_decide_eq_false_2 by done. rewrite bool_decide_eq_true_2 by done.
    cbn [pem_Bytes negb]. by rewrite P1, bool_decide_eq_true_2.
  - intros rules dflt. destruct Hcl as (_ & _ & _ & _ & Hu & _). unfold presented. by rewrite Hu.
  - intros name uris w2.
    destruct (issueCert_works (caCert c) (caKey c) name ClientAuth [] uris w2 Hw)
      as (cder & ckd & cx & ck & w3 & Hi & Hcx & Hckd & Hck & Hci).
    destruct (pair_issued cder ckd cx ck Hcx Hckd Hck) as (p & Hp & <-). exists p, w3. split_and!; [|done|].
    + unfold IssueClient. step Hi. unfold must, pure. cbn. by rewrite Hp.
    + intros rules dflt domain p' id role -> Hd Hp' Hr Hn. destruct Hci as (_ & _ & _ & _ & Hu & _).
      unfold presented. rewrite Hu. unfold requireSPIFFERole, FromCert. cbn [r_TLS Auth.URIs u_Scheme u_Host u_Path].
      rewrite bool_decide_eq_false_2 by (intros H; by apply H). rewrite !(bool_decide_eq_false_2 (_ = "")) by done.
      cbn [orb]. fold id. fold role. rewrite bool_decide_eq_false_2 by done. rewrite bool_decide_eq_false_2 by done.
      reflexivity.
Qed.

End testcert.

End Testcert.

(** ** Package testdb *)

Module Testdb.

Record Instance_ := mkInstance {
  Host : string;
  Port : Z;
  User : string;
  Password : string;
  DBName : string;
  SSLMode : string
}.

Definition DSN (i : Instance_) : string :=
  concat_strings ["postgres://"; User i; ":"; Password i; "@"; Host i; ":"; Itoa (Port i); "/"; DBName i;
                  "?sslmode="; SSLMode i].

(** [strings.Count] of a text that is not empty: occurrences that do not
    overlap; [skip] bytes belong to the last one. *)
Fixpoint count_in (sub : string) (skip : nat) (s : string) : Z :=
  match s with
  | EmptyString => 0
  | String _ s' =>
      match skip with
      | S skip => count_in sub skip s'
      | O => if String.prefix sub s then 1 + count_in sub (String.length sub - 1) s'
             else count_in sub O s'
      end
  end.

Definition Count (s sub : string) : Z := count_in sub O s.

Definition readyMsg : string := "database system is ready to accept connections".

(** What docker answers: whether it is installed, the output of a command or
    its failure, and the log at each poll, with the time the command took; how
    long each sleep lasted. *)
Class Docker := {
  LookPath : bool;
  Command : list string → option string;
  logs : nat → Duration * string;
  slept : nat → Duration
}.

(** The driver and the files: what connecting and executing a script do. *)
Class Driver (D : Type) := {
  pgxpool_New : string → bool;
  Exec : string → D → option D;
  ReadDir : option (list string);
  ReadFile : string → option string
}.

Inductive cleanup := RemoveContainer (name : string) | ClosePool.

(** The containers running, the pools open, the database, and what is
    registered to run at the end, last first. *)
Record env (D : Type) := mkEnv {
  containers : list string;
  pools : nat;
  database : D;
  cleanups : list cleanup
}.
Arguments mkEnv {D}.
Arguments containers {D}.
Arguments pools {D}.
Arguments database {D}.
Arguments cleanups {D}.

#[export] Instance eta_env D : Eta (env D) := λ e,
  mkEnv (containers e) (pools e) (database e) (cleanups e).

Section testdb.
Context `{DK : Docker, GS : GoSort} {D : Type} {DV : Driver D}.

Definition modify (f : env D → env D) : test (env D) unit := λ e, (Value (), f e).
Definition skip {A} : test (env D) A := λ e, (Skipped, e).
Definition fatal {A} : test (env D) A := λ e, (Fatal, e).

(** [time.Sleep(300 * time.Millisecond)] and [30 * time.Second]. *)
Definition poll_sleep : Duration := 300 * 10 ^ 6.
Definition ready_timeout : Duration := 30 * Second.

(** [waitForReady]'s loop from poll [i]: whether it became ready, the polls
    made; [None] without fuel. *)
Fixpoint wait_loop (fuel i : nat) (now deadline : Time) : option (bool * nat) :=
  match fuel with
  | O => None
  | S fuel =>
      if now <? deadline then
        let '(took, out) := logs i in
        if 2 <=? Count out readyMsg then Some (true, S i)
        else wait_loop fuel (S i) (now + took + slept i) deadline
      else Some (false, i)
  end.

(** At most a hundred polls, and the check that ends the loop. *)
Definition wait_fuel : nat := 101.

Definition waitForReady : test (env D) unit :=
  match wait_loop wait_fuel 0 0 ready_timeout with
  | Some (true, _) => mret ()
  | _ => fatal
  end.

Definition runArgs (name user password dbname : string) : list string :=
  ["run"; "-d"; "--name"; name; "-e"; String.app "POSTGRES_USER=" user;
   "-e"; String.app "POSTGRES_PASSWORD=" password; "-e"; String.app "POSTGRES_DB=" dbname;
   "-p"; "127.0.0.1::5432"; "postgres:17.2-alpine"].

Definition startContainer (nano : Z) : test (env D) Instance_ :=
  if negb LookPath then skip else
  let name := String.app "grex-testdb-" (Itoa nano) in
  let user := "grex" in let password := "grex-test-password" in let dbname := "grex" in
  match Command (runArgs name user password dbname) with
  | None => skip
  | Some _ =>
      _ ← modify (λ e, e <| containers := name :: containers e |>
                         <| cleanups := RemoveContainer name :: cleanups e |>);
      match Command ["port"; name; "5432/tcp"] with
      | None => fatal
      | Some portOut =>
          match SplitHostPort (TrimSpace portOut) with
          | None => fatal
          | Some (_, portStr) =>
              match Atoi portStr with
              | None => fatal
              | Some port =>
                  _ ← waitForReady;
                  mret (mkInstance "127.0.0.1" port user password dbname "disable")
              end
          end
      end
  end.

(** The scripts in order, up to the first that fails. *)
Fixpoint apply_files (files : list string) : test (env D) unit :=
  match files with
  | [] => mret ()
  | name :: files =>
      match ReadFile name with
      | None => fatal
      | Some sql => λ e,
          match Exec sql (database e) with
          | None => (Fatal, e)
          | Some d => apply_files files (e <| database := d |>)
          end
      end
  end.

Definition up_files (entries : list string) : list string :=
  slices_Sort (filter (λ name, HasSuffix name ".up.sql" = true) entries).

Definition applyMigrations : test (env D) unit :=
  match ReadDir with
  | None => fatal
  | Some entries => apply_files (up_files entries)
  end.

Definition open_pool (i : Instance_) : test (env D) unit :=
  if pgxpool_New (DSN i) then modify (λ e, e <| pools := S (pools e) |>) else fatal.

Definition close_pool (e : env D) : env D := e <| pools := pred (pools e) |>.

(** [defer pool.Close()]: run when the function ends, however it ends. *)
Definition deferred {A} (f : env D → env D) (m : test (env D) A) : test (env D) A := λ e,
  let '(r, e) := m e in (r, f e).

Definition New (nano : Z) : test (env D) Instance_ :=
  instance ← startContainer nano;
  _ ← open_pool instance;
  deferred close_pool (_ ← applyMigrations; mret instance).

(** [Pool]: the pool is closed when the test ends. *)
Definition Pool (nano : Z) : test (env D) unit :=
  instance ← startContainer nano;
  _ ← open_pool instance;
  _ ← modify (λ e, e <| cleanups := ClosePool :: cleanups e |>);
  applyMigrations.

(** The end of the test. *)
Definition clean (c : cleanup) (e : env D) : env D :=
  match c with
  | RemoveContainer name => e <| containers := filter (λ n, n ≠ name) (containers e) |>
  | ClosePool => close_pool e
  end.

Definition finish (e : env D) : env D :=
  foldl (λ e c, clean c e) (e <| cleanups := [] |>) (cleanups e).

(** *** The wait *)

(** When poll [i] starts. *)
Fixpoint poll_at (i : nat) : Time :=
  match i with O => 0 | S i => poll_at i + (logs i).1 + slept i end.

(** Commands take no negative time and sleeps at least what was asked. *)
Definition time_passes : Prop := ∀ i, 0 ≤ (logs i).1 ∧ poll_sleep ≤ slept i.

(** The server is seen ready by a poll within the time. *)
Definition seen_ready (i : nat) : Prop := poll_at i < ready_timeout ∧ 2 ≤ Count (logs i).2 readyMsg.

Lemma poll_at_ge i : time_passes → Z.of_nat i * poll_sleep ≤ poll_at i.
Proof.
  intros Ht. induction i as [|i IH]; [done|]. cbn [poll_at]. destruct (Ht i).
  unfold Time, Duration in *. lia.
Qed.

Lemma wait_loop_spec fuel i :
  time_passes → (i + fuel = wait_fuel)%nat → (0 < fuel)%nat →
  (∀ j, (j < i)%nat → ¬ seen_ready j) →
  ∃ b n, wait_loop fuel i (poll_at i) ready_timeout = Some (b, n) ∧ (n ≤ 100)%nat ∧
    if b then ∃ j, n = S j ∧ seen_ready j else ∀ j, ¬ seen_ready j.
Proof.
  intros Ht. revert i. induction fuel as [|fuel IH]; intros i Hi Hpos Hno; [lia|]. cbn [wait_loop].
  pose proof (poll_at_ge i Ht) as Hge. unfold wait_fuel in *.
  destruct (Z.ltb_spec (poll_at i) ready_timeout) as [Hlt|Hle].
  - assert (i < 100)%nat as Hi100.
    { unfold poll_sleep, ready_timeout, Second, Time, Duration in *. lia. }
    destruct (logs i) as [took out] eqn:El.
    destruct (Z.leb_spec 2 (Count out readyMsg)) as [Hc|Hc].
    + exists true, (S i). split_and!; [done|lia|]. exists i. split; [done|]. split; [done|]. by rewrite El.
    + destruct (IH (S i)) as (b & n & Hw & Hn); [lia|lia| |].
      * intros j Hj. destruct (decide (j = i)) as [->|Hne]; [|apply Hno; lia].
        intros [_ H]. rewrite El in H. cbn [snd] in H. lia.
      * exists b, n. split; [|done]. rewrite <-Hw. cbn [poll_at]. by rewrite El.
  - exists false, i. split_and!; [done| |].
    + clear Hge Hle. lia.
    + assert (∀ j, (i ≤ j)%nat → poll_at i ≤ poll_at j) as Hmono.
      { intros j. induction 1 as [|j _ IHj]; [done|]. cbn [poll_at]. destruct (Ht j).
        unfold poll_sleep, Time, Duration in *. lia. }
      intros j [Hj Hc]. destruct (decide (j < i)%nat) as [Hji|Hji]; [by apply (Hno j Hji)|].
      specialize (Hmono j ltac:(lia)). unfold Time in *. lia.
Qed.

Lemma waitForReady_spec (e : env D) :
  time_passes →
  (∃ j, (j < 100)%nat ∧ seen_ready j ∧ waitForReady e = (Value (), e)) ∨
  (∀ j, ¬ seen_ready j) ∧ waitForReady e = (Fatal, e).
Proof.
  intros Ht. destruct (wait_loop_spec wait_fuel 0 Ht) as (b & n & Hw & Hn & Hb); [done|unfold wait_fuel; lia| |].
  { intros j Hj. lia. }
  unfold waitForReady. cbn [poll_at] in Hw. rewrite Hw. destruct b.
  - left. destruct Hb as (j & -> & Hj). exists j. by split_and!.
  - by right.
Qed.

(** *** The migrations *)

(** Executing scripts in a row. *)
Fixpoint exec_all (files : list string) (d : D) : option D :=
  match files with
  | [] => Some d
  | name :: files => sql ← ReadFile name; d ← Exec sql d; exec_all files d
  end.

Lemma apply_files_spec files e :
  let w := apply_files files e in
  containers w.2 = containers e ∧ pools w.2 = pools e ∧ cleanups w.2 = cleanups e ∧
  match exec_all files (database e) with
  | Some d => w.1 = Value () ∧ database w.2 = d
  | None => w.1 = Fatal
  end.
Proof.
  revert e. induction files as [|name files IH]; intros e; [done|]. cbn [apply_files exec_all].
  destruct (ReadFile name) as [sql|]; [|done]. cbn [mbind option_bind].
  destruct (Exec sql (database e)) as [d|] eqn:E; [|done].
  exact (IH (e <| database := d |>)).
Qed.

Lemma applyMigrations_spec e :
  let w := applyMigrations e in
  containers w.2 = containers e ∧ pools w.2 = pools e ∧ cleanups w.2 = cleanups e ∧
  match ReadDir ≫= λ entries, exec_all (up_files entries) (database e) with
  | Some d => w.1 = Value () ∧ database w.2 = d
  | None => w.1 = Fatal
  end.
Proof.
  unfold applyMigrations. destruct ReadDir as [entries|]; [|done]. apply apply_files_spec.
Qed.

(** *** A database for a test *)

Definition fresh (d : D) : env D := mkEnv [] 0 d [].

Definition container (nano : Z) : string := String.app "grex-testdb-" (Itoa nano).

Definition instance_at (port : Z) : Instance_ :=
  mkInstance "127.0.0.1" port "grex" "grex-test-password" "grex" "disable".

Definition run_grex (nano : Z) : list string := runArgs (container nano) "grex" "grex-test-password" "grex".

(** The container is up: docker ran it, told a port and was seen ready. *)
Definition container_up (nano : Z) (port : Z) : Prop :=
  LookPath = true ∧ is_Some (Command (run_grex nano)) ∧
  (∃ out host p, Command ["port"; container nano; "5432/tcp"] = Some out ∧
     SplitHostPort (TrimSpace out) = Some (host, p) ∧ Atoi p = Some port) ∧
  ∃ j, (j < 100)%nat ∧ seen_ready j.

Definition started (nano : Z) (e : env D) : env D :=
  e <| containers := container nano :: containers e |>
    <| cleanups := RemoveContainer (container nano) :: cleanups e |>.

Lemma startContainer_spec nano e :
  time_passes →
  let w := startContainer nano e in
  (∃ port, container_up nano port ∧ w = (Value (instance_at port), started nano e)) ∨
  (∀ port, ¬ container_up nano port) ∧ (w = (Skipped, e) ∨ w = (Fatal, started nano e)).
Proof.
  intros Ht. cbv zeta. unfold startContainer, container_up. fold (container nano). cbv zeta.
  fold (run_grex nano). destruct LookPath; [|right; split; [naive_solver|by left]]. cbn [negb].
  destruct (Command (run_grex nano)) as [out|]; [|right; split; [intros ? (_ & [? ?] & _); done|by left]].
  unfold mbind at 1, test_bind at 1, modify. fold (started nano e).
  destruct (Command ["port"; container nano; "5432/tcp"]) as [portOut|] eqn:Hp;
    [|right; split; [naive_solver|by right]].
  destruct (SplitHostPort (TrimSpace portOut)) as [[host p]|] eqn:Hs;
    [|right; split; [intros ? (_ & _ & (o & h & q & [= <-] & Hs' & _) & _); congruence|by right]].
  destruct (Atoi p) as [port|] eqn:Ha;
    [|right; split; [intros ? (_ & _ & (o & h & q & [= <-] & Hs' & Ha') & _); congruence|by right]].
  destruct (waitForReady_spec (started nano e) Ht) as [(j & Hj & Hr & Hw)|[Hno Hw]].
  - left. exists port. split; [split_and!; [done|by eexists|by exists portOut, host, p|by exists j]|].
    etrans; [apply (test_bind_step _ _ _ _ _ Hw)|]. reflexivity.
  - right. split; [intros q (_ & _ & _ & j & _ & Hr); by apply (Hno j)|]. right.
    exact (test_bind_Fatal _ _ _ _ Hw).
Qed.

Lemma container_up_port nano p q : container_up nano p → container_up nano q → p = q.
Proof.
  intros (_ & _ & (o & h & x & H1 & H2 & H3) & _) (_ & _ & (o' & h' & x' & H1' & H2' & H3') & _).
  congruence.
Qed.

(** What is left when a test ends. *)
Definition nothing_left (e : env D) : Prop := containers (finish e) = [] ∧ pools (finish e) = 0%nat.

Lemma started_left nano d : nothing_left (started nano (fresh d)).
Proof. split; [|done]. cbn. by rewrite decide_False by (intros H; by apply H). Qed.
(** Once the container is up. *)
Definition both (nano port : Z) (d : D) : (outcome Instance_ * env D) * (outcome unit * env D) :=
  ((_ ← open_pool (instance_at port);
    deferred close_pool (_ ← applyMigrations; mret (instance_at port))) (started nano (fresh d)),
   (_ ← open_pool (instance_at port);
    _ ← modify (λ e, e <| cleanups := ClosePool :: cleanups e |>); applyMigrations) (started nano (fresh d))).

Lemma not_left e nano :
  containers e = [container nano] → cleanups e = [RemoveContainer (container nano)] → pools e = 0%nat →
  nothing_left e.
Proof.
  destruct e as [cs ps d l]. cbn. intros -> -> ->. split; [|done]. cbn.
  by rewrite decide_False by (intros H; by apply H).
Qed.

Lemma pool_left e nano :
  containers e = [container nano] → cleanups e = [ClosePool; RemoveContainer (container nano)] →
  pools e = 1%nat → nothing_left e.
Proof.
  destruct e as [cs ps d l]. cbn. intros -> -> ->. split; [|done]. cbn.
  by rewrite decide_False by (intros H; by apply H).
Qed.

Lemma deferred_migrations {A} (i : A) (e : env D) :
  deferred close_pool (_ ← applyMigrations; mret i) e =
  (match (applyMigrations e).1 with Value _ => Value i | Fatal => Fatal | Skipped => Skipped end,
   close_pool (applyMigrations e).2).
Proof.
  unfold deferred, mbind, test_bind. by destruct (applyMigrations e) as [[[]| |] e1].
Qed.

Lemma migrated nano port d :
  let w := (both nano port d).1 in let v := (both nano port d).2 in
  ((∀ i d', w.1 = Value i ∧ database w.2 = d' ↔
     ∃ entries, i = instance_at port ∧ pgxpool_New (DSN i) = true ∧ ReadDir = Some entries ∧
       exec_all (up_files entries) d = Some d') ∧ nothing_left w.2 ∧ w.1 ≠ Skipped) ∧
  nothing_left v.2 ∧ v.1 ≠ Skipped.
Proof.
  cbv zeta. unfold both. cbn [fst snd]. unfold open_pool. pose proof (started_left nano d) as Hl.
  destruct (pgxpool_New (DSN (instance_at port))) eqn:Hpool.
  2: { split_and!; try done. intros i d'. split; [by intros [? _]|].
       intros (entries & -> & H & _). by rewrite Hpool in H. }
  set (e := started nano (fresh d) <| pools := 1%nat |>).
  rewrite !(test_bind_step (modify _) _ (started nano (fresh d)) () e) by reflexivity.
  set (e' := e <| cleanups := ClosePool :: cleanups e |>).
  rewrite (test_bind_step (modify _) _ e () e') by reflexivity.
  pose proof (applyMigrations_spec e) as (Hc & Hp & Hcl & Hm).
  pose proof (applyMigrations_spec e') as (Hc' & Hp' & Hcl' & Hm').
  rewrite deferred_migrations.
  destruct (applyMigrations e) as [r e1], (applyMigrations e') as [r' e1']. cbn [fst snd] in *.
  change (database e') with d in Hm'. change (database e) with d in Hm.
  destruct (ReadDir ≫= _) as [d1|] eqn:Hx.
  - destruct Hm as [-> Hd1], Hm' as [-> Hd1']. cbn [mret test_ret fst snd].
    split_and!; try done.
    + intros i d'. split.
      * intros [[= <-] Hd]. apply bind_Some in Hx as (entries & Hr & Hx). exists entries.
        split_and!; try done. change (database (close_pool e1)) with (database e1) in Hd. congruence.
      * intros (entries & -> & _ & Hr & Hx'). rewrite Hr in Hx. cbn in Hx. split; [done|].
        change (database (close_pool e1)) with (database e1). congruence.
    + by apply (not_left _ nano); cbn; rewrite ?Hc, ?Hcl, ?Hp.
    + by apply (pool_left _ nano); cbn; rewrite ?Hc', ?Hcl', ?Hp'.
  - cbn [fst snd]. rewrite Hm, Hm'. split_and!; try done.
    + intros i d'. split; [by intros [? _]|].
      intros (entries & _ & _ & Hr & Hx'). rewrite Hr in Hx. cbn in Hx. by rewrite Hx' in Hx.
    + by apply (not_left _ nano); cbn; rewrite ?Hc, ?Hcl, ?Hp.
    + by apply (pool_left _ nano); cbn; rewrite ?Hc', ?Hcl', ?Hp'.
Qed.

(** A test's database is ready, migrated, and gone afterwards.  [New] gives
    one exactly when docker ran the container and told its port, one of at most
    a hundred polls within the thirty seconds saw the server ready for the
    second time, and the driver connected and executed the scripts: every
    directory entry named .up.sql and no other, once each, in the order of their
    names.  However it ends, and however [Pool] ends, the pool is closed and
    the container removed once the test is over; and a test is skipped only
    before there is a container. *)
Theorem testdb_correct nano d :
  time_passes →
  let w := New nano (fresh d) in let v := Pool nano (fresh d) in
  (∀ i d', w.1 = Value i ∧ database w.2 = d' ↔
     ∃ port entries, i = instance_at port ∧ container_up nano port ∧ pgxpool_New (DSN i) = true ∧
       ReadDir = Some entries ∧ exec_all (up_files entries) d = Some d') ∧
  (∀ entries, up_files entries ≡ₚ filter (λ name, HasSuffix name ".up.sql" = true) entries ∧
     StronglySorted (cmp_le string_Compare) (up_files entries)) ∧
  nothing_left w.2 ∧ nothing_left v.2 ∧
  (w.1 = Skipped → w.2 = fresh d) ∧ (v.1 = Skipped → v.2 = fresh d).
Proof.
  intros Ht w v.
  assert (∀ entries, up_files entries ≡ₚ filter (λ name, HasSuffix name ".up.sql" = true) entries ∧
     StronglySorted (cmp_le string_Compare) (up_files entries)) as Hsort.
  { intros entries. split; [apply SortFunc_perm|]. apply SortFunc_sorted, string_Compare_order. }
  destruct (startContainer_spec nano (fresh d) Ht) as [(port & Hup & Hs)|[Hno Hs]].
  2: { assert ((w.1 = Skipped ∧ w.2 = fresh d ∧ v.1 = Skipped ∧ v.2 = fresh d) ∨
        w.1 = Fatal ∧ w.2 = started nano (fresh d) ∧ v.1 = Fatal ∧ v.2 = started nano (fresh d)) as Hwv.
       { subst w v. unfold New, Pool. destruct Hs as [Hs|Hs]; [left|right].
         - rewrite (test_bind_Skipped _ _ _ _ Hs). rewrite (test_bind_Skipped _ _ _ _ Hs). by split_and!.
         - rewrite (test_bind_Fatal _ _ _ _ Hs). rewrite (test_bind_Fatal _ _ _ _ Hs). by split_and!. }
       pose proof (started_left nano d) as Hl.
       assert (nothing_left (fresh d)) as Hf by by split.
       split_and!; try done; destruct Hwv as [(E1 & E2 & E3 & E4)|(E1 & E2 & E3 & E4)];
         rewrite ?E1, ?E2, ?E3, ?E4; try done;
         (split; [by intros [? _]|by intros (port & entries & -> & Hup & _); destruct (Hno port)]). }
  pose proof (container_up_port nano) as Hport.
  destruct (migrated nano port d) as (Hn & Hp). fold (fresh d) in *.
  assert (w = fst (both nano port d)) as Hw
    by (unfold w, New; rewrite (test_bind_step _ _ _ _ _ Hs); reflexivity).
  assert (v = snd (both nano port d)) as Hv
    by (unfold v, Pool; rewrite (test_bind_step _ _ _ _ _ Hs); reflexivity).
  clearbody w v. subst w v.
  destruct Hn as (Hn1 & Hn2 & Hn3), Hp as (Hp2 & Hp3).
  split_and!; try done. intros i d'. rewrite Hn1. split.
  - intros (entries & -> & H). by exists port, entries.
  - intros (port' & entries & -> & Hup' & H). rewrite (Hport _ _ Hup Hup'). by exists entries.
Qed.

End testdb.

End Testdb.

(** ** Witnesses *)

(** A machine where keys are numbers, a certificate is what was signed, and
    files are a map. *)
Module Machine.
Import Testcert.

Definition cert : Type := Template * nat * nat.
Definition bytes : Type := cert + nat.
Definition world : Type := nat * gmap string (pem bytes).

Definition std : ops := @mkOps world nat bytes cert cert
  (λ w, (Some w.1, (S w.1, w.2)))
  (λ f b w, (Some tt, (w.1, <[f := b]> w.2)))
  (λ t _ k ck w, (Some (inl (t, k, ck)), w))
  (λ b, match b with inl x => Some x | inr _ => None end)
  (λ k, Some (inr k))
  (λ c k, match pem_Bytes c, pem_Bytes k with
          | inl x, inr n => if bool_decide (x.1.2 = n) then Some x else None | _, _ => None end).

Definition clock (w : world) : Time * world := (1700000000 * Second, w).

#[export] Instance crypto : Crypto std nat.
Proof.
  refine {| x_Template (x : cert) := x.1.1; x_Key x := x.1.2; x_Signer x := x.2; pub k := k; leaf p := p;
            file w f := w.2 !! f |}; cbn.
  - intros t _ k ck w der w' [= <- <-]. by exists (t, k, ck).
  - intros [x|n] [y|m] p; try done. cbn. by case_bool_decide; intros [= <-].
  - intros [y|m] kd x k [= <-] [= <-] <-. cbn. rewrite bool_decide_eq_true_2 by done. by eexists.
  - intros f b w w' [= <-]. cbn. split; [apply lookup_insert_eq|]. intros g Hg. by apply lookup_insert_ne.
Defined.

Lemma machine_works : works std.
Proof. split; cbn; eauto. Qed.

End Machine.
Import Machine.

Example minted_clients_pass_witness :
  ∃ c w1 p w3, Testcert.Gen Machine.std Machine.clock "/tmp/t" (1%nat, ∅) = (Value c, w1) ∧
    Testcert.IssueClient Machine.std Machine.clock c "viewer" [mkURL "spiffe" "grex.test" "/viewer"] w1 = (Value p, w3) ∧
    requireSPIFFERole [mkRoleRule "prefix" "spiffe://grex.test/" "viewer"] "" (Testcert.presented Machine.std p) =
      (Serve (mkRequestIdentity (mkID "grex.test" "/viewer") "viewer"), [AuthAllowed "viewer"]).
Proof.
  destruct (Testcert.minted_clients_pass Machine.std Machine.clock "/tmp/t" (1%nat, ∅) VerifyClientCertIfGiven
    Machine.machine_works) as [(c & w1 & Hg & _ & _ & _ & _ & _ & _ & Hi) _].
  destruct (Hi "viewer" [mkURL "spiffe" "grex.test" "/viewer"] w1) as (p & w3 & Hp & _ & Hr).
  exists c, w1, p, w3. split_and!; [exact Hg|exact Hp|].
  refine (Hr [mkRoleRule "prefix" "spiffe://grex.test/" "viewer"] "" "grex.test" "/viewer" eq_refl _ _ _ _);
    vm_compute; discriminate.
Defined.

(** Docker tells a port at once and is ready at the fourth poll; the scripts
    executed are the database. *)
Module Laptop.
Import Testdb.

#[export] Instance docker1 : Docker := {|
  LookPath := true;
  Command args := match args with "port" :: _ => Some "127.0.0.1:49153" | _ => Some "id" end;
  logs i := (10 ^ 7, if (i <? 3)%nat then readyMsg else concat_strings [readyMsg; " "; readyMsg]);
  slept _ := poll_sleep
|}.

#[export] Instance driver1 : Driver (list string) := {|
  pgxpool_New _ := true;
  Exec sql d := Some (d ++ [sql]);
  ReadDir := Some ["000001_init.down.sql"; "000001_init.up.sql"; "000003_permissions.up.sql"; "000002_agent_state.up.sql"];
  ReadFile name := Some name
|}.

Lemma laptop_time : time_passes.
Proof. intros i. by vm_compute. Qed.

End Laptop.
Import Laptop.

Example testdb_correct_witness :
  let w := Testdb.New (GS := merge_GoSort) 7 (Testdb.fresh []) in
  w.1 = Value (Testdb.instance_at 49153) ∧
  Testdb.database w.2 = ["000001_init.up.sql"; "000002_agent_state.up.sql"; "000003_permissions.up.sql"] ∧
  Testdb.nothing_left w.2.
Proof.
  intros w.
  destruct (Testdb.testdb_correct (GS := merge_GoSort) 7 ([] : list string) Laptop.laptop_time)
    as (Hn & _ & Hl & _).
  fold w in Hn, Hl. assert (w.1 = Value (Testdb.instance_at 49153) ∧
    Testdb.database w.2 = ["000001_init.up.sql"; "000002_agent_state.up.sql"; "000003_permissions.up.sql"]) as [H1 H2].
  { apply Hn. exists 49153, ["000001_init.down.sql"; "000001_init.up.sql"; "000003_permissions.up.sql";
      "000002_agent_state.up.sql"].
    split; [done|]. split; [|split_and!; vm_compute; reflexivity]. unfold Testdb.container_up.
    split; [done|]. split; [by eexists|]. split.
    - exists "127.0.0.1:49153", "127.0.0.1", "49153". split_and!; vm_compute; reflexivity.
    - exists 3%nat. split; [lia|]. split; vm_compute; [reflexivity|discriminate]. }
  split_and!; [exact H1|exact H2|exact Hl].
Defined.
