(* ===== verification/Html.v ===== *)
(** * html/template, and what a browser reads

    The part of Go's html/template the pages use: templates of literal markup
    with values, conditions, ranges and calls ([tmpl]); the escapers of text,
    quoted attributes and URL attributes; and the contextual analysis that
    chooses them, as an abstract interpretation of the markup by the tokenizer
    that will read it ([check]).  [run] is that tokenizer, on the subset of
    HTML the pages are written in: tags with double-quoted attributes, closing
    tags, declarations and text, the text of a script kept apart; the scripts
    hold no less-than sign, and a title is read as any text.  [check_sound]:
    whatever the values are, the tags a reader finds are tags the analysis
    found; [check_value_free]: and they are those of the page without values. *)

From Stdlib Require Import Ascii ZArith Lia.
From S2P Require Import Prelude GoLang GoParse GoUrl.
Local Open Scope Z_scope.

Definition dquote_char : ascii := ascii_of_N 34.

(** ** Escapers *)

Fixpoint string_flat_map (f : ascii → string) (s : string) : string :=
  match s with EmptyString => "" | String c s => String.app (f c) (string_flat_map f s) end.

(** The replacement table; a NUL becomes U+FFFD. *)
Definition html_char (c : ascii) : string :=
  match N_of_ascii c with
  | 0%N => String (ascii_of_N 239) (String (ascii_of_N 191) (String (ascii_of_N 189) ""))
  | 34%N => "&#34;"
  | 38%N => "&amp;"
  | 39%N => "&#39;"
  | 43%N => "&#43;"
  | 60%N => "&lt;"
  | 62%N => "&gt;"
  | _ => String c ""
  end.

Definition htmlEscape : string → string := string_flat_map html_char.

Definition is_hex (c : ascii) : bool := byte_in 48 57 c || byte_in 65 70 c || byte_in 97 102 c.

(** Reserved and unreserved characters a normalized URL keeps. *)
Definition url_plain (c : ascii) : bool :=
  byte_in 48 57 c || byte_in 65 90 c || byte_in 97 122 c ||
  bool_decide (N_of_ascii c ∈ [33; 35; 36; 38; 42; 43; 44; 47; 58; 59; 61; 63; 64; 91; 93; 45; 46; 95; 126]%N).

Definition hex_lower (n : N) : ascii := if (n <? 10)%N then ascii_of_N (48 + n) else ascii_of_N (87 + n).

(** "%%%02x" *)
Definition percent (c : ascii) : string :=
  String "%" (String (hex_lower (N_of_ascii c / 16)) (String (hex_lower (N_of_ascii c mod 16)) "")).

Fixpoint urlNormalize (s : string) : string :=
  match s with
  | EmptyString => ""
  | String c s' =>
      let keep := url_plain c || bool_decide (c = "%"%char) &&
        match s' with String a (String b _) => is_hex a && is_hex b | _ => false end in
      String.app (if keep then String c "" else percent c) (urlNormalize s')
  end.

(** [isSafeURL]: no scheme, or one of three in any case. *)
Definition isSafeURL (s : string) : bool :=
  match index_byte ":" s with
  | None => true
  | Some i =>
      let protocol := string_to i s in
      bool_decide (is_Some (index_byte "/" protocol)) ||
      EqualFold protocol "http" || EqualFold protocol "https" || EqualFold protocol "mailto"
  end.

(** [urlFilter]. *)
Definition urlFilter (s : string) : string := if isSafeURL s then s else "#ZgotmplZ".

(** The contexts of the values: text, a quoted attribute, a URL from its start,
    a URL's path after literal text.  The escapers do not tell [UrlQuery] from
    [UrlPath]; the analysis does, for a value that is a query. *)
Inductive context := InText | InAttr | UrlStart | UrlPath | UrlQuery.

Definition escape (c : context) (s : string) : string :=
  match c with
  | InText | InAttr => htmlEscape s
  | UrlStart => htmlEscape (urlNormalize (urlFilter s))
  | UrlPath | UrlQuery => htmlEscape (urlNormalize s)
  end.

(** ** Reading *)

(** The character references of the pages, as a reader decodes them. *)
Definition references : list (string * string) :=
  [("&amp;", "&"); ("&lt;", "<"); ("&gt;", ">"); ("&#34;", String dquote_char ""); ("&#39;", "'");
   ("&#43;", "+"); ("&#10;", String (ascii_of_N 10) "")].

Fixpoint starts (p s : string) : bool :=
  match p, s with
  | EmptyString, _ => true
  | String c p, String d s => bool_decide (c = d) && starts p s
  | _, EmptyString => false
  end.

Definition reference_at (s : string) : option (string * string) :=
  List.find (λ r, starts r.1 s) references.

(** [skip] bytes belong to the last reference. *)
Fixpoint unescape_from (skip : nat) (s : string) : string :=
  match s with
  | EmptyString => ""
  | String c s' =>
      match skip with
      | S skip => unescape_from skip s'
      | O => match reference_at s with
             | Some (r, text) => String.app text (unescape_from (String.length r - 1) s')
             | None => String c (unescape_from O s')
             end
      end
  end.

Definition unescape : string → string := unescape_from O.

Definition is_letter (c : ascii) : bool := byte_in 65 90 c || byte_in 97 122 c.

(** A link to the page's own site: a path from its root, with a query or not. *)
Definition site (link : string) : bool :=
  match link with
  | String "/" EmptyString => true
  | String "/" (String c _) => is_letter c || bool_decide (c = "?"%char)
  | _ => false
  end.

(** An attribute's value: its bytes, or what the analysis keeps of one whose
    bytes it does not know - that it is such a link, or nothing. *)
Inductive buf := Exact (s : string) | Site | Any.

#[export] Instance buf_eq_dec : EqDecision buf.
Proof. solve_decision. Defined.

(** A byte of text, or of an element whose text is not markup. *)
Inductive token :=
  | Char (c : ascii)
  | Raw (c : ascii)
  | Open (tag : string) (attrs : list (string * buf))
  | Close (tag : string).

#[export] Instance token_eq_dec : EqDecision token.
Proof. solve_decision. Defined.

Inductive mode :=
  | Text | TagOpen | TagName | BeforeAttr | AttrName | AfterName | BeforeValue | Value | AfterValue
  | SelfClose | EndTag | Bang | Broken.

#[export] Instance mode_eq_dec : EqDecision mode.
Proof. solve_decision. Defined.

(** The tag being read, or the last one; its attributes so far, the name and
    the value of the one being read. *)
Record state := mkState {
  s_mode : mode;
  s_tag : string;
  s_attrs : list (string * buf);
  s_name : string;
  s_value : buf
}.

#[export] Instance state_eq_dec : EqDecision state.
Proof. solve_decision. Defined.

#[export] Instance eta_state : Eta state := λ s,
  mkState (s_mode s) (s_tag s) (s_attrs s) (s_name s) (s_value s).

Definition text_after (tag : string) : state := mkState Text tag [] "" (Exact "").

Definition snoc (s : string) (c : ascii) : string := String.app s (String c "").

Definition buf_snoc (b : buf) (c : ascii) : buf :=
  match b with Exact s => Exact (snoc s c) | _ => Any end.

Definition is_space (c : ascii) : bool := bool_decide (N_of_ascii c ∈ [32; 9; 10; 12; 13]%N).
(** Elements whose text is a program's. *)
Definition raw_element (tag : string) : bool := bool_decide (tag ∈ ["script"; "style"]).

Definition put (s : state) (c : ascii) : token := if raw_element (s_tag s) then Raw c else Char c.

Definition opened (s : state) : state * list token := (text_after (s_tag s), [Open (s_tag s) (s_attrs s)]).

Definition with_attr (s : state) : state := s <| s_attrs := s_attrs s ++ [(s_name s, s_value s)] |>.

Definition in_mode (m : mode) (s : state) : state * list token := (s <| s_mode := m |>, []).

Definition new_name (c : ascii) (s : state) : state * list token :=
  (s <| s_mode := AttrName |> <| s_name := String (ascii_lower c) "" |> <| s_value := Exact "" |>, []).

Definition step (s : state) (c : ascii) : state * list token :=
  match s_mode s with
  | Text => if bool_decide (c = "<"%char) then in_mode TagOpen s else (s, [put s c])
  | TagOpen =>
      if bool_decide (c = "/"%char) then in_mode EndTag (s <| s_tag := "" |>)
      else if bool_decide (c = "!"%char) then in_mode Bang s
      else if is_letter c then in_mode TagName (s <| s_tag := String (ascii_lower c) "" |>)
      else (s <| s_mode := Text |>, [put s "<"; put s c])
  | TagName =>
      if is_space c then in_mode BeforeAttr s
      else if bool_decide (c = "/"%char) then in_mode SelfClose s
      else if bool_decide (c = ">"%char) then opened s
      else (s <| s_tag := snoc (s_tag s) (ascii_lower c) |>, [])
  | BeforeAttr =>
      if is_space c then (s, [])
      else if bool_decide (c = "/"%char) then in_mode SelfClose s
      else if bool_decide (c = ">"%char) then opened s
      else new_name c s
  | AttrName =>
      if is_space c then in_mode AfterName s
      else if bool_decide (c = "/"%char) then in_mode SelfClose (with_attr s)
      else if bool_decide (c = ">"%char) then opened (with_attr s)
      else if bool_decide (c = "="%char) then in_mode BeforeValue s
      else (s <| s_name := snoc (s_name s) (ascii_lower c) |>, [])
  | AfterName =>
      if is_space c then (s, [])
      else if bool_decide (c = "/"%char) then in_mode SelfClose (with_attr s)
      else if bool_decide (c = ">"%char) then opened (with_attr s)
      else if bool_decide (c = "="%char) then in_mode BeforeValue s
      else new_name c (with_attr s)
  | BeforeValue =>
      if is_space c then (s, [])
      else if bool_decide (c = dquote_char) then (s <| s_mode := Value |> <| s_value := Exact "" |>, [])
      else in_mode Broken s
  | Value =>
      if bool_decide (c = dquote_char) then in_mode AfterValue (with_attr s)
      else (s <| s_value := buf_snoc (s_value s) c |>, [])
  | AfterValue =>
      if is_space c then in_mode BeforeAttr s
      else if bool_decide (c = "/"%char) then in_mode SelfClose s
      else if bool_decide (c = ">"%char) then opened s
      else in_mode Broken s
  | SelfClose => if bool_decide (c = ">"%char) then opened s else in_mode Broken s
  | EndTag =>
      if bool_decide (c = ">"%char) then (text_after "", [Close (s_tag s)])
      else if is_letter c || byte_in 48 57 c then (s <| s_tag := snoc (s_tag s) (ascii_lower c) |>, [])
      else in_mode Broken s
  | Bang => if bool_decide (c = ">"%char) then (text_after "", []) else (s, [])
  | Broken => (s, [])
  end.

Fixpoint run (s : state) (str : string) : state * list token :=
  match str with
  | EmptyString => (s, [])
  | String c str => let '(s, t) := step s c in let '(s, t') := run s str in (s, t ++ t')
  end.

Definition start : state := text_after "".

(** What a reader finds in a page. *)
Definition tokens (page : string) : list token := (run start page).2.

(** ** Templates *)

(** Over data of type [D]: markup, a value in its context, one template after
    another, a condition, a range, {{with}}, and a template called on data
    ({{template}} and variables). *)
Inductive tmpl : Type → Type :=
  | Lit {D} (markup : string) : tmpl D
  | Val {D} (c : context) (value : D → string) : tmpl D
  | Cat {D} (t u : tmpl D) : tmpl D
  | If {D} (b : D → bool) (t u : tmpl D) : tmpl D
  | Range {D E} (l : D → list E) (t : tmpl E) : tmpl D
  | With {D E} (f : D → option E) (t : tmpl E) : tmpl D
  | Call {D E} (f : D → E) (t : tmpl E) : tmpl D.

Definition join (l : list string) : string := foldr String.app "" l.

Fixpoint exec {D} (t : tmpl D) : D → string :=
  match t with
  | Lit markup => λ _, markup
  | Val c value => λ d, escape c (value d)
  | Cat t u => λ d, String.app (exec t d) (exec u d)
  | If b t u => λ d, if b d then exec t d else exec u d
  | Range l t => λ d, join (exec t <$> l d)
  | With f t => λ d, match f d with Some e => exec t e | None => "" end
  | Call f t => λ d, exec t (f d)
  end.

(** ** The contextual analysis *)

(** [attrType] on the names the pages give values to: a URL, plain text, or
    nothing the pages use. *)
Definition url_attr (name : string) : bool := bool_decide (name ∈ ["href"; "src"]).
Definition plain_attr (name : string) : bool :=
  bool_decide (name ∈ ["class"; "title"; "aria-sort"; "hx-get"; "hx-trigger"; "data-matches";
                       "data-attr-key"; "data-attr-value"]).

(** A literal path the values after it stay below. *)
Definition path_prefix (p : string) : bool :=
  site p && (2 <=? String.length p)%nat && negb (Contains p "?") && negb (Contains p "#").

(** Where a value may stand, and the state after it, its bytes unknown. *)
Definition accepts (c : context) (a : state) : option state :=
  match c with
  | InText => if bool_decide (s_mode a = Text) && negb (raw_element (s_tag a)) then Some a else None
  | InAttr =>
      if bool_decide (s_mode a = Value) && plain_attr (s_name a) then
        Some (a <| s_value := match s_value a with Exact p => if path_prefix p then Site else Any | _ => Any end |>)
      else None
  | UrlStart =>
      if bool_decide (s_mode a = Value) && url_attr (s_name a) && bool_decide (s_value a = Exact "")
      then Some (a <| s_value := Site |>) else None
  | UrlPath =>
      if bool_decide (s_mode a = Value) && url_attr (s_name a) &&
         match s_value a with Exact p => path_prefix p | _ => false end
      then Some (a <| s_value := Site |>) else None
  | UrlQuery =>
      if bool_decide (s_mode a = Value) && url_attr (s_name a) && bool_decide (s_value a = Exact "/")
      then Some (a <| s_value := Site |>) else None
  end.

Definition is_tag (t : token) : Prop := match t with Char _ => False | _ => True end.

#[export] Instance is_tag_dec t : Decision (is_tag t).
Proof. destruct t; apply _. Defined.

(** The states reached from those of [S], and the tags read on the way; [None]
    where a value stands in no context of its own. *)
Definition check_lit (markup : string) (S : list state) : list state * list token :=
  let rs := (λ a, run a markup) <$> S in
  (remove_dups (fst <$> rs), remove_dups (filter is_tag (rs ≫= snd))).

Definition either (S S' : list state) : list state := S ++ filter (λ a, a ∉ S) S'.

Fixpoint check {D} (t : tmpl D) : list state → option (list state * list token) :=
  match t with
  | Lit markup => λ S, Some (check_lit markup S)
  | Val c _ => λ S, S' ← mapM (accepts c) S; Some (remove_dups S', [])
  | Cat t u => λ S, '(S1, T1) ← check t S; '(S2, T2) ← check u S1; Some (S2, T1 ++ T2)
  | If _ t u => λ S, '(S1, T1) ← check t S; '(S2, T2) ← check u S; Some (either S1 S2, T1 ++ T2)
  | Range _ t => λ S,
      '(S1, _) ← check t S;
      let S' := either S S1 in
      '(S2, T2) ← check t S';
      if bool_decide (S2 ⊆ S') then Some (S', T2) else None
  | With _ t => λ S, '(S1, T1) ← check t S; Some (either S S1, T1)
  | Call _ t => check t
  end.

(** What the analysis asks of a value: one that starts a URL is a path from
    the root of the site, one that is a query is empty or starts as one. *)
Definition value_ok (c : context) (v : string) : bool :=
  match c with
  | UrlStart => bool_decide (v = "/") || starts "/?" v
  | UrlQuery => bool_decide (v = "") || starts "?" v
  | _ => true
  end.

Fixpoint values_ok {D} (t : tmpl D) : Prop :=
  match t with
  | Lit _ => True
  | Val c value => ∀ d, value_ok c (value d) = true
  | Cat t u | If _ t u => values_ok t ∧ values_ok u
  | Range _ t | With _ t | Call _ t => values_ok t
  end.

(** ** What a state stands for *)

Definition buf_le (b b' : buf) : Prop :=
  match b' with
  | Any => True
  | Site => b = Site ∨ ∃ s, b = Exact s ∧ site s = true
  | Exact s => b = Exact s
  end.

Definition attr_le (x y : string * buf) : Prop := x.1 = y.1 ∧ buf_le x.2 y.2.

Record state_le (s a : state) : Prop := {
  le_mode : s_mode s = s_mode a;
  le_tag : s_tag s = s_tag a;
  le_attrs : Forall2 attr_le (s_attrs s) (s_attrs a);
  le_name : s_name s = s_name a;
  le_value : buf_le (s_value s) (s_value a)
}.

Inductive token_le : token → token → Prop :=
  | char_le c : token_le (Char c) (Char c)
  | raw_le c : token_le (Raw c) (Raw c)
  | open_le tag l l' : Forall2 attr_le l l' → token_le (Open tag l) (Open tag l')
  | close_le tag : token_le (Close tag) (Close tag).

#[export] Instance buf_le_refl : Reflexive buf_le.
Proof. intros []; simpl; auto. Qed.

Lemma buf_snoc_le b b' c : buf_le b b' → buf_le (buf_snoc b c) (buf_snoc b' c).
Proof. destruct b' as [s| |]; simpl; [by intros ->|done..]. Qed.

#[export] Instance attr_le_refl : Reflexive attr_le.
Proof. by split. Qed.

#[export] Instance state_le_refl : Reflexive state_le.
Proof. by split. Qed.

Lemma with_attr_le s a : state_le s a → state_le (with_attr s) (with_attr a).
Proof.
  intros [H1 H2 H3 H4 H5]. split; try done. cbn. apply Forall2_app; [done|]. by constructor.
Qed.

Lemma opened_le s a :
  state_le s a → state_le (opened s).1 (opened a).1 ∧ Forall2 token_le (opened s).2 (opened a).2.
Proof.
  intros [H1 H2 H3 H4 H5]. unfold opened. cbn. rewrite H2. split; [done|].
  constructor; [by constructor|constructor].
Qed.

Lemma in_mode_le m s a :
  state_le s a → state_le (in_mode m s).1 (in_mode m a).1 ∧ Forall2 token_le (in_mode m s).2 (in_mode m a).2.
Proof. intros [H1 H2 H3 H4 H5]. split; [by split|constructor]. Qed.

Lemma new_name_le c s a :
  state_le s a → state_le (new_name c s).1 (new_name c a).1 ∧ Forall2 token_le (new_name c s).2 (new_name c a).2.
Proof. intros [H1 H2 H3 H4 H5]. split; [by split|constructor]. Qed.

#[export] Instance token_le_refl : Reflexive token_le.
Proof. intros []; constructor. reflexivity. Qed.

Lemma put_le s a c : state_le s a → token_le (put s c) (put a c).
Proof. intros [_ H _ _ _]. unfold put. by rewrite H. Qed.

Lemma step_le s a c :
  state_le s a → state_le (step s c).1 (step a c).1 ∧ Forall2 token_le (step s c).2 (step a c).2.
Proof.
  intros Hle. pose proof Hle as [H1 H2 H3 H4 H5]. unfold step. rewrite H1.
  destruct (s_mode a) eqn:E; repeat case_match;
    first [by apply in_mode_le|by apply opened_le|by apply new_name_le
          |by apply opened_le, with_attr_le|by apply in_mode_le, with_attr_le|by apply new_name_le, with_attr_le
          |split; [by split|repeat constructor; by apply put_le]|idtac].
  all: cbn; rewrite ?H2, ?H4; try (split; [split|repeat constructor]; cbn; rewrite ?H2, ?H4; try done).
  all: first [congruence|by constructor|by apply buf_snoc_le|by apply put_le].
Qed.

Lemma run_le str s a :
  state_le s a → state_le (run s str).1 (run a str).1 ∧ Forall2 token_le (run s str).2 (run a str).2.
Proof.
  revert s a. induction str as [|c str IH]; intros s a Hle; cbn [run]; [by split; [|constructor]|].
  pose proof (step_le s a c Hle) as [Hs Ht]. destruct (step s c) as [s1 t1], (step a c) as [a1 u1].
  pose proof (IH s1 a1 Hs) as [Hr Hu]. destruct (run s1 str) as [s2 t2], (run a1 str) as [a2 u2].
  cbn in *. split; [done|]. by apply Forall2_app.
Qed.

Lemma run_app s x y :
  run s (String.app x y) = ((run (run s x).1 y).1, (run s x).2 ++ (run (run s x).1 y).2).
Proof.
  revert s. induction x as [|c x IH]; intros s.
  - change (String.app "" y) with y. cbn. by destruct (run s y).
  - change (String.app (String c x) y) with (String c (String.app x y)). cbn [run].
    destruct (step s c) as [s1 t1]. rewrite IH. destruct (run s1 x) as [s2 t2]. cbn.
    destruct (run s2 y) as [s3 t3]. by rewrite app_assoc.
Qed.

(** From the start of a page every attribute is known. *)
Definition exact_attr (a : string * buf) : Prop := ∃ v, a.2 = Exact v.

Definition exact_token (k : token) : Prop :=
  match k with Open _ attrs => Forall exact_attr attrs | _ => True end.

Definition exact_state (s : state) : Prop := Forall exact_attr (s_attrs s) ∧ ∃ v, s_value s = Exact v.

Lemma exact_with_attr s : exact_state s → exact_state (with_attr s).
Proof. intros [Ha Hv]. split; [|done]. apply Forall_app. split; [done|]. by constructor. Qed.

Lemma exact_opened s : exact_state s → exact_state (opened s).1 ∧ Forall exact_token (opened s).2.
Proof. intros [Ha Hv]. split; [|by constructor]. split; [constructor|by eexists]. Qed.

Lemma put_exact s c : exact_token (put s c).
Proof. unfold put. by destruct (raw_element _). Qed.

Lemma step_exact s c : exact_state s → exact_state (step s c).1 ∧ Forall exact_token (step s c).2.
Proof.
  intros Hs. pose proof (exact_with_attr s Hs) as Hw. pose proof Hs as [Ha [v Hv]]. unfold step.
  destruct (s_mode s) eqn:E; repeat case_match;
    first [by apply exact_opened|split; [|repeat constructor]]; try done; try apply put_exact.
  all: try (split; cbn; [first [done|apply Hw|constructor]|rewrite ?Hv; by eexists]).
Qed.

Lemma run_exact str s : exact_state s → exact_state (run s str).1 ∧ Forall exact_token (run s str).2.
Proof.
  revert s. induction str as [|c str IH]; intros s Hs; [by split; [|constructor]|]. cbn [run].
  destruct (step_exact s c Hs) as [H1 H2]. destruct (step s c) as [s1 t1].
  destruct (IH s1 H1) as [H3 H4]. destruct (run s1 str) as [s2 t2]. split; [done|]. by apply Forall_app.
Qed.

(** ** Values *)

Fixpoint chars (s : string) : list token :=
  match s with EmptyString => [] | String c s => Char c :: chars s end.

Definition no_char (c : ascii) (s : string) : bool := string_forallb (λ d, negb (bool_decide (d = c))) s.

Lemma run_text s str :
  s_mode s = Text → raw_element (s_tag s) = false → no_char "<" str = true → run s str = (s, chars str).
Proof.
  intros Hs Hr. induction str as [|c str IH]; [done|]. unfold no_char. cbn [string_forallb].
  intros [Hc Hstr]%andb_true_iff. cbn [run chars]. unfold step. rewrite Hs.
  destruct (bool_decide (c = "<"%char)); [done|]. unfold put. by rewrite Hr, IH.
Qed.

Lemma app_snoc v c str : String.app (snoc v c) str = String.app v (String c str).
Proof. unfold snoc. induction v as [|d v IH]; [done|]. exact (f_equal (String d) IH). Qed.

Fixpoint buf_app (b : buf) (str : string) : buf :=
  match str with EmptyString => b | String c str => buf_app (buf_snoc b c) str end.

Lemma buf_app_Exact v str : buf_app (Exact v) str = Exact (String.app v str).
Proof.
  revert v. induction str as [|c str IH]; intros v; cbn [buf_app]; [by rewrite string_app_nil|].
  cbn [buf_snoc]. by rewrite IH, app_snoc.
Qed.

Lemma buf_app_le b b' str : buf_le b b' → buf_le (buf_app b str) (buf_app b' str).
Proof.
  revert b b'. induction str as [|c str IH]; intros b b' Hle; [done|]. by apply IH, buf_snoc_le.
Qed.

Lemma run_value s str :
  s_mode s = Value → no_char dquote_char str = true →
  run s str = (s <| s_value := buf_app (s_value s) str |>, []).
Proof.
  revert s. induction str as [|c str IH]; intros s Hs; [by destruct s|].
  unfold no_char. cbn [string_forallb]. intros [Hc Hstr]%andb_true_iff. cbn [run]. unfold step at 1.
  rewrite Hs. destruct (bool_decide (c = dquote_char)); [done|].
  by rewrite (IH (s <| s_value := buf_snoc (s_value s) c |>)).
Qed.

Lemma string_flat_map_forallb (f : ascii → string) (P : ascii → bool) s :
  (∀ c, string_forallb P (f c) = true) → string_forallb P (string_flat_map f s) = true.
Proof.
  intros Hf. induction s as [|c s IH]; [done|]. cbn [string_flat_map].
  by rewrite string_forallb_app, Hf, IH.
Qed.

(** Escaped text has none of the four characters. *)
Lemma htmlEscape_safe s : no_char "<" (htmlEscape s) = true ∧ no_char dquote_char (htmlEscape s) = true.
Proof.
  split; apply string_flat_map_forallb; intros [[] [] [] [] [] [] [] []]; reflexivity.
Qed.

Lemma escape_safe c v : no_char "<" (escape c v) = true ∧ no_char dquote_char (escape c v) = true.
Proof. destruct c; apply htmlEscape_safe. Qed.

Lemma isSafeURL_slash s : isSafeURL (String "/" s) = true.
Proof.
  unfold isSafeURL. change (index_byte ":" (String "/" s)) with (S <$> index_byte ":" s).
  destruct (index_byte ":" s) as [i|]; [|done]. cbv beta iota zeta delta [fmap option_fmap option_map].
  by rewrite (bool_decide_eq_true_2 (is_Some (index_byte "/" (string_to (S i) (String "/" s))))) by (by exists 0%nat).
Qed.

Lemma site_app p str : site p = true → (2 <= String.length p)%nat → site (String.app p str) = true.
Proof. destruct p as [|[[] [] [] [] [] [] [] []] [|d p]]; simpl; done || lia. Qed.

(** The values [value_ok] asks for are links of the site, escaped. *)
Lemma site_UrlStart v : value_ok UrlStart v = true → site (escape UrlStart v) = true.
Proof.
  cbn [value_ok]. intros [->%bool_decide_eq_true|Hv]%orb_true_iff; [done|].
  destruct v as [|c [|d v]]; cbn [starts] in Hv; [done|by rewrite andb_false_r in Hv|].
  apply andb_true_iff in Hv as [Hc%bool_decide_eq_true [Hd%bool_decide_eq_true _]%andb_true_iff]. subst.
  unfold escape, urlFilter. by rewrite isSafeURL_slash.
Qed.

Lemma site_UrlQuery v : value_ok UrlQuery v = true → site (String.app "/" (escape UrlQuery v)) = true.
Proof.
  cbn [value_ok]. intros [->%bool_decide_eq_true|Hv]%orb_true_iff; [done|].
  destruct v as [|c v]; [done|]. cbn [starts] in Hv. by apply andb_true_iff in Hv as [<-%bool_decide_eq_true _].
Qed.

Lemma path_prefix_site p str : path_prefix p = true → site (String.app p str) = true.
Proof.
  unfold path_prefix. rewrite !andb_true_iff. intros [[[Hp Hl] _] _]. apply site_app; [done|].
  by apply Nat.leb_le.
Qed.

(** The value after an accepted one. *)
Lemma accepts_value c v a a' :
  value_ok c v = true → accepts c a = Some a' →
  (s_mode a = Text ∧ raw_element (s_tag a) = false ∧ a' = a) ∨
  (s_mode a = Value ∧ ∃ b, a' = a <| s_value := b |> ∧ buf_le (buf_app (s_value a) (escape c v)) b).
Proof.
  intros Hv Ha. unfold accepts in Ha.
  destruct c; [destruct (bool_decide_reflect (s_mode a = Text))
    |destruct (bool_decide_reflect (s_mode a = Value))..]; cbn [andb] in Ha; try discriminate Ha.
  - destruct (raw_element _); [done|]. injection Ha as <-. by left.
  - destruct (plain_attr _); [|done]. injection Ha as <-. right. split; [done|]. eexists. split; [done|].
    destruct (s_value a) as [p| |]; [|done..]. destruct (path_prefix p) eqn:Hp; [|done].
    rewrite buf_app_Exact. right. eexists. split; [done|]. by apply path_prefix_site.
  - destruct (url_attr _); [|done]. case_bool_decide as He; [|done]. injection Ha as <-.
    right. split; [done|]. eexists. split; [done|]. rewrite He, buf_app_Exact.
    right. eexists. split; [done|]. by apply (site_UrlStart v).
  - destruct (url_attr _); [|done]. destruct (s_value a) as [p| |]; [|done..]. cbn [andb] in Ha.
    destruct (path_prefix p) eqn:Hp; [|done]. injection Ha as <-.
    right. split; [done|]. eexists. split; [done|]. rewrite buf_app_Exact. right. eexists.
    split; [done|]. by apply path_prefix_site.
  - destruct (url_attr _); [|done]. case_bool_decide as He; [|done]. injection Ha as <-.
    right. split; [done|]. eexists. split; [done|]. rewrite He, buf_app_Exact.
    right. eexists. split; [done|]. by apply site_UrlQuery.
Qed.

Lemma buf_le_trans b1 b2 b3 : buf_le b1 b2 → buf_le b2 b3 → buf_le b1 b3.
Proof.
  destruct b3 as [s| |]; simpl; [by intros ? ->| |done]. intros H [->|(s & -> & Hs)]; [done|].
  simpl in H. subst. right. eauto.
Qed.

(** A value, run from a state that accepts it. *)
Lemma accepts_sound c v a a' s :
  value_ok c v = true → accepts c a = Some a' → state_le s a →
  state_le (run s (escape c v)).1 a' ∧ Forall (λ t, ¬ is_tag t) (run s (escape c v)).2.
Proof.
  intros Hv Ha [H1 H2 H3 H4 H5]. destruct (escape_safe c v) as [Hlt Hq].
  destruct (accepts_value c v a a' Hv Ha) as [(Hm & Hr & ->)|(Hm & b & -> & Hb)].
  - rewrite run_text by (done || by rewrite H1 || by rewrite H2). split; [by split|].
    cbn. clear. induction (escape c v) as [|d x IH]; [constructor|]. by constructor; [intros []|].
  - rewrite run_value by (done || by rewrite H1). split; [|constructor].
    split; try done. eapply buf_le_trans, Hb. by apply buf_app_le.
Qed.

(** ** Soundness *)

Definition sat (S : list state) (s : state) : Prop := ∃ a, a ∈ S ∧ state_le s a.

(** Every tag is one of [T], up to what it leaves open. *)
Definition tags_in (T : list token) (l : list token) : Prop :=
  ∀ k, k ∈ l → is_tag k → ∃ k', k' ∈ T ∧ token_le k k'.

Lemma sat_mono S S' s : S ⊆ S' → sat S s → sat S' s.
Proof. intros HS (a & Ha & Hle). exists a. split; [by apply HS|done]. Qed.

Lemma tags_in_app T l l' : tags_in T l → tags_in T l' → tags_in T (l ++ l').
Proof. intros H H' k [Hk|Hk]%elem_of_app; [by apply H|by apply H']. Qed.

Lemma tags_in_mono T T' l : T ⊆ T' → tags_in T l → tags_in T' l.
Proof. intros HT Hl k Hk Ht. destruct (Hl k Hk Ht) as (k' & Hin & Hle). exists k'. split; [by apply HT|done]. Qed.

Lemma tags_in_none T l : Forall (λ t, ¬ is_tag t) l → tags_in T l.
Proof. rewrite Forall_forall. intros Hl k Hk Ht. by destruct (Hl k Hk). Qed.

Lemma either_l S S' : S ⊆ either S S'.
Proof. intros a Ha. apply elem_of_app. by left. Qed.

Lemma either_r S S' : S' ⊆ either S S'.
Proof.
  intros a Ha. apply elem_of_app. destruct (decide (a ∈ S)); [by left|right].
  by apply list_elem_of_filter.
Qed.

Lemma check_lit_sound markup S s :
  sat S s → sat (check_lit markup S).1 (run s markup).1 ∧ tags_in (check_lit markup S).2 (run s markup).2.
Proof.
  intros (a & Ha & Hle). destruct (run_le markup s a Hle) as [Hs Ht]. cbn. split.
  - exists (run a markup).1. split; [|done]. apply elem_of_remove_dups, list_elem_of_fmap.
    exists (run a markup). split; [done|]. by apply (list_elem_of_fmap_2 (λ a, run a markup)).
  - intros k Hk Htag. apply list_elem_of_lookup in Hk as [i Hi].
    destruct (Forall2_lookup_l _ _ _ _ _ Ht Hi) as (k' & Hi' & Hkk). exists k'. split; [|done].
    apply elem_of_remove_dups, list_elem_of_filter. split; [by destruct Hkk|].
    apply list_elem_of_bind. exists (run a markup). split; [by apply list_elem_of_lookup_2 in Hi'|].
    by apply (list_elem_of_fmap_2 (λ a, run a markup)).
Qed.

Definition sound {D} (t : tmpl D) : Prop := ∀ S S' T,
  values_ok t → check t S = Some (S', T) → ∀ d s, sat S s →
  sat S' (run s (exec t d)).1 ∧ tags_in T (run s (exec t d)).2.

Lemma range_sound {E} (t : tmpl E) S S2 T :
  sound t → values_ok t → check t S = Some (S2, T) → S2 ⊆ S → ∀ l s, sat S s →
  sat S (run s (join (exec t <$> l))).1 ∧ tags_in T (run s (join (exec t <$> l))).2.
Proof.
  intros Ht Hr Hc Hsub l. induction l as [|e l IH]; intros s Hs.
  - cbn. split; [done|]. by intros k ?%not_elem_of_nil.
  - rewrite fmap_cons. change (join (exec t e :: (exec t <$> l))) with
      (String.app (exec t e) (join (exec t <$> l))).
    rewrite run_app. cbn [fst snd]. destruct (Ht _ _ _ Hr Hc e s Hs) as [H1 H2].
    destruct (IH _ (sat_mono _ _ _ Hsub H1)) as [H3 H4]. split; [done|]. by apply tags_in_app.
Qed.

(** The analysis is right for every data. *)
Lemma check_sound {D} (t : tmpl D) : sound t.
Proof.
  induction t as [D markup|D c value|D t IHt u IHu|D b t IHt u IHu|D E l t IHt|D E f t IHt|D E f t IHt];
    intros S S' T Hr Hc d s Hs; cbn [check exec values_ok] in *.
  - pose proof (check_lit_sound markup S s Hs) as H. injection Hc as Hc1 Hc2.
    unfold check_lit in H. cbn [fst snd] in H. by rewrite Hc1, Hc2 in H.
  - apply bind_Some in Hc as (S1 & Hm & [= <- <-]). destruct Hs as (a & Ha & Hle).
    apply mapM_Some in Hm. apply list_elem_of_lookup in Ha as [i Hi].
    destruct (Forall2_lookup_l _ _ _ _ _ Hm Hi) as (a' & Hi' & Hacc).
    destruct (accepts_sound c (value d) a a' s (Hr d) Hacc Hle) as [H1 H2]. split.
    + exists a'. split; [|done]. apply elem_of_remove_dups. by apply list_elem_of_lookup_2 in Hi'.
    + by apply tags_in_none.
  - apply bind_Some in Hc as ([S1 T1] & Hc1 & Hc). apply bind_Some in Hc as ([S2 T2] & Hc2 & [= <- <-]).
    rewrite run_app. cbn [fst snd]. destruct (IHt _ _ _ (proj1 Hr) Hc1 d s Hs) as [H1 H2].
    destruct (IHu _ _ _ (proj2 Hr) Hc2 d _ H1) as [H3 H4]. split; [done|].
    apply tags_in_app; eapply tags_in_mono; [|exact H2| |exact H4]; intros k Hk; apply elem_of_app; auto.
  - apply bind_Some in Hc as ([S1 T1] & Hc1 & Hc). apply bind_Some in Hc as ([S2 T2] & Hc2 & [= <- <-]).
    destruct (b d).
    + destruct (IHt _ _ _ (proj1 Hr) Hc1 d s Hs) as [H1 H2]. split; [by eapply sat_mono, H1; apply either_l|].
      eapply tags_in_mono, H2. intros k Hk. apply elem_of_app. by left.
    + destruct (IHu _ _ _ (proj2 Hr) Hc2 d s Hs) as [H1 H2]. split; [by eapply sat_mono, H1; apply either_r|].
      eapply tags_in_mono, H2. intros k Hk. apply elem_of_app. by right.
  - apply bind_Some in Hc as ([S1 T1] & Hc1 & Hc). apply bind_Some in Hc as ([S2 T2] & Hc2 & Hc).
    case_bool_decide as Hsub; [|done]. injection Hc as <- <-.
    apply (range_sound t _ S2 T2 IHt Hr Hc2 Hsub (l d) s).
    by eapply sat_mono, Hs; apply either_l.
  - apply bind_Some in Hc as ([S1 T1] & Hc1 & [= <- <-]). destruct (f d) as [e|].
    + destruct (IHt _ _ _ Hr Hc1 e s Hs) as [H1 H2]. split; [|done]. by eapply sat_mono, H1; apply either_r.
    + cbn. split; [by eapply sat_mono, Hs; apply either_l|]. by intros k ?%not_elem_of_nil.
  - exact (IHt _ _ _ Hr Hc (f d) s Hs).
Qed.

(** ** Values do not matter to the markup *)

(** The page with every value left out. *)
Fixpoint blank {D} (t : tmpl D) : D → string :=
  match t with
  | Lit markup => λ _, markup
  | Val _ _ => λ _, ""
  | Cat t u => λ d, String.app (blank t d) (blank u d)
  | If b t u => λ d, if b d then blank t d else blank u d
  | Range l t => λ d, join (blank t <$> l d)
  | With f t => λ d, match f d with Some e => blank t e | None => "" end
  | Call f t => λ d, blank t (f d)
  end.

(** A tag and the names of its attributes. *)
Definition shape (k : token) : option (string * list string + string) :=
  match k with
  | Open tag attrs => Some (inl (tag, attrs.*1))
  | Close tag => Some (inr tag)
  | _ => None
  end.

(** Two readers that have seen the same markup. *)
Record sim (s s' : state) : Prop := {
  sim_mode : s_mode s = s_mode s';
  sim_tag : s_tag s = s_tag s';
  sim_attrs : (s_attrs s).*1 = (s_attrs s').*1;
  sim_name : s_name s = s_name s'
}.

Lemma sim_with_attr s s' : sim s s' → sim (with_attr s) (with_attr s').
Proof. intros [H1 H2 H3 H4]. split; cbn; try done. by rewrite !fmap_app, H3, H4. Qed.

Lemma sim_opened s s' : sim s s' →
  sim (opened s).1 (opened s').1 ∧ omap shape (opened s).2 = omap shape (opened s').2.
Proof. intros [H1 H2 H3 H4]. unfold opened. cbn. by rewrite H2, H3. Qed.

Lemma shape_put s c : shape (put s c) = None.
Proof. unfold put. by destruct (raw_element _). Qed.

Lemma sim_step s s' c : sim s s' →
  sim (step s c).1 (step s' c).1 ∧ omap shape (step s c).2 = omap shape (step s' c).2.
Proof.
  intros Hs. pose proof (sim_with_attr _ _ Hs) as Hw. pose proof Hs as [H1 H2 H3 H4]. unfold step. rewrite H1.
  destruct (s_mode s') eqn:E; repeat case_match; first [by apply sim_opened|split]; try done;
    try (destruct Hw as [W1 W2 W3 W4]; split; cbn in *; congruence); cbn; by rewrite ?shape_put, ?H2.
Qed.

Lemma sim_run str s s' : sim s s' →
  sim (run s str).1 (run s' str).1 ∧ omap shape (run s str).2 = omap shape (run s' str).2.
Proof.
  revert s s'. induction str as [|c str IH]; intros s s' Hs; [by split|]. cbn [run].
  destruct (sim_step s s' c Hs) as [H1 H2]. destruct (step s c) as [s1 t1], (step s' c) as [s1' t1'].
  cbn [fst snd] in *. destruct (IH _ _ H1) as [H3 H4]. destruct (run s1 str) as [s2 t2], (run s1' str) as [s2' t2'].
  cbn [fst snd] in *. split; [done|]. by rewrite !omap_app, H2, H4.
Qed.

Lemma sim_value c v a a' s s' :
  value_ok c v = true → accepts c a = Some a' → state_le s a → sim s s' →
  sim (run s (escape c v)).1 s' ∧ omap shape (run s (escape c v)).2 = [].
Proof.
  intros Hv Ha [H1 H2 H3 H4 H5] Hs. destruct (escape_safe c v) as [Hlt Hq].
  destruct (accepts_value c v a a' Hv Ha) as [(Hm & Hr & ->)|(Hm & b & -> & Hb)].
  - rewrite run_text by (done || by rewrite H1 || by rewrite H2). split; [done|]. cbn [snd].
    generalize (escape c v). clear. intros x. by induction x.
  - rewrite run_value by (done || by rewrite H1). split; [|done]. by destruct Hs.
Qed.

(** Whatever the values are, the markup read is that of the page without them. *)
Definition value_free {D} (t : tmpl D) : Prop := ∀ S S' T,
  values_ok t → check t S = Some (S', T) → ∀ d s s', sat S s → sim s s' →
  sim (run s (exec t d)).1 (run s' (blank t d)).1 ∧
  omap shape (run s (exec t d)).2 = omap shape (run s' (blank t d)).2.

Lemma range_value_free {E} (t : tmpl E) S S2 T :
  value_free t → values_ok t → check t S = Some (S2, T) → S2 ⊆ S → ∀ l s s', sat S s → sim s s' →
  sim (run s (join (exec t <$> l))).1 (run s' (join (blank t <$> l))).1 ∧
  omap shape (run s (join (exec t <$> l))).2 = omap shape (run s' (join (blank t <$> l))).2.
Proof.
  intros Ht Hv Hc Hsub l. induction l as [|e l IH]; intros s s' Hs Hsim; [done|].
  rewrite !fmap_cons. change (join (?x :: ?y)) with (String.app x (join y)).
  rewrite !run_app. cbn [fst snd]. destruct (Ht _ _ _ Hv Hc e s s' Hs Hsim) as [H1 H2].
  destruct (check_sound t _ _ _ Hv Hc e s Hs) as [Hs1 _].
  destruct (IH _ _ (sat_mono _ _ _ Hsub Hs1) H1) as [H3 H4]. split; [done|].
  by rewrite !omap_app, H2, H4.
Qed.

Lemma check_value_free {D} (t : tmpl D) : value_free t.
Proof.
  induction t as [D markup|D c value|D t IHt u IHu|D b t IHt u IHu|D E l t IHt|D E f t IHt|D E f t IHt];
    intros S S' T Hv Hc d s s' Hs Hsim; cbn [check exec blank values_ok] in *.
  - by apply sim_run.
  - apply bind_Some in Hc as (S1 & Hm & _). destruct Hs as (a & Ha & Hle).
    apply mapM_Some in Hm. apply list_elem_of_lookup in Ha as [i Hi].
    destruct (Forall2_lookup_l _ _ _ _ _ Hm Hi) as (a' & _ & Hacc).
    by apply (sim_value c (value d) a a' s s' (Hv d) Hacc Hle).
  - apply bind_Some in Hc as ([S1 T1] & Hc1 & Hc). apply bind_Some in Hc as ([S2 T2] & Hc2 & _).
    rewrite !run_app. cbn [fst snd]. destruct (IHt _ _ _ (proj1 Hv) Hc1 d s s' Hs Hsim) as [H1 H2].
    destruct (check_sound t _ _ _ (proj1 Hv) Hc1 d s Hs) as [Hs1 _].
    destruct (IHu _ _ _ (proj2 Hv) Hc2 d _ _ Hs1 H1) as [H3 H4]. split; [done|]. by rewrite !omap_app, H2, H4.
  - apply bind_Some in Hc as ([S1 T1] & Hc1 & Hc). apply bind_Some in Hc as ([S2 T2] & Hc2 & _).
    destruct (b d).
    + exact (IHt _ _ _ (proj1 Hv) Hc1 d s s' Hs Hsim).
    + exact (IHu _ _ _ (proj2 Hv) Hc2 d s s' Hs Hsim).
  - apply bind_Some in Hc as ([S1 T1] & Hc1 & Hc). apply bind_Some in Hc as ([S2 T2] & Hc2 & Hc).
    case_bool_decide as Hsub; [|done]. apply (range_value_free t _ S2 T2 IHt Hv Hc2 Hsub (l d)); [|done].
    by eapply sat_mono, Hs; apply either_l.
  - apply bind_Some in Hc as ([S1 T1] & Hc1 & _). destruct (f d) as [e|]; [|done].
    exact (IHt _ _ _ Hv Hc1 e s s' Hs Hsim).
  - exact (IHt _ _ _ Hv Hc (f d) s s' Hs Hsim).
Qed.

(** ** What a reader makes of an escaped text *)

Definition denul (s : string) : string :=
  string_flat_map (λ c, if bool_decide (N_of_ascii c = 0%N) then html_char c else String c "") s.

Lemma unescape_char c rest :
  unescape_from 0 (String.app (html_char c) rest) =
  String.app (if bool_decide (N_of_ascii c = 0%N) then html_char c else String c "") (unescape_from 0 rest).
Proof. destruct c as [[] [] [] [] [] [] [] []]; reflexivity. Qed.

Lemma unescape_htmlEscape s : unescape (htmlEscape s) = denul s.
Proof.
  unfold unescape, htmlEscape, denul. induction s as [|c s IH]; [done|]. cbn [string_flat_map].
  rewrite unescape_char. by rewrite IH.
Qed.

Lemma denul_id s : no_char "000" s = true → denul s = s.
Proof.
  unfold denul, no_char. induction s as [|c s IH]; [done|]. cbn [string_forallb string_flat_map].
  intros [Hc Hs]%andb_true_iff. rewrite IH by done. rewrite bool_decide_eq_false_2; [done|].
  intros Hn. apply negb_true_iff, bool_decide_eq_false in Hc. apply Hc.
  by rewrite <-(ascii_N_embedding c), Hn.
Qed.

Lemma percent_no_nul c : string_forallb (λ d, negb (bool_decide (d = "000"%char))) (percent c) = true.
Proof. by destruct c as [[] [] [] [] [] [] [] []]. Qed.

Lemma urlNormalize_no_nul s : no_char "000" (urlNormalize s) = true.
Proof.
  induction s as [|c s IH]; [done|]. cbn [urlNormalize]. unfold no_char in *.
  rewrite string_forallb_app, IH, andb_true_r. case_match eqn:E; [|apply percent_no_nul].
  destruct c as [[] [] [] [] [] [] [] []]; done.
Qed.

(** A link, as a reader follows it. *)
Lemma unescape_link v : unescape (htmlEscape (urlNormalize v)) = urlNormalize v.
Proof. rewrite unescape_htmlEscape. apply denul_id, urlNormalize_no_nul. Qed.

(** Text that normalizing leaves alone, wherever it stands. *)
Definition stable (s : string) : Prop :=
  ∀ rest, urlNormalize (String.app s rest) = String.app s (urlNormalize rest).

Lemma stable_app s t : stable s → stable t → stable (String.app s t).
Proof. intros Hs Ht rest. by rewrite !string_app_assoc, Hs, Ht. Qed.

Lemma stable_cons c s : url_plain c = true → stable s → stable (String c s).
Proof.
  intros Hc Hs rest. change (String.app (String c s) rest) with (String c (String.app s rest)).
  cbn [urlNormalize]. rewrite Hc, Hs. done.
Qed.

Lemma stable_nil : stable "".
Proof. done. Qed.

Lemma stable_triple a b s : is_hex a = true → is_hex b = true → stable s → stable (String "%" (String a (String b s))).
Proof.
  assert (∀ x, is_hex x = true → url_plain x = true) as Hp.
  { intros x. unfold is_hex, url_plain, byte_in. rewrite !orb_true_iff, !andb_true_iff, !N.leb_le. lia. }
  intros Ha Hb Hs rest. pose proof (stable_cons a _ (Hp a Ha) (stable_cons b _ (Hp b Hb) Hs) rest) as H.
  change (String.app (String "%" (String a (String b s))) rest) with
    (String "%" (String.app (String a (String b s)) rest)).
  cbn [urlNormalize]. rewrite H. change (String.app (String a (String b s)) rest) with (String a (String b (String.app s rest))).
  cbv iota beta. by rewrite Ha, Hb.
Qed.

Lemma stable_id s : stable s → urlNormalize s = s.
Proof. intros Hs. specialize (Hs ""). by rewrite !string_app_nil in Hs. Qed.

(** ** Reading a page *)

(** The second of a tag's two attributes, when the first has a given value. *)
Definition two_attr (tag name1 value1 name2 : string) (k : token) : option string :=
  match k with
  | Open t [(n1, Exact v1); (n2, Exact v2)] =>
      if bool_decide ((t, n1, v1, n2) = (tag, name1, value1, name2)) then Some (unescape v2) else None
  | _ => None
  end.

(** What the analysis cannot exclude to be such a tag. *)
Definition two_attr_may (tag name1 value1 name2 : string) (k : token) : bool :=
  match k with
  | Open t [(n1, v1); (n2, v2)] =>
      bool_decide ((t, n1, n2) = (tag, name1, name2)) &&
      match v1 with Exact v1 => bool_decide (v1 = value1) | _ => true end
  | _ => false
  end.

Lemma two_attr_le tag n1 v1 n2 k k' :
  token_le k k' → two_attr_may tag n1 v1 n2 k' = false → two_attr tag n1 v1 n2 k = None.
Proof.
  intros [c|c|t l l' Hl|t]; [done|done| |done]. cbn [two_attr two_attr_may].
  destruct Hl as [|[m1 b1] [m1' b1'] l l' [H1 H2] [|[m2 b2] [m2' b2'] l2 l2' [H3 H4] [|? ? ? ? ? ?]]];
    [done| | |by destruct b1, b2]; [by destruct b1|].
  cbn [fst snd] in *. subst. destruct b1 as [w1| |], b2 as [w2| |]; try done.
  intros Hmay. destruct (bool_decide_reflect ((t, m1', w1, m2') = (tag, n1, v1, n2))) as [E|]; [|done].
  injection E as -> -> -> ->. exfalso. revert Hmay.
  rewrite bool_decide_eq_true_2 by done. simpl. destruct b1'; [|done..]. simpl in H2. injection H2 as <-. by rewrite bool_decide_eq_true_2.
Qed.

(** What a reader collects from what [t] prints, from a state of [S]. *)
Definition reads {D X} (f : token → option X) (t : tmpl D) (S : list state) (g : D → list X) : Prop :=
  ∀ d s, sat S s → omap f (run s (exec t d)).2 = g d.

Lemma omap_none {A B} (f : A → option B) l : (∀ a, a ∈ l → f a = None) → omap f l = [].
Proof.
  induction l as [|a l IH]; [done|]. intros H. cbn [omap list_omap]. rewrite H by left.
  apply IH. intros b Hb. apply H. by right.
Qed.

Definition states_after {D} (t : tmpl D) (S : list state) : list state := from_option fst [] (check t S).

Definition checks {D} (t : tmpl D) (S : list state) : bool :=
  match check t S with Some _ => true | None => false end.

Lemma checks_Some {D} (t : tmpl D) S : checks t S = true → ∃ T, check t S = Some (states_after t S, T).
Proof. unfold checks, states_after. destruct (check t S) as [[S' T]|]; [by eexists|done]. Qed.

Lemma states_after_sat {D} (t : tmpl D) S d s :
  values_ok t → checks t S = true → sat S s → sat (states_after t S) (run s (exec t d)).1.
Proof.
  intros Hv [T Hc]%checks_Some Hs. by apply (check_sound t S _ T Hv Hc).
Qed.

(** A tag that [f] collects is one of [may] to the analysis. *)
Definition covers {X} (may : token → bool) (f : token → option X) : Prop :=
  (∀ c, f (Char c) = None) ∧ ∀ k k', token_le k k' → may k' = false → f k = None.

(** Nothing is collected where the analysis excludes it. *)
Definition quiet {D} (may : token → bool) (t : tmpl D) (S : list state) : bool :=
  match check t S with Some (_, T) => forallb (λ k, negb (may k)) T | None => false end.

Lemma quiet_reads {D X} (may : token → bool) (f : token → option X) (t : tmpl D) S :
  covers may f → values_ok t → quiet may t S = true → reads f t S (λ _, []).
Proof.
  intros [Hchar Hmay] Hv Hq d s Hs. unfold quiet in Hq. destruct (check t S) as [[S' T]|] eqn:Hc; [|done].
  destruct (check_sound t S S' T Hv Hc d s Hs) as [_ HT]. apply omap_none. intros k Hk.
  destruct (decide (is_tag k)) as [Ht|Ht]; [|by destruct k].
  destruct (HT k Hk Ht) as (k' & Hin & Hle). eapply Hmay; [done|]. apply negb_true_iff.
  rewrite forallb_forall in Hq. by apply Hq, list_elem_of_In.
Qed.

Lemma two_attr_covers tag n1 v1 n2 : covers (two_attr_may tag n1 v1 n2) (two_attr tag n1 v1 n2).
Proof. split; [done|]. intros k k'. apply two_attr_le. Qed.

(** The scripts of a page: the attributes of their tags, and their text. *)
Definition script_of (k : token) : option (list (string * buf) + ascii) :=
  match k with
  | Open tag attrs => if bool_decide (tag = "script") then Some (inl attrs) else None
  | Raw c => Some (inr c)
  | _ => None
  end.

Definition script_may (k : token) : bool :=
  match k with Open tag _ => bool_decide (tag = "script") | Raw _ => true | _ => false end.

Lemma script_covers : covers script_may script_of.
Proof. split; [done|]. intros k k' []; simpl; try done. by case_bool_decide. Qed.

Lemma reads_cat {D X} (f : token → option X) (t u : tmpl D) S g g' :
  values_ok t → checks t S = true → reads f t S g → reads f u (states_after t S) g' →
  reads f (Cat t u) S (λ d, g d ++ g' d).
Proof.
  intros Hv Hc Ht Hu d s Hs. cbn [exec]. rewrite run_app. cbn [snd]. rewrite omap_app.
  rewrite Ht by done. f_equal. by apply Hu, states_after_sat.
Qed.

Lemma reads_range {D E X} (f : token → option X) (l : D → list E) (t : tmpl E) S g :
  values_ok t → checks (Range l t) S = true →
  (∀ S', S' = either S (states_after t S) → reads f t S' g) →
  reads f (Range l t) S (λ d, l d ≫= g).
Proof.
  intros Hv [T0 Hc]%checks_Some Ht d s Hs. cbn [check] in Hc.
  apply bind_Some in Hc as ([S1 T1] & Hc1 & Hc). apply bind_Some in Hc as ([S2 T2] & Hc2 & Hc).
  case_bool_decide as Hsub; [|done]. clear Hc. specialize (Ht _ eq_refl).
  unfold states_after in Ht. rewrite Hc1 in Ht. cbn [from_option fst] in Ht.
  apply (sat_mono _ _ _ (either_l S S1)) in Hs. cbn [exec]. revert s Hs.
  induction (l d) as [|e es IH]; intros s Hs; [done|]. rewrite fmap_cons.
  change (join (exec t e :: (exec t <$> es))) with (String.app (exec t e) (join (exec t <$> es))).
  rewrite run_app. cbn [snd]. rewrite omap_app, Ht by done. cbn. f_equal. apply IH.
  eapply sat_mono; [exact Hsub|]. by apply (check_sound t _ S2 T2 Hv Hc2).
Qed.

Lemma reads_ext {D X} (f : token → option X) (t : tmpl D) S g g' :
  (∀ d, g d = g' d) → reads f t S g → reads f t S g'.
Proof. intros Hg Ht d s Hs. rewrite <-Hg. by apply Ht. Qed.

Lemma reads_if {D X} (f : token → option X) (b : D → bool) (t u : tmpl D) S g g' :
  reads f t S g → reads f u S g' → reads f (If b t u) S (λ d, if b d then g d else g' d).
Proof. intros Ht Hu d s Hs. cbn [exec]. destruct (b d); auto. Qed.

(** A tag of literal markup around one value, opened in a text. *)
Definition text_state (a : state) : bool := bool_decide (a = text_after (s_tag a)).

Lemma sat_text S s : forallb text_state S = true → sat S s → s = text_after (s_tag s).
Proof.
  intros HS (a & Ha & [H1 H2 H3 H4 H5]). rewrite forallb_forall in HS.
  specialize (HS a (proj1 (list_elem_of_In _ _) Ha)). apply bool_decide_eq_true in HS.
  rewrite HS in *. destruct s as [m tag l n v]. cbn in *. subst. by apply Forall2_nil_inv_r in H3 as ->.
Qed.

Lemma reads_lit {D X} (f : token → option X) (markup : string) S (l : list X) `{!EqDecision X} :
  forallb (λ a, text_state a && bool_decide (omap f (run a markup).2 = l)) S = true →
  reads f (Lit (D := D) markup) S (λ _, l).
Proof.
  intros HS d s (a & Ha & Hle). rewrite forallb_forall in HS.
  specialize (HS a (proj1 (list_elem_of_In _ _) Ha)).
  apply andb_true_iff in HS as [Ht Hl%bool_decide_eq_true].
  assert (s = text_after (s_tag s)) as ->.
  { apply (sat_text [a]); [cbn; by rewrite Ht|]. exists a. by split; [left|]. }
  apply bool_decide_eq_true in Ht. by rewrite (le_tag _ _ Hle), <-Ht.
Qed.
