(* ===== verification/Pages.v ===== *)
(** * Package ui: the HTML templates (internal/ui/templates)

    The eight template files, as [Html.tmpl]s over the pages' data, their text
    verbatim with a grave accent for each double quote; and [New]'s template
    set, the instance of [UI]'s interface to them. *)

From Stdlib Require Import Ascii ZArith Lia.
From S2P Require Import Prelude GoLang GoParse GoUrl GoTime Fleet Html.
From S2P Require Import UiLinks UiText YamlDisplay UI.
Local Open Scope Z_scope.

Declare Scope tmpl_scope.
Delimit Scope tmpl_scope with tmpl.
Local Open Scope tmpl_scope.
Notation "t +++ u" := (Cat t u) (at level 60, right associativity) : tmpl_scope.

Fixpoint quoted (s : string) : string :=
  match s with
  | EmptyString => ""
  | String c s => String (if bool_decide (c = "`"%char) then dquote_char else c) (quoted s)
  end.

Definition lit {D} (markup : string) : tmpl D := Lit (quoted markup).

Definition nothing {D} : tmpl D := Lit "".

(** {{if}} on a string; a bool and an unsigned integer, printed. *)
Definition nonempty (s : string) : bool := bool_decide (s ≠ "").
Definition sprint_bool (b : bool) : string := if b then "true" else "false".
Definition sprint_uint (n : Z) : string := print_nat 20 n "".

(** The arithmetic of the function map. *)
Definition add (a b : Z) : Z := int64 (a + b).
Definition sub (a b : Z) : Z := int64 (a - b).
Definition max (a b : Z) : Z := if b <? a then a else b.

Section templates.
Context `{MR : MapRange, GS : GoSort}.

(** A template ranges over a map in the order of its keys. *)
Definition key_order (m : gmap string string) : list (string * string) := attrPairs m.

(** What [relTime]'s clock reads when a row is rendered. *)
Variable clock : AgentView → Time.

(** layout.html: the text of the inline script, without its comment, which is
    not sent; and [head]. *)
Definition theme_script : string := quoted "
  
  (function () {
    try {
      var t = localStorage.getItem(`grex-theme`);
      if (t !== `light` && t !== `dark`) {
        t = window.matchMedia(`(prefers-color-scheme: light)`).matches ? `light` : `dark`;
      }
      document.documentElement.setAttribute(`data-theme`, t);
    } catch (e) {
      document.documentElement.setAttribute(`data-theme`, `dark`);
    }
  })();
".

Definition head_html : tmpl pageData :=
  lit "
<meta charset=`utf-8`>
<meta name=`viewport` content=`width=device-width, initial-scale=1`>
<title>" +++
  If (λ d, nonempty (Title d))
    (Val InText Title +++
     lit " · ")
    nothing +++
  lit "grex</title>
<link rel=`icon` href=`/static/favicon.png` type=`image/png`>
<script>" +++
  Lit theme_script +++
  lit "</script>
<link rel=`stylesheet` href=`/static/app.css`>
<script src=`/static/htmx.min.js` defer></script>
<script src=`/static/matcher.js` defer></script>
<script src=`/static/theme.js` defer></script>
<script src=`/static/yaml-highlight.js` defer></script>
".

(** layout.html, [header]. *)
Definition header_html : tmpl pageData :=
  lit "
<header class=`app-header`>
  <a class=`brand` href=`/`>
    <img src=`/static/logo-mark.png` srcset=`/static/logo-mark.png 1x, /static/logo-mark@2x.png 2x` width=`32` height=`32` alt=``>
    grex
  </a>
  <nav class=`nav` aria-label=`Primary`>
    <a href=`/` " +++
  If (λ d, bool_decide (Nav d = "fleet"))
    (lit "aria-current=`page`")
    nothing +++
  lit ">Fleet</a>
    <a href=`/status` " +++
  If (λ d, bool_decide (Nav d = "status"))
    (lit "aria-current=`page`")
    nothing +++
  lit ">Status</a>
  </nav>
  <div class=`header-meta`>
    <span class=`live-dot` title=`Auto-refresh every " +++
  Val InAttr pd_PollInterval +++
  lit "`>Live</span>
    <span class=`htmx-indicator`>Updating…</span>
    <button type=`button` class=`theme-toggle` id=`theme-toggle` aria-label=`Toggle color theme` title=`Toggle theme`>
      <svg class=`icon-sun` viewBox=`0 0 24 24` aria-hidden=`true`>
        <circle cx=`12` cy=`12` r=`4`/>
        <path d=`M12 2v2M12 20v2M4.93 4.93l1.41 1.41M17.66 17.66l1.41 1.41M2 12h2M20 12h2M4.93 19.07l1.41-1.41M17.66 6.34l1.41-1.41`/>
      </svg>
      <svg class=`icon-moon` viewBox=`0 0 24 24` aria-hidden=`true`>
        <path d=`M21 14.5A8.5 8.5 0 0 1 9.5 3 7 7 0 1 0 21 14.5z`/>
      </svg>
    </button>
  </div>
</header>
".

(** The fleet table: a sortable column, a row, the table, and what stands for it
    when there is no agent. *)
Definition sort_column (col label : string) : tmpl pageData :=
  lit "<th scope=`col` aria-sort=`" +++
  Val InAttr (λ d, sortAria col (Sort d) (Order d)) +++
  lit "`>
          <a class=`" +++
  Val InAttr (λ d, sortClass col (Sort d) (Order d)) +++
  lit "` href=`" +++
  Val UrlStart (λ d, sortHref (Query d) col (Sort d) (Order d)) +++
  lit "`>" +++ lit label +++ lit "</a>
        </th>".

Definition table_head : tmpl pageData :=
  lit "
  <table class=`fleet`>
    <thead>
      <tr>
        " +++ sort_column "status" "Status" +++ lit "
        " +++ sort_column "name" "Name" +++ lit "
        " +++ sort_column "role" "Role" +++ lit "
        " +++ sort_column "version" "Version" +++ lit "
        <th scope=`col`>Attributes</th>
        " +++ sort_column "via" "Via" +++ lit "
        " +++ sort_column "transport" "Transport" +++ lit "
        " +++ sort_column "last_seen" "Last seen" +++ lit "
        " +++ sort_column "instance" "Instance" +++ lit "
      </tr>
    </thead>
    <tbody>
      ".

Definition agent_cells : tmpl AgentView :=
  lit "
      <tr>
        <td>
          <span class=`badge " +++
  Val InAttr statusClass +++
  lit "` title=`" +++
  Val InAttr statusTitle +++
  lit "`>
            <span class=`badge-dot` aria-hidden=`true`></span>
            " +++
  Val InText statusLabel +++
  lit "
          </span>
        </td>
        <td>
          <a class=`row-link` href=`/agents/" +++
  Val UrlPath v_InstanceUID +++
  lit "`>" +++
  Val InText v_DisplayName +++
  lit "</a>
          " +++
  If (λ a, nonempty (v_HostName a))
   (lit "<span class=`cell-secondary`>" +++
    Val InText v_HostName +++
    lit "</span>")
   nothing +++
  lit "
        </td>
        <td>" +++
  Val InText v_Role +++
  lit "</td>
        <td class=`mono`>" +++
  If (λ a, nonempty (v_Version a))
   (Val InText v_Version)
   (lit "—") +++
  lit "</td>
        <td class=`attrs-cell`>
          " +++
  lit "
          " +++
  If (λ a, negb (bool_decide (attrChips a = [])))
   (lit "
          <div class=`attr-chips`>
            " +++
    Range attrChips
     (lit "
            <button
              type=`button`
              class=`attr-chip`
              data-attr-key=`" +++
      Val InAttr fst +++
      lit "`
              data-attr-value=`" +++
      Val InAttr snd +++
      lit "`
              title=`Filter by " +++
      Val InAttr fst +++
      lit " = " +++
      Val InAttr snd +++
      lit "`
            ><span class=`attr-chip-key`>" +++
      Val InText fst +++
      lit "</span><span class=`attr-chip-val`>" +++
      Val InText snd +++
      lit "</span></button>
            ") +++
    lit "
          </div>
          ")
   (lit "
          <span class=`mono`>—</span>
          ") +++
  lit "
        </td>
        <td><span class=`via-pill`>" +++
  Val InText (λ a, viaLabel (ViaGateway (v_Conn a))) +++
  lit "</span></td>
        <td class=`mono`>" +++
  If (λ a, nonempty (Transport (v_Conn a)))
   (Val InText (λ a, Transport (v_Conn a)))
   (lit "—") +++
  lit "</td>
        <td title=`" +++
  Val InAttr (λ a, formatTime (v_LastSeen a)) +++
  lit "`>" +++
  Val InText (λ a, relTime (clock a) (v_LastSeen a)) +++
  lit "</td>
        ".

Definition uid_cell : tmpl AgentView :=
  lit "<td class=`mono` title=`" +++ Val InAttr v_InstanceUID +++ lit "`>".

Definition agent_row : tmpl AgentView :=
  agent_cells +++ uid_cell +++
  Val InText (λ a, shortUID (v_InstanceUID a)) +++
  lit "</td>
      </tr>
      ".

Definition fleet_table : tmpl pageData :=
  table_head +++
  Range Agents agent_row +++
  lit "
    </tbody>
  </table>
  ".

Definition empty_table : tmpl pageData :=
  lit "
  <div class=`empty`>
    <strong>" +++
  If hasFilter
   (lit "No agents match")
   (lit "No agents connected") +++
  lit "</strong>
    " +++
  If hasFilter
   (lit "
    Try clearing filters or wait for collectors to report.
    ")
   (lit "
    Waiting for OpAMP agents to check in.
    ") +++
  lit "
  </div>
  ".

(** The count and the pager. *)
Definition showing : tmpl pageData :=
  If (λ d, 0 <? Total d)
    (lit "
      Showing " +++
     Val InText (λ d, Itoa (add (Offset d) 1)) +++
     lit "–" +++
     If (λ d, add (Offset d) (Limit d) <? Total d)
      (Val InText (λ d, Itoa (add (Offset d) (Limit d))))
      (Val InText (λ d, Itoa (Total d))) +++
     lit "
      of " +++
     Val InText (λ d, Itoa (Total d)) +++
     lit "
    ")
    (lit "
      0 agents
    ").

Definition current_page : tmpl (pageData * Z) :=
  lit "
      <span class=`page-link is-current` aria-current=`page`>" +++
  Val InText (λ p, Itoa p.2) +++
  lit "</span>
      ".

Definition page_anchor : tmpl (pageData * Z) :=
  lit "<a class=`page-link` href=`/" +++
  Val UrlQuery (λ p, queryWith (Query p.1) "offset" (Itoa (pageOffset p.2 (Limit p.1)))) +++
  lit "`>".

Definition page_link : tmpl (pageData * Z) :=
  lit "
      " +++
  page_anchor +++
  Val InText (λ p, Itoa p.2) +++
  lit "</a>
      ".

Definition page_number : tmpl (pageData * Z) :=
  lit "
      " +++
  If (λ p, p.2 =? pageNum (Offset p.1) (Limit p.1)) current_page page_link +++
  lit "
    ".

Definition pager_nav : tmpl pageData := lit "<nav class=`pager` aria-label=`Pagination`>".

Definition pager : tmpl pageData :=
  lit "
  " +++ pager_nav +++ lit "
    " +++ lit "
    " +++
  Range (λ d, pair d <$> pageList (Total d) (Limit d)) page_number +++
  lit "
  </nav>
  ".

(** partials_agents.html, above the pager. *)
Definition agents_top : tmpl pageData :=
  lit "
" +++
  If Partial
    (lit "
<div class=`partial-banner` role=`status`>
  Database unavailable — showing agents on this replica only. Agents held
  only by a sibling replica may be missing.
</div>
")
    nothing +++
  lit "
<div class=`table-wrap`>
  " +++
  If (λ d, Total d =? 0)
    empty_table
    fleet_table +++
  lit "
</div>

<div class=`table-meta`>
  <span>
    " +++
  showing +++
  lit "
  </span>
  " +++
  lit "
  ".

(** partials_agents.html. *)
Definition partials_agents_html : tmpl pageData :=
  agents_top +++
  If (λ d, 1 <? zlen (pageList (Total d) (Limit d))) pager
    nothing +++
  lit "
</div>
".

(** partials_agent.html and partials_status.html, inside their {{with}}. *)
Definition agent_detail : tmpl AgentView :=
  lit "
<h1 class=`page-title`>" +++
  Val InText v_DisplayName +++
  lit "</h1>
<p class=`mono detail-uid`>" +++
  Val InText v_InstanceUID +++
  lit "</p>

<div class=`stat-row`>
  <div class=`stat`>
    <div class=`label`>Status</div>
    <div class=`value value-sm`>
      <span class=`badge " +++
  Val InAttr statusClass +++
  lit "` title=`" +++
  Val InAttr statusTitle +++
  lit "`><span class=`badge-dot`></span>" +++
  Val InText statusLabel +++
  lit "</span>
    </div>
  </div>
  <div class=`stat`>
    <div class=`label`>Role</div>
    <div class=`value value-md`>" +++
  Val InText v_Role +++
  lit "</div>
  </div>
  <div class=`stat`>
    <div class=`label`>Version</div>
    <div class=`value value-md`>" +++
  If (λ a, nonempty (v_Version a))
   (Val InText v_Version)
   (lit "—") +++
  lit "</div>
  </div>
  <div class=`stat`>
    <div class=`label`>Last seen</div>
    <div class=`value value-md` title=`" +++
  Val InAttr (λ a, formatTime (v_LastSeen a)) +++
  lit "`>" +++
  Val InText (λ a, relTime (clock a) (v_LastSeen a)) +++
  lit "</div>
  </div>
</div>

<div class=`grid`>
  <section class=`card`>
    <h2>Connection</h2>
    <div class=`kv-list`>
      <div class=`kv-row`><span class=`kv-key`>Connected</span><span class=`kv-val`>" +++
  If v_Connected
   (lit "yes")
   (lit "no") +++
  lit "</span></div>
      <div class=`kv-row`><span class=`kv-key`>Via</span><span class=`kv-val`>" +++
  Val InText (λ a, viaLabel (ViaGateway (v_Conn a))) +++
  lit "</span></div>
      <div class=`kv-row`><span class=`kv-key`>Transport</span><span class=`kv-val mono`>" +++
  If (λ a, nonempty (Transport (v_Conn a)))
   (Val InText (λ a, Transport (v_Conn a)))
   (lit "—") +++
  lit "</span></div>
      <div class=`kv-row`><span class=`kv-key`>Remote</span><span class=`kv-val mono`>" +++
  If (λ a, nonempty (RemoteAddr (v_Conn a)))
   (Val InText (λ a, RemoteAddr (v_Conn a)))
   (lit "—") +++
  lit "</span></div>
      <div class=`kv-row`><span class=`kv-key`>TLS subject</span><span class=`kv-val mono`>" +++
  If (λ a, nonempty (TLSSubject (v_Conn a)))
   (Val InText (λ a, TLSSubject (v_Conn a)))
   (lit "—") +++
  lit "</span></div>
      <div class=`kv-row`><span class=`kv-key`>First seen</span><span class=`kv-val`>" +++
  Val InText (λ a, formatTime (v_FirstSeen a)) +++
  lit "</span></div>
      <div class=`kv-row`><span class=`kv-key`>Sequence</span><span class=`kv-val mono`>" +++
  Val InText (λ a, sprint_uint (v_SequenceNum a)) +++
  lit "</span></div>
    </div>
  </section>

  <section class=`card`>
    <h2>Health</h2>
    <div class=`kv-list`>
      <div class=`kv-row`><span class=`kv-key`>Reported</span><span class=`kv-val`>" +++
  If v_HealthReported
   (lit "yes")
   (lit "no") +++
  lit "</span></div>
      <div class=`kv-row`><span class=`kv-key`>Healthy</span><span class=`kv-val`>" +++
  If v_HealthReported
   (If v_Healthy
     (lit "yes")
     (lit "no"))
   (lit "—") +++
  lit "</span></div>
      <div class=`kv-row`><span class=`kv-key`>Status</span><span class=`kv-val`>" +++
  If (λ a, nonempty (v_HealthStatus a))
   (Val InText v_HealthStatus)
   (lit "—") +++
  lit "</span></div>
      <div class=`kv-row`><span class=`kv-key`>Error</span><span class=`kv-val`>" +++
  If (λ a, nonempty (v_HealthError a))
   (Val InText v_HealthError)
   (lit "—") +++
  lit "</span></div>
      <div class=`kv-row`><span class=`kv-key`>Start time</span><span class=`kv-val`>" +++
  Val InText (λ a, formatTime (v_HealthStartTime a)) +++
  lit "</span></div>
      <div class=`kv-row`><span class=`kv-key`>Status time</span><span class=`kv-val`>" +++
  Val InText (λ a, formatTime (v_HealthStatusTime a)) +++
  lit "</span></div>
    </div>
  </section>

  <section class=`card`>
    <h2>Identifying attributes</h2>
    " +++
  lit "
    " +++
  If (λ a, negb (bool_decide (attrPairs (v_Identifying a) = [])))
   (lit "
    <div class=`kv-list`>
      " +++
    Range (λ a, attrPairs (v_Identifying a))
     (lit "
      <div class=`kv-row`><span class=`kv-key mono`>" +++
      Val InText fst +++
      lit "</span><span class=`kv-val`>" +++
      Val InText snd +++
      lit "</span></div>
      ") +++
    lit "
    </div>
    ")
   (lit "
    <p class=`empty-inline`>None reported yet.</p>
    ") +++
  lit "
  </section>

  <section class=`card`>
    <h2>Non-identifying attributes</h2>
    " +++
  lit "
    " +++
  If (λ a, negb (bool_decide (attrPairs (v_NonIdentifying a) = [])))
   (lit "
    <div class=`kv-list`>
      " +++
    Range (λ a, attrPairs (v_NonIdentifying a))
     (lit "
      <div class=`kv-row`><span class=`kv-key mono`>" +++
      Val InText fst +++
      lit "</span><span class=`kv-val`>" +++
      Val InText snd +++
      lit "</span></div>
      ") +++
    lit "
    </div>
    ")
   (lit "
    <p class=`empty-inline`>None reported yet.</p>
    ") +++
  lit "
  </section>

  <section class=`card card-wide`>
    <h2>Capabilities</h2>
    <div class=`kv-list`>
      <div class=`kv-row`><span class=`kv-key`>Reports status</span><span class=`kv-val`>" +++
  Val InText (λ a, sprint_bool (ReportsStatus (v_CapabilityFlags a))) +++
  lit "</span></div>
      <div class=`kv-row`><span class=`kv-key`>Reports health</span><span class=`kv-val`>" +++
  Val InText (λ a, sprint_bool (ReportsHealth (v_CapabilityFlags a))) +++
  lit "</span></div>
      <div class=`kv-row`><span class=`kv-key`>Reports effective config</span><span class=`kv-val`>" +++
  Val InText (λ a, sprint_bool (ReportsEffectiveConfig (v_CapabilityFlags a))) +++
  lit "</span></div>
      <div class=`kv-row`><span class=`kv-key`>Reports heartbeat</span><span class=`kv-val`>" +++
  Val InText (λ a, sprint_bool (ReportsHeartbeat (v_CapabilityFlags a))) +++
  lit "</span></div>
      <div class=`kv-row`><span class=`kv-key`>Reports available components</span><span class=`kv-val`>" +++
  Val InText (λ a, sprint_bool (ReportsAvailableComponents (v_CapabilityFlags a))) +++
  lit "</span></div>
      <div class=`kv-row`><span class=`kv-key`>Accepts remote config</span><span class=`kv-val`>" +++
  Val InText (λ a, sprint_bool (AcceptsRemoteConfig (v_CapabilityFlags a))) +++
  lit "</span></div>
      <div class=`kv-row`><span class=`kv-key`>Accepts packages</span><span class=`kv-val`>" +++
  Val InText (λ a, sprint_bool (AcceptsPackages (v_CapabilityFlags a))) +++
  lit "</span></div>
      <div class=`kv-row`><span class=`kv-key`>Accepts restart</span><span class=`kv-val`>" +++
  Val InText (λ a, sprint_bool (AcceptsRestartCommand (v_CapabilityFlags a))) +++
  lit "</span></div>
      <div class=`kv-row`><span class=`kv-key`>Raw bitmask</span><span class=`kv-val mono`>" +++
  Val InText (λ a, sprint_uint (v_Capabilities a)) +++
  lit "</span></div>
    </div>
  </section>

  <section class=`card card-wide`>
    <h2>Effective configuration</h2>
    " +++
  If (λ a, negb (bool_decide (v_EffectiveConfig a = ∅)))
   (lit "
      " +++
    Range (λ a, key_order (v_EffectiveConfig a))
     (lit "
        <p class=`config-name mono`>" +++
      If (λ c, nonempty c.1)
       (Val InText fst)
       (lit "(default)") +++
      lit "</p>
        <pre class=`config` data-yaml><code class=`language-yaml`>" +++
      Val InText (λ c, yamlDisplay c.2) +++
      lit "</code></pre>
      ") +++
    lit "
    ")
   (lit "
    <p class=`empty-inline`>No effective config reported.</p>
    ") +++
  lit "
  </section>
</div>
".

(** partials_agent.html. *)
Definition partials_agent_html : tmpl pageData :=
  lit "
" +++
  With pd_Agent agent_detail +++
  lit "
".

Definition status_panel : tmpl statusView :=
  lit "
<div class=`stat-row`>
  <div class=`stat`>
    <div class=`label`>Agents</div>
    <div class=`value`>" +++
  Val InText (λ s, Itoa (sv_Total s)) +++
  lit "</div>
  </div>
  <div class=`stat`>
    <div class=`label`>Connected</div>
    <div class=`value ok`>" +++
  Val InText (λ s, Itoa (sv_Connected s)) +++
  lit "</div>
  </div>
  <div class=`stat`>
    <div class=`label`>Disconnected</div>
    <div class=`value`>" +++
  Val InText (λ s, Itoa (sv_Disconnected s)) +++
  lit "</div>
  </div>
  <div class=`stat`>
    <div class=`label`>Healthy</div>
    <div class=`value ok`>" +++
  Val InText (λ s, Itoa (sv_Healthy s)) +++
  lit "</div>
  </div>
  <div class=`stat`>
    <div class=`label`>Unhealthy</div>
    <div class=`value " +++
  If (λ s, 0 <? sv_Unhealthy s)
   (lit "bad")
   nothing +++
  lit "`>" +++
  Val InText (λ s, Itoa (sv_Unhealthy s)) +++
  lit "</div>
  </div>
  <div class=`stat`>
    <div class=`label`>Health unknown</div>
    <div class=`value`>" +++
  Val InText (λ s, Itoa (sv_HealthUnknown s)) +++
  lit "</div>
  </div>
  <div class=`stat`>
    <div class=`label`>Awaiting full state</div>
    <div class=`value`>" +++
  Val InText (λ s, Itoa (sv_Awaiting s)) +++
  lit "</div>
  </div>
</div>

<div class=`grid`>
  <section class=`card`>
    <h2>grex</h2>
    <dl class=`kv`>
      <dt>Version</dt><dd class=`mono`>" +++
  Val InText sv_Version +++
  lit "</dd>
      <dt>Commit</dt><dd class=`mono`>" +++
  Val InText sv_Commit +++
  lit "</dd>
      <dt>Started</dt><dd>" +++
  Val InText (λ s, formatTime (sv_StartedAt s)) +++
  lit "</dd>
      <dt>Uptime</dt><dd>" +++
  Val InText sv_Uptime +++
  lit "</dd>
    </dl>
  </section>
</div>
".

(** partials_status.html. *)
Definition partials_status_html : tmpl pageData :=
  lit "
" +++
  With pd_Status status_panel +++
  lit "
".

(** fleet.html, above the table. *)
Definition fleet_top : tmpl pageData :=
  lit "
<!DOCTYPE html>
<html lang=`en`>
<head>" +++
  head_html +++
  lit "</head>
<body>
  " +++
  header_html +++
  lit "
  <main class=`main`>
    <h1 class=`page-title`>Fleet</h1>

    <form class=`filters` method=`get` action=`/` role=`search`>
      <div class=`filters-toolbar`>
        <div class=`filters-status`>
          <div class=`field`>
            <label for=`healthy`>Health</label>
            <select id=`healthy` name=`healthy`>
              <option value=`` " +++
  If (λ d, bool_decide (pd_Healthy d = ""))
    (lit "selected")
    nothing +++
  lit ">Any</option>
              <option value=`true` " +++
  If (λ d, bool_decide (pd_Healthy d = "true"))
    (lit "selected")
    nothing +++
  lit ">Healthy</option>
              <option value=`false` " +++
  If (λ d, bool_decide (pd_Healthy d = "false"))
    (lit "selected")
    nothing +++
  lit ">Unhealthy</option>
            </select>
          </div>
          <div class=`field`>
            <label for=`connected`>Connection</label>
            <select id=`connected` name=`connected`>
              <option value=`` " +++
  If (λ d, bool_decide (pd_Connected d = ""))
    (lit "selected")
    nothing +++
  lit ">Any</option>
              <option value=`true` " +++
  If (λ d, bool_decide (pd_Connected d = "true"))
    (lit "selected")
    nothing +++
  lit ">Connected</option>
              <option value=`false` " +++
  If (λ d, bool_decide (pd_Connected d = "false"))
    (lit "selected")
    nothing +++
  lit ">Disconnected</option>
            </select>
          </div>
          <div class=`field`>
            <label for=`via_gateway`>Via gateway</label>
            <select id=`via_gateway` name=`via_gateway`>
              <option value=`` " +++
  If (λ d, bool_decide (pd_ViaGateway d = ""))
    (lit "selected")
    nothing +++
  lit ">Any</option>
              <option value=`true` " +++
  If (λ d, bool_decide (pd_ViaGateway d = "true"))
    (lit "selected")
    nothing +++
  lit ">Yes</option>
              <option value=`false` " +++
  If (λ d, bool_decide (pd_ViaGateway d = "false"))
    (lit "selected")
    nothing +++
  lit ">No (direct)</option>
            </select>
          </div>
        </div>
        <div class=`filter-actions`>
          <button type=`submit` class=`btn`>Apply</button>
          " +++
  If hasFilter
    (lit "
          <a class=`btn btn-ghost` href=`/`>Clear</a>
          ")
    nothing +++
  lit "
        </div>
      </div>

      <div class=`filters-labels`>
        <div class=`filters-labels-head`>
          <span class=`filters-section-label`>Label filters</span>
          <p class=`field-hint`>
            Type a key, choose <code>=</code> <code>!=</code> <code>=~</code> <code>!~</code>, then a value · click a chip to edit
          </p>
        </div>
        <div class=`matcher-field` data-matcher data-matches=`" +++
  Range Matches
    (Val InAttr (λ m, m) +++
     lit "&#10;") +++
  lit "`>
          <label class=`visually-hidden` for=`matcher-input`>Attribute label filter</label>
          <div class=`matcher-chips` aria-live=`polite`></div>
          <div class=`matcher-wrap`>
            <input
              id=`matcher-input`
              class=`matcher-input`
              type=`text`
              autocomplete=`off`
              spellcheck=`false`
              placeholder=`service.name = otelcol-contrib`
              aria-autocomplete=`list`
              aria-controls=`matcher-suggest`
              aria-expanded=`false`
            >
            <ul id=`matcher-suggest` class=`matcher-suggest` role=`listbox` hidden></ul>
          </div>
        </div>
      </div>
    </form>

    <div
      id=`fleet-table`
      hx-get=`/partials/agents" +++
  Val InAttr (λ d, pollQuery (Query d)) +++
  lit "`
      hx-trigger=`every " +++
  Val InAttr pd_PollInterval +++
  lit "`
      hx-swap=`innerHTML`
      hx-indicator=`.htmx-indicator`
    >
      ".

(** fleet.html. *)
Definition fleet_html : tmpl pageData :=
  fleet_top +++
  partials_agents_html +++
  lit "
    </div>
  </main>
</body>
</html>
".

(** agent.html. *)
Definition agent_html : tmpl pageData :=
  lit "
<!DOCTYPE html>
<html lang=`en`>
<head>" +++
  head_html +++
  lit "</head>
<body>
  " +++
  header_html +++
  lit "
  <main class=`main`>
    <div class=`detail-toolbar`>
      <a class=`back-link` href=`/`>← Fleet</a>
      " +++
  If (λ d, bool_decide (is_Some (pd_Agent d)))
    (lit "
      <button
        type=`button`
        class=`btn btn-ghost`
        hx-get=`/partials/agents/" +++
     Val InAttr (λ d, from_option v_InstanceUID "" (pd_Agent d)) +++
     lit "`
        hx-target=`#agent-detail`
        hx-swap=`innerHTML`
        hx-indicator=`.htmx-indicator`
      >Refresh</button>
      ")
    nothing +++
  lit "
    </div>
    " +++
  If (λ d, bool_decide (is_Some (pd_Agent d)))
    (lit "
    <div id=`agent-detail`>
      " +++
     partials_agent_html +++
     lit "
    </div>
    ")
    nothing +++
  lit "
  </main>
</body>
</html>
".

(** status.html. *)
Definition status_html : tmpl pageData :=
  lit "
<!DOCTYPE html>
<html lang=`en`>
<head>" +++
  head_html +++
  lit "</head>
<body>
  " +++
  header_html +++
  lit "
  <main class=`main`>
    <h1 class=`page-title`>Server status</h1>
    <div
      id=`status-panel`
      hx-get=`/partials/status`
      hx-trigger=`every " +++
  Val InAttr pd_PollInterval +++
  lit "`
      hx-swap=`innerHTML`
      hx-indicator=`.htmx-indicator`
    >
      " +++
  partials_status_html +++
  lit "
    </div>
  </main>
</body>
</html>
".

(** notfound.html. *)
Definition notfound_html : tmpl pageData :=
  lit "
<!DOCTYPE html>
<html lang=`en`>
<head>" +++
  head_html +++
  lit "</head>
<body>
  " +++
  header_html +++
  lit "
  <main class=`main`>
    <div class=`empty`>
      <strong>Agent not found</strong>
      It may have disconnected and been evicted, or the link is stale.
      <p style=`margin-top:16px`><a href=`/`>Back to fleet</a></p>
    </div>
  </main>
</body>
</html>
".

(** The templates the handlers execute, by name. *)
Definition ui_templates : list (string * tmpl pageData) :=
  [("fleet.html", fleet_html); ("partials/agents.html", partials_agents_html);
   ("agent.html", agent_html); ("partials/agent.html", partials_agent_html);
   ("status.html", status_html); ("partials/status.html", partials_status_html);
   ("notfound.html", notfound_html)].

Definition page_templates : Templates := λ name d,
  t ← List.find (λ t, bool_decide (t.1 = name)) ui_templates; Some (exec t.2 d).

End templates.
