(* ===== verification/PagesRead.v ===== *)
(** * Package ui: what a browser reads in the pages

    What the analysis of [Html] says of each template of [Pages], and what a
    reader collects from it: the scripts, the uids in the fleet's table and the
    links of its pager, piece by piece from the states the analysis finds. *)

From Stdlib Require Import Ascii ZArith Lia.
From S2P Require Import Prelude GoLang GoParse GoUrl GoTime Fleet Registry RegistryProps Demo.
From S2P Require Import Filter Api UiLinks UiText YamlDisplay UI Html Pages.
Local Open Scope Z_scope.

(** ** The tags of a safe page *)

(** The scripts, as a reader meets them: the theme's, inline, and four files of
    the static assets. *)
Definition inline_script : list (list (string * buf) + ascii) :=
  inr <$> String.list_ascii_of_string theme_script.

Definition script_files : list (list (string * buf) + ascii) :=
  (λ f, inl [("src", Exact f); ("defer", Exact "")]) <$>
    ["/static/htmx.min.js"; "/static/matcher.js"; "/static/theme.js"; "/static/yaml-highlight.js"].

Definition page_scripts : list (list (string * buf) + ascii) := [inl []] ++ inline_script ++ script_files.

(** A partial has none. *)
Definition scripts_in (name : string) : list (list (string * buf) + ascii) :=
  if starts "partials/" name then [] else page_scripts.

(** Attributes that make a browser, or htmx, fetch or go. *)
Definition link_attr (name : string) : bool := bool_decide (name ∈ ["href"; "src"; "action"; "hx-get"]).

Definition safe_attr (a : string * buf) : bool :=
  negb (starts "on" a.1) &&
  (negb (link_attr a.1) || match a.2 with Exact v => site v | Site => true | Any => false end).

Definition safe_tag (k : token) : bool :=
  match k with Open _ attrs => forallb safe_attr attrs | _ => true end.

Lemma safe_attr_le x y : attr_le x y → safe_attr y = true → safe_attr x = true.
Proof.
  intros [H1 H2]. unfold safe_attr. rewrite H1. destruct (negb (starts "on" y.1)); [|done]. cbn [andb].
  destruct (negb (link_attr y.1)); [done|]. cbn [orb]. destruct y.2 as [s| |]; cbn in H2; [by rewrite H2| |done].
  by destruct H2 as [->|(s & -> & Hs)].
Qed.

Lemma safe_tag_le k k' : token_le k k' → safe_tag k' = true → safe_tag k = true.
Proof.
  intros [c|c|tag l l' Hl|tag]; [done|done| |done]. cbn [safe_tag]. intros Ha.
  rewrite forallb_forall in Ha |- *. intros x Hx. apply list_elem_of_In, list_elem_of_lookup in Hx as [i Hi].
  destruct (Forall2_lookup_l _ _ _ _ _ Hl Hi) as (y & Hi' & Hle). eapply safe_attr_le; [done|].
  apply Ha, list_elem_of_In. by apply list_elem_of_lookup_2 in Hi'.
Qed.

Lemma site_unescape link : site link = true → site (unescape link) = true.
Proof.
  destruct link as [|[[] [] [] [] [] [] [] []] [|c s]]; try done. cbn [site].
  intros Hc. unfold unescape.
  assert (c ≠ "&"%char) as Hne by (intros ->; discriminate Hc).
  assert (reference_at (String c s) = None) as Hr.
  { unfold reference_at, references. cbn [List.find starts fst].
    by rewrite (bool_decide_eq_false_2 ("&"%char = c)) by done. }
  change (unescape_from 0 (String "/" (String c s))) with (String "/" (unescape_from 0 (String c s))).
  cbn [unescape_from]. rewrite Hr. exact Hc.
Qed.

(** What it says of a tag whose attributes are known. *)
Lemma safe_tag_spec tag attrs n v :
  safe_tag (Open tag attrs) = true → exact_token (Open tag attrs) → (n, v) ∈ attrs →
  starts "on" n = false ∧ (link_attr n = true → ∃ link, v = Exact link ∧ site (unescape link) = true).
Proof.
  cbn [safe_tag exact_token]. intros Ha Hex Hin. rewrite forallb_forall in Ha.
  specialize (Ha _ (proj1 (list_elem_of_In _ _) Hin)).
  rewrite Forall_forall in Hex. destruct (Hex _ Hin) as [link Hl]. cbn in Hl. subst v.
  unfold safe_attr in Ha. cbn [fst snd] in Ha. apply andb_true_iff in Ha as [Hon Hl].
  split; [by apply negb_true_iff|]. intros Hn. rewrite Hn in Hl. exists link.
  split; [done|]. by apply site_unescape.
Qed.

(** ** What the analysis says of the templates *)

Section templates.
Context `{MR : MapRange, GS : GoSort} (clock : AgentView → Time).

Lemma sortHref_ok q col s o : value_ok UrlStart (sortHref q col s o) = true.
Proof.
  unfold sortHref. cbv zeta. case_bool_decide; [done|]. cbn [value_ok].
  apply orb_true_iff. right. by destruct (Encode _).
Qed.

Lemma queryWith_ok q k v : value_ok UrlQuery (queryWith q k v) = true.
Proof.
  unfold queryWith. cbv zeta. case_bool_decide; [done|]. cbn [value_ok].
  apply orb_true_iff. right. by destruct (Encode _).
Qed.

Lemma templates_ok t : t ∈ ui_templates clock → values_ok t.2.
Proof.
  unfold ui_templates. rewrite !elem_of_cons, elem_of_nil.
  intros [->|[->|[->|[->|[->|[->|[->|[]]]]]]]]; cbn; repeat split; intros;
    first [reflexivity|apply sortHref_ok|apply queryWith_ok].
Qed.

Lemma templates_checked t : t ∈ ui_templates clock →
  ∃ T, check t.2 [start] = Some ([start], T) ∧ forallb safe_tag T = true.
Proof.
  intros Ht. assert (forallb (λ t, match check t.2 [start] with
    | Some (S1, T) => bool_decide (S1 = [start]) && forallb safe_tag T | None => false end)
    (ui_templates clock) = true) as H by (vm_compute; reflexivity).
  rewrite forallb_forall in H. specialize (H t (proj1 (list_elem_of_In _ _) Ht)).
  destruct (check t.2 [start]) as [[S1 T]|]; [|done].
  apply andb_true_iff in H as [->%bool_decide_eq_true H]. by exists T.
Qed.

End templates.

(** ** The readers *)

(** The uids of the fleet table, as its cells' titles give them. *)
Definition uid_of : token → option string := two_attr "td" "class" "mono" "title".

Definition rows (page : string) : list string := omap uid_of (tokens page).

(** The pager starts at its nav, and its links are the anchors of its class. *)
Definition nav_of : token → option string := two_attr "nav" "class" "pager" "aria-label".
Definition anchor_of : token → option string := two_attr "a" "class" "page-link" "href".

Definition nav_may : token → bool := two_attr_may "nav" "class" "pager" "aria-label".
Definition anchor_may : token → bool := two_attr_may "a" "class" "page-link" "href".

Fixpoint after_nav (l : list token) : list token :=
  match l with
  | [] => []
  | k :: l => match nav_of k with Some _ => l | None => after_nav l end
  end.

Definition links (page : string) : list string := omap anchor_of (after_nav (tokens page)).

Lemma after_nav_skip l l' : omap nav_of l = [] → after_nav (l ++ l') = after_nav l'.
Proof.
  induction l as [|k l IH]; [done|]. cbn [omap list_omap app after_nav].
  by destruct (nav_of k).
Qed.

Lemma after_nav_tail l l' :
  omap nav_of l' = [] → omap anchor_of l' = [] →
  omap anchor_of (after_nav (l ++ l')) = omap anchor_of (after_nav l).
Proof.
  intros Hn Ha. induction l as [|k l IH].
  - pose proof (after_nav_skip l' [] Hn) as H. rewrite app_nil_r in H. cbn [app]. by rewrite H.
  - cbn [app after_nav]. destruct (nav_of k); [|done]. by rewrite omap_app, Ha, app_nil_r.
Qed.

Definition reads_links {D} (t : tmpl D) (S : list state) (g : D → list string) : Prop :=
  ∀ d s, sat S s → omap anchor_of (after_nav (run s (exec t d)).2) = g d.

Lemma links_before {D} (t u : tmpl D) S g :
  values_ok t → quiet nav_may t S = true →
  reads_links u (states_after t S) g → reads_links (Cat t u) S g.
Proof.
  intros Hv Hq Hu d s Hs. cbn [exec]. rewrite run_app. cbn [snd].
  rewrite after_nav_skip by by apply (quiet_reads nav_may nav_of t S (two_attr_covers _ _ _ _) Hv Hq d s Hs).
  apply Hu, states_after_sat; [done| |done]. unfold quiet in Hq. unfold checks. by destruct (check t S).
Qed.

Lemma links_after {D} (t u : tmpl D) S g :
  values_ok t → values_ok u → checks t S = true → reads_links t S g →
  quiet nav_may u (states_after t S) = true →
  quiet anchor_may u (states_after t S) = true → reads_links (Cat t u) S g.
Proof.
  intros Ht Hu Hc Hr Hn Ha d s Hs. cbn [exec]. rewrite run_app. cbn [snd].
  assert (sat (states_after t S) (run s (exec t d)).1) as Hs1 by by apply states_after_sat.
  rewrite after_nav_tail; [by apply Hr|by apply (quiet_reads nav_may nav_of u _ (two_attr_covers _ _ _ _) Hu Hn d)
    |by apply (quiet_reads anchor_may anchor_of u _ (two_attr_covers _ _ _ _) Hu Ha d)].
Qed.

Lemma links_if {D} (b : D → bool) (t u : tmpl D) S g g' :
  reads_links t S g → reads_links u S g' → reads_links (If b t u) S (λ d, if b d then g d else g' d).
Proof. intros Ht Hu d s Hs. cbn [exec]. destruct (b d); auto. Qed.

(** ** The tags around a value *)

Lemma around_run pre post c v s st :
  run s pre = (st, []) → s_mode st = Value →
  run s (String.app pre (String.app (escape c v) post)) =
  run (st <| s_value := buf_app (s_value st) (escape c v) |>) post.
Proof.
  intros Hp Hm. rewrite run_app, Hp. cbn [fst snd app]. rewrite run_app.
  rewrite (run_value st (escape c v)) by (done || apply escape_safe). cbn [fst snd app].
  by destruct (run _ post).
Qed.

Section readers.
Context `{MR : MapRange, GS : GoSort} (clock : AgentView → Time).

Lemma uid_cell_run a tag :
  run (text_after tag) (exec uid_cell a) =
  (text_after "td", [Open "td" [("class", Exact "mono"); ("title", Exact (htmlEscape (v_InstanceUID a)))]]).
Proof.
  unfold uid_cell, lit. cbn [exec].
  erewrite around_run; [|vm_compute; reflexivity|reflexivity].
  cbn [s_value]. rewrite buf_app_Exact. reflexivity.
Qed.

Lemma uid_cell_reads S :
  forallb text_state S = true → reads uid_of uid_cell S (λ a, [denul (v_InstanceUID a)]).
Proof.
  intros HS a s Hs. rewrite (sat_text S s HS Hs), uid_cell_run. cbn [snd omap list_omap].
  unfold uid_of, two_attr. rewrite bool_decide_eq_true_2 by done. by rewrite unescape_htmlEscape.
Qed.

Lemma page_anchor_run p tag :
  let link := queryWith (Query p.1) "offset" (Itoa (pageOffset p.2 (Limit p.1))) in
  run (text_after tag) (exec page_anchor p) =
  (text_after "a", [Open "a" [("class", Exact "page-link"); ("href", Exact (String "/" (htmlEscape (urlNormalize link))))]]).
Proof.
  cbv zeta. unfold page_anchor, lit. cbn [exec].
  erewrite around_run; [|vm_compute; reflexivity|reflexivity].
  cbn [s_value]. rewrite buf_app_Exact. reflexivity.
Qed.

(** A link of the pager is made of escaped pairs: normalizing keeps it. *)
Lemma QueryEscape_stable v : stable (QueryEscape v).
Proof.
  induction v as [|c v IH]; [apply stable_nil|]. cbn [QueryEscape].
  destruct (unreserved c) eqn:Hc; [|case_bool_decide].
  - apply stable_cons; [|done]. by destruct c as [[] [] [] [] [] [] [] []].
  - by apply stable_cons.
  - cbv zeta. apply stable_triple; [| |done]; by destruct c as [[] [] [] [] [] [] [] []].
Qed.

Lemma Encode_stable q : stable (Encode q).
Proof.
  unfold Encode. induction (query_pairs q) as [|[k v] l IH]; [apply stable_nil|].
  assert (stable (encode_pair (k, v))) as Hp.
  { apply stable_app; [apply QueryEscape_stable|]. apply stable_cons; [done|apply QueryEscape_stable]. }
  destruct l as [|p l]; [done|].
  change (string_join "&" (encode_pair <$> (k, v) :: p :: l)) with
    (String.app (encode_pair (k, v)) (String "&" (string_join "&" (encode_pair <$> p :: l)))).
  apply stable_app; [done|]. by apply stable_cons.
Qed.

Lemma queryWith_normal q k v : urlNormalize (queryWith q k v) = queryWith q k v.
Proof.
  apply stable_id. unfold queryWith. cbv zeta. case_bool_decide; [apply stable_nil|].
  apply stable_cons; [done|apply Encode_stable].
Qed.

Definition page_link_of (p : pageData * Z) : string :=
  String "/" (queryWith (Query p.1) "offset" (Itoa (pageOffset p.2 (Limit p.1)))).

Lemma page_anchor_reads S :
  forallb text_state S = true → reads anchor_of page_anchor S (λ p, [page_link_of p]).
Proof.
  intros HS p s Hs. rewrite (sat_text S s HS Hs), page_anchor_run. cbn [snd omap list_omap].
  unfold anchor_of, two_attr. rewrite bool_decide_eq_true_2 by done.
  change (unescape (String "/" ?x)) with (String "/" (unescape x)).
  by rewrite unescape_link, queryWith_normal.
Qed.

(** ** The pieces, from the states the analysis finds before them *)

Ltac ok := cbn; repeat split; intros; first [reflexivity|apply sortHref_ok|apply queryWith_ok].
Ltac by_quiet :=
  eapply quiet_reads; [first [apply two_attr_covers|apply script_covers]|ok|vm_compute; reflexivity].
Ltac checked := vm_compute; reflexivity.
Ltac piece := apply reads_cat; [ok|checked| |].

Lemma row_reads :
  reads uid_of (agent_row clock) [text_after "tbody"; text_after ""] (λ a, [denul (v_InstanceUID a)]).
Proof.
  eapply reads_ext; [|unfold agent_row; piece; [by_quiet|piece; [apply uid_cell_reads; vm_compute; reflexivity|by_quiet]]].
  done.
Qed.

Lemma table_reads :
  reads uid_of (fleet_table clock) [text_after "div"] (λ d, (λ a, denul (v_InstanceUID a)) <$> Agents d).
Proof.
  eapply reads_ext; [|unfold fleet_table; piece; [by_quiet|piece; [|by_quiet]]].
  2:{ apply reads_range; [ok|checked|]. intros S' ->.
      replace (either _ _) with [text_after "tbody"; text_after ""] by (vm_compute; reflexivity).
      apply row_reads. }
  intros d. cbn. rewrite app_nil_r. induction (Agents d) as [|a l IH]; [done|]. cbn. by f_equal.
Qed.

Definition agents_top_rows (d : pageData) : list string :=
  if Total d =? 0 then [] else (λ a, denul (v_InstanceUID a)) <$> Agents d.

Lemma agents_top_reads S :
  S ∈ [[start]; [text_after "div"]] → reads uid_of (partials_agents_html clock) S agents_top_rows.
Proof.
  intros HS. rewrite !elem_of_cons in HS. destruct HS as [->|[->|[]%not_elem_of_nil]].
  all: eapply reads_ext; [|unfold partials_agents_html; piece; [unfold agents_top|by_quiet];
    piece; [by_quiet|]; piece; [by_quiet|]; piece; [by_quiet|]; piece;
      [apply reads_if; [by_quiet|
        match goal with |- reads _ _ ?S _ => replace S with [text_after "div"] by (vm_compute; reflexivity) end;
        apply table_reads]|by_quiet]].
  all: intros d; cbn; by rewrite !app_nil_r.
Qed.

Lemma fleet_reads : reads uid_of (fleet_html clock) [start] agents_top_rows.
Proof.
  eapply reads_ext; [|unfold fleet_html; piece; [by_quiet|piece; [|by_quiet]]].
  2:{ match goal with |- reads _ _ ?S _ => replace S with [text_after "div"] by (vm_compute; reflexivity) end.
      apply agents_top_reads. right. by left. }
  intros d. cbn. by rewrite app_nil_r.
Qed.

(** A number of the pager: the page's own is no link. *)
Definition number_links (p : pageData * Z) : list string :=
  if p.2 =? pageNum (Offset p.1) (Limit p.1) then [] else [page_link_of p].

Lemma page_number_reads :
  reads anchor_of page_number [text_after "nav"; text_after ""] number_links.
Proof.
  eapply reads_ext; [|unfold page_number; piece; [by_quiet|piece; [apply reads_if|by_quiet]]].
  2: by_quiet.
  2:{ unfold page_link. piece; [by_quiet|piece; [apply page_anchor_reads; vm_compute; reflexivity|by_quiet]]. }
  intros p. cbn. unfold number_links. by destruct (_ =? _).
Qed.

Definition pager_links (d : pageData) : list string :=
  pageList (Total d) (Limit d) ≫= λ p, number_links (d, p).

(** After the nav, whose tag is found first. *)
Lemma links_nav (u : tmpl pageData) S g :
  forallb text_state S = true → reads anchor_of u [text_after "nav"] g → reads_links (pager_nav +++ u)%tmpl S g.
Proof.
  intros HS Hu d s Hs. rewrite (sat_text S s HS Hs). cbn [exec]. rewrite run_app.
  change (run (text_after (s_tag s)) (exec pager_nav d)) with
    (text_after "nav", [Open "nav" [("class", Exact "pager"); ("aria-label", Exact "Pagination")]]).
  apply Hu. exists (text_after "nav"). split; [by left|done].
Qed.

Lemma pager_reads : reads_links pager [text_after ""] pager_links.
Proof.
  unfold pager. apply links_before; [ok|vm_compute; reflexivity|].
  apply links_nav; [vm_compute; reflexivity|].
  eapply reads_ext; [|piece; [by_quiet|]; piece; [by_quiet|]; piece; [|by_quiet]].
  2:{ apply reads_range; [ok|checked|]. intros S' ->.
      replace (either _ _) with [text_after "nav"; text_after ""] by (vm_compute; reflexivity).
      apply page_number_reads. }
  intros d. cbn. rewrite app_nil_r. unfold pager_links.
  induction (pageList _ _) as [|p l IH]; [done|]. cbn. by f_equal.
Qed.

(** The pager is shown from two pages on. *)
Definition shown_links (d : pageData) : list string :=
  if 1 <? zlen (pageList (Total d) (Limit d)) then pager_links d else [].

Lemma agents_links S :
  S ∈ [[start]; [text_after "div"]] → reads_links (partials_agents_html clock) S shown_links.
Proof.
  intros HS. rewrite !elem_of_cons in HS. destruct HS as [->|[->|[]%not_elem_of_nil]].
  all: unfold partials_agents_html; apply links_before; [ok|vm_compute; reflexivity|];
    match goal with |- reads_links _ ?S _ => replace S with [text_after ""] by (vm_compute; reflexivity) end;
    apply links_after; [ok|ok|checked|apply links_if; [apply pager_reads|]
      |vm_compute; reflexivity|vm_compute; reflexivity].
  all: intros d s Hs; cbn [exec]; done.
Qed.

Lemma fleet_links : reads_links (fleet_html clock) [start] shown_links.
Proof.
  unfold fleet_html. apply links_before; [ok|vm_compute; reflexivity|].
  match goal with |- reads_links _ ?S _ => replace S with [text_after "div"] by (vm_compute; reflexivity) end.
  apply links_after; [ok|ok|checked|apply agents_links; right; by left
    |vm_compute; reflexivity|vm_compute; reflexivity].
Qed.

(** ** The scripts of the templates *)

Ltac literal l := apply (reads_lit _ _ _ l); vm_compute; reflexivity.

Lemma head_scripts : reads script_of head_html [text_after "head"] (λ _, page_scripts).
Proof.
  unfold head_html, lit. eapply reads_ext;
    [|piece; [by_quiet|]; piece; [by_quiet|]; piece; [|piece]].
  2: literal ([inl []] : list (list (string * buf) + ascii)).
  2: literal inline_script.
  2: literal script_files.
  done.
Qed.

Ltac at_head :=
  match goal with |- reads _ head_html ?S _ =>
    replace S with [text_after "head"] by (vm_compute; reflexivity); apply head_scripts end.

Lemma templates_scripts t :
  t ∈ ui_templates clock → reads script_of t.2 [start] (λ _, scripts_in t.1).
Proof.
  unfold ui_templates. rewrite !elem_of_cons, elem_of_nil.
  intros [->|[->|[->|[->|[->|[->|[->|[]]]]]]]]; cbn [fst snd].
  - eapply reads_ext; [|unfold fleet_html, fleet_top; piece; [piece; [by_quiet|piece; [at_head|by_quiet]]|by_quiet]].
    intros d. cbv beta. cbn [app]. by rewrite app_nil_r.
  - by_quiet.
  - eapply reads_ext; [|unfold agent_html; piece; [by_quiet|piece; [at_head|by_quiet]]].
    intros d. cbv beta. cbn [app]. by rewrite app_nil_r.
  - by_quiet.
  - eapply reads_ext; [|unfold status_html; piece; [by_quiet|piece; [at_head|by_quiet]]].
    intros d. cbv beta. cbn [app]. by rewrite app_nil_r.
  - by_quiet.
  - eapply reads_ext; [|unfold notfound_html; piece; [by_quiet|piece; [at_head|by_quiet]]].
    intros d. cbv beta. cbn [app]. by rewrite app_nil_r.
Qed.

Lemma sat_start : sat [start] start.
Proof. exists start. split; [by left|done]. Qed.

End readers.
