(* ===== verification/PagesThms.v ===== *)
(** * Package ui: the pages are safe, and show the fleet

    [pages_stay_safe]: no value put in a page leaves the text or the attribute
    it was put in.  [fleet_pages_read]: the fleet page's table and pager, read
    and followed, show each selected agent once. *)

From Stdlib Require Import Ascii ZArith Lia.
From S2P Require Import Prelude GoLang GoParse GoUrl GoTime Fleet Registry RegistryProps Demo.
From S2P Require Import Filter Api UiLinks UiText YamlDisplay UI Html Pages PagesRead.
Local Open Scope Z_scope.

Section claims.
Context `{PB : Protobuf, UU : UUID, MR : MapRange, GS : GoSort, RE : Regexp, UN : Unicode}
        (bits : CapabilityBits) (clock : AgentView → Time).

#[local] Instance pages : Templates := page_templates clock.

(** ** Lemmas *)

Lemma template_executes name t d :
  (name, t) ∈ ui_templates clock → ExecuteTemplate name d = Some (exec t d).
Proof.
  unfold ui_templates. rewrite !elem_of_cons, elem_of_nil.
  by intros [[= -> ->]|[[= -> ->]|[[= -> ->]|[[= -> ->]|[[= -> ->]|[[= -> ->]|[[= -> ->]|[]]]]]]]].
Qed.

Lemma sim_refl s : sim s s.
Proof. done. Qed.

Lemma fleet_page_shown h now db q r data :
  (fleetData bits h now db q r).1 = inr data →
  ∃ page, (fleetPage bits h now db q r).1 = UI.Html 200 page ∧
    rows page = agents_top_rows data ∧ links page = shown_links data.
Proof.
  intros Hd. unfold fleetPage. rewrite fst_bind, Hd. cbn [fst mret writer_ret].
  set (d := data <| Title := "Fleet" |> <| Nav := "fleet" |>).
  pose proof (fleet_reads clock d start sat_start) as Hrows.
  pose proof (fleet_links clock d start sat_start) as Hlinks.
  exists (exec (fleet_html clock) d). split; [done|].
  unfold rows, links, tokens. rewrite Hrows, Hlinks. split; reflexivity.
Qed.

Lemma number_links_link d p :
  number_links (d, p) = if p =? pageNum (Offset d) (Limit d) then []
    else [String.app "/" (queryWith (Query d) "offset" (Itoa (pageOffset p (Limit d))))].
Proof. done. Qed.

(** The first page's number, and the others. *)
Lemma pageList_first total limit :
  0 < total → 0 < limit → total + limit ≤ int64_max →
  ∃ rest, pageList total limit = 1 :: rest ∧ (1 ∉ rest) ∧ pageNum 0 limit = 1.
Proof.
  intros Ht Hl Hm. destruct (pageCount_spec total limit Ht Hl Hm) as (H1 & H2 & H3).
  unfold pageList. set (n := pageCount total limit) in *. assert (1 ≤ n) as Hn by nia.
  destruct (Z.eqb_spec n 0); [lia|].
  replace (Z.to_nat n) with (S (Z.to_nat n - 1)) by lia. cbn [seq fmap list_fmap].
  eexists. split; [reflexivity|]. split.
  - intros (i & Hi & Hin%elem_of_seq)%list_elem_of_fmap. lia.
  - unfold pageNum. destruct (Z.leb_spec limit 0); [lia|]. by rewrite Z.quot_0_l by lia.
Qed.

Lemma shown_links_first d :
  0 < Total d → 0 < Limit d → Total d + Limit d ≤ int64_max → Offset d = 0 →
  ∃ rest, pageList (Total d) (Limit d) = 1 :: rest ∧
    shown_links d = (λ p, String.app "/" (queryWith (Query d) "offset" (Itoa (pageOffset p (Limit d))))) <$> rest.
Proof.
  intros Ht Hl Hm Ho. destruct (pageList_first (Total d) (Limit d) Ht Hl Hm) as (rest & Hp & Hrest & Hnum).
  exists rest. split; [done|]. unfold shown_links, pager_links. rewrite Hp.
  destruct rest as [|p rest]; [done|].
  destruct (Z.ltb_spec 1 (zlen (1 :: p :: rest))) as [_|Hlt]; [|cbn in Hlt; lia].
  rewrite bind_cons, number_links_link, Ho, Hnum, Z.eqb_refl. cbn [app].
  clear Hp. induction (p :: rest) as [|x xs IH]; [done|].
  apply not_elem_of_cons in Hrest as [Hx Hxs]. rewrite bind_cons, number_links_link, Ho, Hnum.
  destruct (Z.eqb_spec x 1); [done|]. rewrite fmap_cons, IH by done. done.
Qed.

(** ** The claims *)

(** C32: no value can change a page.  Every template executes on any data, so
    no page answers with a template error.  A reader of the page ends outside
    any tag, and finds the tags, with the names of their attributes, that it
    would find were every value empty: the markup is the templates' own.  It
    finds exactly their scripts, the inline text included, no event handler,
    and no link that leaves the site - whatever agents report and whatever the
    query says. *)
Theorem pages_stay_safe name t d :
  (name, t) ∈ ui_templates clock →
  let page := exec t d in
  ExecuteTemplate name d = Some page ∧ (run start page).1 = start ∧
  omap shape (tokens page) = omap shape (tokens (blank t d)) ∧
  omap script_of (tokens page) = scripts_in name ∧
  ∀ tag attrs n v, Open tag attrs ∈ tokens page → (n, v) ∈ attrs →
    starts "on" n = false ∧ (link_attr n = true → ∃ link, v = Exact link ∧ site (unescape link) = true).
Proof.
  intros Ht page. destruct (templates_checked clock _ Ht) as (T & Hc & HT).
  pose proof (templates_ok clock _ Ht) as Hv. cbn [snd] in Hc, Hv.
  destruct (check_sound t _ _ _ Hv Hc d start sat_start) as [Hs Htags].
  destruct (run_exact page start) as [_ Hx]; [split; [constructor|by eexists]|].
  split; [by apply template_executes|]. split.
  { unfold page. apply (sat_text [start]) in Hs as Hs'; [|done].
    destruct Hs as (a & ->%list_elem_of_singleton & Hle). by rewrite Hs', (le_tag _ _ Hle). }
  split; [apply (check_value_free t _ _ _ Hv Hc d start start sat_start (sim_refl start))|].
  split; [by apply (templates_scripts clock _ Ht d start sat_start)|].
  intros tag attrs n v Hk. apply (safe_tag_spec tag).
  - destruct (Htags _ Hk I) as (k' & Hin & Hle). eapply safe_tag_le; [done|].
    rewrite forallb_forall in HT. by apply HT, list_elem_of_In.
  - rewrite Forall_forall in Hx. by apply (Hx (Open tag attrs)).
Qed.

(** C31: what a browser sees of the fleet.  The fleet page of an accepted
    query, asked for from its start, lists in its table the agents of its first
    page; and following the links of its pager, each page it leads to read the
    same way, shows every agent the query selects exactly once, in the order it
    asks for. *)
Theorem fleet_pages_read h now db q r data :
  query_ok q → zlen (query_pairs q) < defaultMaxParams →
  (fleetData bits h now db q r).1 = inr data → Offset data = 0 → Total data + maxLimit ≤ int64_max →
  let show q := (fleetPage bits h now db q r).1 in
  let follow link := match show (link_query link) with UI.Html _ page => rows page | TextError _ _ => [] end in
  ∃ page f, show q = UI.Html 200 page ∧ ParseFilters q = inr f ∧
    rows page = (λ v, denul (v_InstanceUID v)) <$> Agents data ∧
    rows page ++ (links page ≫= follow) =
      (λ a, denul (InstanceUID a)) <$> arranged q (selected (merged_agents now db r).1.1 f).
Proof.
  intros Hq Hn Hdata Hoff Hm show follow.
  destruct (fleetData_inv _ _ _ _ _ _ _ Hdata) as (limit & offset & f & Hp & Hf & Ht & Hlim).
  destruct (fleet_page_shown h now db q r data Hdata) as (page & Hshow & Hrows & Hlinks).
  exists page, f. split; [done|]. split; [done|].
  set (l := selected (merged_agents now db r).1.1 f) in *.
  pose proof Hp as Hb. rewrite parsePagination_agrees in Hb.
  apply parsePagination_bounds in Hb as [Hb _]. unfold Api.maxLimit, maxLimit in *.
  pose proof Hdata as Hd. rewrite (fleetData_ok bits h now db q r limit offset f Hp Hf) in Hd
    by (unfold maxLimit; fold l; lia).
  fold l in Hd. injection Hd as Hd. assert (offset = 0) as -> by (by rewrite <-Hoff, <-Hd).
  assert (Agents data = SummaryView bits <$> take (Z.to_nat limit) (arranged q l)) as Hag by (by rewrite <-Hd).
  assert (Query data = q) as Hquery by (by rewrite <-Hd). clear Hd.
  pose proof (arranged_length q l) as Hal.
  assert (zlen l = 0 → arranged q l = []) as Hnil by (intros; apply nil_length_inv; lia).
  assert (rows page = (λ v, denul (v_InstanceUID v)) <$> Agents data) as Hr.
  { rewrite Hrows. unfold agents_top_rows. rewrite Ht. destruct (Z.eqb_spec (zlen l) 0) as [Hz|]; [|done].
    rewrite Hag, Hnil by done. by rewrite take_nil. }
  split; [done|]. rewrite Hr, Hlinks.
  destruct (decide (zlen l = 0)) as [Hz|Hz].
  { rewrite Hag, Hnil, take_nil by done. unfold shown_links. by rewrite Ht, Hz. }
  destruct (shown_links_first data) as (rest & Hpl & ->); [lia..|done|].
  rewrite Ht, Hlim, Hquery in *.
  rewrite <-(pages_partition (arranged q l) limit) at 1 by lia.
  assert (∀ p, p ∈ pageList (zlen l) limit →
    follow (String.app "/" (queryWith q "offset" (Itoa (pageOffset p limit)))) =
    (λ a, denul (InstanceUID a)) <$> take (Z.to_nat limit) (drop (Z.to_nat (pageOffset p limit)) (arranged q l)))
    as Hfollow.
  { intros p Hin. destruct (followed_page bits h now db q r limit 0 f p Hq Hn Hp Hf)
      as (d & Hd & Htd & _ & _ & Had); [lia|unfold maxLimit; fold l; lia|unfold maxLimit; lia|done|].
    fold l in Htd, Had. destruct (fleet_page_shown h now db _ r d Hd) as (page' & Hs & Hr' & _).
    unfold follow, show. rewrite Hs, Hr'. unfold agents_top_rows.
    destruct (Z.eqb_spec (Total d) 0); [lia|]. rewrite Had. by rewrite <-list_fmap_compose. }
  rewrite Hal. rewrite Hpl in Hfollow |- *. rewrite bind_cons, fmap_app. f_equal.
  - rewrite Hag, <-list_fmap_compose. f_equal. unfold pageOffset. rewrite (proj2 (Z.leb_gt limit 0)) by lia. done.
  - assert (∀ p, p ∈ rest → p ∈ 1 :: rest) as Hsub by (intros; by right). revert Hsub Hfollow.
    generalize (1 :: rest). clear Hpl. intros ps. induction rest as [|p rest IH]; intros Hsub Hfollow; [done|].
    rewrite fmap_cons, !bind_cons, fmap_app, Hfollow by (apply Hsub; left). f_equal.
    apply IH; [|done]. intros p' Hp'. apply Hsub. by right.
Qed.

End claims.

(** ** Witnesses *)

Definition clock0 : AgentView → Time := λ _, 0.

(** A title and a filter that try to end the page's own markup. *)
Definition hostile : pageData :=
  zero_pageData <| Title := "</title><script>alert(1)</script>" |>
    <| Matches := [String dquote_char " onload=alert(1) x="] |>.

Lemma pages_stay_safe_witness :
  let page := exec (fleet_html clock0) hostile in
  ExecuteTemplate (Templates := page_templates clock0) "fleet.html" hostile = Some page ∧
  omap script_of (tokens page) = page_scripts ∧ Open "script" [("onload", Exact "alert(1)")] ∉ tokens page.
Proof.
  destruct (pages_stay_safe clock0 "fleet.html" (fleet_html clock0) hostile ltac:(by left))
    as (He & _ & _ & Hs & Ha).
  split; [exact He|]. split; [exact Hs|]. intros Hin.
  destruct (Ha _ _ "onload" (Exact "alert(1)") Hin ltac:(by left)) as [Hon _]. discriminate Hon.
Defined.

(** Two agents, a page each. *)
Lemma fleet_pages_read_witness :
  ∃ page, (fleetPage (TM := page_templates clock0) bits1 handler1 0 db1 query1 reg1).1 = UI.Html 200 page ∧
    length (rows page ++ (links page ≫= λ link,
      match (fleetPage (TM := page_templates clock0) bits1 handler1 0 db1 (link_query link) reg1).1 with
      | UI.Html _ p => rows p
      | TextError _ _ => []
      end)) = 2%nat.
Proof.
  destruct fleet1 as (data & E & Ht & _ & _).
  destruct (fleet_pages_read bits1 clock0 handler1 0 db1 query1 reg1 data query_ok1)
    as (page & f & Hs & Hf & _ & Hall).
  - vm_compute. reflexivity.
  - exact E.
  - vm_compute in E. injection E as <-. reflexivity.
  - rewrite Ht. vm_compute. discriminate.
  - exists page. split; [exact Hs|].
    etransitivity; [exact (f_equal length Hall)|].
    vm_compute in Hf. injection Hf as <-. vm_compute. reflexivity.
Defined.
