(* ===== verification/Process.v ===== *)
(** * cmd/grex: starting, serving and shutting down

    [run] of cmd/grex/main.go as the steps it performs, in order.  What may
    fail is an argument ([Outcome]: the flags, the pool, the clients, what ends
    the wait); configuration loading and the server are those of [Config] and
    [Server].  A deferred call is [with_defer], so that early returns unwind as
    Go unwinds them.  [perform] gives the steps their effect on a process, and
    the theorems are about every state a run passes through. *)

From Stdlib Require Import ZArith Lia.
From S2P Require Import Prelude GoLang Config Server.
Local Open Scope Z_scope.

(** ** Steps *)

(** The goroutines [persistWG] waits for. *)
Inductive worker := RegistryRun | FlusherRun | SnapshotterRun.

#[export] Instance worker_eq_dec : EqDecision worker.
Proof. solve_decision. Defined.

Inductive Step :=
  | OpenPool
  | ClosePool
  | StartServer (s : Server)
  | StartWorker (w : worker)
  | StartPurge
  | StopPurge
  | StartRiverUI
  | StopNotify
  | DrainHandler
  | DrainServer
  | Sleep (d : Duration)
  | CancelPersist
  | WaitWorkers
  | ShutdownServer.

(** [defer d(); body]. *)
Definition with_defer {A} (d : Step) (body : writer Step A) : writer Step A :=
  a ← body; _ ← emit d; mret a.

(** What the flags, the libraries and the operating system answer. *)
Record Outcome := mkOutcome {
  o_flags : option string;          (* fs.Parse: the config path *)
  o_pool : bool;                    (* pgxpool.New *)
  o_purge_client : bool;            (* persistence.NewPurgeClient *)
  o_attach : bool;                  (* opampHandler.Attach *)
  o_ui : bool;                      (* ui.New *)
  o_river_ui : bool;                (* mountRiverUI *)
  o_purge_start : bool;             (* purgeClient.Start *)
  o_river_start : bool;             (* riverUIHandler.Start *)
  o_fatal : option error            (* srv.Fatal's error; None is a signal *)
}.

Definition drainDelay : Duration := 5 * Second.

Section run.
Context `{MR : MapRange} (n : Net) (w : World) (decode : string → Config.Config → option Config.Config).

(** [shutdown(srv)]: the errors of the listeners that did not stop in time. *)
Definition shutdown (s : Server) : writer Step (option error) :=
  _ ← emit ShutdownServer;
  mret (match (Shutdown n s).1 with [] => None | e :: _ => Some e end).

(** The select at the end of [run]. *)
Definition await (o : Outcome) (s : Server) : writer Step (option error) :=
  match o_fatal o with
  | None =>
      _ ← emit DrainHandler;
      _ ← emit DrainServer;
      _ ← emit (Sleep drainDelay);
      _ ← emit CancelPersist;
      _ ← emit WaitWorkers;
      shutdown (BeginDraining s)
  | Some err =>
      _ ← emit CancelPersist;
      _ ← emit WaitWorkers;
      _ ← shutdown s;
      mret (Some err)
  end.

(** From [srv.Start] on. *)
Definition serve (o : Outcome) (db : bool) (s : Server) : writer Step (option error) :=
  match Start n s with
  | (Some err, _) => mret (Some err)
  | (None, s) =>
      _ ← emit (StartServer s);
      with_defer StopNotify (with_defer CancelPersist (
        _ ← emit (StartWorker RegistryRun);
        if db then
          _ ← emit (StartWorker FlusherRun);
          _ ← emit (StartWorker SnapshotterRun);
          if negb (o_purge_start o) then mret (Some "start purge client") else
          _ ← emit StartPurge;
          if negb (o_river_start o) then mret (Some "start river ui") else
          _ ← emit StartRiverUI;
          with_defer StopPurge (await o s)
        else await o s))
  end.

(** The registry, the handler, the API and the UI on their mux. *)
Definition wire (o : Outcome) (db : bool) (cfg : Config.Config) : writer Step (option error) :=
  if negb (o_attach o) then mret (Some "attach")
  else if negb (o_ui o) then mret (Some "ui")
  else if db && negb (o_river_ui o) then mret (Some "river ui")
  else serve o db (New cfg (mkMounts true true)).

Definition run (o : Outcome) : writer Step (option error) :=
  match o_flags o with
  | None => mret (Some "flags")
  | Some configPath =>
      match Load decode w configPath with
      | inl err => mret (Some err)
      | inr cfg =>
          if bool_decide (db_Host (c_Database cfg) ≠ "") then
            if negb (o_pool o) then mret (Some "database")
            else
              _ ← emit OpenPool;
              with_defer ClosePool (
                if negb (o_purge_client o) then mret (Some "purge client")
                else wire o true cfg)
          else wire o false cfg
      end
  end.

(** [main]: the exit status. *)
Definition main (o : Outcome) : Z :=
  match (run o).1 with None => 0 | Some _ => 1 end.

End run.

(** [newLogger]: the level's threshold and whether records are JSON. *)
Inductive slog_Level := LevelDebug | LevelInfo | LevelWarn | LevelError.

Definition newLogger (cfg : Log) : slog_Level * bool :=
  let level :=
    if bool_decide (Level cfg = "debug") then LevelDebug
    else if bool_decide (Level cfg = "warn") then LevelWarn
    else if bool_decide (Level cfg = "error") then LevelError
    else LevelInfo in
  (level, bool_decide (Format cfg = "json")).

(** ** The process *)

Record Process := mkProcess {
  pool_open : bool;
  server : option Server;        (* started, and not yet shut down *)
  refusing : bool;               (* the OpAMP handler drains *)
  workers : list worker;         (* running *)
  cancelled : bool;              (* persistCtx *)
  purging : bool
}.

#[export] Instance eta_Process : Eta Process := λ p,
  mkProcess (pool_open p) (server p) (refusing p) (workers p) (cancelled p) (purging p).

Definition idle : Process := mkProcess false None false [] false false.

(** Waiting returns when every worker has done its final flush. *)
Definition perform (p : Process) (s : Step) : Process :=
  match s with
  | OpenPool => p <| pool_open := true |>
  | ClosePool => p <| pool_open := false |>
  | StartServer s => p <| server := Some s |>
  | StartWorker w => p <| workers := workers p ++ [w] |>
  | StartPurge => p <| purging := true |>
  | StopPurge => p <| purging := false |>
  | DrainHandler => p <| refusing := true |>
  | DrainServer => p <| server := BeginDraining <$> server p |>
  | CancelPersist => p <| cancelled := true |>
  | WaitWorkers => p <| workers := [] |>
  | ShutdownServer => p <| server := None |>
  | StartRiverUI | StopNotify | Sleep _ => p
  end.

(** The states a trace passes through, from the initial one. *)
Fixpoint states (p : Process) (l : list Step) : list Process :=
  p :: match l with [] => [] | s :: l => states (perform p s) l end.

(** A worker that writes to the database. *)
Definition writes_db (x : worker) : bool :=
  match x with RegistryRun => false | FlusherRun | SnapshotterRun => true end.

(** ** Lemmas *)

Lemma with_defer_trace {A} d (body : writer Step A) :
  (with_defer d body).1 = body.1 ∧ (with_defer d body).2 = body.2 ++ [d].
Proof. unfold with_defer. rewrite fst_bind, snd_bind. by destruct body. Qed.

(** The traces a run can leave, once its clients start. *)
Section cases.
Context `{MR : MapRange} (n : Net) (w : World) (decode : string → Config.Config → option Config.Config).

(** The steps from the wait to the return of [serve]'s body. *)
Definition wind_down (fatal : option error) : list Step :=
  match fatal with
  | None => [DrainHandler; DrainServer; Sleep drainDelay; CancelPersist; WaitWorkers; ShutdownServer]
  | Some _ => [CancelPersist; WaitWorkers; ShutdownServer]
  end.

Lemma await_trace o s : (await n o s).2 = wind_down (o_fatal o).
Proof. unfold await, shutdown, wind_down. by destruct (o_fatal o). Qed.

Lemma serve_trace o db s :
  o_purge_start o = true → o_river_start o = true →
  (serve n o db s).2 = [] ∨ ∃ s', (serve n o db s).2 =
    [StartServer s'; StartWorker RegistryRun] ++
    (if db then [StartWorker FlusherRun; StartWorker SnapshotterRun; StartPurge; StartRiverUI] else []) ++
    wind_down (o_fatal o) ++ (if db then [StopPurge] else []) ++ [CancelPersist; StopNotify].
Proof.
  intros Hp Hr. unfold serve. destruct (Start n s) as [[err|] s']; [by left|right].
  exists s'. rewrite Hp, Hr. cbn [negb]. rewrite snd_bind.
  rewrite !(proj2 (with_defer_trace _ _)). rewrite snd_bind. destruct db.
  - rewrite !snd_bind, (proj2 (with_defer_trace _ _)), await_trace.
    cbn [fst snd emit app]. by rewrite <-!app_assoc.
  - rewrite await_trace. cbn [fst snd emit app]. by rewrite <-!app_assoc.
Qed.

Lemma wire_trace o db cfg (P : list Step → Prop) :
  P [] → (∀ s, P (serve n o db s).2) → P (wire n o db cfg).2.
Proof.
  intros H0 Hs. unfold wire. destruct (o_attach o); [|done]. destruct (o_ui o); [|done].
  cbn [negb]. destruct (db && negb (o_river_ui o)); [done|apply Hs].
Qed.

Definition serving (s : Server) (db : bool) (fatal : option error) : list Step :=
  [StartServer s; StartWorker RegistryRun] ++
  (if db then [StartWorker FlusherRun; StartWorker SnapshotterRun; StartPurge; StartRiverUI] else []) ++
  wind_down fatal ++ (if db then [StopPurge] else []) ++ [CancelPersist; StopNotify].

(** With a database or without, served or not. *)
Lemma run_cases o (P : list Step → Prop) :
  o_purge_start o = true → o_river_start o = true →
  P [] → P [OpenPool; ClosePool] →
  (∀ s, P (serving s false (o_fatal o))) →
  (∀ s, P (OpenPool :: serving s true (o_fatal o) ++ [ClosePool])) →
  P (run n w decode o).2.
Proof.
  intros Hp Hr H0 H1 Hs Hd. unfold run. destruct (o_flags o) as [path|]; [|done].
  destruct (Load decode w path) as [err|cfg]; [done|]. case_bool_decide.
  - destruct (o_pool o); [|done]. cbn [negb]. rewrite snd_bind, (proj2 (with_defer_trace _ _)).
    destruct (o_purge_client o); [|done]. cbn [negb].
    apply (wire_trace o true cfg (λ t, P ([OpenPool] ++ t ++ [ClosePool]))); [done|].
    intros s. destruct (serve_trace o true s Hp Hr) as [->|[s' ->]]; [exact H1|exact (Hd s')].
  - apply (wire_trace o false cfg P); [done|].
    intros s. destruct (serve_trace o false s Hp Hr) as [->|[s' ->]]; [exact H0|exact (Hs s')].
Qed.

(** The client that does not start, its error, and what was started before. *)
Definition client_error (o : Outcome) : option (error * list Step) :=
  if negb (o_purge_start o) then Some ("start purge client", [])
  else if negb (o_river_start o) then Some ("start river ui", [StartPurge])
  else None.

(** The trace such a run leaves behind its server. *)
Definition abandoned (s : Server) (started : list Step) : list Step :=
  [StartServer s; StartWorker RegistryRun; StartWorker FlusherRun; StartWorker SnapshotterRun] ++
  started ++ [CancelPersist; StopNotify].

Lemma serve_outcome o db s :
  (serve n o db s).2 = [] ∨
  ∃ s', match (if db : bool then client_error o else None) with
    | Some (err, started) => serve n o db s = (Some err, abandoned s' started)
    | None => (serve n o db s).2 = serving s' db (o_fatal o)
    end.
Proof.
  destruct (if db then client_error o else None) as [[err started]|] eqn:Hc.
  - destruct db; [|done]. unfold serve. destruct (Start n s) as [[e|] s']; [by left|right].
    exists s'. unfold client_error in Hc.
    destruct (o_purge_start o); [destruct (o_river_start o)|]; simpl in Hc; simplify_eq; done.
  - assert (db = false ∨ o_purge_start o = true ∧ o_river_start o = true) as [->|[Hp Hr]].
    { destruct db; [right|by left]. unfold client_error in Hc.
      by destruct (o_purge_start o), (o_river_start o). }
    + unfold serve. destruct (Start n s) as [[e|] s']; [by left|right]. exists s'.
      rewrite snd_bind, !(proj2 (with_defer_trace _ _)), snd_bind, await_trace. unfold serving.
      cbn [fst snd emit app]. by rewrite <-!app_assoc.
    + by apply serve_trace.
Qed.

(** How any run ends, with its trace. *)
Lemma run_outcome o (P : option error → list Step → Prop) :
  (∀ r, P r []) → (∀ r, P r [OpenPool; ClosePool]) →
  (∀ r s, P r (serving s false (o_fatal o))) →
  (client_error o = None → ∀ r s, P r (OpenPool :: serving s true (o_fatal o) ++ [ClosePool])) →
  (∀ err started s, client_error o = Some (err, started) →
     P (Some err) (OpenPool :: abandoned s started ++ [ClosePool])) →
  P (run n w decode o).1 (run n w decode o).2.
Proof.
  intros H0 H1 Hs Hd Ha. unfold run. destruct (o_flags o) as [path|]; [|apply H0].
  destruct (Load decode w path) as [err|cfg]; [apply H0|]. case_bool_decide.
  - destruct (o_pool o); [|apply H0]. cbn [negb]. rewrite fst_bind, snd_bind.
    rewrite (proj2 (with_defer_trace _ _)), (proj1 (with_defer_trace _ _)).
    destruct (o_purge_client o); [|apply H1]. cbn [negb]. unfold wire.
    destruct (o_attach o); [|apply H1]. destruct (o_ui o); [|apply H1]. cbn [negb andb].
    destruct (o_river_ui o); [|apply H1]. cbn [negb].
    destruct (serve_outcome o true (New cfg (mkMounts true true))) as [->|[s' Hserve]]; [apply H1|].
    destruct (client_error o) as [[err started]|]; rewrite Hserve; [by apply Ha|by apply Hd].
  - unfold wire. destruct (o_attach o); [|apply H0]. destruct (o_ui o); [|apply H0]. cbn [negb andb].
    destruct (serve_outcome o false (New cfg (mkMounts true true))) as [->|[s' ->]]; [apply H0|apply Hs].
Qed.

End cases.

(** A state in which nothing is broken: writers have a pool, and a process
    that has begun to drain is not ready. *)
Definition sound (p : Process) : Prop :=
  (existsb writes_db (workers p) = true → pool_open p = true) ∧
  (workers p = [] ∨ is_Some (server p)).

(** What the process holds when [run] returns. *)
Definition released (p : Process) : Prop :=
  pool_open p = false ∧ server p = None ∧ workers p = [] ∧ purging p = false.

(** Checks every state of an explicit trace. *)
Ltac settle :=
  unfold serving, wind_down;
  repeat match goal with |- context [match ?f with Some _ => _ | None => _ end] => destruct f end;
  cbn [states perform foldl app];
  repeat match goal with
  | |- Forall _ (_ :: _) => apply Forall_cons_2
  | |- Forall _ [] => apply Forall_nil_2
  | |- _ ∧ _ => split
  | |- sound _ => unfold sound
  | |- released _ => unfold released
  | |- _ → _ => intro
  | |- ∀ _, _ => intro
  end; cbn in *; first [done|naive_solver].

(** ** The claims *)

Section claims.
Context `{MR : MapRange} (n : Net) (w : World) (decode : string → Config.Config → option Config.Config).

(** C36: a run releases what it took, or a client did not start.  Whatever
    fails and whatever ends it, every run is of one of two kinds.  Either in
    every state it passes through a worker that writes to the database has an
    open pool and a worker runs only behind a started server, and when it
    returns listeners, workers, purge client and pool are all released; or the
    purge client or River's UI failed to start, the run returns that error,
    and although every state before its return was as above, it returns having
    closed the pool under the three workers, cancelled but not waited for, with
    the server still up, and with the purge client still running when it was
    River's UI that failed. *)
Theorem run_releases o :
  let t := (run n w decode o).2 in
  let p := foldl perform idle t in
  (Forall sound (states idle t) ∧ released p) ∨
  ((o_purge_start o = false ∧ (run n w decode o).1 = Some "start purge client" ∧ purging p = false ∨
    o_purge_start o = true ∧ o_river_start o = false ∧
      (run n w decode o).1 = Some "start river ui" ∧ purging p = true) ∧
   Forall sound (removelast (states idle t)) ∧
   pool_open p = false ∧ workers p = [RegistryRun; FlusherRun; SnapshotterRun] ∧
   cancelled p = true ∧ is_Some (server p)).
Proof.
  apply (run_outcome n w decode o (λ r t, let p := foldl perform idle t in
    (Forall sound (states idle t) ∧ released p) ∨
    ((o_purge_start o = false ∧ r = Some "start purge client" ∧ purging p = false ∨
      o_purge_start o = true ∧ o_river_start o = false ∧ r = Some "start river ui" ∧ purging p = true) ∧
     Forall sound (removelast (states idle t)) ∧
     pool_open p = false ∧ workers p = [RegistryRun; FlusherRun; SnapshotterRun] ∧
     cancelled p = true ∧ is_Some (server p)))); intros; cbv zeta; [left; settle..|].
  right. unfold client_error in *.
  destruct (o_purge_start o); [destruct (o_river_start o)|]; simpl in *; simplify_eq; unfold abandoned;
    (split; [naive_solver|]); cbn [states perform foldl app removelast]; (split; [settle|]);
    split_and!; cbn; eauto.
Qed.

(** C37: a signal drains before it flushes.  When the run ends by a signal, the
    workers are told to stop, and so do their final flush, only in states in
    which the handler refuses new agents and the server is no longer ready; and
    the listeners outlive them. *)
Theorem signal_drains_first o p :
  o_purge_start o = true → o_river_start o = true → o_fatal o = None →
  p ∈ states idle (run n w decode o).2 →
  (cancelled p = true → refusing p = true ∧ ∀ s, server p = Some s → ready s = false) ∧
  (refusing p = true → server p = None → workers p = []).
Proof.
  intros Hp Hr Hf. revert p. apply Forall_forall.
  apply (run_cases n w decode o (λ t, Forall (λ p,
    (cancelled p = true → refusing p = true ∧ ∀ s, server p = Some s → ready s = false) ∧
    (refusing p = true → server p = None → workers p = [])) (states idle t)));
    [exact Hp|exact Hr|..]; rewrite ?Hf; intros; settle.
Qed.

(** A purge client that does not start leaves the rest behind: the run
    closes the pool while the flusher and the snapshotter are still running on
    it and the listeners are up, and returns without waiting for either. *)
Theorem failed_start_abandons_workers o path cfg s :
  o_flags o = Some path → Load decode w path = inr cfg → db_Host (c_Database cfg) ≠ "" →
  o_pool o = true → o_purge_client o = true → o_attach o = true → o_ui o = true →
  o_river_ui o = true → Start n (New cfg (mkMounts true true)) = (None, s) →
  o_purge_start o = false →
  (run n w decode o).1 = Some "start purge client" ∧
  let p := foldl perform idle (run n w decode o).2 in
  pool_open p = false ∧ workers p = [RegistryRun; FlusherRun; SnapshotterRun] ∧
  server p = Some s.
Proof.
  intros Hfl Hl Hdb H1 H2 H3 H4 H5 Hs H6. unfold run, wire, serve.
  rewrite Hfl, Hl, bool_decide_eq_true_2, H1, H2, H3, H4, H5, Hs, H6 by done.
  split; [reflexivity|]. repeat split.
Qed.

End claims.

(** ** Witnesses *)

(** A configuration file that names a database. *)
Definition decode_db (raw : string) (c : Config.Config) : option Config.Config :=
  Some (mkConfig (c_Listeners c) (c_OpAMPTLS c) (c_UITLS c) (c_TelemetryTLS c) (c_Fleet c)
    (c_Metrics c) (c_UI c) (c_Debug c) (mkDatabase "db" 5432 "" "" "" "disable")
    (c_Auth c) (c_Log c)).

Definition outcome1 (purge_start : bool) (fatal : option error) : Outcome :=
  mkOutcome (Some "config.yaml") true true true true true purge_start true fatal.

Definition loaded_db : Config.Config :=
  match Load decode_db world1 "config.yaml" with inr c => c | inl _ => defaults end.

Definition run1 (purge_start : bool) (fatal : option error) : writer Step (option error) :=
  let MR := range_by_key in run net1 world1 decode_db (outcome1 purge_start fatal).

(** The state in which the workers of a signalled run have been told to stop. *)
Definition flushing : Process :=
  mkProcess true (BeginDraining <$> Some (Start (MR := range_by_key) net1
    (New loaded_db (mkMounts true true))).2) true [RegistryRun; FlusherRun; SnapshotterRun] true true.

Lemma signal_drains_first_witness :
  cancelled flushing = true ∧ refusing flushing = true ∧
  ∀ s, server flushing = Some s → ready s = false.
Proof.
  split; [reflexivity|].
  apply (signal_drains_first (MR := range_by_key) net1 world1 decode_db (outcome1 true None) flushing);
    [reflexivity|reflexivity|reflexivity| |reflexivity].
  assert (states idle (run1 true None).2 !! 11%nat = Some flushing) as H by (vm_compute; reflexivity).
  exact (list_elem_of_lookup_2 _ _ _ H).
Defined.

Lemma failed_start_abandons_workers_witness :
  let p := foldl perform idle (run1 false None).2 in
  pool_open p = false ∧ workers p = [RegistryRun; FlusherRun; SnapshotterRun].
Proof.
  destruct (failed_start_abandons_workers (MR := range_by_key) net1 world1 decode_db
    (outcome1 false None) "config.yaml" loaded_db
    (Start (MR := range_by_key) net1 (New loaded_db (mkMounts true true))).2)
    as (_ & Hp & Hw & _);
    [reflexivity|vm_compute; reflexivity|vm_compute; discriminate|reflexivity..
    |vm_compute; reflexivity|reflexivity|split; [exact Hp|exact Hw]].
Defined.
